(* ===== verification/_CoqProject ===== *)
-Q . S2P
Prelude.v
JsString.v
Comida.v
Json.v
Browser.v
Valor.v
Store.v
Mailbox.v
Render.v
Contrato.v
Seleccion.v
Eventos.v
Tabs.v
Entrega.v
Cotas.v
Dinamico.v
RedJs.v
Programa.v
Trazas.v
