(* ===== verification/Prelude.v ===== *)
(** * Almuerzo: a verification development for [src/scripts.js]

    ** The program

    [src/scripts.js] is a single-page browser utility: people add meals
    ("comidas") to a shared list and claim them by name.  The list lives in
    [localStorage] under the key [listaComidasCompartida] as one JSON array;
    every handler reads the whole array, changes its private copy and writes
    the whole array back.  A one-slot "notification" is kept in
    [sessionStorage] under [comidaSeleccionadaNotificacion]; every render
    drains it with [alert].  Other tabs re-render on the [storage] event.

    ** The files, in dependency order

    - [Prelude] (this file): imports, the scope [js_scope], the hint
      databases [js] (symbolic execution of handlers) and [wf]
      (well-formedness), the tactics, and lemmas on lists (among them
      [app_sep_inj]: a text is cut in one way at a separator its fields
      do not hold).
    - [JsString]: the string primitives the script calls.  A JavaScript
      string is the list of its UTF-16 code units ([list N]); literals of the
      source are written [lit "..."] and decoded from the UTF-8 bytes of the
      literal.  [trim] is [String.prototype.trim] over the ECMAScript white
      space set, [number_toString] the decimal text of a number, [truthy]
      the truthiness of a string.
    - [Comida]: the record [Comida] of the object literal of lines 86-90,
      the test [seleccionada] the script makes of [seleccionadoPor], the
      well-formedness [comidas_wf] of a stored list, and the class
      [JsonCodec]: what the store needs of [JSON.stringify] and
      [JSON.parse].  Every handler is defined and proved against this class.
    - [Json]: the concrete codec: JSON values ([json]), the printer
      [print] of [JSON.stringify], a parser of any JSON text, [decode],
      which reads a value as a list of meals exactly when it is the value
      the script writes for that list, and the instance [json_codec] of
      [JsonCodec].  Equality of values is decidable ([json_eqb]).
    - [Browser]: the state [Env] of one tab (the two storage areas, the four
      elements of the page the script touches, the dialogs shown, the clock,
      the registered listeners) and the monad [JS] of handlers: state passing
      with a completion that is [Normal] or [Abrupt] (an uncaught exception).
      The built-ins the script calls are one definition each.
    - [Valor]: JavaScript values read from the store, for the handlers
      of [Dinamico]: the object [JSON.parse] builds from the members of a
      text ([crear], [definir_propiedad]: a repeated key keeps its first
      place and its last value, array indices come first and ascending),
      property reads and the assignment of line 112 ([Get], [Set_]),
      [ToBoolean], [ToString] as a template literal applies it,
      [JSON.stringify] of any value, and the methods of [Array.prototype]
      the script calls ([metodo_de_array], [filtrar], [buscar]).  What
      ECMAScript makes of a number is the class [Numeros].
    - [Store]: Persistent List Store, [obtenerComidas] and [guardarComidas]
      (lines 11-22).
    - [Mailbox]: Notification Mailbox, [checkNotification] (lines 131-137)
      and the post of line 117.
    - [Render]: View / Render Projection, [actualizarContador] and
      [renderizarComidas] (lines 30-72), with the template literals of lines
      48-66 character by character.
    - [Contrato]: the contract of the specification: the operations [claim]
      and [add] with their errors, the step relation [paso] of the list, and
      the preorder [extiende] ("nothing is removed, renamed or unclaimed").
    - [Seleccion]: Selection State Machine, [agregarComida] and
      [seleccionarComida] (lines 80-126).  [seleccionarComida] blocks on
      [prompt]; it is the composition of [seleccionarComida_inicio] (up to the
      prompt) and [seleccionarComida_fin] (from its return), so that the
      state at the return of the prompt can differ from the state before it.
    - [Eventos]: the listeners [window.onload] registers (lines 143-165), the
      events of a tab ([Evento]) and the event loop ([ocurre], [ejecutar],
      [alcanzable]).
    - [Tabs]: Cross-Tab Synchronization.  The world [Mundo] is the shared
      [localStorage] and a list of tabs ([Pestana]), each with its own
      [sessionStorage], page, dialogs and listeners.  A step [paso_mundo] is
      one action of one tab on the shared store; a tab whose handler is
      suspended at [prompt] keeps the copy of the list it read
      ([esperando]) while the other tabs run.  A move ([Movimiento],
      [mover]) is such a step, a tab opened ([abrir]: the document as
      served, an empty [sessionStorage], no listener until it handles
      [Cargar]) or a tab closed ([cerrar]: the tab is taken out of the
      list, its suspended handler with it).  A schedule ([correr]) is a
      list of moves and is arbitrary: in particular it decides when a tab
      receives the [storage] event.
    - [Entrega]: the delivery of [storage] events by the browser.  The net
      [Red] is a world and, for each tab, the number of events queued for
      it.  A step [Paso] is a move of the world (an action of a tab,
      [hacer]: when it changes the shared store, one event is queued for
      every other tab; a tab opened, [abrir_red], with nothing queued; a
      tab closed, [cerrar_red], its queue dropped) or the delivery of a
      queued event ([entregar]: the listener of lines 161-164 runs, unless
      the tab is blocked in [prompt]).  [recorrer] runs a schedule of
      steps; [resultado] is the completion of the handler an action runs.
    - [Cotas]: bounds.  [cota_texto] bounds the length of the text
      [guardarComidas] stores; [cadena_utf16] says that the code units of a
      string fit in sixteen bits.
    - [Dinamico]: every function of the script a second time, on whatever
      [JSON.parse] returns ([obtenerComidas_js], [renderizarComidas_js],
      [agregarComida_js], [seleccionarComida_js], [onload_js], ... and the
      event loop [manejador], [ejecutar_js]), and the proof that it is
      the function over lists of meals wherever the store is one the typed
      view covers.
    - [RedJs]: the net of [Entrega] a second time, every tab running the
      handlers of [Dinamico] ([Red_js], [actuar_js], [hacer_js],
      [entregar_js], [recorrer_js]); a handler suspended at [prompt] keeps
      the array it loaded.  [ver_red] sees a net over lists of meals as a
      net over JSON values.
    - [Programa]: every function of the script a third time, as a program
      ([Prog]): a tree of calls to the platform ([Llamada]:
      [localStorage], [sessionStorage], the elements of the page, the
      dialogs, the clock, the listeners), each with the continuation that
      receives its result ([obtenerComidas_p], [renderizarComidas_p],
      [agregarComida_p], [seleccionarComida_p], [onload_p], ...;
      [programa] gives the program of an event).  A platform
      ([Plataforma]) answers the calls from a state; the browser of
      [Browser] is the instance [navegador].  [interpretar] runs a
      program on the browser, [trazar] on any platform, keeping what
      happened to each call ([Suceso]: it returned a result, or it
      threw), in order.
    - [Trazas]: the order of the calls.  [siempre p Q] is the weakest
      precondition of a program over all answers of the platform, with the
      triples [sigue] (along the protocol) and [deja] (the calls of a run
      that returns) and their rules; [transicion] is the protocol of the
      script, an automaton over the calls whose phases ([Fase]) are the
      points of a handler between two calls.

    ** How state and errors are modelled

    - [localStorage] and [sessionStorage] are finite maps from strings to
      strings ([gmap]); [getItem] of a missing key is [None] (JavaScript
      [null]).
    - The script is modelled twice.  In the typed view ([Store],
      [Render], [Seleccion], [Eventos], [Tabs], [Entrega]) the list of
      meals is a [list Comida]; [seleccionadoPor] is an [option]: [None]
      is [null].  Truthiness is kept as in JavaScript: the empty string is
      falsy, so [Some []] counts as "not selected".  A stored text that is
      JSON but not the text of a list of meals is outside this view: there
      [obtenerComidas] stops with [ExnShape], which is no exception of
      JavaScript.  In the untyped view ([Dinamico]) the loaded value is a
      [json] and each use of it is the operation of ECMAScript, so a
      handler does with a foreign value what the browser does: a method
      of [Array.prototype] on a value that is not an array and a property
      read on [null] throw [TypeError], a property that is missing reads
      as [undefined] ([None]), an interpolated value goes through
      ToString.  [historia_tipada] connects the two: from a tab at rest
      they are the same program.
    - A state says what has happened, not in which order.  The order is
      in the third view ([Programa]): a handler is the tree of the calls
      it makes, and says nothing of what the platform answers.  Run on the
      browser it is the handler of [Dinamico] ([manejador_programa]: a
      check of the transcription, not a property of the script); run on
      any platform it leaves a trace, the list of its calls with their
      results, up to its return or to the call that threw.  What is
      proved of traces is proved for every platform: a call may return
      anything of its type and may throw.
    - [comidas.findIndex] returning [-1] is [None].
    - An uncaught exception ([JSON.parse] on a corrupt value,
      [localStorage.setItem] on a full store) ends the handler: the monad
      returns [Abrupt] and keeps the state reached so far; the event loop
      goes on from that state.
    - The room of [localStorage] is the field [cuota] of the state, in code
      units of keys and values ([tamano]); [None] is a browser that never
      refuses.  [setItem] stores the value when the store with it fits
      ([cabe]) and throws [QuotaExceededError], storing nothing, when it
      does not.  The script catches nothing, so the handler ends there.
      Each tab carries the quota; in a browser it is the same for all.
    - [alert] and [prompt] are recorded in the log [ui] of the tab; the answer
      of [prompt] is an argument of the handler ([None] is Cancel).
    - [Date.now()] reads the field [now] of the state; the event [Reloj]
      sets it.
    - A page load ([Cargar]) starts from the page of the HTML document (the
      section variable [html] of [Eventos]) with no listener, and runs
      [onload]; the storage areas survive it.
    - A click event carries the tag name and the [data-id] of its target and
      the answer the user would give to the prompt.  Clicks on a disabled
      button are not excluded: the handler is shown to reject them.

    ** What the theorems show

    - [JsString]: [trim] removes exactly the blanks at both ends, is
      idempotent, and is empty exactly on blanks; decimal printing is
      injective and yields digits.
    - [Json]: parse after print is the identity on every value without
      numbers, nested to any depth ([parse_value_print],
      [print_roundtrip]), hence on every list of meals, with blanks around
      the text; quoting round-trips every string; the stored text
      determines the list; the parser never runs out of fuel; texts that
      are rejected.
    - [Valor]: a property that has been set reads back, the others read
      as before, and the keys of an object stay as ECMAScript enumerates
      them ([propiedad_asignada]); [JSON.parse] builds well-formed values
      and builds a well-formed value from its own text as it is
      ([crear_bien_formado], [crear_id], [JSON_parse_stringify_valor]).
    - [Cotas]: the stored text has at most [cota_texto l] code units (two
      brackets, 45 code units of punctuation and property names for each
      meal, six for each code unit of its strings), so a quota that leaves
      that much room is never hit; an add on a clock below
      10^16 ms makes an identifier of at most sixteen digits and raises the
      bound by at most 141 plus six times the length typed, a claim by six
      times the length of the name; everything the script prints
      ([stringify], the template, decimal numbers, literals) and everything
      it reads back from a text of 16-bit code units ([parse], through the
      lexers and the three mutually recursive parsers) is made of 16-bit
      code units.
    - [Store]: load after save returns the saved list when there is room
      for it, and a save without room throws and stores nothing; load
      tolerates an absent or empty value; a corrupt value is an exception
      that changes nothing; a save overwrites the whole slot.
    - [Mailbox]: single slot, last post wins, the drain shows the message
      once and is idempotent.
    - [Render]: the counters are the length of the list and the number of
      unclaimed meals; the items are a function of the stored list alone,
      and an injective one on well-formed lists in which some delimiter
      of the template ([<], [/], [>] or the line break) occurs in no name
      and no claimer ([pagina_determina_lista]), while markup in a name
      makes two meals one [div] ([pagina_ambigua]); rendering twice is
      rendering once; a corrupt store stops the render before anything is
      painted.
    - [Seleccion]: [seleccionarComida] refines [claim] and [agregarComida]
      refines [add], on every branch, errors included, when the store has
      room for the new list; without room the handler throws at [setItem]
      and leaves everything as it was, without a message; a claim is never
      overwritten by a later claim in the same tab; and what the code does
      that the contract does not promise: not-found reported as claimed,
      cancel reported as empty, the stale write after the prompt, ids that
      collide within a millisecond (and are fresh when the clock has
      advanced), names that reach [innerHTML] unescaped.
    - [Eventos]: invariants of every history of one tab, whatever the
      quota: the list only moves by steps of the contract and stays well
      formed, the mailbox is empty between events, the page shows the
      stored list; a load with a corrupt store leaves the page without
      listeners; a handler that stops at a full store leaves list, page and
      mailbox as they were and shows no alert ([sin_sitio_sin_aviso]); the
      scenario of the specification and the scenario of a full store,
      computed on the concrete codec.

    - [Tabs]: what survives interleaving and what does not.  When no prompt
      stays open while another tab runs, the shared list keeps its
      lifecycle under every schedule, tabs opened and closed included; a
      tab that receives the [storage] event shows the shared list, and
      never the announcement of another tab's claim; an answer to a prompt
      writes the copy read before the prompt, so that meals added
      meanwhile are lost ([escritura_atrasada]); and whenever two idle
      tabs open the prompt on the same free meal both answers are
      accepted, the second replaces the first and each tab is told its
      claim succeeded ([doble_reclamo], for all worlds, tabs, lists and
      names; [luis_y_ana] and [actualizacion_perdida] are computed
      schedules).
    - [Entrega]: what holds under every schedule of actions, deliveries,
      tabs opened and tabs closed, prompts left open included.  The
      invariant [red_ok]: the shared store holds a well-formed list, every
      tab has an empty mailbox
      and, if it waits at a prompt, an index in range of the copy it keeps,
      and every listening tab shows the shared list or has an event queued.
      From it: no handler of any tab ever throws anything but the
      [QuotaExceededError] of a full store ([red_segura]); a listening
      tab with nothing queued is up to date ([al_dia_o_avisada]); and once
      the prompts are answered, any schedule of deliveries that empties the
      queues (the drain [drenaje] is one) leaves every listening tab showing
      the shared list, without touching it ([convergencia]).  Liveness is
      stated over finite schedules: "eventually" is "after any schedule that
      contains the pending deliveries".  The net refines the world of
      [Tabs] ([recorrer_correr]).

    - [Dinamico]: on a store within the typed view every handler of the
      untyped view equals the typed one ([manejador_tipado]), so over any
      history of a tab at rest the two event loops agree
      ([historia_tipada]) and no handler throws [TypeError] or
      [SyntaxError] ([sin_errores_de_tipo]).  On any other store: a value
      that is not an array empties the list of the page, stops
      [window.onload] before the listeners are registered
      ([carga_ajena]), and is never written again by any handler
      ([almacen_ajeno_permanece], for any number of tabs in [RedJs]); a
      [null] among the elements stops the render where it stands
      ([render_se_detiene_en_null]) and elements
      of any other kind are drawn ([render_pinta_todo]); an add and a
      claim write back every element and every property they read
      ([agregar_conserva], [reclamo_conserva]); load after save is the
      identity on well-formed values without numbers
      ([cargar_tras_guardar]).
    - [RedJs]: a simulation.  From a net in order ([red_ok]) every step
      of the net over JSON values is the step of the net over lists of
      meals, seen through [ver_red] ([dar_js_ver]), so the two nets agree
      under every schedule and every handler completes the same way in
      both ([red_tipada]).  The theorems of [Entrega] are thereby theorems
      about the script run on what [JSON.parse] returns: no tab throws
      [TypeError] or [SyntaxError] under any interleaving
      ([red_js_segura]), and the pages converge ([convergencia_js]).
      Over a store that is not a list, with no prompt open, no tab ever
      writes the store, opens a prompt or shows a dialog, under any
      schedule ([red_ajena_permanece]); a prompt that was open already
      does write it when it is answered ([prompt_abierto_repara]).

    - [Programa]: run on the browser, each program is the handler of
      [Dinamico] ([interpretar_renderizarComidas], ...,
      [manejador_programa]), and the run that keeps the calls is that run
      ([trazar_interpretar]).  These lemmas tie the third transcription
      to the second; no property of the script is claimed from them.
    - [Trazas]: what the specification calls the control flow and its
      ordering guarantees.  On every platform the calls of every listener
      are a path of the protocol, with the keys and the texts of the
      script, and a listener that returns does so in a final phase
      ([trazas_en_protocolo], from the triples [sigue_programa] proved
      along the programs).  Facts about order are facts about paths,
      proved once for the automaton ([nunca_desde], [antes_hay],
      [hasta_entonces]): the store is written at most once, after it was
      read and before the page is touched, and it is read again before the
      page is touched ([escribe_una_vez_y_antes_de_pintar]); [prompt]
      comes after the read and the write is the call right after it
      ([escribe_lo_leido_antes_de_preguntar]: the window of the lost
      update of [Tabs]); after an [alert] nothing is written, painted or
      announced ([tras_avisar_no_cambia]); a run that ends at the post
      of the notice has thrown there, with the store written and the page
      untouched ([aviso_fallido]).  A listener that returns is a function
      of what the platform returned ([traza_de_cada_oyente], from the
      triples [deja_programa]): its calls, their arguments and their
      order are those of [ocurrido], where what is written is computed
      from what was read ([valor_leido], [hallada], [reclamada]) and the
      counters of a render are the counts of the items it appended
      ([pintura]).  [traza_de_un_reclamo] is the trace
      of a claim on the browser; [reclamo_con_sesion_llena] runs the same
      claim on a browser whose [sessionStorage] is full: the claim is
      stored, the page is not redrawn.

    Each property that has hypotheses comes with a witness: the theorem
    applied to a concrete state, evaluated by the kernel.

    ** Bounds and fuel

    The JSON parser recurses on fuel, one unit per nested value, element or
    member; [parse_fuel] gives it twice the length of the text plus two.
    [parse_fuel_enough] shows that this is enough for every text, valid or
    not: each call consumes at least one code unit, so the parser never
    stops for lack of fuel and a [SyntaxError] of the model is always an
    error in the text.  [talla] counts the values, elements and members of
    a value: it is the fuel [parse_value_print] needs, and at most twice
    the length of the printed text ([talla_print]).  Numbers are natural
    numbers [N]: [Date.now()] and [length] stay far below 2^53, where
    JavaScript numbers are exact and print in plain decimal; the largest
    time value of JavaScript is 8.64e15, so the hypothesis [now e < 10^16]
    of [agregar_cota] covers every clock.  Code units are [N] too: the
    functional theorems hold for every value, and [Cotas] shows that the
    values the script computes from 16-bit input stay below 2^16.  The
    queues of [Entrega] are natural numbers: a [storage] event carries
    nothing the listener reads, so only their number matters.  Programs
    are finite trees: [trazar], [interpretar] and [siempre] recurse on
    the program and need no fuel; the loop of [forEach] is unfolded over
    the array it is called on.

    ** Not modelled

    Tabs opened by the page itself or duplicated from another tab, which
    start with a copy of its [sessionStorage]: a tab is opened with an
    empty one.  HTML parsing of [innerHTML] by the browser and CSS: the
    page is kept as the text the script assigns, so which buttons the
    user can click, and that a disabled button sends no click, is not
    derived from the page; clicks are arbitrary and the handler is shown to
    reject the ones on claimed meals.  In the browser of [Browser] the
    page has the four elements the script looks up and [sessionStorage]
    has room for the one short message kept in it; a page without an
    element ([getElementById] returning [null]) and a storage area that
    is full or refuses access are platforms of [Programa] whose calls
    throw: the theorems of [Trazas] cover them, the theorems about states
    do not.  The conversion between decimal texts and doubles: a number
    read from the store is kept as its lexeme and the theorems of
    [Dinamico] hold for every interpretation [Numeros] of lexemes; the
    round trip of values is proved for values without numbers (the script
    writes none).  Strict mode: the script is taken to be a classic
    script, where the assignment of line 112 on a primitive is dropped;
    the handlers reach that assignment on objects only.  A net whose
    store is an array with elements that are not meals: what the handlers
    do with such a store is stated for one tab ([Dinamico]), the nets of
    [Entrega] and [RedJs] start from a list of meals or from a store that
    is not an array.  Traces are traces of one handler of one tab: the
    interleaving of tabs is in the states of [Tabs] and [Entrega].  The
    same-origin policy: there is one origin. *)

From stdpp Require Export base option list gmap numbers strings.

(** Scope of the notations of the development. *)
Declare Scope js_scope.
Delimit Scope js_scope with js.

(** Rewriting database for symbolic execution of handlers, and resolution
    database for well-formedness facts. *)
Create HintDb js discriminated.
Create Rewrite HintDb js.
Create HintDb wf discriminated.

(** ** Tactics *)

(** [invert H] inverts [H] and cleans up. *)
Ltac invert H := inversion H; subst; clear H.

(** [case_bool b] splits on a boolean expression and keeps the equation. *)
Ltac case_bool b := let E := fresh "E" in destruct b eqn:E.

(** [destruct_match] splits on the scrutinee of the first [match] or [if] of
    the goal. *)
Ltac destruct_match :=
  match goal with
  | |- context [match ?x with _ => _ end] => destruct x eqn:?
  end.

(** [nbool] turns boolean comparisons on [N] among the hypotheses into
    propositions [lia] reads. *)
Ltac nbool :=
  repeat match goal with
  | H : (_ <=? _)%N = true |- _ => apply N.leb_le in H
  | H : (_ <=? _)%N = false |- _ => apply N.leb_gt in H
  | H : (_ <? _)%N = true |- _ => apply N.ltb_lt in H
  | H : (_ <? _)%N = false |- _ => apply N.ltb_ge in H
  | H : (_ =? _)%N = true |- _ => apply N.eqb_eq in H
  | H : (_ =? _)%N = false |- _ => apply N.eqb_neq in H
  | H : _ && _ = true |- _ => apply andb_true_iff in H as [? ?]
  | H : _ && _ = false |- _ => apply andb_false_iff in H as [?|?]
  | H : _ || _ = true |- _ => apply orb_true_iff in H as [?|?]
  | H : _ || _ = false |- _ => apply orb_false_iff in H as [? ?]
  end.

(** [nbool_cases] splits on every boolean comparison of the goal, then
    [nbool]. *)
Ltac nbool_cases :=
  repeat match goal with
  | |- context [(?a <=? ?b)%N] => destruct (a <=? b)%N eqn:?
  | |- context [(?a <? ?b)%N] => destruct (a <? b)%N eqn:?
  | |- context [(?a =? ?b)%N] => destruct (a =? b)%N eqn:?
  end; nbool.

(** ** Generic lemmas *)

Section lists.
Context {A : Type}.
Implicit Types (l k : list A) (x y : A) (i : nat).

(** A list that is not [[]] has a last element. *)
Lemma last_is_Some l : l ≠ [] → is_Some (last l).
Proof.
  destruct l as [|x l] using rev_ind; [done|].
  intros _. rewrite last_snoc. eauto.
Qed.

(** Updating position [i] of a list keeps every other position. *)
Lemma list_alter_insert_lookup l i x y :
  l !! i = Some y → <[i:=x]> l !! i = Some x.
Proof. intros Hi. apply list_lookup_insert_eq. by eapply lookup_lt_Some. Qed.

(** The number of elements that pass a boolean test and the number of those
    that fail it add up to the length. *)
Lemma filter_length_partition (p : A → bool) l :
  length (filter (λ x, p x = true) l) + length (filter (λ x, p x = false) l)
  = length l.
Proof.
  induction l as [|x l IH]; [done|].
  destruct (p x) eqn:E.
  - rewrite filter_cons_True, filter_cons_False by congruence. simpl. lia.
  - rewrite filter_cons_False, filter_cons_True by congruence. simpl. lia.
Qed.

(** [list_find] returns an index inside the list. *)
Lemma list_find_lt (P : A → Prop) `{!∀ x, Decision (P x)} l i x :
  list_find P l = Some (i, x) → i < length l.
Proof. intros [Hi _]%list_find_Some. by eapply lookup_lt_Some. Qed.

(** Two texts cut at the first occurrence of [x] agree on both sides when
    they agree as a whole. *)
Lemma app_cons_sep_inj x l1 l2 k1 k2 :
  x ∉ l1 → x ∉ l2 → l1 ++ x :: k1 = l2 ++ x :: k2 → l1 = l2 ∧ k1 = k2.
Proof.
  revert l2. induction l1 as [|y l1 IH]; intros [|z l2] H1 H2 Heq; simplify_eq/=.
  - done.
  - by apply not_elem_of_cons in H2 as [? _].
  - by apply not_elem_of_cons in H1 as [? _].
  - apply not_elem_of_cons in H1 as [_ H1]. apply not_elem_of_cons in H2 as [_ H2].
    by destruct (IH l2 H1 H2) as [-> ->].
Qed.

(** A separator that holds a character neither field holds marks the end
    of the field. *)
Lemma app_sep_inj `{!EqDecision A} x sep l1 l2 k1 k2 :
  x ∈ sep → x ∉ l1 → x ∉ l2 → l1 ++ sep ++ k1 = l2 ++ sep ++ k2 → l1 = l2 ∧ k1 = k2.
Proof.
  intros (pre & post & -> & Hpre)%list_elem_of_split_l H1 H2 Heq.
  rewrite <-!(app_assoc pre), !(app_assoc _ pre) in Heq. cbn [app] in Heq.
  apply app_cons_sep_inj in Heq as [Hl Hk]; [|by apply not_elem_of_app..].
  by apply app_inv_tail in Hl as ->; apply app_inv_head in Hk as ->.
Qed.

End lists.

#[export] Hint Resolve list_find_lt : js.
