(* ===== verification/JsString.v ===== *)
(** * JavaScript strings as the script uses them

    A string is the list of its UTF-16 code units.  This file holds the
    string primitives [src/scripts.js] calls: literals, truthiness, template
    concatenation, [String.prototype.trim] and [Number.prototype.toString]
    on a non-negative integer, with the lemmas the components share. *)

From stdpp Require Import pretty.
From S2P Require Import Prelude.

(** A code unit is a number below 2^16; a string is a list of code units. *)
Abbreviation code_unit := N (only parsing).
Abbreviation jsstring := (list N) (only parsing).

Section literals.

(** Code units of one scalar value: itself in the Basic Multilingual Plane, a
    surrogate pair above it. *)
Definition utf16_encode (cp : N) : jsstring :=
  if (cp <? 65536)%N then [cp]
  else [(55296 + (cp - 65536) / 1024)%N; (56320 + (cp - 65536) mod 1024)%N].

(** Decoding of the UTF-8 bytes of a source literal into code units.  A byte
    that does not start a well-formed sequence is kept as it is. *)
Fixpoint utf8_decode (bs : list N) : jsstring :=
  match bs with
  | [] => []
  | b0 :: bs1 =>
    if (b0 <? 192)%N then b0 :: utf8_decode bs1
    else match bs1 with
    | [] => [b0]
    | b1 :: bs2 =>
      if (b0 <? 224)%N then
        utf16_encode ((b0 mod 32) * 64 + b1 mod 64) ++ utf8_decode bs2
      else match bs2 with
      | [] => [b0; b1]
      | b2 :: bs3 =>
        if (b0 <? 240)%N then
          utf16_encode ((b0 mod 16) * 4096 + (b1 mod 64) * 64 + b2 mod 64)
            ++ utf8_decode bs3
        else match bs3 with
        | [] => [b0; b1; b2]
        | b3 :: bs4 =>
          utf16_encode ((b0 mod 8) * 262144 + (b1 mod 64) * 4096
                        + (b2 mod 64) * 64 + b3 mod 64)
            ++ utf8_decode bs4
        end
      end
    end
  end.

(** The bytes of a literal. *)
Definition bytes_of (s : string) : list N :=
  Ascii.N_of_ascii <$> String.list_ascii_of_string s.

(** [lit "..."] is the JavaScript string a source literal denotes. *)
Definition lit (s : string) : jsstring := utf8_decode (bytes_of s).

End literals.

Section primitives.

(** ToBoolean on a string: only the empty string is falsy. *)
Definition truthy (s : jsstring) : bool :=
  match s with [] => false | _ :: _ => true end.

(** ToBoolean on a value that is a string or [null]. *)
Definition truthy_opt (o : option jsstring) : bool :=
  match o with None => false | Some s => truthy s end.

(** WhiteSpace and LineTerminator code points of ECMAScript, the ones
    [trim] removes. *)
Definition is_white_space (c : code_unit) : bool :=
  bool_decide (c ∈ [9; 10; 11; 12; 13; 32; 160; 5760; 8232; 8233; 8239; 8287;
                    12288; 65279]%N)
  || ((8192 <=? c)%N && (c <=? 8202)%N).

(** [String.prototype.trimStart]. *)
Fixpoint trimStart (s : jsstring) : jsstring :=
  match s with
  | [] => []
  | c :: s' => if is_white_space c then trimStart s' else s
  end.

(** [String.prototype.trimEnd]. *)
Definition trimEnd (s : jsstring) : jsstring :=
  reverse (trimStart (reverse s)).

(** [String.prototype.trim]. *)
Definition trim (s : jsstring) : jsstring := trimEnd (trimStart s).

(** A string [trim] leaves alone. *)
Definition trimmed (s : jsstring) : Prop := trim s = s.

(** [Number.prototype.toString] on a non-negative integer: plain decimal. *)
Definition number_toString (n : N) : jsstring := bytes_of (pretty n).

(** A decimal digit. *)
Definition is_digit (c : code_unit) : bool := (48 <=? c)%N && (c <=? 57)%N.

End primitives.

#[global] Instance trimmed_dec s : Decision (trimmed s).
Proof. unfold trimmed. apply _. Defined.

(** ** Literals *)

Lemma bytes_of_inj : Inj (=) (=) bytes_of.
Proof.
  intros s1. unfold bytes_of.
  induction s1 as [|a1 s1 IH]; intros [|a2 s2] Heq; simplify_eq/=; [done|].
  f_equal; [|by apply IH].
  rewrite <-(Ascii.ascii_N_embedding a1), <-(Ascii.ascii_N_embedding a2).
  by f_equal.
Qed.

(** ** Truthiness *)

Lemma truthy_true s : truthy s = true ↔ s ≠ [].
Proof. by destruct s. Qed.

Lemma truthy_false s : truthy s = false ↔ s = [].
Proof. by destruct s. Qed.

Lemma truthy_opt_true o : truthy_opt o = true ↔ ∃ s, o = Some s ∧ s ≠ [].
Proof.
  destruct o as [s|]; simpl; [rewrite truthy_true|]; split; try done.
  - eauto.
  - by intros (? & [= <-] & ?).
  - by intros (? & ? & _).
Qed.

Lemma truthy_opt_false o : truthy_opt o = false ↔ o = None ∨ o = Some [].
Proof.
  destruct o as [s|]; simpl; [rewrite truthy_false|]; split; try done.
  - intros ->. by right.
  - by intros [|[= ->]].
  - by left.
Qed.

(** ** trim *)

Lemma trimStart_nil_iff s : trimStart s = [] ↔ Forall (λ c, is_white_space c = true) s.
Proof.
  induction s as [|c s IH]; simpl; [by split; [constructor|]|].
  destruct (is_white_space c) eqn:E.
  - rewrite IH, Forall_cons. tauto.
  - rewrite Forall_cons. split; [done|]. intros [? _]. congruence.
Qed.

(** What [trimStart] returns is empty or starts with a character that is not
    blank. *)
Lemma trimStart_head s c s' :
  trimStart s = c :: s' → is_white_space c = false.
Proof.
  induction s as [|d s IH]; simpl; [done|].
  destruct (is_white_space d) eqn:E; [done|]. by intros [= -> _].
Qed.

Lemma trimStart_not_blank c s : is_white_space c = false → trimStart (c :: s) = c :: s.
Proof. simpl. by intros ->. Qed.

Lemma trimStart_idemp s : trimStart (trimStart s) = trimStart s.
Proof.
  destruct (trimStart s) as [|c s'] eqn:E; [done|].
  apply trimStart_not_blank. by eapply trimStart_head.
Qed.

(** [trimStart] removes a blank prefix and nothing else: the result is a
    suffix of the argument. *)
Lemma trimStart_suffix s : ∃ p, s = p ++ trimStart s ∧ Forall (λ c, is_white_space c = true) p.
Proof.
  induction s as [|c s (p & Hp & Hblank)]; [by exists []|]. simpl.
  destruct (is_white_space c) eqn:E.
  - exists (c :: p). split; [by rewrite Hp at 1|by constructor].
  - by exists [].
Qed.

(** Dropping a blank prefix does not disturb a string that ends with a
    non-blank character. *)
Lemma trimStart_snoc_not_blank s c :
  is_white_space c = false → ∃ s', trimStart (s ++ [c]) = s' ++ [c].
Proof.
  intros Hc. induction s as [|d s [s' IH]]; simpl.
  - rewrite Hc. by exists [].
  - destruct (is_white_space d); [by exists s'|by exists (d :: s)].
Qed.

Lemma trimEnd_nil_iff s : trimEnd s = [] ↔ Forall (λ c, is_white_space c = true) s.
Proof.
  unfold trimEnd. rewrite <-(Forall_reverse _ s), <-trimStart_nil_iff.
  split; [|by intros ->].
  intros Hr. apply (f_equal reverse) in Hr. by rewrite reverse_involutive in Hr.
Qed.

Lemma trimEnd_snoc_not_blank s c : is_white_space c = false → trimEnd (s ++ [c]) = s ++ [c].
Proof.
  intros Hc. unfold trimEnd. rewrite reverse_snoc, trimStart_not_blank by done.
  by rewrite <-reverse_snoc, reverse_involutive.
Qed.

Lemma trimEnd_idemp s : trimEnd (trimEnd s) = trimEnd s.
Proof. unfold trimEnd. by rewrite reverse_involutive, trimStart_idemp. Qed.

(** [trimEnd] keeps the first character of what it returns: it only removes
    from the end. *)
Lemma trimEnd_prefix s : ∃ q, s = trimEnd s ++ q ∧ Forall (λ c, is_white_space c = true) q.
Proof.
  unfold trimEnd. destruct (trimStart_suffix (reverse s)) as (p & Hp & Hblank).
  exists (reverse p). split; [|by apply Forall_reverse].
  rewrite <-reverse_app, <-Hp. by rewrite reverse_involutive.
Qed.

Lemma trimEnd_head c s : is_white_space c = false → ∃ s', trimEnd (c :: s) = c :: s'.
Proof.
  intros Hc. destruct (trimEnd_prefix (c :: s)) as (q & Hq & Hblank).
  destruct (trimEnd (c :: s)) as [|d s'] eqn:E.
  - simpl in Hq. subst q. apply Forall_cons in Hblank as [? _]. congruence.
  - simplify_eq/=. by exists s'.
Qed.

(** What [trim] returns is empty or starts with a non-blank character. *)
Lemma trim_head s c s' : trim s = c :: s' → is_white_space c = false.
Proof.
  unfold trim. intros Ht.
  destruct (trimStart s) as [|d t] eqn:E; [done|].
  pose proof (trimStart_head _ _ _ E) as Hd.
  destruct (trimEnd_head d t Hd) as [t' Ht']. congruence.
Qed.

Lemma trim_trimStart s : trimStart (trim s) = trim s.
Proof.
  destruct (trim s) as [|c s'] eqn:E; [done|].
  apply trimStart_not_blank. by eapply trim_head.
Qed.

Lemma trim_idemp s : trim (trim s) = trim s.
Proof.
  unfold trim at 1. rewrite trim_trimStart. apply trimEnd_idemp.
Qed.

Lemma trim_trimmed s : trimmed (trim s).
Proof. apply trim_idemp. Qed.

Lemma trim_nil_iff s : trim s = [] ↔ Forall (λ c, is_white_space c = true) s.
Proof.
  unfold trim. rewrite trimEnd_nil_iff, <-trimStart_nil_iff, trimStart_idemp.
  apply trimStart_nil_iff.
Qed.

Lemma trim_nil : trim [] = [].
Proof. done. Qed.

(** What [trim] returns is empty or ends with a non-blank character. *)
Lemma trim_last s c : last (trim s) = Some c → is_white_space c = false.
Proof.
  unfold trim, trimEnd. rewrite last_reverse. intros Hh.
  destruct (trimStart (reverse (trimStart s))) as [|d t] eqn:E; simplify_eq/=.
  by eapply trimStart_head.
Qed.

(** A string whose first and last characters are not blank is trimmed. *)
Lemma trimmed_intro c s d :
  is_white_space c = false → is_white_space d = false → trimmed (c :: s ++ [d]).
Proof.
  intros Hc Hd. unfold trimmed, trim.
  rewrite trimStart_not_blank by done.
  by rewrite app_comm_cons, trimEnd_snoc_not_blank.
Qed.

Lemma trimmed_singleton c : is_white_space c = false → trimmed [c].
Proof.
  intros Hc. unfold trimmed, trim. rewrite trimStart_not_blank by done.
  by apply (trimEnd_snoc_not_blank []).
Qed.

(** A string without blanks is trimmed. *)
Lemma trimmed_no_blank s : Forall (λ c, is_white_space c = false) s → trimmed s.
Proof.
  destruct s as [|d s _] using rev_ind; [done|].
  intros [Hs [Hd _]%Forall_cons]%Forall_app.
  destruct s as [|c s]; [by apply trimmed_singleton|].
  apply Forall_cons in Hs as [Hc _]. by apply trimmed_intro.
Qed.

(** ** Decimal printing *)

Lemma pretty_N_char_digit d : is_digit (Ascii.N_of_ascii (pretty_N_char d)) = true.
Proof. unfold pretty_N_char. by repeat case_match. Qed.

Lemma pretty_N_go_digits x s :
  Forall (λ c, is_digit c = true) (bytes_of s) →
  Forall (λ c, is_digit c = true) (bytes_of (pretty_N_go x s)).
Proof.
  revert s. induction (N.lt_wf_0 x) as [x _ IH]; intros s Hs.
  destruct (decide (x = 0%N)) as [->|Hx]; [by rewrite pretty_N_go_0|].
  rewrite pretty_N_go_step by lia.
  apply IH; [apply N.div_lt; lia|].
  constructor; [apply pretty_N_char_digit|done].
Qed.

Lemma pretty_N_go_nonempty x s : s ≠ "" → pretty_N_go x s ≠ "".
Proof.
  revert s. induction (N.lt_wf_0 x) as [x _ IH]; intros s Hs.
  destruct (decide (x = 0%N)) as [->|Hx]; [by rewrite pretty_N_go_0|].
  rewrite pretty_N_go_step by lia. apply IH; [apply N.div_lt; lia|done].
Qed.

Lemma number_toString_digits n : Forall (λ c, is_digit c = true) (number_toString n).
Proof.
  unfold number_toString, pretty, pretty_N. case_decide; [by repeat constructor|].
  by apply pretty_N_go_digits.
Qed.

Lemma number_toString_inj : Inj (=) (=) number_toString.
Proof. intros n m Heq. by apply (inj pretty), bytes_of_inj. Qed.

Lemma number_toString_truthy n : truthy (number_toString n) = true.
Proof.
  unfold number_toString. destruct (pretty n) eqn:E; [|done].
  exfalso. revert E. unfold pretty, pretty_N. case_decide; [done|].
  rewrite pretty_N_go_step by lia. by apply pretty_N_go_nonempty.
Qed.

Lemma digit_not_blank c : is_digit c = true → is_white_space c = false.
Proof.
  unfold is_digit, is_white_space. intros [H1 H2]%andb_true_iff.
  apply N.leb_le in H1, H2. apply orb_false_iff. split.
  - apply bool_decide_eq_false. rewrite !elem_of_cons, elem_of_nil. lia.
  - apply andb_false_iff. left. apply N.leb_gt. lia.
Qed.

Lemma number_toString_trimmed n : trimmed (number_toString n).
Proof.
  apply trimmed_no_blank. eapply Forall_impl; [apply number_toString_digits|].
  apply digit_not_blank.
Qed.

#[export] Hint Resolve trim_trimmed number_toString_trimmed number_toString_digits : wf.
#[export] Hint Rewrite trim_idemp trim_nil number_toString_truthy : js.

(** ** Properties *)

Section properties.
Implicit Types (s : jsstring) (c : code_unit).

(** [trim] removes exactly the blanks at both ends: every string is
    blanks, then its trimmed form, then blanks, and the trimmed form neither
    starts nor ends with a blank. *)
Theorem trim_spec s :
  ∃ p q, s = p ++ trim s ++ q
    ∧ Forall (λ c, is_white_space c = true) p
    ∧ Forall (λ c, is_white_space c = true) q
    ∧ ∀ c, head (trim s) = Some c ∨ last (trim s) = Some c → is_white_space c = false.
Proof.
  destruct (trimStart_suffix s) as (p & Hp & Hpb).
  destruct (trimEnd_prefix (trimStart s)) as (q & Hq & Hqb).
  exists p, q. split_and!; [by rewrite Hp at 1; rewrite Hq at 1|done..|].
  intros c [Hc|Hc]; [|by eapply trim_last].
  destruct (trim s) as [|d t] eqn:E; simplify_eq/=. by eapply trim_head.
Qed.

(** Blanks of every kind around a name with a blank inside. *)
Example trim_ejemplo :
  trim ([32; 9; 160; 12288]%N ++ lit "al pastor" ++ [10; 13; 8232; 65279]%N)
  = lit "al pastor".
Proof. reflexivity. Qed.

End properties.
