(* ===== verification/Comida.v ===== *)
(** * The data model: meals and the stored list

    The object literal of [agregarComida] (src/scripts.js, lines 86-90) as a
    record, the test [comida.seleccionadoPor] the script uses as a boolean,
    the well-formedness invariant of a stored list, and the interface of the
    JSON codec the store relies on. *)

From S2P Require Import Prelude JsString.

(** A meal: [{ id, nombre, seleccionadoPor }].  [seleccionadoPor] is a string
    or [null]. *)
Record Comida := mkComida {
  id : jsstring;
  nombre : jsstring;
  seleccionadoPor : option jsstring;
}.

#[global] Instance Comida_eq_dec : EqDecision Comida.
Proof. solve_decision. Defined.

#[global] Instance Comida_inhabited : Inhabited Comida := populate (mkComida [] [] None).

(** The list of meals, in insertion order. *)
Abbreviation Comidas := (list Comida) (only parsing).

Section comida.
Implicit Types (c : Comida) (l : list Comida).

(** The boolean the script reads off [comida.seleccionadoPor]: [null] and the
    empty string are falsy. *)
Definition seleccionada c : bool := truthy_opt (seleccionadoPor c).

(** The meal with its [seleccionadoPor] assigned, as by
    [comidas[comidaIndex].seleccionadoPor = nombreLimpio] (line 112). *)
Definition set_seleccionadoPor (quien : jsstring) c : Comida :=
  mkComida (id c) (nombre c) (Some quien).

(** A name the script accepts: not empty and already trimmed. *)
Definition nombre_valido (s : jsstring) : Prop := s ≠ [] ∧ trimmed s.

(** A well-formed meal: what [agregarComida] creates and [seleccionarComida]
    updates.  The id is a decimal numeral, the name is valid, and the claimer
    is absent or a valid name. *)
Definition comida_wf c : Prop :=
  id c ≠ [] ∧ Forall (λ d, is_digit d = true) (id c)
  ∧ nombre_valido (nombre c)
  ∧ match seleccionadoPor c with None => True | Some q => nombre_valido q end.

Definition comidas_wf l : Prop := Forall comida_wf l.

(** The ids of a list, in order. *)
Definition ids l : list jsstring := id <$> l.

(** The unclaimed meals of a list. *)
Definition restantes l : list Comida := filter (λ c, seleccionada c = false) l.

End comida.

#[global] Instance nombre_valido_dec s : Decision (nombre_valido s).
Proof. unfold nombre_valido. apply _. Defined.

#[global] Instance comida_wf_dec c : Decision (comida_wf c).
Proof. unfold comida_wf. destruct (seleccionadoPor c); apply _. Defined.

#[global] Instance comidas_wf_dec l : Decision (comidas_wf l).
Proof. unfold comidas_wf. apply _. Defined.

(** ** The JSON codec, as the store sees it *)

(** The result of [JSON.parse] on a stored text, in the typed view: a list
    of meals, a [SyntaxError], or a JSON value that is not the value the
    script writes for a list of meals (outside this view). *)
Inductive parse_result :=
| Parsed (l : list Comida)
| SyntaxError
| ShapeError.

#[global] Instance parse_result_eq_dec : EqDecision parse_result.
Proof. solve_decision. Defined.

(** What the store needs from [JSON.stringify] and [JSON.parse]: the text
    printed for a list is a truthy string, and parsing it gives the list
    back. *)
Class JsonCodec := {
  JSON_stringify : list Comida → jsstring;
  JSON_parse : jsstring → parse_result;
  JSON_parse_stringify l : JSON_parse (JSON_stringify l) = Parsed l;
  JSON_stringify_truthy l : truthy (JSON_stringify l) = true;
}.

(** ** Lemmas *)

Section lemmas.
Implicit Types (c : Comida) (l : list Comida) (q s : jsstring).

Lemma seleccionada_true c :
  seleccionada c = true ↔ ∃ q, seleccionadoPor c = Some q ∧ q ≠ [].
Proof. apply truthy_opt_true. Qed.

Lemma seleccionada_false c :
  seleccionada c = false ↔ seleccionadoPor c = None ∨ seleccionadoPor c = Some [].
Proof. apply truthy_opt_false. Qed.

(** On a well-formed meal "selected" means exactly "has a claimer". *)
Lemma seleccionada_wf c :
  comida_wf c → seleccionada c = true ↔ is_Some (seleccionadoPor c).
Proof.
  intros (_ & _ & _ & Hq). rewrite seleccionada_true.
  destruct (seleccionadoPor c) as [q|]; split.
  - eauto.
  - intros _. exists q. split; [done|apply Hq].
  - by intros (? & ? & _).
  - by intros [? ?].
Qed.

Lemma set_seleccionadoPor_seleccionada q c :
  q ≠ [] → seleccionada (set_seleccionadoPor q c) = true.
Proof. intros Hq. apply seleccionada_true. by exists q. Qed.

Lemma set_seleccionadoPor_wf q c :
  nombre_valido q → comida_wf c → comida_wf (set_seleccionadoPor q c).
Proof. intros Hq (? & ? & ? & _). by split_and!. Qed.

Lemma nombre_valido_trim s : trim s ≠ [] → nombre_valido (trim s).
Proof. intros Hs. split; [done|apply trim_trimmed]. Qed.

(** A fresh meal, as [agregarComida] builds it, is well formed. *)
Lemma nueva_comida_wf n s :
  trim s ≠ [] → comida_wf (mkComida (number_toString n) (trim s) None).
Proof.
  intros Hs. split_and!; simpl; [|apply number_toString_digits|by split; auto with wf|done].
  apply truthy_true, number_toString_truthy.
Qed.

Lemma comidas_wf_snoc l c : comidas_wf l → comida_wf c → comidas_wf (l ++ [c]).
Proof. intros Hl Hc. apply Forall_app. split; [done|by constructor]. Qed.

Lemma comidas_wf_insert l i c : comidas_wf l → comida_wf c → comidas_wf (<[i:=c]> l).
Proof. intros Hl Hc. by apply Forall_insert. Qed.

Lemma comidas_wf_lookup l i c : comidas_wf l → l !! i = Some c → comida_wf c.
Proof. intros Hl Hi. by eapply Forall_lookup_1. Qed.

(** Claimed and unclaimed meals add up to the whole list. *)
Lemma restantes_length l :
  length (filter (λ c, seleccionada c = true) l) + length (restantes l) = length l.
Proof. apply filter_length_partition. Qed.

Lemma restantes_le l : length (restantes l) ≤ length l.
Proof. pose proof (restantes_length l). lia. Qed.

End lemmas.

#[export] Hint Resolve set_seleccionadoPor_wf nueva_comida_wf nombre_valido_trim
  comidas_wf_snoc comidas_wf_insert comidas_wf_lookup : wf.
