(* ===== verification/Json.v ===== *)
(** * JSON as the store uses it

    JSON values, the printer of [JSON.stringify] (no blanks, the quoting of
    QuoteJSONString) and a parser of any JSON text (blanks, escapes,
    numbers, nesting) into a value, on fuel.  [stringify] and [parse] are
    the two built-ins on lists of meals: [decode] reads a value as a list of
    meals exactly when it is the value the script writes for that list.
    Parsing a printed value gives the value back, for every value without
    numbers; the round trip on lists of meals discharges the laws of
    [JsonCodec]. *)

From S2P Require Import Prelude JsString Comida.

(** ** Values *)

#[warnings="-register-all"]
Inductive json :=
| JNull
| JBool (b : bool)
| JNumber (lexeme : jsstring)
| JString (s : jsstring)
| JArray (l : list json)
| JObject (l : list (jsstring * json)).

(** Induction on values, with the hypothesis for every element of an array
    and for the value of every member of an object. *)
Section json_ind.
Context (P : json → Prop).
Context (Hnull : P JNull) (Hbool : ∀ b, P (JBool b)).
Context (Hnumber : ∀ lexeme, P (JNumber lexeme)) (Hstring : ∀ s, P (JString s)).
Context (Harray : ∀ l, Forall P l → P (JArray l)).
Context (Hobject : ∀ l, Forall (λ kv, P (snd kv)) l → P (JObject l)).

Fixpoint json_ind_anidado (j : json) : P j :=
  match j with
  | JNull => Hnull
  | JBool b => Hbool b
  | JNumber lexeme => Hnumber lexeme
  | JString s => Hstring s
  | JArray l =>
    Harray l
      ((fix todos (l : list json) : Forall P l :=
          match l with
          | [] => @List.Forall_nil _ P
          | x :: l' => @List.Forall_cons _ P x l' (json_ind_anidado x) (todos l')
          end) l)
  | JObject l =>
    Hobject l
      ((fix todos (l : list (jsstring * json)) : Forall (λ kv, P (snd kv)) l :=
          match l with
          | [] => @List.Forall_nil _ _
          | kv :: l' => @List.Forall_cons _ _ kv l' (json_ind_anidado (snd kv)) (todos l')
          end) l)
  end.

End json_ind.

(** Equality of values, computed. *)
Fixpoint json_eqb (x y : json) : bool :=
  match x, y with
  | JNull, JNull => true
  | JBool a, JBool b => bool_decide (a = b)
  | JNumber a, JNumber b => bool_decide (a = b)
  | JString a, JString b => bool_decide (a = b)
  | JArray l, JArray k =>
    (fix todos (l k : list json) : bool :=
       match l, k with
       | [], [] => true
       | x :: l, y :: k => json_eqb x y && todos l k
       | _, _ => false
       end) l k
  | JObject l, JObject k =>
    (fix todos (l k : list (jsstring * json)) : bool :=
       match l, k with
       | [], [] => true
       | (a, x) :: l, (b, y) :: k => bool_decide (a = b) && json_eqb x y && todos l k
       | _, _ => false
       end) l k
  | _, _ => false
  end.

Lemma json_eqb_eq x y : json_eqb x y = true ↔ x = y.
Proof.
  revert y. induction x as [|b|lexeme|s|l IH|l IH] using json_ind_anidado;
    intros [|b'|lexeme'|s'|l'|l']; cbn [json_eqb]; try (split; [done|congruence]);
    try (rewrite bool_decide_eq_true; split; congruence).
  - transitivity (l = l'); [|split; congruence]. revert l'.
    induction IH as [|x l Hx _ IHl]; intros [|y l']; try done.
    rewrite andb_true_iff, Hx, IHl. split; [by intros [-> ->]|by intros [= -> ->]].
  - transitivity (l = l'); [|split; congruence]. revert l'.
    induction IH as [|[a x] l Hx _ IHl]; intros [|[b y] l']; try done.
    simpl in Hx. rewrite !andb_true_iff, bool_decide_eq_true, Hx, IHl.
    split; [by intros [[-> ->] ->]|by intros [= -> -> ->]].
Qed.

#[global] Instance json_eq_dec : EqDecision json.
Proof.
  intros x y. destruct (json_eqb x y) eqn:H; [left|right].
  - by apply json_eqb_eq.
  - intros Hxy%json_eqb_eq. congruence.
Defined.

(** The outcome of a parser: a result, a syntax error, or fuel exhausted. *)
Inductive presult (A : Type) :=
| POk (a : A)
| PErr
| PFuel.
Arguments POk {A} a.
Arguments PErr {A}.
Arguments PFuel {A}.

#[global] Instance presult_ret : MRet presult := @POk.
#[global] Instance presult_bind : MBind presult := λ A B f m,
  match m with POk a => f a | PErr => PErr | PFuel => PFuel end.

Definition of_option {A} (o : option A) : presult A :=
  match o with Some a => POk a | None => PErr end.

(** Characters the grammar names. *)
Abbreviation ch_quote := 34%N (only parsing).
Abbreviation ch_backslash := 92%N (only parsing).
Abbreviation ch_comma := 44%N (only parsing).
Abbreviation ch_colon := 58%N (only parsing).
Abbreviation ch_lbracket := 91%N (only parsing).
Abbreviation ch_rbracket := 93%N (only parsing).
Abbreviation ch_lbrace := 123%N (only parsing).
Abbreviation ch_rbrace := 125%N (only parsing).

(** ** Printing *)

Section print.

(** A lowercase hexadecimal digit. *)
Definition hex_digit (n : N) : code_unit :=
  if (n <? 10)%N then (48 + n)%N else (87 + n)%N.

(** [\uXXXX] for a code unit. *)
Definition unicode_escape (c : code_unit) : jsstring :=
  [ch_backslash; 117%N; hex_digit (c / 4096 mod 16); hex_digit (c / 256 mod 16);
   hex_digit (c / 16 mod 16); hex_digit (c mod 16)].

Definition is_high_surrogate (c : code_unit) : bool := (55296 <=? c)%N && (c <=? 56319)%N.
Definition is_low_surrogate (c : code_unit) : bool := (56320 <=? c)%N && (c <=? 57343)%N.

(** The text of one code unit that is not a surrogate inside a JSON string. *)
Definition escape_char (c : code_unit) : jsstring :=
  if (c =? 8)%N then [ch_backslash; 98%N]
  else if (c =? 9)%N then [ch_backslash; 116%N]
  else if (c =? 10)%N then [ch_backslash; 110%N]
  else if (c =? 12)%N then [ch_backslash; 102%N]
  else if (c =? 13)%N then [ch_backslash; 114%N]
  else if (c =? ch_quote)%N then [ch_backslash; ch_quote]
  else if (c =? ch_backslash)%N then [ch_backslash; ch_backslash]
  else if (c <? 32)%N then unicode_escape c
  else [c].

(** The body of a quoted string: a surrogate pair is kept, a lone surrogate
    is escaped. *)
Fixpoint quote_body (s : jsstring) : jsstring :=
  match s with
  | [] => []
  | c :: s1 =>
    if is_high_surrogate c then
      match s1 with
      | d :: s2 =>
        if is_low_surrogate d then c :: d :: quote_body s2
        else unicode_escape c ++ quote_body s1
      | [] => unicode_escape c
      end
    else if is_low_surrogate c then unicode_escape c ++ quote_body s1
    else escape_char c ++ quote_body s1
  end.

(** QuoteJSONString. *)
Definition quote (s : jsstring) : jsstring := ch_quote :: quote_body s ++ [ch_quote].

(** Members and elements are separated by a comma, with no blank. *)
Definition join_comma (parts : list jsstring) : jsstring :=
  match parts with
  | [] => []
  | p :: ps => p ++ concat ((λ q, ch_comma :: q) <$> ps)
  end.

Fixpoint print (j : json) : jsstring :=
  match j with
  | JNull => [110; 117; 108; 108]%N
  | JBool true => [116; 114; 117; 101]%N
  | JBool false => [102; 97; 108; 115; 101]%N
  | JNumber lexeme => lexeme
  | JString s => quote s
  | JArray l => ch_lbracket :: join_comma (map print l) ++ [ch_rbracket]
  | JObject l =>
    ch_lbrace
      :: join_comma (map (λ kv, quote (fst kv) ++ ch_colon :: print (snd kv)) l)
      ++ [ch_rbrace]
  end.

(** The text of one member of an object. *)
Definition print_member (kv : jsstring * json) : jsstring :=
  quote (fst kv) ++ ch_colon :: print (snd kv).

(** The property names of a meal. *)
Definition key_id : jsstring := Eval vm_compute in lit "id".
Definition key_nombre : jsstring := Eval vm_compute in lit "nombre".
Definition key_seleccionadoPor : jsstring := Eval vm_compute in lit "seleccionadoPor".

Definition json_of_option (o : option jsstring) : json :=
  match o with None => JNull | Some s => JString s end.

(** The JSON value of a meal: its properties in creation order. *)
Definition json_of_comida (c : Comida) : json :=
  JObject [(key_id, JString (id c)); (key_nombre, JString (nombre c));
           (key_seleccionadoPor, json_of_option (seleccionadoPor c))].

Definition json_of_comidas (l : list Comida) : json := JArray (json_of_comida <$> l).

(** [JSON.stringify(comidas)]. *)
Definition stringify (l : list Comida) : jsstring := print (json_of_comidas l).

(** No number occurs in the value. *)
Fixpoint sin_numeros (j : json) : bool :=
  match j with
  | JNumber _ => false
  | JArray l => forallb sin_numeros l
  | JObject l => forallb (λ kv, sin_numeros (snd kv)) l
  | _ => true
  end.

(** The fuel the parser needs for the text of a value: one unit per value,
    element and member. *)
Fixpoint talla (j : json) : nat :=
  match j with
  | JArray l => S (list_sum (map (λ x, S (talla x)) l))
  | JObject l => S (list_sum (map (λ kv, S (talla (snd kv))) l))
  | _ => 1
  end.

End print.

(** ** Parsing *)

Section parse.

Definition is_json_ws (c : code_unit) : bool :=
  (c =? 32)%N || (c =? 9)%N || (c =? 10)%N || (c =? 13)%N.

Fixpoint skip_ws (s : jsstring) : jsstring :=
  match s with
  | [] => []
  | c :: s1 => if is_json_ws c then skip_ws s1 else s
  end.

(** The value of a hexadecimal digit, either case. *)
Definition hex_value (c : code_unit) : option N :=
  if (48 <=? c)%N && (c <=? 57)%N then Some (c - 48)%N
  else if (97 <=? c)%N && (c <=? 102)%N then Some (c - 87)%N
  else if (65 <=? c)%N && (c <=? 70)%N then Some (c - 55)%N
  else None.

Definition unhex4 (h3 h2 h1 h0 : code_unit) : option code_unit :=
  d3 ← hex_value h3; d2 ← hex_value h2; d1 ← hex_value h1; d0 ← hex_value h0;
  Some (d3 * 4096 + d2 * 256 + d1 * 16 + d0)%N.

(** The character a one-letter escape denotes. *)
Definition unescape (e : code_unit) : option code_unit :=
  if (e =? ch_quote)%N then Some ch_quote
  else if (e =? ch_backslash)%N then Some ch_backslash
  else if (e =? 47)%N then Some 47%N
  else if (e =? 98)%N then Some 8%N
  else if (e =? 102)%N then Some 12%N
  else if (e =? 110)%N then Some 10%N
  else if (e =? 114)%N then Some 13%N
  else if (e =? 116)%N then Some 9%N
  else None.

(** The rest of a string after its opening quote: the characters up to the
    closing quote, and what follows it. *)
Fixpoint parse_string_body (s : jsstring) : option (jsstring * jsstring) :=
  match s with
  | [] => None
  | c :: s1 =>
    if (c =? ch_quote)%N then Some ([], s1)
    else if (c =? ch_backslash)%N then
      match s1 with
      | [] => None
      | e :: s2 =>
        if (e =? 117)%N then
          match s2 with
          | h3 :: h2 :: h1 :: h0 :: s3 =>
            match unhex4 h3 h2 h1 h0, parse_string_body s3 with
            | Some u, Some (str, rest) => Some (u :: str, rest)
            | _, _ => None
            end
          | _ => None
          end
        else
          match unescape e, parse_string_body s2 with
          | Some d, Some (str, rest) => Some (d :: str, rest)
          | _, _ => None
          end
      end
    else if (c <? 32)%N then None
    else
      match parse_string_body s1 with
      | Some (str, rest) => Some (c :: str, rest)
      | None => None
      end
  end.

(** The longest prefix of decimal digits, and the rest. *)
Fixpoint span_digits (s : jsstring) : jsstring * jsstring :=
  match s with
  | c :: s1 =>
    if is_digit c then let '(ds, r) := span_digits s1 in (c :: ds, r) else ([], s)
  | [] => ([], [])
  end.

(** One or more digits. *)
Definition digits1 (s : jsstring) : option (jsstring * jsstring) :=
  match span_digits s with
  | ([], _) => None
  | (ds, r) => Some (ds, r)
  end.

(** The integer part: [0], or a non-zero digit followed by digits. *)
Definition lex_int (s : jsstring) : option (jsstring * jsstring) :=
  match s with
  | c :: s1 =>
    if (c =? 48)%N then Some ([c], s1)
    else if is_digit c then let '(ds, r) := span_digits s1 in Some (c :: ds, r)
    else None
  | [] => None
  end.

(** An optional fraction [. digits]. *)
Definition lex_frac (s : jsstring) : option (jsstring * jsstring) :=
  match s with
  | c :: s1 =>
    if (c =? 46)%N then '(ds, r) ← digits1 s1; Some (c :: ds, r) else Some ([], s)
  | [] => Some ([], [])
  end.

(** An optional exponent [e|E (+|-)? digits]. *)
Definition lex_exp (s : jsstring) : option (jsstring * jsstring) :=
  match s with
  | c :: s1 =>
    if (c =? 101)%N || (c =? 69)%N then
      match s1 with
      | g :: s2 =>
        if (g =? 43)%N || (g =? 45)%N
        then '(ds, r) ← digits1 s2; Some (c :: g :: ds, r)
        else '(ds, r) ← digits1 s1; Some (c :: ds, r)
      | [] => None
      end
    else Some ([], s)
  | [] => Some ([], [])
  end.

(** A number: its lexeme and the rest. *)
Definition lex_number (s : jsstring) : option (jsstring * jsstring) :=
  '(sign, s0) ← match s with
                | c :: s1 => if (c =? 45)%N then Some ([c], s1) else Some ([], s)
                | [] => None
                end;
  '(i, s1) ← lex_int s0;
  '(f, s2) ← lex_frac s1;
  '(e, s3) ← lex_exp s2;
  Some (sign ++ i ++ f ++ e, s3).

(** [strip_prefix p s] is what follows [p] in [s]. *)
Fixpoint strip_prefix (p s : jsstring) : option jsstring :=
  match p, s with
  | [], _ => Some s
  | a :: p1, b :: s1 => if (a =? b)%N then strip_prefix p1 s1 else None
  | _ :: _, [] => None
  end.

(** A value that is neither a string, an array nor an object. *)
Definition parse_atom (s : jsstring) : presult (json * jsstring) :=
  match strip_prefix (print JNull) s with
  | Some r => POk (JNull, r)
  | None =>
    match strip_prefix (print (JBool true)) s with
    | Some r => POk (JBool true, r)
    | None =>
      match strip_prefix (print (JBool false)) s with
      | Some r => POk (JBool false, r)
      | None => '(lx, r) ← of_option (lex_number s); POk (JNumber lx, r)
      end
    end
  end.

(** The three mutually recursive parsers of values, of the elements of a
    non-empty array after its bracket, and of the members of a non-empty
    object after its brace.  Each call spends one unit of fuel. *)
Fixpoint parse_value (fuel : nat) (s : jsstring) : presult (json * jsstring) :=
  match fuel with
  | 0 => PFuel
  | S fuel =>
    match skip_ws s with
    | [] => PErr
    | c :: s1 =>
      if (c =? ch_quote)%N then
        '(str, r) ← of_option (parse_string_body s1); POk (JString str, r)
      else if (c =? ch_lbracket)%N then
        match skip_ws s1 with
        | [] => PErr
        | d :: s2 =>
          if (d =? ch_rbracket)%N then POk (JArray [], s2)
          else '(l, r) ← parse_elements fuel s1; POk (JArray l, r)
        end
      else if (c =? ch_lbrace)%N then
        match skip_ws s1 with
        | [] => PErr
        | d :: s2 =>
          if (d =? ch_rbrace)%N then POk (JObject [], s2)
          else '(l, r) ← parse_members fuel s1; POk (JObject l, r)
        end
      else parse_atom (c :: s1)
    end
  end
with parse_elements (fuel : nat) (s : jsstring) : presult (list json * jsstring) :=
  match fuel with
  | 0 => PFuel
  | S fuel =>
    '(v, r) ← parse_value fuel s;
    match skip_ws r with
    | [] => PErr
    | c :: r1 =>
      if (c =? ch_comma)%N then '(l, r2) ← parse_elements fuel r1; POk (v :: l, r2)
      else if (c =? ch_rbracket)%N then POk ([v], r1)
      else PErr
    end
  end
with parse_members (fuel : nat) (s : jsstring)
    : presult (list (jsstring * json) * jsstring) :=
  match fuel with
  | 0 => PFuel
  | S fuel =>
    match skip_ws s with
    | [] => PErr
    | q :: s1 =>
      if (q =? ch_quote)%N then
        '(k, r0) ← of_option (parse_string_body s1);
        match skip_ws r0 with
        | [] => PErr
        | colon :: r1 =>
          if (colon =? ch_colon)%N then
            '(v, r) ← parse_value fuel r1;
            match skip_ws r with
            | [] => PErr
            | c :: r2 =>
              if (c =? ch_comma)%N
              then '(l, r3) ← parse_members fuel r2; POk ((k, v) :: l, r3)
              else if (c =? ch_rbrace)%N then POk ([(k, v)], r2)
              else PErr
            end
          else PErr
        end
      else PErr
    end
  end.

(** The fuel [JSON.parse] gives the parser for a text. *)
Definition parse_fuel (s : jsstring) : nat := 2 * length s + 2.

(** A whole JSON text: one value, blanks around it, nothing else. *)
Definition parse_text (s : jsstring) : presult json :=
  '(j, r) ← parse_value (parse_fuel s) s;
  match skip_ws r with [] => POk j | _ :: _ => PErr end.

(** The value of a property: the last member with that key wins. *)
Fixpoint get_property (k : jsstring) (l : list (jsstring * json)) : option json :=
  match l with
  | [] => None
  | (k', v) :: l1 =>
    match get_property k l1 with
    | Some w => Some w
    | None => if decide (k' = k) then Some v else None
    end
  end.

Definition decode_string (j : json) : option jsstring :=
  match j with JString s => Some s | _ => None end.

Definition decode_string_or_null (j : json) : option (option jsstring) :=
  match j with JString s => Some (Some s) | JNull => Some None | _ => None end.

(** A meal, from an object with the three properties of a meal, in the
    order the script creates them (lines 86-90). *)
Definition decode_comida (j : json) : option Comida :=
  match j with
  | JObject [(k1, JString i); (k2, JString n); (k3, q)] =>
    if decide (k1 = key_id ∧ k2 = key_nombre ∧ k3 = key_seleccionadoPor)
    then mkComida i n <$> decode_string_or_null q
    else None
  | _ => None
  end.

Definition decode (j : json) : option (list Comida) :=
  match j with
  | JArray l => mapM decode_comida l
  | _ => None
  end.

(** [JSON.parse(text)], seen through the shape of the stored list. *)
Definition parse (s : jsstring) : parse_result :=
  match parse_text s with
  | POk j => match decode j with Some l => Parsed l | None => ShapeError end
  | PErr | PFuel => SyntaxError
  end.

End parse.

(** ** Round trip: strings *)

(** [map], used where a definition recurses through a list, is [fmap]. *)
Lemma map_fmap {A B} (f : A → B) (l : list A) : map f l = f <$> l.
Proof. done. Qed.


Lemma hex_value_digit n : (n < 16)%N → hex_value (hex_digit n) = Some n.
Proof.
  intros Hn. unfold hex_value, hex_digit.
  nbool_cases; simpl; try lia; f_equal; lia.
Qed.

Lemma hex4_value c : (c < 65536)%N →
  (c / 4096 mod 16 * 4096 + c / 256 mod 16 * 256 + c / 16 mod 16 * 16 + c mod 16 = c)%N.
Proof.
  intros Hc.
  pose proof (N.div_mod' c 16) as H0.
  pose proof (N.div_mod' (c / 16) 16) as H1.
  pose proof (N.div_mod' (c / 256) 16) as H2.
  replace (c / 16 / 16)%N with (c / 256)%N in H1 by (by rewrite N.Div0.div_div).
  replace (c / 256 / 16)%N with (c / 4096)%N in H2 by (by rewrite N.Div0.div_div).
  assert (c / 4096 < 16)%N by (apply N.Div0.div_lt_upper_bound; lia).
  rewrite (N.mod_small (c / 4096) 16) by done. lia.
Qed.

Lemma unhex4_hex c :
  (c < 65536)%N →
  unhex4 (hex_digit (c / 4096 mod 16)) (hex_digit (c / 256 mod 16))
         (hex_digit (c / 16 mod 16)) (hex_digit (c mod 16)) = Some c.
Proof.
  intros Hc. unfold unhex4.
  rewrite !hex_value_digit by (apply N.mod_lt; lia). simpl. by rewrite hex4_value.
Qed.

Lemma psb_unicode_escape c rest str r :
  (c < 65536)%N →
  parse_string_body rest = Some (str, r) →
  parse_string_body (unicode_escape c ++ rest) = Some (c :: str, r).
Proof.
  intros Hc Hrest. unfold unicode_escape. cbn [app parse_string_body N.eqb Pos.eqb].
  by rewrite unhex4_hex, Hrest.
Qed.

Lemma psb_raw c rest str r :
  c ≠ 34%N → c ≠ 92%N → (32 ≤ c)%N →
  parse_string_body rest = Some (str, r) →
  parse_string_body (c :: rest) = Some (c :: str, r).
Proof.
  intros H1 H2 H3 Hrest. cbn [parse_string_body].
  rewrite (proj2 (N.eqb_neq _ _) H1), (proj2 (N.eqb_neq _ _) H2).
  rewrite (proj2 (N.ltb_ge _ _) H3). by rewrite Hrest.
Qed.

Lemma psb_escape_char c rest str r :
  parse_string_body rest = Some (str, r) →
  parse_string_body (escape_char c ++ rest) = Some (c :: str, r).
Proof.
  intros Hrest. unfold escape_char.
  repeat match goal with
  | |- context [(c =? ?k)%N] =>
    destruct (N.eqb_spec c k) as [->|?]; [by simpl; rewrite Hrest|]
  end.
  destruct (N.ltb_spec c 32).
  - apply psb_unicode_escape; [lia|done].
  - by apply psb_raw.
Qed.

Lemma psb_quote_body s rest :
  parse_string_body (quote_body s ++ 34%N :: rest) = Some (s, rest).
Proof.
  remember (length s) as n eqn:Hn. revert s Hn.
  induction (lt_wf n) as [n _ IH]. intros [|c s] ->; [done|].
  cbn [quote_body].
  assert (∀ c, is_high_surrogate c = true ∨ is_low_surrogate c = true → (c < 65536)%N ∧ c ≠ 34%N ∧ c ≠ 92%N ∧ (32 ≤ c)%N) as Hsur.
  { unfold is_high_surrogate, is_low_surrogate. intros ? [[?%N.leb_le ?%N.leb_le]%andb_true_iff|[?%N.leb_le ?%N.leb_le]%andb_true_iff]; lia. }
  destruct (is_high_surrogate c) eqn:Eh.
  - destruct s as [|d s].
    + apply psb_unicode_escape; [|done]. apply Hsur; auto.
    + destruct (is_low_surrogate d) eqn:El.
      * destruct (Hsur c) as (?&?&?&?); [auto|]. destruct (Hsur d) as (?&?&?&?); [auto|].
        rewrite <-!app_comm_cons. apply psb_raw; [done..|]. apply psb_raw; [done..|].
        eapply IH; [|done]. simpl. lia.
      * rewrite <-app_assoc. apply psb_unicode_escape; [apply Hsur; auto|].
        eapply IH; [|done]. simpl. lia.
  - destruct (is_low_surrogate c) eqn:El; rewrite <-app_assoc.
    + apply psb_unicode_escape; [apply Hsur; auto|]. eapply IH; [|done]. simpl; lia.
    + apply psb_escape_char. eapply IH; [|done]. simpl; lia.
Qed.

(** ** Round trip: values *)

Lemma parse_value_string fuel s rest :
  parse_value (S fuel) (quote s ++ rest) = POk (JString s, rest).
Proof.
  unfold quote. rewrite <-app_comm_cons, <-app_assoc. simpl.
  by rewrite psb_quote_body.
Qed.

Lemma parse_value_null fuel rest :
  parse_value (S fuel) (print JNull ++ rest) = POk (JNull, rest).
Proof. done. Qed.

Lemma parse_members_cons fuel k v l tail rest :
  parse_value fuel (print v ++ 44%N :: tail) = POk (v, 44%N :: tail) →
  parse_members fuel tail = POk (l, rest) →
  parse_members (S fuel) (print_member (k, v) ++ 44%N :: tail) = POk ((k, v) :: l, rest).
Proof.
  intros Hv Hl. unfold print_member, quote. simpl fst; simpl snd.
  rewrite <-!app_comm_cons, <-!app_assoc. cbn [app parse_members skip_ws is_json_ws N.eqb Pos.eqb orb].
  rewrite psb_quote_body. cbn [of_option mbind presult_bind app skip_ws is_json_ws N.eqb Pos.eqb orb].
  rewrite Hv. cbn [of_option mbind presult_bind app skip_ws is_json_ws N.eqb Pos.eqb orb].
  by rewrite Hl.
Qed.

Lemma parse_members_last fuel k v rest :
  parse_value fuel (print v ++ 125%N :: rest) = POk (v, 125%N :: rest) →
  parse_members (S fuel) (print_member (k, v) ++ 125%N :: rest) = POk ([(k, v)], rest).
Proof.
  intros Hv. unfold print_member, quote. simpl fst; simpl snd.
  rewrite <-!app_comm_cons, <-!app_assoc. cbn [app parse_members skip_ws is_json_ws N.eqb Pos.eqb orb].
  rewrite psb_quote_body. cbn [of_option mbind presult_bind app skip_ws is_json_ws N.eqb Pos.eqb orb].
  by rewrite Hv.
Qed.


Lemma join_comma_singleton p rest : join_comma [p] ++ rest = p ++ rest.
Proof. unfold join_comma. by rewrite fmap_nil, app_nil_r. Qed.

Lemma join_comma_cons p q ps rest :
  join_comma (p :: q :: ps) ++ rest = p ++ 44%N :: (join_comma (q :: ps) ++ rest).
Proof. unfold join_comma. by rewrite fmap_cons, <-app_assoc. Qed.

Lemma print_object l :
  print (JObject l) = 123%N :: join_comma (map print_member l) ++ [125%N].
Proof. done. Qed.

Lemma print_array l :
  print (JArray l) = 91%N :: join_comma (map print l) ++ [93%N].
Proof. done. Qed.

Lemma parse_value_object fuel kv kvs rest :
  parse_members fuel (join_comma (map print_member (kv :: kvs)) ++ 125%N :: rest)
    = POk (kv :: kvs, rest) →
  parse_value (S fuel) (print (JObject (kv :: kvs)) ++ rest) = POk (JObject (kv :: kvs), rest).
Proof.
  intros Hm. rewrite print_object, <-app_comm_cons, <-app_assoc.
  cbn [parse_value skip_ws is_json_ws N.eqb Pos.eqb orb app].
  rewrite Hm. clear Hm.
  by cbn [map join_comma print_member quote app skip_ws is_json_ws N.eqb Pos.eqb orb mbind presult_bind].
Qed.

Lemma parse_elements_cons fuel v l tail rest :
  parse_value fuel (print v ++ 44%N :: tail) = POk (v, 44%N :: tail) →
  parse_elements fuel tail = POk (l, rest) →
  parse_elements (S fuel) (print v ++ 44%N :: tail) = POk (v :: l, rest).
Proof.
  intros Hv Hl. cbn [parse_elements]. rewrite Hv.
  cbn [mbind presult_bind skip_ws is_json_ws N.eqb Pos.eqb orb]. by rewrite Hl.
Qed.

Lemma parse_elements_last fuel v rest :
  parse_value fuel (print v ++ 93%N :: rest) = POk (v, 93%N :: rest) →
  parse_elements (S fuel) (print v ++ 93%N :: rest) = POk ([v], rest).
Proof. intros Hv. cbn [parse_elements]. by rewrite Hv. Qed.

Lemma parse_value_array fuel v l rest :
  sin_numeros v →
  parse_elements fuel (join_comma (map print (v :: l)) ++ 93%N :: rest) = POk (v :: l, rest) →
  parse_value (S fuel) (print (JArray (v :: l)) ++ rest) = POk (JArray (v :: l), rest).
Proof.
  intros Hv Hm. rewrite print_array, <-app_comm_cons, <-app_assoc.
  cbn [parse_value skip_ws is_json_ws N.eqb Pos.eqb orb app].
  rewrite Hm. clear Hm. destruct v as [|[]| | | |]; try done.
Qed.

(** *** Any value without numbers *)

Section values.
(** What the round trip says of one value. *)
Definition vuelve (v : json) : Prop :=
  sin_numeros v → ∀ fuel rest,
    talla v ≤ fuel → parse_value fuel (print v ++ rest) = POk (v, rest).

Lemma parse_elements_print v l fuel rest :
  Forall vuelve (v :: l) → Forall (λ x, sin_numeros x) (v :: l) →
  list_sum (map (λ x, S (talla x)) (v :: l)) ≤ fuel →
  parse_elements fuel (join_comma (map print (v :: l)) ++ 93%N :: rest)
  = POk (v :: l, rest).
Proof.
  revert v fuel. induction l as [|w l IH]; intros v fuel [Hv Hl]%Forall_cons
    [Sv Sl]%Forall_cons Hf; cbn [map list_sum fold_right] in Hf;
    (destruct fuel as [|fuel]; [lia|]).
  - cbn [map]. rewrite join_comma_singleton. apply parse_elements_last, Hv; [done|lia].
  - cbn [map]. rewrite join_comma_cons. apply parse_elements_cons; [apply Hv; [done|lia]|].
    apply (IH w fuel Hl Sl). cbn [map list_sum fold_right]. lia.
Qed.

Lemma parse_members_print kv l fuel rest :
  Forall (λ kv, vuelve (snd kv)) (kv :: l) →
  Forall (λ kv, sin_numeros (snd kv)) (kv :: l) →
  list_sum (map (λ kv, S (talla (snd kv))) (kv :: l)) ≤ fuel →
  parse_members fuel (join_comma (map print_member (kv :: l)) ++ 125%N :: rest)
  = POk (kv :: l, rest).
Proof.
  revert kv fuel. induction l as [|kw l IH]; intros [k v] fuel [Hv Hl]%Forall_cons
    [Sv Sl]%Forall_cons Hf; cbn [map list_sum fold_right snd] in Hf, Hv, Sv;
    (destruct fuel as [|fuel]; [lia|]).
  - cbn [map]. rewrite join_comma_singleton. apply parse_members_last, Hv; [done|lia].
  - cbn [map]. rewrite join_comma_cons. apply parse_members_cons; [apply Hv; [done|lia]|].
    apply (IH kw fuel Hl Sl). cbn [map list_sum fold_right]. lia.
Qed.

(** Parsing the text printed for a value gives the value back, and leaves
    what follows the text. *)
Lemma parse_value_print v : vuelve v.
Proof.
  induction v as [|b|lexeme|s|l IH|l IH] using json_ind_anidado;
    intros Hs fuel rest Hf; try done; cbn [talla] in Hf;
    (destruct fuel as [|fuel]; [lia|]).
  - done.
  - by destruct b.
  - apply parse_value_string.
  - destruct l as [|v l]; [done|]. cbn [sin_numeros] in Hs. apply forallb_True in Hs.
    apply parse_value_array; [by apply Forall_cons in Hs as [? _]|].
    by apply parse_elements_print; [| |lia].
  - destruct l as [|kv l]; [done|]. apply parse_value_object, parse_members_print; [done| |lia].
    cbn [sin_numeros] in Hs. by apply forallb_True in Hs.
Qed.

Lemma join_comma_length_sum ps :
  list_sum (map (λ p, S (length p)) ps) ≤ S (length (join_comma ps)).
Proof.
  destruct ps as [|p ps]; [simpl; lia|].
  assert (list_sum (map (λ p, S (length p)) ps)
          = length (concat ((λ q, 44%N :: q) <$> ps))) as Hps.
  { induction ps as [|q ps IH]; [done|].
    rewrite !fmap_cons, concat_cons, length_app. unfold list_sum in *.
    rewrite <-map_fmap. cbn [fold_right length]. lia. }
  cbn [map join_comma]. rewrite length_app. unfold list_sum in *.
  cbn [fold_right]. lia.
Qed.

(** The fuel a value needs is at most twice the length of its text. *)
Lemma talla_print v : sin_numeros v → talla v ≤ 2 * length (print v).
Proof.
  induction v as [|b|lexeme|s|l IH|l IH] using json_ind_anidado; intros Hs.
  - simpl. lia.
  - destruct b; simpl; lia.
  - done.
  - unfold print, quote. simpl. lia.
  - cbn [sin_numeros] in Hs. apply forallb_True in Hs.
    rewrite print_array. cbn [talla length]. rewrite length_app. cbn [length].
    pose proof (join_comma_length_sum (map print l)) as Hj.
    enough (list_sum (map (λ x, S (talla x)) l)
            ≤ 2 * list_sum (map (λ p, S (length p)) (map print l))) by lia.
    clear Hj. induction IH as [|x l Hx _ IHl]; [done|].
    apply Forall_cons in Hs as [Hsx Hs]. specialize (Hx Hsx). specialize (IHl Hs).
    unfold list_sum in *. cbn [map fold_right]. lia.
  - cbn [sin_numeros] in Hs. apply forallb_True in Hs.
    rewrite print_object. cbn [talla length]. rewrite length_app. cbn [length].
    pose proof (join_comma_length_sum (map print_member l)) as Hj.
    enough (list_sum (map (λ kv, S (talla (snd kv))) l)
            ≤ 2 * list_sum (map (λ p, S (length p)) (map print_member l))) by lia.
    clear Hj. induction IH as [|[k v] l Hx _ IHl]; [done|].
    apply Forall_cons in Hs as [Hsx Hs]. specialize (Hx Hsx). specialize (IHl Hs).
    unfold list_sum in *. cbn [map fold_right]. unfold print_member at 1.
    cbn [fst snd] in *. rewrite length_app. cbn [length]. lia.
Qed.

End values.

Lemma sin_numeros_comidas l : sin_numeros (json_of_comidas l).
Proof.
  unfold json_of_comidas. cbn [sin_numeros]. apply forallb_True, Forall_fmap, Forall_true.
  intros c. by destruct c as [i n [q|]].
Qed.

Lemma parse_value_comidas fuel l rest :
  2 * length (stringify l) ≤ fuel →
  parse_value fuel (print (json_of_comidas l) ++ rest) = POk (json_of_comidas l, rest).
Proof.
  intros Hf. apply parse_value_print; [apply sin_numeros_comidas|].
  pose proof (talla_print _ (sin_numeros_comidas l)). unfold stringify in Hf. lia.
Qed.

Lemma decode_json_of_comida c : decode_comida (json_of_comida c) = Some c.
Proof. destruct c as [i n [q|]]; reflexivity. Qed.

Lemma decode_json_of_comidas l : decode (json_of_comidas l) = Some l.
Proof.
  unfold decode, json_of_comidas. apply mapM_Some_2.
  induction l; constructor; [apply decode_json_of_comida|done].
Qed.

(** Only the value the script writes for a meal is read as that meal. *)
Lemma decode_comida_Some j c : decode_comida j = Some c → j = json_of_comida c.
Proof.
  destruct j as [| | | | |[|[k1 [| | |i| |]] [|[k2 [| | |n| |]] [|[k3 q] [|]]]]]; try done.
  simpl. case_decide as Hk; [|done]. destruct Hk as (-> & -> & ->).
  by destruct q; intros [= <-].
Qed.

Lemma decode_Some j l : decode j = Some l → j = json_of_comidas l.
Proof.
  destruct j as [| | | |js|]; try done. simpl. intros Hm%mapM_Some.
  unfold json_of_comidas. f_equal.
  induction Hm as [|x c js l Hx%decode_comida_Some _ IH]; [done|].
  by rewrite fmap_cons, Hx, IH.
Qed.

(** A text is read as the list [l] exactly when it is a JSON text of the
    value the script writes for [l]. *)
Lemma parse_Parsed s l : parse s = Parsed l ↔ parse_text s = POk (json_of_comidas l).
Proof.
  unfold parse. split.
  - destruct (parse_text s) as [j| |]; [|done..].
    destruct (decode j) as [l'|] eqn:Hd; [|done]. intros [= ->].
    by rewrite (decode_Some _ _ Hd).
  - intros ->. by rewrite decode_json_of_comidas.
Qed.

Lemma parse_stringify_ok l : parse (stringify l) = Parsed l.
Proof.
  unfold parse, parse_text, stringify.
  rewrite <-(app_nil_r (print _)) at 2.
  rewrite parse_value_comidas.
  - cbn [mbind presult_bind skip_ws]. by rewrite decode_json_of_comidas.
  - unfold parse_fuel, stringify. lia.
Qed.

Lemma stringify_truthy l : truthy (stringify l) = true.
Proof. done. Qed.

(** ** Blanks around a text *)

Section ws.
Implicit Types (s pre post rest : jsstring) (l : list Comida).

Lemma skip_ws_app pre s :
  Forall (λ c, is_json_ws c = true) pre → skip_ws (pre ++ s) = skip_ws s.
Proof. induction 1 as [|c pre Hc _ IH]; [done|]. simpl. by rewrite Hc. Qed.

Lemma skip_ws_blank post : Forall (λ c, is_json_ws c = true) post → skip_ws post = [].
Proof. intros Hp. rewrite <-(app_nil_r post). by rewrite skip_ws_app. Qed.

Lemma parse_value_skip_ws fuel pre s :
  Forall (λ c, is_json_ws c = true) pre →
  parse_value fuel (pre ++ s) = parse_value fuel s.
Proof. intros Hp. destruct fuel; [done|]. cbn [parse_value]. by rewrite skip_ws_app. Qed.

End ws.

(** The concrete codec implements the interface of the store. *)
#[export] Instance json_codec : JsonCodec := {|
  JSON_stringify := stringify;
  JSON_parse := parse;
  JSON_parse_stringify := parse_stringify_ok;
  JSON_stringify_truthy := stringify_truthy;
|}.

(** ** Termination within the fuel *)

Section fuel.
Implicit Types (s r p : jsstring) (fuel : nat).

(** A result that is not a lack of fuel, and whose rest is shorter than the
    text. *)
Definition consume {A} s (res : presult (A * jsstring)) : Prop :=
  match res with
  | POk (_, r) => length r < length s
  | PErr => True
  | PFuel => False
  end.

Lemma consume_bind {A B} s s' (m : presult (A * jsstring)) (f : A * jsstring → presult (B * jsstring)) :
  consume s' m → (∀ a r, length r < length s' → consume s (f (a, r))) → consume s (m ≫= f).
Proof. destruct m as [[a r]| |]; simpl; auto. Qed.

Lemma consume_of_option {A} s (o : option (A * jsstring)) :
  (∀ a r, o = Some (a, r) → length r < length s) → consume s (of_option o).
Proof. destruct o as [[a r]|]; simpl; [|done]. intros Ho. by eapply Ho. Qed.

Lemma consume_weaken {A} s s' (res : presult (A * jsstring)) :
  length s' ≤ length s → consume s' res → consume s res.
Proof. destruct res as [[a r]| |]; simpl; auto. lia. Qed.

Lemma skip_ws_length s : length (skip_ws s) ≤ length s.
Proof. induction s as [|c s IH]; [done|]. simpl. destruct (is_json_ws c); simpl; lia. Qed.

Lemma skip_ws_cons s c s1 : skip_ws s = c :: s1 → length s1 < length s.
Proof. intros Hs. pose proof (skip_ws_length s) as Hl. rewrite Hs in Hl. simpl in Hl. lia. Qed.

Lemma parse_string_body_length s str r :
  parse_string_body s = Some (str, r) → length r < length s.
Proof.
  remember (length s) as n eqn:Hn. revert s str r Hn.
  induction (lt_wf n) as [n _ IH]. intros [|c s1] str r ->; [done|].
  cbn [parse_string_body]. destruct (c =? 34)%N; [intros [= _ <-]; simpl; lia|].
  destruct (c =? 92)%N.
  - destruct s1 as [|e s2]; [done|]. destruct (e =? 117)%N.
    + destruct s2 as [|h3 [|h2 [|h1 [|h0 s3]]]]; try done.
      destruct (unhex4 h3 h2 h1 h0); [|done].
      destruct (parse_string_body s3) as [[str' r']|] eqn:E; [|done].
      intros [= _ <-].
      assert (length r' < length s3) by (eapply (IH (length s3)); [simpl; lia|done..]).
      simpl. lia.
    + destruct (unescape e); [|done].
      destruct (parse_string_body s2) as [[str' r']|] eqn:E; [|done].
      intros [= _ <-].
      assert (length r' < length s2) by (eapply (IH (length s2)); [simpl; lia|done..]).
      simpl. lia.
  - destruct (c <? 32)%N; [done|].
    destruct (parse_string_body s1) as [[str' r']|] eqn:E; [|done].
    intros [= _ <-].
    assert (length r' < length s1) by (eapply (IH (length s1)); [simpl; lia|done..]).
    simpl. lia.
Qed.

Lemma strip_prefix_length p s r : 
  strip_prefix p s = Some r → length r + length p = length s.
Proof.
  revert s. induction p as [|a p IH]; intros [|b s]; simpl; try done.
  - by intros [= <-].
  - by intros [= <-]; simpl; lia.
  - destruct (a =? b)%N; [|done]. intros ?%IH. lia.
Qed.

Lemma span_digits_length s : length (span_digits s).2 ≤ length s.
Proof.
  induction s as [|c s IH]; [done|]. simpl. destruct (is_digit c); [|done].
  destruct (span_digits s). simpl in *. lia.
Qed.

Lemma digits1_length s ds r : digits1 s = Some (ds, r) → length r ≤ length s.
Proof.
  unfold digits1. pose proof (span_digits_length s) as Hl.
  destruct (span_digits s) as [[|d ds'] r']; [done|]. by intros [= _ <-].
Qed.

Lemma lex_int_length s ds r : lex_int s = Some (ds, r) → length r < length s.
Proof.
  destruct s as [|c s1]; [done|]. simpl. destruct (c =? 48)%N; [intros [= _ <-]; lia|].
  destruct (is_digit c); [|done]. pose proof (span_digits_length s1) as Hl.
  destruct (span_digits s1). intros [= _ <-]. simpl in *. lia.
Qed.

Lemma lex_frac_length s ds r : lex_frac s = Some (ds, r) → length r ≤ length s.
Proof.
  destruct s as [|c s1]; simpl; [by intros [= _ <-]|].
  destruct (c =? 46)%N; [|by intros [= _ <-]].
  destruct (digits1 s1) as [[ds' r']|] eqn:E; [|done].
  intros [= _ <-]. apply digits1_length in E. simpl. lia.
Qed.

Lemma lex_exp_length s ds r : lex_exp s = Some (ds, r) → length r ≤ length s.
Proof.
  destruct s as [|c s1]; simpl; [by intros [= _ <-]|].
  destruct ((c =? 101)%N || (c =? 69)%N); [|by intros [= _ <-]].
  destruct s1 as [|g s2]; [done|].
  destruct ((g =? 43)%N || (g =? 45)%N).
  - destruct (digits1 s2) as [[ds' r']|] eqn:E; [|done].
    intros [= _ <-]. apply digits1_length in E. simpl. lia.
  - destruct (digits1 (g :: s2)) as [[ds' r']|] eqn:E; [|done].
    intros [= _ <-]. apply digits1_length in E. simpl in *. lia.
Qed.

Lemma lex_unsigned_length (sign : jsstring) s lx r :
  ('(i, s1) ← lex_int s; '(f, s2) ← lex_frac s1; '(e, s3) ← lex_exp s2;
   Some (sign ++ i ++ f ++ e, s3)) = Some (lx, r) →
  length r < length s.
Proof.
  destruct (lex_int s) as [[i s1]|] eqn:Ei; [|done]. simpl.
  destruct (lex_frac s1) as [[f s2]|] eqn:Ef; [|done]. simpl.
  destruct (lex_exp s2) as [[e s3]|] eqn:Ee; [|done]. simpl. intros [= _ <-].
  apply lex_int_length in Ei. apply lex_frac_length in Ef. apply lex_exp_length in Ee. lia.
Qed.

Lemma lex_number_length s lx r : lex_number s = Some (lx, r) → length r < length s.
Proof.
  unfold lex_number. destruct s as [|c s1]; [done|].
  destruct (c =? 45)%N; cbn [mbind option_bind];
    intros ?%lex_unsigned_length; simpl in *; lia.
Qed.

Lemma consume_parse_atom s : consume s (parse_atom s).
Proof.
  unfold parse_atom.
  destruct (strip_prefix (print JNull) s) as [r|] eqn:E1;
    [apply strip_prefix_length in E1; simpl in *; lia|].
  destruct (strip_prefix (print (JBool true)) s) as [r|] eqn:E2;
    [apply strip_prefix_length in E2; simpl in *; lia|].
  destruct (strip_prefix (print (JBool false)) s) as [r|] eqn:E3;
    [apply strip_prefix_length in E3; simpl in *; lia|].
  destruct (lex_number s) as [[lx r]|] eqn:E; [|done].
  apply lex_number_length in E. by simpl.
Qed.


(** One level of each parser, given the three parsers on the fuel below. *)
Section step.
Context (f : nat).
Context (IHv : ∀ s, 2 * length s + 2 ≤ f → consume s (parse_value f s)).
Context (IHe : ∀ s, 2 * length s + 3 ≤ f → consume s (parse_elements f s)).
Context (IHm : ∀ s, 2 * length s + 3 ≤ f → consume s (parse_members f s)).

Lemma parse_value_step s : 2 * length s + 2 ≤ S f → consume s (parse_value (S f) s).
Proof.
  intros Hf. cbn [parse_value]. destruct (skip_ws s) as [|c s1] eqn:Hs; [done|].
  apply skip_ws_cons in Hs. destruct (c =? 34)%N.
  { eapply consume_bind; [by apply (consume_of_option s1), parse_string_body_length|].
    intros str r Hr. simpl. lia. }
  destruct (c =? 91)%N.
  { destruct (skip_ws s1) as [|d s2] eqn:Hs1; [done|]. apply skip_ws_cons in Hs1.
    destruct (d =? 93)%N; [simpl; lia|].
    eapply consume_bind; [apply IHe; lia|]. intros l r Hr. simpl. lia. }
  destruct (c =? 123)%N.
  { destruct (skip_ws s1) as [|d s2] eqn:Hs1; [done|]. apply skip_ws_cons in Hs1.
    destruct (d =? 125)%N; [simpl; lia|].
    eapply consume_bind; [apply IHm; lia|]. intros l r Hr. simpl. lia. }
  eapply consume_weaken; [|apply consume_parse_atom]. simpl. lia.
Qed.

Lemma parse_elements_step s :
  2 * length s + 3 ≤ S f → consume s (parse_elements (S f) s).
Proof.
  intros Hf. cbn [parse_elements]. eapply consume_bind; [apply IHv; lia|].
  intros v r Hr. destruct (skip_ws r) as [|c r1] eqn:Hs; [done|].
  apply skip_ws_cons in Hs. destruct (c =? 44)%N.
  { eapply consume_bind; [apply IHe; lia|]. intros l r2 Hr2. simpl. lia. }
  destruct (c =? 93)%N; [simpl; lia|done].
Qed.

Lemma parse_members_step s :
  2 * length s + 3 ≤ S f → consume s (parse_members (S f) s).
Proof.
  intros Hf. cbn [parse_members]. destruct (skip_ws s) as [|q s1] eqn:Hs; [done|].
  apply skip_ws_cons in Hs. destruct (q =? 34)%N; [|done].
  eapply consume_bind; [by apply (consume_of_option s1), parse_string_body_length|].
  intros k r0 Hr0. destruct (skip_ws r0) as [|colon r1] eqn:Hs0; [done|].
  apply skip_ws_cons in Hs0. destruct (colon =? 58)%N; [|done].
  eapply consume_bind; [apply IHv; lia|].
  intros v r Hr. destruct (skip_ws r) as [|c r2] eqn:Hs2; [done|].
  apply skip_ws_cons in Hs2. destruct (c =? 44)%N.
  { eapply consume_bind; [apply IHm; lia|]. intros l r3 Hr3. simpl. lia. }
  destruct (c =? 125)%N; [simpl; lia|done].
Qed.

End step.

(** With fuel twice the length of the text and a little more, no parser
    runs out of fuel, and each consumes some of the text. *)
Lemma parse_consume fuel :
  (∀ s, 2 * length s + 2 ≤ fuel → consume s (parse_value fuel s))
  ∧ (∀ s, 2 * length s + 3 ≤ fuel → consume s (parse_elements fuel s))
  ∧ (∀ s, 2 * length s + 3 ≤ fuel → consume s (parse_members fuel s)).
Proof.
  induction fuel as [|f (IHv & IHe & IHm)]; [split_and!; intros s; lia|].
  split_and!; intros s Hf.
  - by apply parse_value_step.
  - by apply parse_elements_step.
  - by apply parse_members_step.
Qed.

End fuel.

(** ** Properties *)

Section properties.
Implicit Types (s pre post rest : jsstring) (l : list Comida).

(** C39.  JSON round trip: parsing the text [JSON.stringify] writes for a
    list of meals returns that list, for every list (any code units in ids,
    names and claimers: quotes, backslashes, control characters, lone
    surrogates), also with JSON blanks before and after the text; the fuel
    the parser is given is enough. *)
Theorem JSON_roundtrip l pre post :
  Forall (λ c, is_json_ws c = true) pre → Forall (λ c, is_json_ws c = true) post →
  parse (pre ++ stringify l ++ post) = Parsed l.
Proof.
  intros Hpre Hpost. unfold parse, parse_text, stringify.
  rewrite parse_value_skip_ws by done. rewrite parse_value_comidas.
  - cbn [mbind presult_bind]. by rewrite skip_ws_blank, decode_json_of_comidas.
  - unfold parse_fuel, stringify. rewrite !length_app. lia.
Qed.

(** JSON round trip for values: parsing the text printed for any
    value without numbers (nulls, booleans, strings of any code units,
    arrays and objects nested to any depth) returns that value, also with
    JSON blanks before and after the text; the fuel the parser is given is
    enough. *)
Theorem print_roundtrip v pre post :
  sin_numeros v →
  Forall (λ c, is_json_ws c = true) pre → Forall (λ c, is_json_ws c = true) post →
  parse_text (pre ++ print v ++ post) = POk v.
Proof.
  intros Hv Hpre Hpost. unfold parse_text.
  rewrite parse_value_skip_ws by done. rewrite parse_value_print.
  - cbn [mbind presult_bind]. by rewrite skip_ws_blank.
  - done.
  - unfold parse_fuel. pose proof (talla_print v Hv). rewrite !length_app. lia.
Qed.

(** Quoting round trip: a quoted string is delimited by quotes and
    parses back to the string it quotes, whatever follows it. *)
Theorem quote_roundtrip s pre rest :
  Forall (λ c, is_json_ws c = true) pre →
  parse_value 1 (pre ++ quote s ++ rest) = POk (JString s, rest)
  ∧ head (quote s) = Some 34%N ∧ last (quote s) = Some 34%N.
Proof.
  intros Hpre. rewrite parse_value_skip_ws by done. rewrite parse_value_string.
  split_and!; [done..|]. unfold quote. by rewrite app_comm_cons, last_snoc.
Qed.

(** The stored text determines the list: two lists with the same
    text are the same list. *)
Theorem stringify_inj l1 l2 : stringify l1 = stringify l2 → l1 = l2.
Proof.
  intros Heq. pose proof (parse_stringify_ok l1) as H1.
  rewrite Heq, parse_stringify_ok in H1. congruence.
Qed.

(** C40.  The parser terminates within its fuel on every text: [JSON.parse]
    never fails for lack of fuel, so a [SyntaxError] of the model is always
    an error in the text. *)
Theorem parse_fuel_enough s :
  parse_text s ≠ PFuel ∧ (parse s = SyntaxError ↔ parse_text s = PErr).
Proof.
  assert (parse_text s ≠ PFuel) as Hfuel.
  { unfold parse_text. pose proof (proj1 (parse_consume (parse_fuel s)) s) as Hc.
    destruct (parse_value (parse_fuel s) s) as [[j r]| |]; simpl; [|done|].
    - by destruct (skip_ws r).
    - intros _. apply Hc. unfold parse_fuel. lia. }
  split; [done|]. unfold parse. destruct (parse_text s) as [j| |]; [|done..].
  by destruct (decode j).
Qed.

End properties.

(** ** Witnesses *)

Section witnesses.

(** A meal whose name holds a quote, a backslash, a line break and a lone
    surrogate. *)
Definition comida_rara : Comida :=
  mkComida (lit "17") (lit "Mole" ++ [34; 92; 10; 55357]%N) (Some (lit "Ñu 🍲")).

Lemma JSON_roundtrip_witness :
  parse ([32; 10]%N ++ stringify [comida_rara] ++ [9; 13]%N) = Parsed [comida_rara].
Proof. apply (JSON_roundtrip [comida_rara] [32; 10]%N [9; 13]%N); by repeat constructor. Defined.

(** A value with an object in an array in an object, an empty array, an
    empty object and a key that needs escaping. *)
Definition valor_anidado : json :=
  JObject [(lit "a", JArray [JObject [(nombre comida_rara, JNull)]; JArray []; JBool false]);
           (lit "b", JObject [])].

Lemma print_roundtrip_witness :
  parse_text ([32; 10]%N ++ print valor_anidado ++ [9]%N) = POk valor_anidado.
Proof. apply (print_roundtrip valor_anidado [32; 10]%N [9]%N); by repeat constructor. Defined.

Lemma quote_roundtrip_witness :
  parse_value 1 ([32]%N ++ quote (nombre comida_rara) ++ lit ",") 
  = POk (JString (nombre comida_rara), lit ",")
  ∧ head (quote (nombre comida_rara)) = Some 34%N
  ∧ last (quote (nombre comida_rara)) = Some 34%N.
Proof. apply (quote_roundtrip (nombre comida_rara) [32]%N (lit ",")); by repeat constructor. Defined.

Lemma stringify_inj_witness : [comida_rara] = [comida_rara].
Proof. apply (stringify_inj [comida_rara] [comida_rara]). reflexivity. Defined.

(** Texts [JSON.parse] rejects with a [SyntaxError] (truncated,
    trailing comma, trailing garbage, misspelt literal, leading zero, empty
    text), JSON values that are not a list of meals, and an empty array
    with blanks around it. *)
Example parse_rechaza :
  parse (lit "[{") = SyntaxError ∧ parse (lit "[1,]") = SyntaxError
  ∧ parse (lit "[] x") = SyntaxError ∧ parse (lit "nul") = SyntaxError
  ∧ parse (lit "01") = SyntaxError ∧ parse [] = SyntaxError
  ∧ parse (lit "{}") = ShapeError ∧ parse (lit "[1]") = ShapeError
  ∧ parse (lit "null") = ShapeError ∧ parse (lit " [ ] ") = Parsed [].
Proof. by vm_compute. Qed.

End witnesses.
