(* ===== verification/Browser.v ===== *)
(** * The browser, as one event handler of the script sees it

    The state a handler of [src/scripts.js] reads and writes (the two Web
    Storage areas, the four DOM nodes the script looks up by id, the dialogs
    shown, the clock, the room of [localStorage]), and the monad [JS] in
    which a handler runs: state passing, with uncaught exceptions as abrupt
    completions that keep the state reached.  Every primitive the script
    calls on the platform is an operation of this file. *)

From S2P Require Import Prelude JsString.

(** ** State *)

(** A storage area: [getItem] of a missing key is [null]. *)
Abbreviation Storage := (gmap (list N) (list N)) (only parsing).

(** One [div] appended to the list container: the two properties the script
    assigns. *)
Record Elemento := mkElemento {
  className : jsstring;
  innerHTML : jsstring;
}.

#[global] Instance Elemento_eq_dec : EqDecision Elemento.
Proof. solve_decision. Defined.

(** The nodes the script looks up with [getElementById]: the text of
    [#total-comidas] and [#restantes-comidas], the children of
    [#lista-comidas], the value of [#input-comida]. *)
Record Dom := mkDom {
  total_comidas : jsstring;
  restantes_comidas : jsstring;
  lista_comidas : list Elemento;
  input_comida : jsstring;
}.

#[global] Instance Dom_eq_dec : EqDecision Dom.
Proof. solve_decision. Defined.

(** A modal dialog shown to the user: [alert(mensaje)], or [prompt(pregunta)]
    with what it returned ([None] when the user cancels). *)
Inductive Dialogo :=
| Alert (mensaje : jsstring)
| Prompt (pregunta : jsstring) (respuesta : option jsstring).

#[global] Instance Dialogo_eq_dec : EqDecision Dialogo.
Proof. solve_decision. Defined.

(** The event listeners the script registers (lines 147, 150, 161). *)
Inductive Oyente :=
| OyenteAgregar
| OyenteLista
| OyenteStorage.

#[global] Instance Oyente_eq_dec : EqDecision Oyente.
Proof. solve_decision. Defined.

(** What a handler runs against.  [localStorage] is shared by the tabs of the
    origin and [now] is the clock; the rest belongs to the tab.  [cuota] is
    the room the browser gives [localStorage], in code units of keys and
    values; [None] is a browser that never refuses. *)
Record Env := mkEnv {
  localStorage : Storage;
  sessionStorage : Storage;
  dom : Dom;
  ui : list Dialogo;
  now : N;
  oyentes : list Oyente;
  cuota : option nat;
}.

#[global] Instance Env_eq_dec : EqDecision Env.
Proof. solve_decision. Defined.

Section updates.
Implicit Types (e : Env) (d : Dom).

Definition with_localStorage (f : Storage → Storage) e : Env :=
  mkEnv (f (localStorage e)) (sessionStorage e) (dom e) (ui e) (now e) (oyentes e) (cuota e).

Definition with_sessionStorage (f : Storage → Storage) e : Env :=
  mkEnv (localStorage e) (f (sessionStorage e)) (dom e) (ui e) (now e) (oyentes e) (cuota e).

Definition with_dom (f : Dom → Dom) e : Env :=
  mkEnv (localStorage e) (sessionStorage e) (f (dom e)) (ui e) (now e) (oyentes e) (cuota e).

Definition with_ui (f : list Dialogo → list Dialogo) e : Env :=
  mkEnv (localStorage e) (sessionStorage e) (dom e) (f (ui e)) (now e) (oyentes e) (cuota e).

Definition with_oyentes (f : list Oyente → list Oyente) e : Env :=
  mkEnv (localStorage e) (sessionStorage e) (dom e) (ui e) (now e) (f (oyentes e)) (cuota e).

Definition with_now (t : N) e : Env :=
  mkEnv (localStorage e) (sessionStorage e) (dom e) (ui e) t (oyentes e) (cuota e).

Definition with_cuota (q : option nat) e : Env :=
  mkEnv (localStorage e) (sessionStorage e) (dom e) (ui e) (now e) (oyentes e) q.

(** The code units a storage area holds: those of its keys and values. *)
Definition tamano (s : Storage) : nat :=
  map_fold (λ k v n, length k + length v + n) 0 s.

(** [setItem(key, value)] fits in the room of [localStorage]. *)
Definition cabe (key value : jsstring) e : Prop :=
  match cuota e with
  | Some q => tamano (<[key := value]> (localStorage e)) ≤ q
  | None => True
  end.

#[global] Instance cabe_dec key value e : Decision (cabe key value e).
Proof. unfold cabe. destruct (cuota e); apply _. Defined.

Definition set_total_comidas (s : jsstring) d : Dom :=
  mkDom s (restantes_comidas d) (lista_comidas d) (input_comida d).

Definition set_restantes_comidas (s : jsstring) d : Dom :=
  mkDom (total_comidas d) s (lista_comidas d) (input_comida d).

Definition set_lista_comidas (l : list Elemento) d : Dom :=
  mkDom (total_comidas d) (restantes_comidas d) l (input_comida d).

Definition set_input_comida (s : jsstring) d : Dom :=
  mkDom (total_comidas d) (restantes_comidas d) (lista_comidas d) s.

End updates.

(** ** The monad of handlers *)

(** What an uncaught exception carries: the [SyntaxError] of [JSON.parse],
    the [TypeError] of a property access on [undefined] or [null] or of a
    call of a method that is missing, or the [QuotaExceededError] of
    [localStorage.setItem].  [ExnShape] is no exception of JavaScript: the
    handlers over lists of meals stop with it at a stored value that is not
    a list of meals, where the handlers of [Dinamico] go on. *)
Inductive exn :=
| ExnSyntaxError
| ExnShape
| ExnTypeError
| ExnQuota.

#[global] Instance exn_eq_dec : EqDecision exn.
Proof. solve_decision. Defined.

(** How a computation completes. *)
Inductive completion (A : Type) :=
| Normal (a : A)
| Abrupt (x : exn).
Arguments Normal {A} a.
Arguments Abrupt {A} x.

#[global] Instance completion_eq_dec `{EqDecision A} : EqDecision (completion A).
Proof. solve_decision. Defined.

(** A computation of a handler. *)
Definition JS (A : Type) : Type := Env → completion A * Env.

#[global] Instance JS_ret : MRet JS := λ A a e, (Normal a, e).

#[global] Instance JS_bind : MBind JS := λ A B f m e,
  match m e with
  | (Normal a, e') => f a e'
  | (Abrupt x, e') => (Abrupt x, e')
  end.

Section monad.
Context {A B : Type}.

(** [throw x] ends the handler. *)
Definition throw (x : exn) : JS A := λ e, (Abrupt x, e).

Definition gets (f : Env → A) : JS A := λ e, (Normal (f e), e).

Definition modify (f : Env → Env) : JS unit := λ e, (Normal tt, f e).

(** [array.forEach(f)]. *)
Fixpoint forEach (l : list A) (f : A → JS unit) : JS unit :=
  match l with
  | [] => mret tt
  | x :: l' => f x ;; forEach l' f
  end.

(** The state a computation leaves, and its completion. *)
Definition exec (m : JS A) (e : Env) : Env := snd (m e).
Definition result (m : JS A) (e : Env) : completion A := fst (m e).

End monad.

(** A handler started in [e] has run to its end, or has stopped at
    [QuotaExceededError] in a browser that sets a quota: no other exception
    was thrown. *)
Definition completa (e : Env) (res : completion unit) : Prop :=
  res = Normal tt ∨ (res = Abrupt ExnQuota ∧ cuota e ≠ None).

(** ** Platform operations *)

Section platform.

(** [localStorage.getItem(key)]. *)
Definition localStorage_getItem (key : jsstring) : JS (option jsstring) :=
  gets (λ e, localStorage e !! key).

(** [localStorage.setItem(key, value)]: the value is stored if there is room
    for it, and [QuotaExceededError] is thrown, with nothing stored, if
    there is not. *)
Definition localStorage_setItem (key value : jsstring) : JS unit :=
  hay_sitio ← gets (λ e, bool_decide (cabe key value e));
  if hay_sitio : bool then modify (with_localStorage <[key:=value]>)
  else throw ExnQuota.

(** [sessionStorage.getItem(key)]. *)
Definition sessionStorage_getItem (key : jsstring) : JS (option jsstring) :=
  gets (λ e, sessionStorage e !! key).

(** [sessionStorage.setItem(key, value)].  The area is taken to have room for
    the one short message the script keeps in it. *)
Definition sessionStorage_setItem (key value : jsstring) : JS unit :=
  modify (with_sessionStorage <[key:=value]>).

(** [sessionStorage.removeItem(key)]. *)
Definition sessionStorage_removeItem (key : jsstring) : JS unit :=
  modify (with_sessionStorage (delete key)).

(** [alert(mensaje)]. *)
Definition alert (mensaje : jsstring) : JS unit :=
  modify (with_ui (λ l, l ++ [Alert mensaje])).

(** [prompt(pregunta)] returning [respuesta]. *)
Definition prompt (pregunta : jsstring) (respuesta : option jsstring)
    : JS (option jsstring) :=
  modify (with_ui (λ l, l ++ [Prompt pregunta respuesta])) ;; mret respuesta.

(** [Date.now()]. *)
Definition Date_now : JS N := gets now.

(** [document.getElementById('total-comidas').textContent = n]: the number is
    converted to its decimal text. *)
Definition set_textContent_total (n : nat) : JS unit :=
  modify (with_dom (set_total_comidas (number_toString (N.of_nat n)))).

(** [document.getElementById('restantes-comidas').textContent = n]. *)
Definition set_textContent_restantes (n : nat) : JS unit :=
  modify (with_dom (set_restantes_comidas (number_toString (N.of_nat n)))).

(** [contenedor.innerHTML = ''] on [#lista-comidas]: the node loses its
    children. *)
Definition lista_clear : JS unit := modify (with_dom (set_lista_comidas [])).

(** [contenedor.appendChild(item)]. *)
Definition lista_appendChild (item : Elemento) : JS unit :=
  modify (with_dom (λ d, set_lista_comidas (lista_comidas d ++ [item]) d)).

(** [input.value] of [#input-comida]. *)
Definition input_value : JS jsstring := gets (λ e, input_comida (dom e)).

(** [input.value = s]. *)
Definition set_input_value (s : jsstring) : JS unit :=
  modify (with_dom (set_input_comida s)).

(** [target.addEventListener(type, listener)] for one of the three listeners
    of the script. *)
Definition addEventListener (o : Oyente) : JS unit :=
  modify (with_oyentes (λ l, l ++ [o])).

End platform.

(** ** Running computations *)

Section run.
Context {A B : Type}.
Implicit Types (m : JS A) (f : A → JS B) (e : Env).

Lemma run_bind m f e :
  (m ≫= f) e = match m e with
               | (Normal a, e') => f a e'
               | (Abrupt x, e') => (Abrupt x, e')
               end.
Proof. done. Qed.

Lemma run_ret (a : A) e : (mret a : JS A) e = (Normal a, e).
Proof. done. Qed.

Lemma run_bind_normal m f e a e' : m e = (Normal a, e') → (m ≫= f) e = f a e'.
Proof. intros Hm. by rewrite run_bind, Hm. Qed.

Lemma run_bind_abrupt m f e x e' :
  m e = (Abrupt x, e') → (m ≫= f) e = (Abrupt x, e').
Proof. intros Hm. by rewrite run_bind, Hm. Qed.

Lemma run_throw x e : throw (A:=A) x e = (Abrupt x, e).
Proof. done. Qed.

Lemma run_gets (g : Env → A) e : gets g e = (Normal (g e), e).
Proof. done. Qed.

End run.

Lemma run_modify g e : modify g e = (Normal tt, g e).
Proof. done. Qed.

(** [forEach] with a body that only changes the state is a left fold. *)
Lemma run_forEach_modify {A} (l : list A) (g : A → Env → Env) e :
  forEach l (λ x, modify (g x)) e = (Normal tt, foldl (λ e x, g x e) e l).
Proof.
  revert e. induction l as [|x l IH]; intros e; [done|].
  cbn [forEach foldl]. by rewrite run_bind, run_modify, IH.
Qed.

#[export] Hint Rewrite @run_bind @run_ret @run_throw @run_gets run_modify : js.

(** ** [setItem] and the room of the store *)

Section cuota.
Implicit Types (e : Env) (key value : jsstring).

Lemma localStorage_setItem_cabe key value e :
  cabe key value e →
  localStorage_setItem key value e = (Normal tt, with_localStorage <[key:=value]> e).
Proof.
  intros Hc. unfold localStorage_setItem.
  by rewrite run_bind, run_gets, bool_decide_eq_true_2.
Qed.

Lemma localStorage_setItem_lleno key value e :
  ¬ cabe key value e → localStorage_setItem key value e = (Abrupt ExnQuota, e).
Proof.
  intros Hc. unfold localStorage_setItem.
  by rewrite run_bind, run_gets, bool_decide_eq_false_2.
Qed.

(** A browser that never refuses. *)
Lemma cabe_sin_cuota key value e : cuota e = None → cabe key value e.
Proof. intros Hq. unfold cabe. by rewrite Hq. Qed.

Lemma lleno_cuota key value e : ¬ cabe key value e → cuota e ≠ None.
Proof. intros Hc Hq. by apply Hc, cabe_sin_cuota. Qed.

Lemma completa_normal e : completa e (Normal tt).
Proof. by left. Qed.

(** In a browser that never refuses, a handler that completes ends
    normally. *)
Lemma completa_sin_cuota e res : cuota e = None → completa e res → res = Normal tt.
Proof. by intros Hq [?|[_ ?]]. Qed.

(** Room depends on the store and the quota only. *)
Lemma cabe_ext key value e1 e2 :
  localStorage e1 = localStorage e2 → cuota e1 = cuota e2 →
  cabe key value e1 → cabe key value e2.
Proof. unfold cabe. by intros -> ->. Qed.

Lemma tamano_insert (s : Storage) key value :
  tamano (<[key := value]> s) = length key + length value + tamano (delete key s).
Proof.
  unfold tamano. rewrite <-insert_delete_eq.
  rewrite map_fold_insert_L; [done|intros; lia|apply lookup_delete_eq].
Qed.

End cuota.

(** ** Projections of updated states *)

Section projections.
Implicit Types (e : Env) (d : Dom).

Lemma localStorage_with_sessionStorage f e :
  localStorage (with_sessionStorage f e) = localStorage e.
Proof. done. Qed.
Lemma localStorage_with_dom f e : localStorage (with_dom f e) = localStorage e.
Proof. done. Qed.
Lemma localStorage_with_ui f e : localStorage (with_ui f e) = localStorage e.
Proof. done. Qed.
Lemma localStorage_with_localStorage f e :
  localStorage (with_localStorage f e) = f (localStorage e).
Proof. done. Qed.

Lemma sessionStorage_with_localStorage f e :
  sessionStorage (with_localStorage f e) = sessionStorage e.
Proof. done. Qed.
Lemma sessionStorage_with_dom f e : sessionStorage (with_dom f e) = sessionStorage e.
Proof. done. Qed.
Lemma sessionStorage_with_ui f e : sessionStorage (with_ui f e) = sessionStorage e.
Proof. done. Qed.
Lemma sessionStorage_with_sessionStorage f e :
  sessionStorage (with_sessionStorage f e) = f (sessionStorage e).
Proof. done. Qed.

End projections.

#[export] Hint Rewrite localStorage_with_sessionStorage localStorage_with_dom
  localStorage_with_ui localStorage_with_localStorage
  sessionStorage_with_localStorage sessionStorage_with_dom sessionStorage_with_ui
  sessionStorage_with_sessionStorage : js.

(** [js_unfold] exposes the platform operations as [gets] and [modify]. *)
Ltac js_unfold :=
  unfold localStorage_getItem, sessionStorage_getItem,
    sessionStorage_setItem, sessionStorage_removeItem, alert, prompt, Date_now,
    set_textContent_total, set_textContent_restantes, lista_clear,
    lista_appendChild, input_value, set_input_value, addEventListener in *.

(** [js_run] runs a computation symbolically as far as rewriting goes. *)
Ltac js_run :=
  js_unfold;
  repeat first
    [ progress autorewrite with js
    | progress cbn beta iota ].
