(* ===== verification/Valor.v ===== *)
(** * JavaScript values read from the store

    What [JSON.parse] returns for any JSON text and what the script does
    with such a value: the creation of the properties of an object (a
    repeated key keeps its first place and its last value; array indices
    come first, in ascending order), property reads ([c.id], [c.nombre],
    [c.seleccionadoPor]) and their [TypeError] on [null], the assignment of
    line 112, ToBoolean, the ToString of a template literal, and
    [JSON.stringify] of a value.  Nothing here assumes the stored value is
    a list of meals.  Numbers are kept as the lexeme that was read; what
    ECMAScript makes of a number is the interface [Numeros]. *)

From S2P Require Import Prelude JsString Comida Json Browser.

(** What the script can observe of the number a lexeme denotes: its decimal
    text (Number::toString), whether it is truthy (neither zero nor NaN),
    and whether it is finite ([1e999] is not). *)
Class Numeros := {
  Number_toString : jsstring → jsstring;
  Number_truthy : jsstring → bool;
  Number_finite : jsstring → bool;
}.

(** A value, or [undefined]. *)
Abbreviation valor := (option json).

Section valores.
Context `{!Numeros}.
Implicit Types (j v c : json) (k s : jsstring) (o : list (jsstring * json)).
Implicit Types (n : N).

(** ** Objects *)

(** The number a string of decimal digits denotes. *)
Definition valor_decimal (s : jsstring) : N := foldl (λ n (d : code_unit), 10 * n + (d - 48))%N 0%N s.

(** The array index a property key is, if it is one: the canonical decimal
    text of an integer below [2^32 - 1]. *)
Definition indice k : option N :=
  let n := valor_decimal k in
  if decide (number_toString n = k ∧ (n < 4294967295)%N) then Some n else None.

(** The value of an existing property is replaced where it stands. *)
Definition reemplazar k v o : list (jsstring * json) :=
  (λ kv, if decide (kv.1 = k) then (k, v) else kv) <$> o.

(** A new property whose key is the array index [n] goes before the first
    property that is not a smaller index. *)
Fixpoint insertar_indice n k v o : list (jsstring * json) :=
  match o with
  | [] => [(k, v)]
  | kv :: o' =>
    match indice kv.1 with
    | Some n' => if (n' <? n)%N then kv :: insertar_indice n k v o' else (k, v) :: o
    | None => (k, v) :: o
    end
  end.

(** CreateDataProperty on an ordinary object, whose properties are listed in
    the order [JSON.stringify] enumerates them. *)
Definition definir_propiedad k v o : list (jsstring * json) :=
  if decide (k ∈ o.*1) then reemplazar k v o
  else match indice k with
       | Some n => insertar_indice n k v o
       | None => o ++ [(k, v)]
       end.

(** The object [JSON.parse] builds from the members of an object text, in
    the order of the text. *)
Definition objeto_de (miembros : list (jsstring * json)) : list (jsstring * json) :=
  foldl (λ o kv, definir_propiedad kv.1 kv.2 o) [] miembros.

(** The value [JSON.parse] builds from a parsed text. *)
Fixpoint crear j : json :=
  match j with
  | JArray l => JArray (map crear l)
  | JObject l => JObject (objeto_de (map (λ kv, (fst kv, crear (snd kv))) l))
  | _ => j
  end.

(** [JSON.parse(text)] (line 13), for any text. *)
Definition JSON_parse_valor (text : jsstring) : JS json :=
  match parse_text text with
  | POk j => mret (crear j)
  | PErr | PFuel => throw ExnSyntaxError
  end.

(** What [JSON.stringify] serialises: a finite number as its decimal text,
    any other number as [null]. *)
Fixpoint serializable j : json :=
  match j with
  | JNumber lexeme =>
    if Number_finite lexeme then JNumber (Number_toString lexeme) else JNull
  | JArray l => JArray (map serializable l)
  | JObject l => JObject (map (λ kv, (fst kv, serializable (snd kv))) l)
  | _ => j
  end.

(** [JSON.stringify(valor)] (line 21). *)
Definition JSON_stringify_valor j : jsstring := print (serializable j).

(** ** Reads, writes and conversions *)

(** A step that throws [TypeError] when it has no result. *)
Definition lanzar {A} (r : option A) : JS A :=
  match r with Some a => mret a | None => throw ExnTypeError end.

(** [c.k] for a key no prototype defines ([id], [nombre],
    [seleccionadoPor]): the own property of an object, [undefined] on any
    other value, no result ([TypeError]) on [null]. *)
Definition Get k c : option valor :=
  match c with
  | JNull => None
  | JObject o => Some (get_property k o)
  | _ => Some None
  end.

(** [c.k = v] (line 112) outside strict mode: the property of an object is
    set or created; on [null] there is no result ([TypeError]); on a
    primitive the assignment is dropped, and on an array it sets a named
    property that is neither read again nor serialised. *)
Definition Set_ k v c : option json :=
  match c with
  | JNull => None
  | JObject o => Some (JObject (definir_propiedad k v o))
  | _ => Some c
  end.

(** ToBoolean: the test of [?:], [if] and [!]. *)
Definition ToBoolean (x : valor) : bool :=
  match x with
  | None | Some JNull => false
  | Some (JBool b) => b
  | Some (JNumber lexeme) => Number_truthy lexeme
  | Some (JString s) => truthy s
  | Some (JArray _) | Some (JObject _) => true
  end.

(** The key that hides [Object.prototype.toString]. *)
Definition key_toString : jsstring := Eval vm_compute in lit "toString".

(** ToString of a value: an array is the texts of its elements joined by
    commas ([null] counting as the empty text), an object is
    [[object Object]] unless it has a property [toString] of its own, which
    is not callable: then there is no result ([TypeError]). *)
Fixpoint ToString_json j : option jsstring :=
  match j with
  | JNull => Some (lit "null")
  | JBool true => Some (lit "true")
  | JBool false => Some (lit "false")
  | JNumber lexeme => Some (Number_toString lexeme)
  | JString s => Some s
  | JArray l =>
    join_comma <$>
      (fix partes (l : list json) : option (list jsstring) :=
         match l with
         | [] => Some []
         | x :: l' =>
           p ← match x with JNull => Some [] | _ => ToString_json x end;
           ps ← partes l';
           Some (p :: ps)
         end) l
  | JObject o =>
    if decide (key_toString ∈ o.*1) then None else Some (lit "[object Object]")
  end.

(** [${x}] in a template literal. *)
Definition ToString (x : valor) : option jsstring :=
  match x with
  | None => Some (lit "undefined")
  | Some j => ToString_json j
  end.

(** [x === s] for a string [s]. *)
Definition es_cadena (s : jsstring) (x : valor) : bool :=
  match x with
  | Some (JString t) => bool_decide (t = s)
  | _ => false
  end.

(** [comidas.forEach], [comidas.push], [comidas.filter], [comidas.findIndex]:
    the methods of [Array.prototype] exist on arrays only; calling one on
    any other value throws [TypeError]. *)
Definition metodo_de_array (comidas : json) : JS (list json) :=
  match comidas with
  | JArray elementos => mret elementos
  | _ => throw ExnTypeError
  end.

(** [array.filter(f)] for a callback that may throw. *)
Fixpoint filtrar (f : json → option bool) (l : list json) : option (list json) :=
  match l with
  | [] => Some []
  | x :: l' =>
    b ← f x;
    r ← filtrar f l';
    Some (if b : bool then x :: r else r)
  end.

(** [array.findIndex(f)] for a callback that may throw; [Some None] is
    [-1]. *)
Fixpoint buscar (f : json → option bool) (l : list json) : option (option nat) :=
  match l with
  | [] => Some None
  | x :: l' =>
    match f x with
    | Some true => Some (Some 0)
    | Some false => option_map (option_map S) (buscar f l')
    | None => None
    end
  end.

(** ** Well-formed objects *)

(** The key [k1] can stand before the key [k2] in an object: they differ,
    and an array index comes before any other key and before any larger
    index. *)
Definition puede_seguir (k1 k2 : jsstring) : bool :=
  bool_decide (k1 ≠ k2)
  && match indice k1, indice k2 with
     | Some n1, Some n2 => (n1 <? n2)%N
     | Some _, None => true
     | None, Some _ => false
     | None, None => true
     end.

(** The keys of an object as ECMAScript enumerates them: no key twice,
    array indices first and ascending, the others in creation order. *)
Fixpoint claves_ok (ks : list jsstring) : bool :=
  match ks with
  | [] => true
  | k :: ks' => forallb (puede_seguir k) ks' && claves_ok ks'
  end.

(** Every object in the value has its keys in order. *)
Fixpoint bien_formado j : bool :=
  match j with
  | JArray l => forallb bien_formado l
  | JObject l => claves_ok l.*1 && forallb (λ kv, bien_formado (snd kv)) l
  | _ => true
  end.

(** The value is an array. *)
Definition es_array (j : json) : bool :=
  match j with JArray _ => true | _ => false end.

End valores.

(** ECMAScript's numbers on the lexemes of integers written without
    fraction or exponent and below [2^53]: the text of such a number is its
    lexeme, but for [-0]. *)
Definition numeros_enteros : Numeros := {|
  Number_toString lx := if decide (lx = [45; 48]%N) then [48%N] else lx;
  Number_truthy lx := bool_decide (lx ≠ [48%N] ∧ lx ≠ [45; 48]%N);
  Number_finite _ := true;
|}.

(** ** Lemmas *)

Section lemmas.
Context `{!Numeros}.
Implicit Types (j v c : json) (k s : jsstring) (o : list (jsstring * json)).
Implicit Types (m : Comida) (l : list Comida) (q : option jsstring).

Lemma lanzar_Some {A} (a : A) e : lanzar (Some a) e = (Normal a, e).
Proof. done. Qed.

Lemma lanzar_None {A} e : lanzar (A:=A) None e = (Abrupt ExnTypeError, e).
Proof. done. Qed.

Lemma metodo_de_array_run (elementos : list json) e :
  metodo_de_array (JArray elementos) e = (Normal elementos, e).
Proof. done. Qed.

Lemma metodo_de_array_bind {B} (elementos : list json) (f : list json → JS B) e :
  (metodo_de_array (JArray elementos) ≫= f) e = f elementos e.
Proof. done. Qed.

Lemma lanzar_bind {A B} (a : A) (f : A → JS B) e : (lanzar (Some a) ≫= f) e = f a e.
Proof. done. Qed.

(** A value that is not an array has none of the methods the script calls
    on the list. *)
Lemma metodo_de_array_ajeno j e :
  es_array j = false → metodo_de_array j e = (Abrupt ExnTypeError, e).
Proof. by destruct j. Qed.

(** *** The values the script writes *)

Lemma crear_json_of_option q : crear (json_of_option q) = json_of_option q.
Proof. by destruct q. Qed.

Lemma crear_json_of_comida m : crear (json_of_comida m) = json_of_comida m.
Proof. unfold json_of_comida. cbn [crear map fst snd]. by rewrite crear_json_of_option. Qed.

(** [JSON.parse] builds the list of meals as it was written. *)
Lemma crear_json_of_comidas l : crear (json_of_comidas l) = json_of_comidas l.
Proof.
  unfold json_of_comidas. cbn [crear]. f_equal.
  induction l as [|m l IH]; [done|].
  rewrite fmap_cons. cbn [map]. by rewrite crear_json_of_comida, IH.
Qed.

Lemma serializable_json_of_comida m :
  serializable (json_of_comida m) = json_of_comida m.
Proof. unfold json_of_comida. by destruct (seleccionadoPor m). Qed.

(** [JSON.stringify] of a list of meals is the text of [stringify]. *)
Lemma JSON_stringify_valor_comidas l :
  JSON_stringify_valor (json_of_comidas l) = stringify l.
Proof.
  unfold JSON_stringify_valor, stringify, json_of_comidas. cbn [serializable].
  do 2 f_equal. induction l as [|m l IH]; [done|].
  rewrite fmap_cons. cbn [map]. by rewrite serializable_json_of_comida, IH.
Qed.

(** Reading the properties of a meal. *)
Lemma Get_id m : Get key_id (json_of_comida m) = Some (Some (JString (id m))).
Proof. done. Qed.

Lemma Get_nombre m :
  Get key_nombre (json_of_comida m) = Some (Some (JString (nombre m))).
Proof. done. Qed.

Lemma Get_seleccionadoPor m :
  Get key_seleccionadoPor (json_of_comida m)
  = Some (Some (json_of_option (seleccionadoPor m))).
Proof. done. Qed.

Lemma ToBoolean_json_of_option q : ToBoolean (Some (json_of_option q)) = truthy_opt q.
Proof. by destruct q. Qed.

Lemma ToString_json_of_option q :
  ToString (Some (json_of_option q)) = Some (match q with Some s => s | None => lit "null" end).
Proof. by destruct q. Qed.

(** The assignment of line 112 on a meal. *)
Lemma Set_seleccionadoPor s m :
  Set_ key_seleccionadoPor (JString s) (json_of_comida m)
  = Some (json_of_comida (set_seleccionadoPor s m)).
Proof. done. Qed.

Lemma es_cadena_id s m :
  es_cadena s (Some (JString (id m))) = bool_decide (id m = s).
Proof. done. Qed.

End lemmas.

(** ** Properties of objects *)

Section objetos.
Context `{!Numeros}.
Implicit Types (j v : json) (k : jsstring) (o : list (jsstring * json)).
Implicit Types (ks : list jsstring) (n : N).

(** *** Reading after writing *)

Lemma get_property_None k o : get_property k o = None ↔ k ∉ o.*1.
Proof.
  induction o as [|[k' v] o IH].
  - split; [intros _; apply not_elem_of_nil|done].
  - cbn [get_property]. rewrite fmap_cons, not_elem_of_cons. cbn [fst].
    destruct (get_property k o) as [w|].
    + split; [done|]. intros [_ Hn]. by apply IH in Hn.
    + case_decide as He.
      * split; [done|]. by intros [Hn _].
      * split; [|done]. intros _. split; [congruence|by apply IH].
Qed.

Lemma get_property_snoc k k' v o :
  get_property k' (o ++ [(k, v)])
  = if decide (k' = k) then Some v else get_property k' o.
Proof.
  induction o as [|[k1 v1] o IH].
  - cbn. by repeat case_decide.
  - cbn [app get_property]. rewrite IH. case_decide; [done|].
    by destruct (get_property k' o).
Qed.

Lemma get_property_reemplazar k k' v o :
  get_property k' (reemplazar k v o)
  = if decide (k' = k) then (if decide (k ∈ o.*1) then Some v else None)
    else get_property k' o.
Proof.
  unfold reemplazar. induction o as [|[k1 v1] o IH].
  - cbn. case_decide; [|done]. by rewrite decide_False by apply not_elem_of_nil.
  - rewrite !fmap_cons. cbn [fst].
    destruct (decide (k1 = k)) as [->|Hk1]; cbn [get_property]; rewrite IH.
    + destruct (decide (k' = k)) as [->|Hk'].
      * rewrite (decide_True (P := k = k)) by done.
        rewrite (decide_True (P := k ∈ k :: _)) by apply list_elem_of_here.
        by destruct (decide (k ∈ o.*1)).
      * destruct (get_property k' o); [done|]. by rewrite !decide_False by congruence.
    + destruct (decide (k' = k)) as [->|Hk']; [|done].
      destruct (decide (k ∈ o.*1)) as [Ho|Ho].
      * by rewrite decide_True by by apply list_elem_of_further.
      * rewrite decide_False by done.
        rewrite decide_False; [done|]. by intros [?|?]%elem_of_cons.
Qed.

Lemma get_property_cons_nuevo k k' v o :
  k ∉ o.*1 →
  get_property k' ((k, v) :: o) = if decide (k' = k) then Some v else get_property k' o.
Proof.
  intros Ho. cbn [get_property]. destruct (decide (k' = k)) as [->|Hne].
  - by rewrite (proj2 (get_property_None k o) Ho), decide_True.
  - destruct (get_property k' o); [done|]. by rewrite decide_False by congruence.
Qed.

Lemma get_property_insertar_indice n k k' v o :
  k ∉ o.*1 →
  get_property k' (insertar_indice n k v o)
  = if decide (k' = k) then Some v else get_property k' o.
Proof.
  induction o as [|[k1 v1] o IH]; intros Hk; [by apply get_property_cons_nuevo|].
  cbn [insertar_indice fst].
  destruct (indice k1) as [n1|]; [|by apply get_property_cons_nuevo].
  destruct (n1 <? n)%N; [|by apply get_property_cons_nuevo].
  rewrite fmap_cons in Hk. apply not_elem_of_cons in Hk as [Hne Ho].
  cbn [get_property]. rewrite (IH Ho).
  destruct (decide (k' = k)) as [->|]; [done|]. done.
Qed.

(** A property that has been set reads back as the value set, and every
    other property reads as before. *)
Lemma get_property_definir k k' v o :
  get_property k' (definir_propiedad k v o)
  = if decide (k' = k) then Some v else get_property k' o.
Proof.
  unfold definir_propiedad. case_decide as Hk.
  { rewrite get_property_reemplazar. by rewrite (decide_True (P := k ∈ _)). }
  destruct (indice k) as [n|]; [by apply get_property_insertar_indice|].
  apply get_property_snoc.
Qed.

(** *** The order of the keys *)

Lemma indice_Some k n : indice k = Some n → k = number_toString n.
Proof. unfold indice. case_decide as Hk; [|done]. intros [= <-]. symmetry. apply Hk. Qed.

Lemma puede_seguir_spec k1 k2 :
  puede_seguir k1 k2 ↔
  k1 ≠ k2 ∧ match indice k1, indice k2 with
            | Some n1, Some n2 => (n1 < n2)%N
            | Some _, None => True
            | None, Some _ => False
            | None, None => True
            end.
Proof.
  unfold puede_seguir. rewrite andb_True, bool_decide_spec.
  destruct (indice k1), (indice k2); try done.
  by rewrite Is_true_true, N.ltb_lt.
Qed.

Lemma puede_seguir_trans k1 k2 k3 :
  puede_seguir k1 k2 → puede_seguir k2 k3 → k1 ≠ k3 → puede_seguir k1 k3.
Proof.
  rewrite !puede_seguir_spec. intros [_ H12] [_ H23] Hne. split; [done|].
  destruct (indice k1), (indice k2), (indice k3); try done. lia.
Qed.

(** After every array index comes what can come after a larger one. *)
Lemma puede_seguir_menor k k1 k2 n n1 :
  indice k = Some n → indice k1 = Some n1 → (n ≤ n1)%N →
  puede_seguir k1 k2 → k ≠ k2 → puede_seguir k k2.
Proof.
  rewrite !puede_seguir_spec. intros -> -> Hle [_ H12] Hne. split; [done|].
  destruct (indice k2); [lia|done].
Qed.

Lemma puede_seguir_indice k k1 k2 n :
  indice k = Some n → indice k1 = None →
  puede_seguir k1 k2 → k ≠ k2 → puede_seguir k k2.
Proof.
  rewrite !puede_seguir_spec. intros -> -> [_ H12] Hne. split; [done|].
  by destruct (indice k2).
Qed.

Lemma reemplazar_claves k v o : (reemplazar k v o).*1 = o.*1.
Proof.
  unfold reemplazar. rewrite <-list_fmap_compose. apply list_fmap_ext.
  intros i [k1 v1] _. cbn. by case_decide.
Qed.

Lemma forallb_insertar_indice (f : jsstring → bool) n k v o :
  forallb f (insertar_indice n k v o).*1 ↔ f k ∧ forallb f o.*1.
Proof.
  induction o as [|[k1 v1] o IH]; [cbn; rewrite andb_True; tauto|].
  cbn [insertar_indice fst].
  destruct (indice k1) as [n1|]; [destruct (n1 <? n)%N|];
    rewrite !fmap_cons; cbn [forallb fst]; rewrite ?andb_True, ?IH; tauto.
Qed.

Lemma claves_ok_cons k ks :
  claves_ok (k :: ks) ↔ Forall (λ k', puede_seguir k k') ks ∧ claves_ok ks.
Proof. cbn [claves_ok]. by rewrite andb_True, forallb_True. Qed.

Lemma claves_ok_snoc ks k :
  claves_ok (ks ++ [k]) ↔ claves_ok ks ∧ Forall (λ k', puede_seguir k' k) ks.
Proof.
  induction ks as [|k1 ks IH]; [by split; [|intros _]; cbn|].
  rewrite <-app_comm_cons, !claves_ok_cons, IH, Forall_app, Forall_singleton, Forall_cons.
  tauto.
Qed.

(** A new array index takes its place among the keys. *)
Lemma claves_ok_insertar_indice n k v o :
  indice k = Some n → k ∉ o.*1 → claves_ok o.*1 → claves_ok (insertar_indice n k v o).*1.
Proof.
  intros Hn. induction o as [|[k1 v1] o IH]; [done|].
  rewrite fmap_cons. cbn [fst]. intros [Hne Hk]%not_elem_of_cons Hok.
  pose proof Hok as [H1 Ho]%claves_ok_cons.
  cbn [insertar_indice fst]. destruct (indice k1) as [n1|] eqn:Hn1.
  - destruct (n1 <? n)%N eqn:Hlt.
    + rewrite fmap_cons. cbn [fst]. apply claves_ok_cons. split; [|by apply IH].
      apply forallb_True, forallb_insertar_indice. split; [|by apply forallb_True].
      apply puede_seguir_spec. split; [done|]. rewrite Hn1, Hn. by apply N.ltb_lt.
    + apply N.ltb_ge in Hlt. rewrite !fmap_cons. cbn [fst]. apply claves_ok_cons.
      split; [|done]. constructor.
      * apply puede_seguir_spec. split; [done|]. rewrite Hn, Hn1.
        enough (n ≠ n1) by lia. intros ->. apply indice_Some in Hn, Hn1. congruence.
      * apply Forall_forall. intros k2 Hk2. rewrite Forall_forall in H1.
        eapply puede_seguir_menor; [done..|by apply H1|]. by intros ->.
  - rewrite !fmap_cons. cbn [fst]. apply claves_ok_cons. split; [|done]. constructor.
    + apply puede_seguir_spec. split; [done|]. by rewrite Hn, Hn1.
    + apply Forall_forall. intros k2 Hk2. rewrite Forall_forall in H1.
      eapply puede_seguir_indice; [done..|by apply H1|]. by intros ->.
Qed.

(** Setting a property keeps the keys of an object in order. *)
Lemma claves_ok_definir k v o : claves_ok o.*1 → claves_ok (definir_propiedad k v o).*1.
Proof.
  intros Hok. unfold definir_propiedad. case_decide as Hk; [by rewrite reemplazar_claves|].
  destruct (indice k) as [n|] eqn:Hn; [by apply claves_ok_insertar_indice|].
  rewrite fmap_app. apply claves_ok_snoc. split; [done|]. apply Forall_forall.
  intros k' Hk'. cbn [fst]. apply puede_seguir_spec. split; [by intros ->|].
  rewrite Hn. by destruct (indice k').
Qed.

Lemma claves_ok_foldl o (miembros : list (jsstring * json)) :
  claves_ok o.*1 →
  claves_ok (foldl (λ o kv, definir_propiedad kv.1 kv.2 o) o miembros).*1.
Proof.
  revert o. induction miembros as [|[k v] l IH]; intros o Ho; [done|].
  cbn [foldl]. by apply IH, claves_ok_definir.
Qed.

(** The object [JSON.parse] builds has its keys in order. *)
Lemma claves_ok_objeto_de (miembros : list (jsstring * json)) :
  claves_ok (objeto_de miembros).*1.
Proof. by apply claves_ok_foldl. Qed.

(** *** The values [JSON.parse] builds *)

Lemma valores_definir (P : json → Prop) k v o :
  P v → Forall (λ kv, P kv.2) o → Forall (λ kv, P kv.2) (definir_propiedad k v o).
Proof.
  intros Hv Ho. unfold definir_propiedad. case_decide as Hk; clear Hk.
  - unfold reemplazar. apply Forall_fmap. eapply Forall_impl; [done|].
    intros [k1 v1] H1. cbn. by case_decide.
  - destruct (indice k) as [n|]; [|by apply Forall_app; split; [|repeat constructor]].
    induction Ho as [|[k1 v1] o H1 Ho IH]; [by repeat constructor|].
    cbn [insertar_indice fst].
    destruct (indice k1); [destruct (_ <? _)%N|]; by repeat constructor.
Qed.

Lemma valores_objeto_de (P : json → Prop) (miembros : list (jsstring * json)) :
  Forall (λ kv, P kv.2) miembros → Forall (λ kv, P kv.2) (objeto_de miembros).
Proof.
  unfold objeto_de. assert (Forall (λ kv : jsstring * json, P kv.2) []) as Ho by constructor.
  revert Ho. generalize ([] : list (jsstring * json)).
  induction miembros as [|[k v] l IH]; intros o Ho Hl; [done|].
  apply Forall_cons in Hl as [Hv Hl]. cbn [foldl]. apply IH; [|done].
  by apply valores_definir.
Qed.

(** A key that can follow every key of an object is appended to it. *)
Lemma definir_final k v o :
  Forall (λ k', puede_seguir k' k) o.*1 → definir_propiedad k v o = o ++ [(k, v)].
Proof.
  intros Ho. unfold definir_propiedad. rewrite decide_False.
  2:{ intros Hk. rewrite Forall_forall in Ho. by apply Ho, puede_seguir_spec in Hk as [? _]. }
  destruct (indice k) as [n|] eqn:Hn; [|done].
  induction o as [|[k1 v1] o IH]; [done|].
  rewrite fmap_cons, Forall_cons in Ho. destruct Ho as [H1 Ho]. cbn [fst] in H1.
  apply puede_seguir_spec in H1 as [_ H1]. rewrite Hn in H1.
  cbn [insertar_indice fst]. destruct (indice k1) as [n1|]; [|done].
  apply N.ltb_lt in H1 as ->. by rewrite (IH Ho).
Qed.

Lemma claves_ok_app_l ks1 ks2 : claves_ok (ks1 ++ ks2) → claves_ok ks1.
Proof.
  induction ks1 as [|k ks1 IH]; [done|].
  rewrite <-app_comm_cons, !claves_ok_cons, Forall_app. by intros [[? _] ?%IH].
Qed.

(** An object whose keys are in order is the object [JSON.parse] builds
    from its members. *)
Lemma objeto_de_id o : claves_ok o.*1 → objeto_de o = o.
Proof.
  unfold objeto_de. change o with ([] ++ o) at 1 3. generalize ([] : list (jsstring * json)).
  induction o as [|[k v] o IH]; intros acc Hok; [by rewrite app_nil_r|].
  cbn [foldl fst snd]. rewrite cons_middle, app_assoc in Hok |- *.
  pose proof Hok as Hacc. rewrite fmap_app in Hacc.
  apply claves_ok_app_l in Hacc. rewrite fmap_app in Hacc.
  apply claves_ok_snoc in Hacc as [_ Hacc].
  rewrite (definir_final k v acc Hacc). by apply IH.
Qed.

(** [JSON.parse] builds well-formed values. *)
Lemma crear_bien_formado j : bien_formado (crear j).
Proof.
  induction j as [| | | |l IH|l IH] using json_ind_anidado; try done.
  - cbn [crear bien_formado]. rewrite map_fmap. by apply forallb_True, Forall_fmap.
  - cbn [crear bien_formado]. apply andb_True. split; [apply claves_ok_objeto_de|].
    apply forallb_True. apply (valores_objeto_de (λ v, bien_formado v)).
    rewrite map_fmap. by apply Forall_fmap.
Qed.

(** A value without numbers is serialised as it is. *)
Lemma serializable_sin_numeros j : sin_numeros j → serializable j = j.
Proof.
  induction j as [| | | |l IH|l IH] using json_ind_anidado; try done.
  - cbn [serializable sin_numeros]. intros Hl%forallb_True. f_equal. rewrite map_fmap.
    induction IH as [|x l Hx _ IH]; [done|]. apply Forall_cons in Hl as [??].
    by rewrite fmap_cons, Hx, IH.
  - cbn [serializable sin_numeros]. intros Hl%forallb_True. f_equal. rewrite map_fmap.
    induction IH as [|[k v] l Hx _ IH]; [done|]. apply Forall_cons in Hl as [??].
    rewrite fmap_cons, IH by done. cbn in *. by rewrite Hx.
Qed.

(** A well-formed value is the value [JSON.parse] builds from it. *)
Lemma crear_id j : bien_formado j → crear j = j.
Proof.
  induction j as [| | | |l IH|l IH] using json_ind_anidado; try done.
  - cbn [crear bien_formado]. intros Hl%forallb_True. f_equal. rewrite map_fmap.
    induction IH as [|x l Hx _ IH]; [done|]. apply Forall_cons in Hl as [??].
    by rewrite fmap_cons, Hx, IH.
  - cbn [crear bien_formado]. intros [Hk Hl%forallb_True]%andb_True. f_equal.
    rewrite map_fmap.
    assert ((λ kv : jsstring * json, (kv.1, crear kv.2)) <$> l = l) as ->;
      [|by apply objeto_de_id].
    clear Hk. induction IH as [|[k v] l Hx _ IH]; [done|]. apply Forall_cons in Hl as [??].
    rewrite fmap_cons, IH by done. cbn in *. by rewrite Hx.
Qed.

(** The value the script writes for a meal is well formed. *)
Lemma bien_formado_comida (m : Comida) : bien_formado (json_of_comida m).
Proof. destruct m as [i n [q|]]; by vm_compute. Qed.

Lemma sin_numeros_comida (m : Comida) : sin_numeros (json_of_comida m).
Proof. by destruct m as [i n [q|]]. Qed.

(** What [JSON.stringify] writes for a well-formed value without numbers,
    [JSON.parse] reads back as that value. *)
Lemma JSON_parse_stringify_valor j e :
  sin_numeros j → bien_formado j →
  JSON_parse_valor (JSON_stringify_valor j) e = (Normal j, e).
Proof.
  intros Hn Hb. unfold JSON_parse_valor, JSON_stringify_valor, parse_text.
  rewrite (serializable_sin_numeros j Hn), <-(app_nil_r (print j)).
  rewrite parse_value_print; [|done|].
  - cbn [mbind presult_bind skip_ws]. by rewrite (crear_id j Hb).
  - unfold parse_fuel. pose proof (talla_print j Hn). rewrite app_nil_r. lia.
Qed.

End objetos.

(** ** Properties *)

Section properties.
Context `{!Numeros}.
Implicit Types (v : json) (k : jsstring) (o : list (jsstring * json)).

(** The assignment [c.k = v] on an object and the reads that follow
    it: the property set reads back as [v], every other property reads as
    before, a property the object had keeps its place among the keys, and
    the keys stay as ECMAScript enumerates them (no key twice, array
    indices first and ascending). *)
Theorem propiedad_asignada k k' v o :
  (Set_ k v (JObject o) ≫= Get k'
   = Some (if decide (k' = k) then Some v else get_property k' o))
  ∧ (k ∈ o.*1 → (definir_propiedad k v o).*1 = o.*1)
  ∧ (bien_formado (JObject o) → bien_formado v →
     Set_ k v (JObject o) = Some (JObject (definir_propiedad k v o))
     ∧ bien_formado (JObject (definir_propiedad k v o))).
Proof.
  split_and!.
  - cbn [Set_ Get mbind option_bind]. by rewrite get_property_definir.
  - intros Hk. unfold definir_propiedad. rewrite decide_True by done.
    apply reemplazar_claves.
  - cbn [bien_formado]. intros [Hk Hv%forallb_True]%andb_True Hb. split; [done|].
    apply andb_True. split; [by apply claves_ok_definir|].
    apply forallb_True. by apply (valores_definir (λ v, bien_formado v)).
Qed.

End properties.

(** ** Witnesses *)

Section witnesses.
#[local] Existing Instance numeros_enteros.

(** An object with an array index among its keys. *)
Definition objeto_rarito : list (jsstring * json) :=
  [(lit "2", JNull); (key_id, JString (lit "7"))].

Lemma propiedad_asignada_witness :
  (definir_propiedad key_id (JBool true) objeto_rarito).*1 = objeto_rarito.*1
  ∧ bien_formado (JObject (definir_propiedad (lit "10") (JBool true) objeto_rarito)).
Proof.
  destruct (propiedad_asignada key_id key_id (JBool true) objeto_rarito) as (_ & Hk & _).
  destruct (propiedad_asignada (lit "10") key_id (JBool true) objeto_rarito) as (_ & _ & Hb).
  split; [apply Hk; by apply (bool_decide_unpack _); vm_compute|apply Hb; by vm_compute].
Defined.

(** What [JSON.parse] makes of repeated keys and of array indices: the
    first place and the last value, indices first. *)
Example crear_ordena :
  crear (JObject [(lit "b", JNull); (lit "10", JNull); (lit "b", JBool true);
                  (lit "9", JNull); (lit "01", JNull)])
  = JObject [(lit "9", JNull); (lit "10", JNull); (lit "b", JBool true); (lit "01", JNull)].
Proof. by vm_compute. Qed.

End witnesses.
