(* ===== verification/Store.v ===== *)
(** * Persistent List Store

    [obtenerComidas] and [guardarComidas] of src/scripts.js (lines 1-22): the
    whole list is read from and written to one [localStorage] slot.  A save
    that finds no room throws [QuotaExceededError] and stores nothing.  The
    theorems are proved against the interface [JsonCodec]; the witnesses run
    the concrete codec of [Json]. *)

From S2P Require Import Prelude JsString Comida Json Browser.

(** The keys of the two storage slots (lines 2-3). *)
Definition STORAGE_KEY : jsstring :=
  Eval vm_compute in lit "listaComidasCompartida".
Definition NOTIFICATION_KEY : jsstring :=
  Eval vm_compute in lit "comidaSeleccionadaNotificacion".

Section store.
Context `{!JsonCodec}.
Implicit Types (e : Env) (l comidas : list Comida) (s : jsstring).

(** [JSON.parse(text)] inside a handler: a text that does not parse throws. *)
Definition JSON_parse_js (text : jsstring) : JS (list Comida) :=
  match JSON_parse text with
  | Parsed l => mret l
  | SyntaxError => throw ExnSyntaxError
  | ShapeError => throw ExnShape
  end.

(** [obtenerComidas()] (lines 11-14). *)
Definition obtenerComidas : JS (list Comida) :=
  comidasJson ← localStorage_getItem STORAGE_KEY;
  match comidasJson with
  | Some text => if truthy text then JSON_parse_js text else mret []
  | None => mret []
  end.

(** [guardarComidas(comidas)] (lines 20-22). *)
Definition guardarComidas (comidas : list Comida) : JS unit :=
  localStorage_setItem STORAGE_KEY (JSON_stringify comidas).

(** The store of [e] holds the list [l]: loading returns it. *)
Definition contiene e l : Prop := result obtenerComidas e = Normal l.

(** The state after [guardarComidas(l)]. *)
Definition guardado l e : Env :=
  with_localStorage <[STORAGE_KEY := JSON_stringify l]> e.

(** There is room in [localStorage] for the text of [l]. *)
Definition cabe_lista l e : Prop := cabe STORAGE_KEY (JSON_stringify l) e.

#[global] Instance cabe_lista_dec l e : Decision (cabe_lista l e).
Proof. unfold cabe_lista. apply _. Defined.

(** ** Loading *)

(** Loading never changes the state, whatever it returns. *)
Lemma obtenerComidas_exec e : exec obtenerComidas e = e.
Proof.
  unfold exec, obtenerComidas, JSON_parse_js. js_run.
  destruct (localStorage e !! STORAGE_KEY) as [text|]; [|done].
  destruct (truthy text); [|done]. by destruct (JSON_parse text).
Qed.

Lemma obtenerComidas_run e : obtenerComidas e = (result obtenerComidas e, e).
Proof.
  rewrite <-(obtenerComidas_exec e) at 3. unfold result, exec.
  by destruct (obtenerComidas e).
Qed.

Lemma contiene_run e l : contiene e l → obtenerComidas e = (Normal l, e).
Proof. intros Hl. by rewrite obtenerComidas_run, Hl. Qed.

Lemma obtenerComidas_None e :
  localStorage e !! STORAGE_KEY = None → obtenerComidas e = (Normal [], e).
Proof. intros Hk. unfold obtenerComidas. js_run. by rewrite Hk. Qed.

Lemma obtenerComidas_Some e text :
  localStorage e !! STORAGE_KEY = Some text → text ≠ [] →
  obtenerComidas e = JSON_parse_js text e.
Proof.
  intros Hk Ht%truthy_true. unfold obtenerComidas. js_run. by rewrite Hk, Ht.
Qed.

Lemma obtenerComidas_stringify e l :
  localStorage e !! STORAGE_KEY = Some (JSON_stringify l) →
  obtenerComidas e = (Normal l, e).
Proof.
  intros Hk. unfold obtenerComidas, JSON_parse_js. js_run.
  by rewrite Hk, JSON_stringify_truthy, JSON_parse_stringify.
Qed.

(** What loading returns depends on the stored text only. *)
Lemma obtenerComidas_ext e1 e2 :
  localStorage e1 !! STORAGE_KEY = localStorage e2 !! STORAGE_KEY →
  result obtenerComidas e1 = result obtenerComidas e2.
Proof.
  unfold result, obtenerComidas, JSON_parse_js. js_run.
  intros ->. destruct (localStorage e2 !! STORAGE_KEY) as [text|]; [|done].
  destruct (truthy text); [|done]. by destruct (JSON_parse text).
Qed.

Lemma contiene_ext e1 e2 l :
  localStorage e1 !! STORAGE_KEY = localStorage e2 !! STORAGE_KEY →
  contiene e1 l → contiene e2 l.
Proof. unfold contiene. by intros ->%obtenerComidas_ext. Qed.

Lemma contiene_inj e l1 l2 : contiene e l1 → contiene e l2 → l1 = l2.
Proof. unfold contiene. congruence. Qed.

(** ** Saving *)

Lemma guardarComidas_run l e :
  cabe_lista l e → guardarComidas l e = (Normal tt, guardado l e).
Proof. apply localStorage_setItem_cabe. Qed.

(** With no room for the text, saving throws and stores nothing. *)
Lemma guardarComidas_lleno l e :
  ¬ cabe_lista l e → guardarComidas l e = (Abrupt ExnQuota, e).
Proof. apply localStorage_setItem_lleno. Qed.

Lemma guardarComidas_casos l e :
  guardarComidas l e
  = if decide (cabe_lista l e) then (Normal tt, guardado l e) else (Abrupt ExnQuota, e).
Proof.
  case_decide; [by apply guardarComidas_run|by apply guardarComidas_lleno].
Qed.

Lemma cabe_lista_sin_cuota l e : cuota e = None → cabe_lista l e.
Proof. apply cabe_sin_cuota. Qed.

(** Room for a list depends on the rest of the store and the quota, not on
    the list stored before. *)
Lemma cabe_lista_guardado l1 l2 e : cabe_lista l2 (guardado l1 e) ↔ cabe_lista l2 e.
Proof. unfold cabe_lista, cabe. simpl. by rewrite insert_insert_eq. Qed.

Lemma cabe_lista_ext l e1 e2 :
  localStorage e1 = localStorage e2 → cuota e1 = cuota e2 →
  cabe_lista l e1 → cabe_lista l e2.
Proof. apply cabe_ext. Qed.

Lemma guardado_contiene l e : contiene (guardado l e) l.
Proof.
  unfold contiene, result.
  erewrite obtenerComidas_stringify; [done|]. apply lookup_insert_eq.
Qed.

Lemma guardado_guardado l1 l2 e : guardado l2 (guardado l1 e) = guardado l2 e.
Proof. unfold guardado, with_localStorage. simpl. by rewrite insert_insert_eq. Qed.

Lemma guardado_lookup_ne l e k :
  k ≠ STORAGE_KEY → localStorage (guardado l e) !! k = localStorage e !! k.
Proof. intros Hk. simpl. by rewrite lookup_insert_ne. Qed.

End store.

#[export] Hint Rewrite @guardarComidas_run using assumption : js.
#[export] Hint Resolve guardado_contiene : js.

(** ** Properties *)

Section properties.
Context `{!JsonCodec}.
Implicit Types (e : Env) (l : list Comida).

(** C7.  Round-trip persistence: loading right after saving [l] returns [l],
    for every list and from every state in which there is room for it, and
    leaves the saved state; with no room the save throws
    [QuotaExceededError], nothing is stored and nothing is loaded. *)
Theorem load_after_save l e :
  (guardarComidas l ;; obtenerComidas) e
  = if decide (cabe_lista l e) then (Normal l, guardado l e) else (Abrupt ExnQuota, e).
Proof.
  rewrite run_bind, guardarComidas_casos. case_decide; [|done].
  apply contiene_run, guardado_contiene.
Qed.

(** First run: with nothing stored, or with the empty string stored,
    loading returns the empty list without error and without touching the
    state. *)
Theorem load_absent e :
  localStorage e !! STORAGE_KEY = None ∨ localStorage e !! STORAGE_KEY = Some [] →
  obtenerComidas e = (Normal [], e).
Proof.
  intros [Hk|Hk]; [by apply obtenerComidas_None|].
  unfold obtenerComidas. js_run. by rewrite Hk.
Qed.

(** A stored text that is not JSON makes loading throw; the state is
    left as it was (nothing is repaired or overwritten). *)
Theorem load_corrupt e text :
  localStorage e !! STORAGE_KEY = Some text → text ≠ [] →
  JSON_parse text = SyntaxError →
  obtenerComidas e = (Abrupt ExnSyntaxError, e).
Proof.
  intros Hk Ht Hp. rewrite (obtenerComidas_Some _ _ Hk Ht).
  unfold JSON_parse_js. by rewrite Hp.
Qed.

(** Saving overwrites the whole slot: of two saves that find room only the
    last one is visible (last writer wins), and no other key of
    [localStorage] nor any other part of the state changes. *)
Theorem save_last_wins l1 l2 e :
  cabe_lista l1 e → cabe_lista l2 e →
  (guardarComidas l1 ;; guardarComidas l2) e = guardarComidas l2 e
  ∧ sessionStorage (guardado l2 e) = sessionStorage e
  ∧ dom (guardado l2 e) = dom e
  ∧ ui (guardado l2 e) = ui e
  ∧ ∀ k, k ≠ STORAGE_KEY → localStorage (guardado l2 e) !! k = localStorage e !! k.
Proof.
  intros H1 H2. split_and!; try done.
  - rewrite run_bind, (guardarComidas_run l1 e H1).
    rewrite (guardarComidas_run l2 e H2), guardarComidas_run, guardado_guardado;
      [done|by apply cabe_lista_guardado].
  - intros k Hk. by apply guardado_lookup_ne.
Qed.

End properties.

(** ** Witnesses *)

Section witnesses.

Definition env0 : Env := mkEnv ∅ ∅ (mkDom [] [] [] []) [] 1700000000000 [] None.

Definition tacos : Comida := mkComida (lit "1700000000000") (lit "Tacos") None.

Lemma load_absent_witness : obtenerComidas env0 = (Normal [], env0).
Proof. apply (load_absent env0). left. reflexivity. Defined.

Lemma load_corrupt_witness :
  let e := with_localStorage <[STORAGE_KEY := lit "[{"]> env0 in
  obtenerComidas e = (Abrupt ExnSyntaxError, e).
Proof.
  apply (load_corrupt _ (lit "[{")); [reflexivity|discriminate|reflexivity].
Defined.

End witnesses.
