(* ===== verification/Mailbox.v ===== *)
(** * Notification Mailbox

    The one-slot message channel of src/scripts.js: the post is the
    [sessionStorage.setItem] of line 117, the drain is [checkNotification]
    (lines 131-137).  The slot lives in [sessionStorage], which belongs to the
    tab. *)

From S2P Require Import Prelude JsString Comida Json Browser Store.

Section mailbox.
Implicit Types (e : Env) (m mensaje : jsstring).

(** [checkNotification()] (lines 131-137). *)
Definition checkNotification : JS unit :=
  mensaje ← sessionStorage_getItem NOTIFICATION_KEY;
  match mensaje with
  | Some texto =>
    if truthy texto then
      alert texto ;;
      sessionStorage_removeItem NOTIFICATION_KEY
    else mret tt
  | None => mret tt
  end.

(** The post of line 117. *)
Definition post (mensaje : jsstring) : JS unit :=
  sessionStorage_setItem NOTIFICATION_KEY mensaje.

(** The message waiting in the slot, if any. *)
Definition pendiente e : option jsstring := sessionStorage e !! NOTIFICATION_KEY.

(** The state after a drain that found [m]. *)
Definition drenado m e : Env :=
  with_sessionStorage (delete NOTIFICATION_KEY) (with_ui (λ l, l ++ [Alert m]) e).

Lemma post_run m e : post m e = (Normal tt, with_sessionStorage <[NOTIFICATION_KEY:=m]> e).
Proof. done. Qed.

Lemma checkNotification_None e :
  pendiente e = None → checkNotification e = (Normal tt, e).
Proof. unfold pendiente, checkNotification. intros Hp. js_run. by rewrite Hp. Qed.

Lemma checkNotification_empty e :
  pendiente e = Some [] → checkNotification e = (Normal tt, e).
Proof. unfold pendiente, checkNotification. intros Hp. js_run. by rewrite Hp. Qed.

Lemma checkNotification_Some e m :
  pendiente e = Some m → m ≠ [] → checkNotification e = (Normal tt, drenado m e).
Proof.
  unfold pendiente, checkNotification. intros Hp Hm%truthy_true. js_run.
  by rewrite Hp, Hm.
Qed.

(** The drain always completes normally. *)
Lemma checkNotification_normal e : result checkNotification e = Normal tt.
Proof.
  unfold result. destruct (pendiente e) as [[|c m]|] eqn:Hp.
  - by rewrite checkNotification_empty.
  - by rewrite (checkNotification_Some _ _ Hp).
  - by rewrite checkNotification_None.
Qed.

Lemma checkNotification_run e : checkNotification e = (Normal tt, exec checkNotification e).
Proof.
  pose proof (checkNotification_normal e) as Hn. unfold result, exec in *.
  destruct (checkNotification e). simpl in *. by subst.
Qed.

(** The drain leaves the shared list, the page, the clock and the listeners
    alone. *)
Lemma checkNotification_frame e :
  localStorage (exec checkNotification e) = localStorage e
  ∧ dom (exec checkNotification e) = dom e
  ∧ now (exec checkNotification e) = now e
  ∧ oyentes (exec checkNotification e) = oyentes e.
Proof.
  unfold exec. destruct (pendiente e) as [[|c m]|] eqn:Hp.
  - by rewrite checkNotification_empty.
  - by rewrite (checkNotification_Some _ _ Hp).
  - by rewrite checkNotification_None.
Qed.

Lemma checkNotification_cuota e : cuota (exec checkNotification e) = cuota e.
Proof.
  unfold exec. destruct (pendiente e) as [[|c m]|] eqn:Hp.
  - by rewrite checkNotification_empty.
  - by rewrite (checkNotification_Some _ _ Hp).
  - by rewrite checkNotification_None.
Qed.

(** What the drain does to the mailbox and to the dialogs depends on them
    alone. *)
Lemma checkNotification_ext e1 e2 :
  sessionStorage e1 = sessionStorage e2 → ui e1 = ui e2 →
  sessionStorage (exec checkNotification e1) = sessionStorage (exec checkNotification e2)
  ∧ ui (exec checkNotification e1) = ui (exec checkNotification e2).
Proof.
  intros Hs Hu. unfold exec, checkNotification. js_run. rewrite Hs.
  destruct (sessionStorage e2 !! NOTIFICATION_KEY) as [m|]; [|done].
  destruct (truthy m); [|done]. simpl. by rewrite Hs, Hu.
Qed.

Lemma pendiente_drenado m e : pendiente (drenado m e) = None.
Proof. apply lookup_delete_eq. Qed.

(** After a drain nothing that would be shown is left in the slot. *)
Lemma checkNotification_pendiente e :
  pendiente (exec checkNotification e) = None ∨ pendiente (exec checkNotification e) = Some [].
Proof.
  unfold exec. destruct (pendiente e) as [[|c m]|] eqn:Hp.
  - rewrite checkNotification_empty by done. by right.
  - rewrite (checkNotification_Some _ _ Hp) by done. left. apply pendiente_drenado.
  - rewrite checkNotification_None by done. by left.
Qed.

End mailbox.

#[export] Hint Rewrite post_run : js.

(** ** Properties *)

Section properties.
Implicit Types (e : Env) (m : jsstring).

(** C10.  Single slot, last post wins: after [post m1; post m2] one drain
    shows [m2] and only [m2] and empties the slot, and a second drain shows
    nothing and changes nothing. *)
Theorem mailbox_single_slot m1 m2 e :
  m2 ≠ [] →
  let e1 := exec (post m1 ;; post m2 ;; checkNotification) e in
  ui e1 = ui e ++ [Alert m2]
  ∧ pendiente e1 = None
  ∧ checkNotification e1 = (Normal tt, e1).
Proof.
  intros Hm2 e1.
  assert (e1 = drenado m2 (with_sessionStorage <[NOTIFICATION_KEY:=m2]> e)) as ->.
  { unfold e1, exec. js_run.
    erewrite checkNotification_Some; [|apply lookup_insert_eq|done]. simpl.
    unfold drenado, with_sessionStorage, with_ui. simpl.
    by rewrite insert_insert_eq. }
  split_and!; [done|apply pendiente_drenado|].
  apply checkNotification_None, pendiente_drenado.
Qed.

(** Draining is idempotent: a drain right after a drain does nothing,
    from every state (pending message, empty slot, or the empty string in the
    slot). *)
Theorem drain_idempotent e :
  (checkNotification ;; checkNotification) e = checkNotification e.
Proof.
  rewrite run_bind, (checkNotification_run e).
  destruct (checkNotification_pendiente e) as [Hp|Hp].
  - by apply checkNotification_None.
  - by apply checkNotification_empty.
Qed.

End properties.

Section witnesses.

Lemma mailbox_single_slot_witness :
  let e1 := exec (post (lit "uno") ;; post (lit "dos") ;; checkNotification) env0 in
  ui e1 = ui env0 ++ [Alert (lit "dos")]
  ∧ pendiente e1 = None
  ∧ checkNotification e1 = (Normal tt, e1).
Proof. apply (mailbox_single_slot (lit "uno") (lit "dos") env0). discriminate. Defined.

End witnesses.
