(* ===== verification/Render.v ===== *)
(** * View / Render Projection

    [actualizarContador] and [renderizarComidas] of src/scripts.js (lines
    30-72): the counters of the header and one [div] per meal, rebuilt from
    the stored list on every call, followed by the drain of the mailbox.
    The template literals are modelled character by character, so that
    the page can be read back: the text of a [div] determines the meal it
    was built from, unless a name or a claimer holds the markup of the
    template. *)

From S2P Require Import Prelude JsString Comida Json Browser Store Mailbox.

Section template.
Implicit Types (comida : Comida).

(** A line break and [n] spaces of indentation inside a template literal. *)
Definition nl : jsstring := [10%N].
Definition sp (n : nat) : jsstring := replicate n 32%N.
Definition comilla : jsstring := [34%N].

(** A string-or-null value interpolated in a template literal. *)
Definition interpolar (o : option jsstring) : jsstring :=
  match o with Some s => s | None => lit "null" end.

(** [item.className] (line 48), by the outcome of its test. *)
Definition clase_de (elegida : bool) : jsstring :=
  lit "comida-item " ++ (if elegida then lit "seleccionada" else []).

Definition clase comida : jsstring := clase_de (seleccionada comida).

(** The two texts of [infoSeleccion] (lines 52 and 54). *)
Definition info_elegida (quien : jsstring) : jsstring :=
  lit "<p>Seleccionado por: <strong>" ++ quien ++ lit "</strong></p>".
Definition info_libre : jsstring := lit "<p>Aún sin elegir...</p>".

(** [infoSeleccion] (lines 50-55). *)
Definition infoSeleccion comida : jsstring :=
  if seleccionada comida then info_elegida (interpolar (seleccionadoPor comida))
  else info_libre.

(** The text of the button (line 64), by the outcome of its test. *)
Definition etiqueta_de (elegida : bool) : jsstring :=
  if elegida then lit "Ya Seleccionado" else lit "¡Yo lo Hago!".

Definition etiqueta comida : jsstring := etiqueta_de (seleccionada comida).

(** The template literal of lines 57-66 around the texts interpolated in
    it: the name, [infoSeleccion], the id, and the outcome of the test of
    lines 62 and 64. *)
Definition marco (nombre info ident : jsstring) (elegida : bool) : jsstring :=
  nl ++ sp 12 ++ lit "<h3>" ++ nombre ++ lit "</h3>"
  ++ nl ++ sp 12 ++ info
  ++ nl ++ sp 12 ++ lit "<button "
  ++ nl ++ sp 16 ++ lit "data-id=" ++ comilla ++ ident ++ comilla
  ++ nl ++ sp 16 ++ (if elegida then lit "disabled" else [])
  ++ nl ++ sp 12 ++ lit ">"
  ++ nl ++ sp 16 ++ etiqueta_de elegida
  ++ nl ++ sp 12 ++ lit "</button>"
  ++ nl ++ sp 8.

(** [item.innerHTML] (lines 57-66). *)
Definition plantilla comida : jsstring :=
  marco (nombre comida) (infoSeleccion comida) (id comida) (seleccionada comida).

(** The [div] built for one meal (lines 47-66). *)
Definition crearItem comida : Elemento :=
  mkElemento (clase comida) (plantilla comida).

End template.

Section render.
Context `{!JsonCodec}.
Implicit Types (e : Env) (d : Dom) (l comidas : list Comida).

(** [actualizarContador(comidas)] (lines 30-36). *)
Definition actualizarContador (comidas : list Comida) : JS unit :=
  let total := length comidas in
  let restantes := length (filter (λ c, seleccionada c = false) comidas) in
  set_textContent_total total ;;
  set_textContent_restantes restantes.

(** [renderizarComidas()] (lines 41-72). *)
Definition renderizarComidas : JS unit :=
  comidas ← obtenerComidas;
  lista_clear ;;
  forEach comidas (λ comida, lista_appendChild (crearItem comida)) ;;
  actualizarContador comidas ;;
  checkNotification.

(** The page showing the list [l]: what a render makes of any page. *)
Definition pintar l d : Dom :=
  mkDom (number_toString (N.of_nat (length l)))
        (number_toString (N.of_nat (length (restantes l))))
        (crearItem <$> l)
        (input_comida d).

(** The page of [e] shows the list [l]. *)
Definition muestra e l : Prop := dom e = pintar l (dom e).

(** ** Running the renderer *)

Lemma actualizarContador_run l e :
  actualizarContador l e
  = (Normal tt,
     with_dom (λ d, set_restantes_comidas (number_toString (N.of_nat (length (restantes l))))
                      (set_total_comidas (number_toString (N.of_nat (length l))) d)) e).
Proof. done. Qed.

Lemma foldl_appendChild l e :
  foldl (λ e c, with_dom (λ d, set_lista_comidas (lista_comidas d ++ [crearItem c]) d) e) e l
  = with_dom (λ d, set_lista_comidas (lista_comidas d ++ (crearItem <$> l)) d) e.
Proof.
  revert e. induction l as [|c l IH]; intros [ls ss [t r li i] u n o]; simpl.
  - unfold with_dom, set_lista_comidas. simpl. by rewrite app_nil_r.
  - rewrite IH. unfold with_dom, set_lista_comidas. simpl. by rewrite <-app_assoc.
Qed.

(** With the list [l] in the store, a render repaints the page from [l] and
    then drains the mailbox. *)
Lemma renderizarComidas_run e l :
  contiene e l →
  renderizarComidas e = checkNotification (with_dom (pintar l) e).
Proof.
  intros Hl. unfold renderizarComidas.
  rewrite (run_bind_normal _ _ _ _ _ (contiene_run _ _ Hl)).
  unfold lista_clear, lista_appendChild.
  rewrite run_bind, run_modify, run_bind, run_forEach_modify, foldl_appendChild.
  rewrite run_bind, actualizarContador_run.
  by destruct e as [ls ss [t r li i] u n o].
Qed.

Lemma renderizarComidas_exec e l :
  contiene e l →
  exec renderizarComidas e = exec checkNotification (with_dom (pintar l) e).
Proof. intros Hl. unfold exec. by rewrite (renderizarComidas_run e l Hl). Qed.

(** When loading throws, the render stops there: the page keeps what it
    showed and the mailbox is not drained. *)
Lemma renderizarComidas_abrupt e x :
  result obtenerComidas e = Abrupt x → renderizarComidas e = (Abrupt x, e).
Proof.
  intros Hx. unfold renderizarComidas.
  erewrite run_bind_abrupt; [done|]. by rewrite obtenerComidas_run, Hx.
Qed.

Lemma pintar_pintar l1 l2 d : pintar l2 (pintar l1 d) = pintar l2 d.
Proof. done. Qed.

Lemma muestra_pintar l e : muestra (with_dom (pintar l) e) l.
Proof. done. Qed.

(** A render changes neither storage area except by draining the mailbox. *)
Lemma renderizarComidas_localStorage e :
  localStorage (exec renderizarComidas e) = localStorage e.
Proof.
  destruct (result obtenerComidas e) as [l|x] eqn:Hr.
  - rewrite (renderizarComidas_exec e l Hr).
    by destruct (checkNotification_frame (with_dom (pintar l) e)) as (-> & _).
  - unfold exec. by rewrite (renderizarComidas_abrupt e x Hr).
Qed.

End render.

(** ** Reading the page back *)

Section lectura.
Implicit Types (e : Env) (c : Comida) (l : list Comida) (x : code_unit).

(** What ends a name and what ends a claimer in the template: the closing
    tags and the line break after them. *)
Definition fin_nombre : jsstring := lit "</h3>" ++ nl.
Definition fin_quien : jsstring := lit "</strong></p>" ++ nl.

(** A character of both: [<], [/], [>] or the line break. *)
Definition delimita x : Prop := x ∈ fin_nombre ∧ x ∈ fin_quien.

(** The character [x] occurs neither in the name nor in the claimer. *)
Definition libre_de x c : Prop :=
  (x ∉ nombre c) ∧ match seleccionadoPor c with Some q => x ∉ q | None => True end.

Definition ch_comilla : code_unit := 34%N.

#[global] Instance delimita_dec x : Decision (delimita x).
Proof. unfold delimita. apply _. Defined.

#[global] Instance libre_de_dec x c : Decision (libre_de x c).
Proof. unfold libre_de. destruct (seleccionadoPor c); apply _. Defined.

Lemma digitos_sin_comilla (d : jsstring) :
  Forall (λ u, is_digit u = true) d → ch_comilla ∉ d.
Proof. intros Hd Hin. by pose proof (proj1 (Forall_forall _ _) Hd _ Hin). Qed.

Lemma clase_de_inj b1 b2 : clase_de b1 = clase_de b2 → b1 = b2.
Proof. unfold clase_de. intros H%app_inv_head. by destruct b1, b2. Qed.

Lemma info_elegida_app q r :
  info_elegida q ++ nl ++ r
  = lit "<p>Seleccionado por: <strong>" ++ q ++ fin_quien ++ r.
Proof. unfold info_elegida, fin_quien. by rewrite <-!app_assoc. Qed.

(** The template around the same [info]: the name and the id can be read
    back. *)
Lemma marco_inj x n1 n2 i d1 d2 b :
  x ∈ fin_nombre → x ∉ n1 → x ∉ n2 → ch_comilla ∉ d1 → ch_comilla ∉ d2 →
  marco n1 i d1 b = marco n2 i d2 b → n1 = n2 ∧ d1 = d2.
Proof.
  intros Hx Hn1 Hn2 Hd1 Hd2 H. unfold marco in H.
  apply (app_inv_head nl), (app_inv_head (sp 12)), (app_inv_head (lit "<h3>")) in H.
  rewrite !(app_assoc (lit "</h3>") nl) in H.
  apply (app_sep_inj x (lit "</h3>" ++ nl)) in H as [-> H]; [|done..].
  apply (app_inv_head (sp 12)), (app_inv_head i), (app_inv_head nl),
    (app_inv_head (sp 12)), (app_inv_head (lit "<button ")), (app_inv_head nl),
    (app_inv_head (sp 16)), (app_inv_head (lit "data-id=")), (app_inv_head comilla) in H.
  apply (app_sep_inj ch_comilla comilla) in H as [-> _]; [done| |done..].
  apply list_elem_of_here.
Qed.

(** The template of a claimed meal: the claimer can be read back too. *)
Lemma marco_elegida_inj x n1 n2 q1 q2 d1 d2 b :
  delimita x → x ∉ n1 → x ∉ n2 → x ∉ q1 → x ∉ q2 → ch_comilla ∉ d1 → ch_comilla ∉ d2 →
  marco n1 (info_elegida q1) d1 b = marco n2 (info_elegida q2) d2 b →
  n1 = n2 ∧ q1 = q2 ∧ d1 = d2.
Proof.
  intros [Hx Hx'] Hn1 Hn2 Hq1 Hq2 Hd1 Hd2 H.
  assert (q1 = q2) as <-; [|by destruct (marco_inj x n1 n2 (info_elegida q1) d1 d2 b)].
  unfold marco in H.
  apply (app_inv_head nl), (app_inv_head (sp 12)), (app_inv_head (lit "<h3>")) in H.
  rewrite !(app_assoc (lit "</h3>") nl) in H.
  apply (app_sep_inj x (lit "</h3>" ++ nl)) in H as [_ H]; [|done..].
  apply (app_inv_head (sp 12)) in H. rewrite !info_elegida_app in H.
  apply (app_inv_head (lit "<p>Seleccionado por: <strong>")) in H.
  by apply (app_sep_inj x fin_quien) in H as [-> _].
Qed.

(** The [div] of a well-formed meal determines the meal. *)
Lemma crearItem_inj x c1 c2 :
  delimita x → libre_de x c1 → libre_de x c2 → comida_wf c1 → comida_wf c2 →
  crearItem c1 = crearItem c2 → c1 = c2.
Proof.
  intros Hx [Hn1 Hq1] [Hn2 Hq2] Hwf1 Hwf2 Heq.
  pose proof (digitos_sin_comilla _ (proj1 (proj2 Hwf1))) as Hd1.
  pose proof (digitos_sin_comilla _ (proj1 (proj2 Hwf2))) as Hd2.
  pose proof (f_equal className Heq) as Hc%clase_de_inj.
  pose proof (f_equal innerHTML Heq) as Hm. clear Heq.
  cbn [crearItem innerHTML] in Hm.
  unfold plantilla, infoSeleccion in Hm. rewrite <-Hc in Hm.
  pose proof (seleccionada_wf c1 Hwf1) as Hs1. pose proof (seleccionada_wf c2 Hwf2) as Hs2.
  rewrite <-Hc in Hs2. destruct c1 as [d1 n1 o1], c2 as [d2 n2 o2].
  cbn [id nombre seleccionadoPor] in *.
  destruct (seleccionada _).
  - destruct (proj1 Hs1 eq_refl) as [q1 ->], (proj1 Hs2 eq_refl) as [q2 ->].
    cbn [interpolar] in Hm.
    by destruct (marco_elegida_inj x _ _ _ _ _ _ _ Hx Hn1 Hn2 Hq1 Hq2 Hd1 Hd2 Hm) as (-> & -> & ->).
  - destruct (marco_inj x _ _ _ _ _ _ (proj1 Hx) Hn1 Hn2 Hd1 Hd2 Hm) as (-> & ->).
    destruct o1 as [q1|]; [by pose proof (proj2 Hs1 (mk_is_Some _ _ eq_refl))|].
    by destruct o2 as [q2|]; [pose proof (proj2 Hs2 (mk_is_Some _ _ eq_refl))|].
Qed.

(** The items of a well-formed list determine the list. *)
Lemma crearItem_fmap_inj x l1 l2 :
  delimita x → Forall (libre_de x) l1 → Forall (libre_de x) l2 →
  comidas_wf l1 → comidas_wf l2 → crearItem <$> l1 = crearItem <$> l2 → l1 = l2.
Proof.
  intros Hx Hl1. revert l2.
  induction Hl1 as [|c1 l1 Hc1 _ IH]; intros [|c2 l2] Hl2 Hwf1 Hwf2 Heq; try done.
  apply Forall_cons in Hl2 as [Hc2 Hl2]. apply Forall_cons in Hwf1 as [Hw1 Hwf1].
  apply Forall_cons in Hwf2 as [Hw2 Hwf2]. rewrite !fmap_cons in Heq.
  apply (inj2 cons) in Heq as [Hc Hl].
  f_equal; [exact (crearItem_inj x c1 c2 Hx Hc1 Hc2 Hw1 Hw2 Hc)|by apply IH].
Qed.

End lectura.

(** ** Properties *)

Section properties.
Context `{!JsonCodec}.
Implicit Types (e : Env) (l : list Comida).

(** C11.  Count derivation: after a render of the stored list [l], the header
    shows [length l] as the total and the number of meals whose
    [seleccionadoPor] is falsy as the remaining count, and the two counters
    differ by the number of claimed meals. *)
Theorem render_counters e l :
  contiene e l →
  let d := dom (exec renderizarComidas e) in
  total_comidas d = number_toString (N.of_nat (length l))
  ∧ restantes_comidas d = number_toString (N.of_nat (length (restantes l)))
  ∧ length l = length (filter (λ c, seleccionada c = true) l) + length (restantes l).
Proof.
  intros Hl d. subst d. rewrite (renderizarComidas_exec e l Hl).
  destruct (checkNotification_frame (with_dom (pintar l) e)) as (_ & -> & _).
  split_and!; [done..|]. by rewrite restantes_length.
Qed.

(** C12.  The rendered list is a function of the stored list alone: one [div]
    per meal, in the order of the list, built by the template, whatever the
    page showed before; the input field is not touched. *)
Theorem render_items e l :
  contiene e l →
  let d := dom (exec renderizarComidas e) in
  lista_comidas d = crearItem <$> l
  ∧ length (lista_comidas d) = length l
  ∧ input_comida d = input_comida (dom e).
Proof.
  intros Hl d. subst d. rewrite (renderizarComidas_exec e l Hl).
  destruct (checkNotification_frame (with_dom (pintar l) e)) as (_ & -> & _).
  split_and!; [done| |done]. simpl. by rewrite length_fmap.
Qed.

(** C14.  The page can be read back: when some character among [<], [/],
    [>] and the line break occurs in no name and in no claimer, the items
    a render leaves on the page are the items of no other well-formed list
    than the stored one; name, id and claimer of every meal can be told
    from its [div]. *)
Theorem pagina_determina_lista x e l l' :
  delimita x → contiene e l → comidas_wf l → Forall (libre_de x) l →
  comidas_wf l' → Forall (libre_de x) l' →
  lista_comidas (dom (exec renderizarComidas e)) = crearItem <$> l' → l' = l.
Proof.
  intros Hx Hl Hwf Hlibre Hwf' Hlibre'. rewrite (renderizarComidas_exec e l Hl).
  destruct (checkNotification_frame (with_dom (pintar l) e)) as (_ & -> & _).
  intros Heq. symmetry. by apply (crearItem_fmap_inj x).
Qed.

(** Rendering twice is rendering once: the second render finds the
    same list, repaints the same page and finds the mailbox drained. *)
Theorem render_idempotent e :
  (renderizarComidas ;; renderizarComidas) e = renderizarComidas e.
Proof.
  rewrite run_bind. destruct (result obtenerComidas e) as [l|x] eqn:Hr.
  - rewrite (renderizarComidas_run e l Hr), checkNotification_run.
    set (e1 := exec checkNotification (with_dom (pintar l) e)).
    destruct (checkNotification_frame (with_dom (pintar l) e)) as (Hls & Hd & Hn & Ho).
    fold e1 in Hls, Hd, Hn, Ho.
    assert (contiene e1 l) as Hl1.
    { eapply contiene_ext; [|exact Hr]. by rewrite Hls. }
    rewrite (renderizarComidas_run e1 l Hl1).
    assert (with_dom (pintar l) e1 = e1) as ->.
    { destruct e1 as [ls ss d u n o]. simpl in *. subst d. done. }
    destruct (checkNotification_pendiente (with_dom (pintar l) e)) as [Hp|Hp];
      fold e1 in Hp.
    + by apply checkNotification_None.
    + by apply checkNotification_empty.
  - by rewrite (renderizarComidas_abrupt e x Hr).
Qed.

(** A render with a corrupt store throws before anything is painted:
    page, storages and dialogs stay as they were. *)
Theorem render_corrupt e text :
  localStorage e !! STORAGE_KEY = Some text → text ≠ [] →
  JSON_parse text = SyntaxError →
  renderizarComidas e = (Abrupt ExnSyntaxError, e).
Proof.
  intros Hk Ht Hp. apply renderizarComidas_abrupt.
  unfold result. rewrite (obtenerComidas_Some _ _ Hk Ht).
  unfold JSON_parse_js. by rewrite Hp.
Qed.

End properties.

Section witnesses.

Definition pizza : Comida :=
  mkComida (lit "1700000000001") (lit "Pizza") (Some (lit "Ana")).

Definition env_dos : Env := guardado [tacos; pizza] env0.

Lemma env_dos_contiene : contiene env_dos [tacos; pizza].
Proof. apply guardado_contiene. Defined.

Lemma render_counters_witness :
  let d := dom (exec renderizarComidas env_dos) in
  total_comidas d = lit "2" ∧ restantes_comidas d = lit "1"
  ∧ length [tacos; pizza] = 1 + 1.
Proof. apply (render_counters env_dos [tacos; pizza] env_dos_contiene). Defined.

Lemma render_items_witness :
  let d := dom (exec renderizarComidas env_dos) in
  lista_comidas d = [crearItem tacos; crearItem pizza]
  ∧ length (lista_comidas d) = 2
  ∧ input_comida d = [].
Proof. apply (render_items env_dos [tacos; pizza] env_dos_contiene). Defined.

Lemma pagina_determina_lista_witness :
  let leida := [tacos; pizza] in
  lista_comidas (dom (exec renderizarComidas env_dos)) = crearItem <$> leida
  ∧ leida = [tacos; pizza].
Proof.
  split; [by vm_compute|].
  apply (pagina_determina_lista 60%N env_dos [tacos; pizza] [tacos; pizza]);
    try apply env_dos_contiene; try (apply (bool_decide_unpack _); by vm_compute).
Defined.

(** The text between a name and a claimer in the template. *)
Definition medio : jsstring := fin_nombre ++ sp 12 ++ lit "<p>Seleccionado por: <strong>".

(** Two meals that differ in name and claimer and are drawn the same:
    the name of the second holds the markup that ends a name. *)
Definition sopa_de_ana : Comida :=
  mkComida (lit "1") (lit "Sopa") (Some (lit "Ana" ++ medio ++ lit "Luis")).
Definition sopa_de_luis : Comida :=
  mkComida (lit "1") (lit "Sopa" ++ medio ++ lit "Ana") (Some (lit "Luis")).

(** Without the hypothesis the page cannot be read back: markup in a name
    makes two well-formed meals one [div]. *)
Example pagina_ambigua :
  sopa_de_ana ≠ sopa_de_luis ∧ comida_wf sopa_de_ana ∧ comida_wf sopa_de_luis
  ∧ crearItem sopa_de_ana = crearItem sopa_de_luis.
Proof. split_and!; [done|apply (bool_decide_unpack _); by vm_compute..|by vm_compute]. Qed.

Lemma render_corrupt_witness :
  let e := with_localStorage <[STORAGE_KEY := lit "{oops"]> env0 in
  renderizarComidas e = (Abrupt ExnSyntaxError, e).
Proof.
  apply (render_corrupt _ (lit "{oops")); [reflexivity|discriminate|reflexivity].
Defined.

End witnesses.
