(* ===== verification/Contrato.v ===== *)
(** * The contract of the Selection State Machine

    The abstract specification the handlers are checked against: the
    operations [claim] and [add] on a list of meals with their error results,
    the one-step transition relation of the list, and the order "every meal
    of [l] is still in [l'], with its id, its name and its claimer" that the
    lifecycle of a meal promises.  Nothing here mentions storage, the page or
    dialogs. *)

From S2P Require Import Prelude JsString Comida.

(** ** Operations *)

Inductive ClaimError :=
| NotFound
| AlreadyClaimed
| EmptyName.

#[global] Instance ClaimError_eq_dec : EqDecision ClaimError.
Proof. solve_decision. Defined.

Section operations.
Implicit Types (l : list Comida) (c : Comida) (itemId s : jsstring) (i : nat).

(** A claim of the meal with id [itemId] by [candidateName]. *)
Definition claim l itemId (candidateName : jsstring) : ClaimError + list Comida :=
  match list_find (λ c, id c = itemId) l with
  | None => inl NotFound
  | Some (i, c) =>
    if seleccionada c then inl AlreadyClaimed
    else if decide (trim candidateName = []) then inl EmptyName
    else inr (<[i := set_seleccionadoPor (trim candidateName) c]> l)
  end.

(** The addition of a meal named [rawName] with the id [freshId]. *)
Definition add l (rawName freshId : jsstring) : ClaimError + list Comida :=
  if decide (trim rawName = []) then inl EmptyName
  else inr (l ++ [mkComida freshId (trim rawName) None]).

(** ** The transition relation of the list *)

(** One step of the list: a meal is appended unclaimed, or an unclaimed meal
    gets a claimer.  There is no other step: nothing is removed, renamed or
    unclaimed. *)
Inductive paso : list Comida → list Comida → Prop :=
| paso_agregar l c :
    seleccionadoPor c = None → nombre_valido (nombre c) →
    paso l (l ++ [c])
| paso_reclamar l i c quien :
    l !! i = Some c → seleccionada c = false → nombre_valido quien →
    paso l (<[i := set_seleccionadoPor quien c]> l).

(** A meal of the later list continues a meal of the earlier one: same id,
    same name, and the same claimer if it had one. *)
Definition continua c c' : Prop :=
  id c' = id c ∧ nombre c' = nombre c
  ∧ (seleccionada c = true → seleccionadoPor c' = seleccionadoPor c).

(** [l'] extends [l]: every position of [l] is continued in [l']. *)
Definition extiende l l' : Prop :=
  ∀ i c, l !! i = Some c → ∃ c', l' !! i = Some c' ∧ continua c c'.

End operations.

Infix "⊑" := extiende (at level 70) : js_scope.
#[local] Open Scope js_scope.

(** ** Lemmas *)

Section lemmas.
Implicit Types (l : list Comida) (c : Comida) (itemId s q : jsstring) (i : nat).

#[global] Instance continua_refl : Reflexive continua.
Proof. by intros c. Qed.

#[global] Instance continua_trans : Transitive continua.
Proof.
  intros c1 c2 c3 (Hi1 & Hn1 & Hs1) (Hi2 & Hn2 & Hs2). split_and!; [congruence..|].
  intros Hc1. rewrite Hs2, Hs1; [done..|].
  unfold seleccionada in *. by rewrite Hs1.
Qed.

#[global] Instance extiende_preorder : PreOrder extiende.
Proof.
  split.
  - intros l i c Hi. by exists c.
  - intros l1 l2 l3 H12 H23 i c Hi.
    destruct (H12 i c Hi) as (c2 & Hi2 & Hc2).
    destruct (H23 i c2 Hi2) as (c3 & Hi3 & Hc3).
    exists c3. split; [done|]. by etrans.
Qed.

Lemma extiende_length l l' : l ⊑ l' → length l ≤ length l'.
Proof.
  intros Hext. destruct l as [|c0 l0] using rev_ind; [simpl; lia|].
  destruct (Hext (length l0) c0) as (c' & Hc' & _).
  { by rewrite lookup_app_r, Nat.sub_diag by lia. }
  apply lookup_lt_Some in Hc'. rewrite length_app. simpl. lia.
Qed.

Lemma extiende_app l k : l ⊑ l ++ k.
Proof. intros i c Hi. exists c. split; [by apply lookup_app_l_Some|done]. Qed.

(** Giving a claimer to an unclaimed meal continues it. *)
Lemma continua_set_seleccionadoPor q c :
  seleccionada c = false → continua c (set_seleccionadoPor q c).
Proof. intros Hc. split_and!; [done..|]. congruence. Qed.

Lemma extiende_insert l i c c' :
  l !! i = Some c → continua c c' → l ⊑ <[i:=c']> l.
Proof.
  intros Hi Hc j d Hj. destruct (decide (j = i)) as [->|Hne].
  - exists c'. rewrite list_lookup_insert_eq by (by eapply lookup_lt_Some).
    split; [done|]. congruence.
  - exists d. by rewrite list_lookup_insert_ne.
Qed.

(** Every step extends the list. *)
Lemma paso_extiende l l' : paso l l' → l ⊑ l'.
Proof.
  intros [l0 c _ _|l0 i c q Hi Hc _].
  - apply extiende_app.
  - eapply extiende_insert; [done|]. by apply continua_set_seleccionadoPor.
Qed.

(** Every step keeps a well-formed list well formed, when the appended meal
    is. *)
Lemma paso_wf l l' :
  paso l l' → comidas_wf l → (∀ c, l' = l ++ [c] → comida_wf c) → comidas_wf l'.
Proof.
  intros [l0 c _ _|l0 i c q Hi Hc Hq] Hwf Hnew.
  - apply comidas_wf_snoc; [done|]. by apply Hnew.
  - apply comidas_wf_insert; [done|].
    apply set_seleccionadoPor_wf; [done|]. by eapply comidas_wf_lookup.
Qed.

(** Any number of steps extends the list. *)
Lemma pasos_extiende l l' : rtc paso l l' → l ⊑ l'.
Proof.
  induction 1 as [|l1 l2 l3 H12 _ IH]; [done|].
  etrans; [by apply paso_extiende|done].
Qed.

(** ** The operations as steps *)

Lemma claim_inr l itemId s l' :
  claim l itemId s = inr l' ↔
  ∃ i c, list_find (λ c, id c = itemId) l = Some (i, c)
         ∧ seleccionada c = false ∧ trim s ≠ []
         ∧ l' = <[i := set_seleccionadoPor (trim s) c]> l.
Proof.
  unfold claim. split.
  - destruct (list_find _ l) as [[i c]|]; [|done].
    destruct (seleccionada c) eqn:Hc; [done|]. case_decide; [done|].
    intros [= <-]. by exists i, c.
  - intros (i & c & -> & -> & Hs & ->). by rewrite decide_False.
Qed.

Lemma claim_paso l itemId s l' : claim l itemId s = inr l' → paso l l'.
Proof.
  intros (i & c & [Hi _]%list_find_Some & Hc & Hs & ->)%claim_inr.
  apply paso_reclamar; [done..|]. by apply nombre_valido_trim.
Qed.

Lemma add_inr l s k l' :
  add l s k = inr l' ↔ trim s ≠ [] ∧ l' = l ++ [mkComida k (trim s) None].
Proof.
  unfold add. case_decide; split; try done.
  - by intros [? _].
  - by intros [= <-].
  - by intros [_ ->].
Qed.

Lemma add_paso l s k l' : add l s k = inr l' → paso l l'.
Proof.
  intros [Hs ->]%add_inr. apply paso_agregar; [done|]. by apply nombre_valido_trim.
Qed.

End lemmas.

#[export] Hint Resolve paso_extiende claim_paso add_paso extiende_app : js.
