(* ===== verification/Seleccion.v ===== *)
(** * Selection State Machine

    [agregarComida] and [seleccionarComida] of src/scripts.js (lines 80-126).
    Each handler reads the whole list, changes its private copy, writes the
    whole list back and re-renders.  [seleccionarComida] blocks on [prompt]
    between its read and its write: it is modelled as the segment before the
    prompt, the segment after it, and their uninterrupted composition.  A
    handler whose write finds no room in the store ends there, with
    [QuotaExceededError]. *)

From S2P Require Import Prelude JsString Comida Json Browser Store Mailbox Render.
From S2P Require Import Contrato.

(** The texts of the dialogs (lines 108, 121, 124). *)
Definition PREGUNTA_NOMBRE : jsstring :=
  Eval vm_compute in lit "¿Cuál es tu nombre para registrar la selección?".
Definition AVISO_SIN_NOMBRE : jsstring :=
  Eval vm_compute in lit "Debes ingresar un nombre para seleccionar la comida.".
Definition AVISO_YA_SELECCIONADA : jsstring :=
  Eval vm_compute in lit "Esta comida ya fue seleccionada.".

Section seleccion.
Context `{!JsonCodec}.
Implicit Types (e : Env) (l comidas : list Comida) (c : Comida).
Implicit Types (comidaId s : jsstring) (i comidaIndex : nat).

(** The object literal of lines 86-90, with the value of [Date.now()]. *)
Definition nuevaComida (ahora : N) (nombre : jsstring) : Comida :=
  mkComida (number_toString ahora) nombre None.

(** [agregarComida()] (lines 80-96). *)
Definition agregarComida : JS unit :=
  valor ← input_value;
  let nombre := trim valor in
  if truthy nombre then
    comidas ← obtenerComidas;
    ahora ← Date_now;
    let comidas := comidas ++ [nuevaComida ahora nombre] in
    guardarComidas comidas ;;
    set_input_value [] ;;
    renderizarComidas
  else mret tt.

(** [comidas.findIndex(c => c.id === comidaId)] (line 104), with the element
    found; [None] is [-1]. *)
Definition findIndex comidaId comidas : option (nat * Comida) :=
  list_find (λ c, id c = comidaId) comidas.

(** The announcement of line 116. *)
Definition mensaje_aviso (nombreLimpio nombreComida : jsstring) : jsstring :=
  lit "📢 ¡AVISO! " ++ nombreLimpio ++ lit " ha seleccionado: " ++ nombreComida.

(** [seleccionarComida], lines 103-108 and the [else] of lines 123-125: up to
    the prompt.  [Some (comidas, comidaIndex)] means the prompt is now open,
    with the handler's copy of the list and the index it found. *)
Definition seleccionarComida_inicio comidaId : JS (option (list Comida * nat)) :=
  comidas ← obtenerComidas;
  match findIndex comidaId comidas with
  | Some (comidaIndex, c) =>
    if negb (seleccionada c) then mret (Some (comidas, comidaIndex))
    else alert AVISO_YA_SELECCIONADA ;; mret None
  | None => alert AVISO_YA_SELECCIONADA ;; mret None
  end.

(** The test [nombreUsuario && nombreUsuario.trim() !== ''] (line 110). *)
Definition nombre_aceptado (nombreUsuario : option jsstring) : option jsstring :=
  match nombreUsuario with
  | Some s => if truthy s && truthy (trim s) then Some (trim s) else None
  | None => None
  end.

(** [seleccionarComida], lines 110-122: from the return of [prompt].  The
    list written is the copy read before the prompt. *)
Definition seleccionarComida_fin comidas comidaIndex
    (nombreUsuario : option jsstring) : JS unit :=
  match nombre_aceptado nombreUsuario with
  | Some nombreLimpio =>
    match comidas !! comidaIndex with
    | Some c =>
      let comidas := <[comidaIndex := set_seleccionadoPor nombreLimpio c]> comidas in
      guardarComidas comidas ;;
      let mensaje := mensaje_aviso nombreLimpio (nombre c) in
      post mensaje ;;
      renderizarComidas
    | None => throw ExnTypeError
    end
  | None => alert AVISO_SIN_NOMBRE
  end.

(** [seleccionarComida(comidaId)] (lines 102-126) run without interruption;
    [respuesta] is what [prompt] returns if it is shown. *)
Definition seleccionarComida comidaId (respuesta : option jsstring) : JS unit :=
  abierto ← seleccionarComida_inicio comidaId;
  match abierto with
  | Some (comidas, comidaIndex) =>
    nombreUsuario ← prompt PREGUNTA_NOMBRE respuesta;
    seleccionarComida_fin comidas comidaIndex nombreUsuario
  | None => mret tt
  end.

(** ** States reached *)

(** The state after a successful [agregarComida] that found [l] stored. *)
Definition agregada l e : Env :=
  let l' := l ++ [nuevaComida (now e) (trim (input_comida (dom e)))] in
  exec checkNotification
    (with_dom (pintar l') (with_dom (set_input_comida []) (guardado l' e))).

(** There is room for the list [agregarComida] would store. *)
Definition cabe_nueva l e : Prop :=
  cabe_lista (l ++ [nuevaComida (now e) (trim (input_comida (dom e)))]) e.

(** There is room for the list a claim of position [i] would store. *)
Definition cabe_reclamo (quien : jsstring) i c l e : Prop :=
  cabe_lista (<[i := set_seleccionadoPor quien c]> l) e.

(** The state after the rejection alert. *)
Definition rechazada (aviso : jsstring) e : Env :=
  with_ui (λ u, u ++ [Alert aviso]) e.

(** The state in which the prompt has been answered. *)
Definition preguntada (respuesta : option jsstring) e : Env :=
  with_ui (λ u, u ++ [Prompt PREGUNTA_NOMBRE respuesta]) e.

(** The state after a successful claim of position [i] of [l] by [quien]. *)
Definition seleccionada_por (quien : jsstring) i c l e : Env :=
  let l' := <[i := set_seleccionadoPor quien c]> l in
  exec checkNotification
    (with_dom (pintar l')
       (with_sessionStorage <[NOTIFICATION_KEY := mensaje_aviso quien (nombre c)]>
          (guardado l' e))).

End seleccion.

(** ** Lemmas *)

Section lemmas.
Context `{!JsonCodec}.
Implicit Types (e : Env) (l comidas : list Comida) (c : Comida).
Implicit Types (comidaId s q : jsstring) (i comidaIndex : nat).

(** ** The store under changes of the rest of the state *)

Lemma contiene_with_dom f e l : contiene e l → contiene (with_dom f e) l.
Proof. by apply contiene_ext. Qed.
Lemma contiene_with_ui f e l : contiene e l → contiene (with_ui f e) l.
Proof. by apply contiene_ext. Qed.
Lemma contiene_with_sessionStorage f e l : contiene e l → contiene (with_sessionStorage f e) l.
Proof. by apply contiene_ext. Qed.

(** Room is a matter of the store and the quota: dialogs do not count. *)
Lemma cabe_reclamo_with_ui f q i c l e :
  cabe_reclamo q i c l (with_ui f e) ↔ cabe_reclamo q i c l e.
Proof. done. Qed.

(** ** The name test *)

Lemma nombre_aceptado_Some r q :
  nombre_aceptado r = Some q ↔ ∃ s, r = Some s ∧ q = trim s ∧ trim s ≠ [].
Proof.
  unfold nombre_aceptado. split.
  - destruct r as [s|]; [|done]. destruct (truthy s) eqn:Hs; [|done].
    destruct (truthy (trim s)) eqn:Ht; [|done]. intros [= <-].
    exists s. by apply truthy_true in Ht.
  - intros (s & -> & -> & Ht). apply truthy_true in Ht as Ht'. rewrite Ht'.
    destruct s; [done|]. done.
Qed.

Lemma nombre_aceptado_None r :
  nombre_aceptado r = None ↔ r = None ∨ ∃ s, r = Some s ∧ trim s = [].
Proof.
  unfold nombre_aceptado. destruct r as [s|]; [|by split; [left|]].
  destruct s as [|a s]; [by split; [right; exists []|]|]. simpl truthy. simpl andb.
  destruct (truthy (trim (a :: s))) eqn:Ht.
  - apply truthy_true in Ht. split; [done|]. intros [|(s' & [= <-] & ?)]; done.
  - apply truthy_false in Ht. split; [|done]. intros _. right. by exists (a :: s).
Qed.

Lemma nombre_aceptado_valido r q : nombre_aceptado r = Some q → nombre_valido q.
Proof. intros (s & _ & -> & Ht)%nombre_aceptado_Some. by apply nombre_valido_trim. Qed.

(** ** Branches of [agregarComida] *)

Lemma agregarComida_vacio e :
  trim (input_comida (dom e)) = [] → agregarComida e = (Normal tt, e).
Proof. intros Ht. unfold agregarComida. js_run. by rewrite Ht. Qed.

Lemma agregarComida_ok e l :
  trim (input_comida (dom e)) ≠ [] → contiene e l → cabe_nueva l e →
  agregarComida e = (Normal tt, agregada l e).
Proof.
  intros Ht%truthy_true Hl Hc. unfold cabe_nueva in Hc.
  unfold agregarComida, agregada. js_run. rewrite Ht.
  rewrite (run_bind_normal _ _ _ _ _ (contiene_run _ _ Hl)). js_run.
  erewrite renderizarComidas_run; [apply checkNotification_run|].
  apply contiene_with_dom, guardado_contiene.
Qed.

(** With no room for the longer list the add throws at [setItem]: the
    input is not cleared and nothing is painted. *)
Lemma agregarComida_lleno e l :
  trim (input_comida (dom e)) ≠ [] → contiene e l → ¬ cabe_nueva l e →
  agregarComida e = (Abrupt ExnQuota, e).
Proof.
  intros Ht%truthy_true Hl Hc. unfold cabe_nueva in Hc.
  unfold agregarComida. js_run. rewrite Ht.
  rewrite (run_bind_normal _ _ _ _ _ (contiene_run _ _ Hl)). js_run.
  by rewrite guardarComidas_lleno.
Qed.

Lemma agregarComida_abrupt e x :
  trim (input_comida (dom e)) ≠ [] → result obtenerComidas e = Abrupt x →
  agregarComida e = (Abrupt x, e).
Proof.
  intros Ht%truthy_true Hx. unfold agregarComida. js_run. rewrite Ht.
  erewrite run_bind_abrupt; [done|]. by rewrite obtenerComidas_run, Hx.
Qed.

(** ** Branches of [seleccionarComida] *)

Lemma inicio_no_encontrada e l comidaId :
  contiene e l → findIndex comidaId l = None →
  seleccionarComida_inicio comidaId e = (Normal None, rechazada AVISO_YA_SELECCIONADA e).
Proof.
  intros Hl Hf. unfold seleccionarComida_inicio.
  rewrite (run_bind_normal _ _ _ _ _ (contiene_run _ _ Hl)), Hf. by js_run.
Qed.

Lemma inicio_ya_seleccionada e l comidaId i c :
  contiene e l → findIndex comidaId l = Some (i, c) → seleccionada c = true →
  seleccionarComida_inicio comidaId e = (Normal None, rechazada AVISO_YA_SELECCIONADA e).
Proof.
  intros Hl Hf Hc. unfold seleccionarComida_inicio.
  rewrite (run_bind_normal _ _ _ _ _ (contiene_run _ _ Hl)), Hf, Hc. by js_run.
Qed.

Lemma inicio_abre e l comidaId i c :
  contiene e l → findIndex comidaId l = Some (i, c) → seleccionada c = false →
  seleccionarComida_inicio comidaId e = (Normal (Some (l, i)), e).
Proof.
  intros Hl Hf Hc. unfold seleccionarComida_inicio.
  by rewrite (run_bind_normal _ _ _ _ _ (contiene_run _ _ Hl)), Hf, Hc.
Qed.

Lemma inicio_abrupt e comidaId x :
  result obtenerComidas e = Abrupt x →
  seleccionarComida_inicio comidaId e = (Abrupt x, e).
Proof.
  intros Hx. unfold seleccionarComida_inicio.
  erewrite run_bind_abrupt; [done|]. by rewrite obtenerComidas_run, Hx.
Qed.

Lemma fin_sin_nombre l i r e :
  nombre_aceptado r = None →
  seleccionarComida_fin l i r e = (Normal tt, rechazada AVISO_SIN_NOMBRE e).
Proof. intros Hr. unfold seleccionarComida_fin. by rewrite Hr. Qed.

Lemma fin_ok l i c r q e :
  nombre_aceptado r = Some q → l !! i = Some c → cabe_reclamo q i c l e →
  seleccionarComida_fin l i r e = (Normal tt, seleccionada_por q i c l e).
Proof.
  intros Hr Hi Hc. unfold cabe_reclamo in Hc.
  unfold seleccionarComida_fin, seleccionada_por. rewrite Hr, Hi.
  js_run. erewrite renderizarComidas_run; [apply checkNotification_run|].
  apply contiene_with_sessionStorage, guardado_contiene.
Qed.

(** With no room for the list with the claim the handler throws at
    [setItem]: nothing is stored, posted or painted, and no dialog tells
    the user. *)
Lemma fin_lleno l i c r q e :
  nombre_aceptado r = Some q → l !! i = Some c → ¬ cabe_reclamo q i c l e →
  seleccionarComida_fin l i r e = (Abrupt ExnQuota, e).
Proof.
  intros Hr Hi Hc. unfold cabe_reclamo in Hc.
  unfold seleccionarComida_fin. rewrite Hr, Hi. js_run.
  by rewrite guardarComidas_lleno.
Qed.

Lemma fin_fuera_de_rango l i r q e :
  nombre_aceptado r = Some q → l !! i = None →
  seleccionarComida_fin l i r e = (Abrupt ExnTypeError, e).
Proof. intros Hr Hi. unfold seleccionarComida_fin. by rewrite Hr, Hi. Qed.

(** ** [findIndex] *)

Lemma findIndex_Some comidaId l i c :
  findIndex comidaId l = Some (i, c) ↔
  l !! i = Some c ∧ id c = comidaId ∧ ∀ j c', l !! j = Some c' → j < i → id c' ≠ comidaId.
Proof. unfold findIndex. by rewrite list_find_Some. Qed.

Lemma findIndex_None comidaId l :
  findIndex comidaId l = None ↔ comidaId ∉ ids l.
Proof.
  unfold findIndex, ids. rewrite list_find_None, Forall_forall, list_elem_of_fmap.
  split.
  - intros Hall (c & -> & Hc). by apply (Hall c).
  - intros Hno c Hc Heq. apply Hno. by exists c.
Qed.


(** The position found for an id depends on the ids only. *)
Lemma findIndex_ids comidaId l :
  fst <$> findIndex comidaId l = fst <$> list_find (λ k, k = comidaId) (ids l).
Proof.
  unfold findIndex, ids. rewrite list_find_fmap.
  by destruct (list_find _ l) as [[? ?]|].
Qed.

Lemma ids_insert l i c c' : l !! i = Some c → id c' = id c → ids (<[i:=c']> l) = ids l.
Proof.
  intros Hi Hid. unfold ids. rewrite list_fmap_insert, Hid.
  apply list_insert_id. by rewrite list_lookup_fmap, Hi.
Qed.

(** After position [i], found for [comidaId], is claimed, the same position
    is found for [comidaId], now claimed. *)
Lemma findIndex_reclamado comidaId l i c q :
  findIndex comidaId l = Some (i, c) →
  findIndex comidaId (<[i := set_seleccionadoPor q c]> l) = Some (i, set_seleccionadoPor q c).
Proof.
  intros (Hi & Hid & Hmin)%findIndex_Some. apply findIndex_Some. split_and!.
  - apply list_lookup_insert_eq. by eapply lookup_lt_Some.
  - done.
  - intros j c' Hj Hlt. rewrite list_lookup_insert_ne in Hj by lia. by eapply Hmin.
Qed.


(** ** The handler as a whole *)

Lemma seleccionarComida_rechazada e l comidaId r :
  contiene e l →
  (findIndex comidaId l = None
   ∨ ∃ i c, findIndex comidaId l = Some (i, c) ∧ seleccionada c = true) →
  seleccionarComida comidaId r e = (Normal tt, rechazada AVISO_YA_SELECCIONADA e).
Proof.
  intros Hl Hf. unfold seleccionarComida.
  assert (seleccionarComida_inicio comidaId e
          = (Normal None, rechazada AVISO_YA_SELECCIONADA e)) as Hi.
  { destruct Hf as [Hf|(i & c & Hf & Hc)];
      [by eapply inicio_no_encontrada|by eapply inicio_ya_seleccionada]. }
  by rewrite (run_bind_normal _ _ _ _ _ Hi).
Qed.

Lemma seleccionarComida_sin_nombre e l comidaId i c r :
  contiene e l → findIndex comidaId l = Some (i, c) → seleccionada c = false →
  nombre_aceptado r = None →
  seleccionarComida comidaId r e
  = (Normal tt, rechazada AVISO_SIN_NOMBRE (preguntada r e)).
Proof.
  intros Hl Hf Hc Hr. unfold seleccionarComida.
  erewrite run_bind_normal; [|by eapply inicio_abre]. js_run.
  by apply fin_sin_nombre.
Qed.

Lemma seleccionarComida_ok e l comidaId i c r q :
  contiene e l → findIndex comidaId l = Some (i, c) → seleccionada c = false →
  nombre_aceptado r = Some q → cabe_reclamo q i c l e →
  seleccionarComida comidaId r e
  = (Normal tt, seleccionada_por q i c l (preguntada r e)).
Proof.
  intros Hl Hf Hc Hr Hq. unfold seleccionarComida.
  erewrite run_bind_normal; [|by eapply inicio_abre]. js_run.
  apply fin_ok; [done|by apply findIndex_Some in Hf as [? _]|done].
Qed.

Lemma seleccionarComida_llena e l comidaId i c r q :
  contiene e l → findIndex comidaId l = Some (i, c) → seleccionada c = false →
  nombre_aceptado r = Some q → ¬ cabe_reclamo q i c l e →
  seleccionarComida comidaId r e = (Abrupt ExnQuota, preguntada r e).
Proof.
  intros Hl Hf Hc Hr Hq. unfold seleccionarComida.
  erewrite run_bind_normal; [|by eapply inicio_abre]. js_run.
  eapply fin_lleno; [done|by apply findIndex_Some in Hf as [? _]|done].
Qed.

(** ** The states reached *)

Lemma mensaje_aviso_truthy q s : mensaje_aviso q s ≠ [].
Proof. done. Qed.

Lemma contiene_exec_checkNotification e l :
  contiene e l → contiene (exec checkNotification e) l.
Proof.
  apply contiene_ext. by destruct (checkNotification_frame e) as (-> & _).
Qed.

Lemma agregada_contiene l e :
  contiene (agregada l e) (l ++ [nuevaComida (now e) (trim (input_comida (dom e)))]).
Proof.
  apply contiene_exec_checkNotification, contiene_with_dom, contiene_with_dom,
    guardado_contiene.
Qed.

Lemma agregada_dom l e :
  dom (agregada l e)
  = pintar (l ++ [nuevaComida (now e) (trim (input_comida (dom e)))])
      (set_input_comida [] (dom e)).
Proof.
  unfold agregada.
  by destruct (checkNotification_frame
    (with_dom (pintar (l ++ [nuevaComida (now e) (trim (input_comida (dom e)))]))
       (with_dom (set_input_comida [])
          (guardado (l ++ [nuevaComida (now e) (trim (input_comida (dom e)))]) e))))
    as (_ & -> & _).
Qed.

Lemma seleccionada_por_contiene q i c l e :
  contiene (seleccionada_por q i c l e) (<[i := set_seleccionadoPor q c]> l).
Proof.
  apply contiene_exec_checkNotification, contiene_with_dom,
    contiene_with_sessionStorage, guardado_contiene.
Qed.

Lemma seleccionada_por_eq q i c l e :
  seleccionada_por q i c l e
  = drenado (mensaje_aviso q (nombre c))
      (with_dom (pintar (<[i := set_seleccionadoPor q c]> l))
         (with_sessionStorage <[NOTIFICATION_KEY := mensaje_aviso q (nombre c)]>
            (guardado (<[i := set_seleccionadoPor q c]> l) e))).
Proof.
  unfold seleccionada_por, exec.
  erewrite checkNotification_Some; [done| |apply mensaje_aviso_truthy].
  apply lookup_insert_eq.
Qed.

Lemma seleccionada_por_pendiente q i c l e :
  pendiente (seleccionada_por q i c l e) = None.
Proof. rewrite seleccionada_por_eq. apply pendiente_drenado. Qed.

Lemma seleccionada_por_ui q i c l e :
  ui (seleccionada_por q i c l e) = ui e ++ [Alert (mensaje_aviso q (nombre c))].
Proof. by rewrite seleccionada_por_eq. Qed.

Lemma seleccionada_por_dom q i c l e :
  dom (seleccionada_por q i c l e) = pintar (<[i := set_seleccionadoPor q c]> l) (dom e).
Proof. by rewrite seleccionada_por_eq. Qed.

(** ** What a handler can do *)

(** The four ways [seleccionarComida] ends on a stored list: the rejection
    alert; the prompt and the alert for a missing name; the prompt and
    [QuotaExceededError]; the prompt, the claim and its announcement. *)
Lemma seleccionarComida_run e l comidaId r :
  contiene e l →
  seleccionarComida comidaId r e = (Normal tt, rechazada AVISO_YA_SELECCIONADA e)
  ∨ seleccionarComida comidaId r e
    = (Normal tt, rechazada AVISO_SIN_NOMBRE (preguntada r e))
  ∨ (seleccionarComida comidaId r e = (Abrupt ExnQuota, preguntada r e)
     ∧ cuota e ≠ None)
  ∨ ∃ i c q, findIndex comidaId l = Some (i, c) ∧ seleccionada c = false
      ∧ nombre_aceptado r = Some q
      ∧ seleccionarComida comidaId r e
        = (Normal tt, seleccionada_por q i c l (preguntada r e)).
Proof.
  intros Hl. destruct (findIndex comidaId l) as [[i c]|] eqn:Hf.
  2: { left. by eapply seleccionarComida_rechazada; [|left]. }
  destruct (seleccionada c) eqn:Hc.
  { left. eapply seleccionarComida_rechazada; [done|right; eauto]. }
  destruct (nombre_aceptado r) as [q|] eqn:Hr.
  2: { right; left. by eapply seleccionarComida_sin_nombre. }
  destruct (decide (cabe_reclamo q i c l e)) as [Hq|Hq].
  - do 3 right. exists i, c, q. split_and!; [done..|]. by eapply seleccionarComida_ok.
  - right; right; left. split; [by eapply seleccionarComida_llena|by eapply lleno_cuota].
Qed.

(** The three ways [agregarComida] ends on a stored list: nothing, for a
    blank name; [QuotaExceededError] and nothing; the new meal. *)
Lemma agregarComida_run e l :
  contiene e l →
  agregarComida e = (Normal tt, e)
  ∨ (agregarComida e = (Abrupt ExnQuota, e) ∧ cuota e ≠ None)
  ∨ (trim (input_comida (dom e)) ≠ [] ∧ agregarComida e = (Normal tt, agregada l e)).
Proof.
  intros Hl. destruct (decide (trim (input_comida (dom e)) = [])) as [Hv|Hv].
  { left. by apply agregarComida_vacio. }
  destruct (decide (cabe_nueva l e)) as [Hc|Hc].
  - right; right. split; [done|]. by apply agregarComida_ok.
  - right; left. split; [by eapply agregarComida_lleno|by eapply lleno_cuota].
Qed.

(** What a claim can do to the stored list: nothing, or set the claimer of
    the first meal with that id, which was unclaimed. *)
Lemma seleccionarComida_casos e l comidaId r :
  contiene e l →
  completa e (result (seleccionarComida comidaId r) e) ∧
  (contiene (exec (seleccionarComida comidaId r) e) l
   ∨ ∃ i c q, findIndex comidaId l = Some (i, c) ∧ seleccionada c = false
       ∧ nombre_aceptado r = Some q
       ∧ contiene (exec (seleccionarComida comidaId r) e)
           (<[i := set_seleccionadoPor q c]> l)).
Proof.
  intros Hl. unfold result, exec.
  destruct (seleccionarComida_run e l comidaId r Hl)
    as [->|[->|[[-> Hq]|(i & c & q & Hf & Hc & Hr & ->)]]]; simpl.
  - split; [by left|]. left. by apply contiene_with_ui.
  - split; [by left|]. left. by apply contiene_with_ui, contiene_with_ui.
  - split; [by right|]. left. by apply contiene_with_ui.
  - split; [by left|]. right. exists i, c, q. split_and!; [done..|].
    apply seleccionada_por_contiene.
Qed.

(** What an addition can do to the stored list: nothing, or append the new
    meal. *)
Lemma agregarComida_casos e l :
  contiene e l →
  completa e (result agregarComida e) ∧
  (exec agregarComida e = e
   ∨ trim (input_comida (dom e)) ≠ []
     ∧ contiene (exec agregarComida e)
         (l ++ [nuevaComida (now e) (trim (input_comida (dom e)))])).
Proof.
  intros Hl. unfold result, exec.
  destruct (agregarComida_run e l Hl) as [->|[[-> Hq]|[Hv ->]]]; simpl.
  - split; by left.
  - split; [by right|by left].
  - split; [by left|]. right. split; [done|]. apply agregada_contiene.
Qed.

(** Room after an add or a claim is room before it: the slot is
    overwritten as a whole. *)
Lemma agregada_localStorage l e :
  localStorage (agregada l e)
  = localStorage (guardado (l ++ [nuevaComida (now e) (trim (input_comida (dom e)))]) e).
Proof.
  unfold agregada.
  by destruct (checkNotification_frame
    (with_dom (pintar (l ++ [nuevaComida (now e) (trim (input_comida (dom e)))]))
       (with_dom (set_input_comida [])
          (guardado (l ++ [nuevaComida (now e) (trim (input_comida (dom e)))]) e))))
    as (-> & _).
Qed.

Lemma agregada_cuota l e : cuota (agregada l e) = cuota e.
Proof. unfold agregada. by rewrite checkNotification_cuota. Qed.

Lemma cabe_lista_agregada l l2 e : cabe_lista l2 (agregada l e) ↔ cabe_lista l2 e.
Proof.
  rewrite <-(cabe_lista_guardado
    (l ++ [nuevaComida (now e) (trim (input_comida (dom e)))]) l2 e).
  split; apply cabe_lista_ext; by rewrite ?agregada_localStorage, ?agregada_cuota.
Qed.

Lemma cabe_lista_seleccionada_por q i c l l2 e :
  cabe_lista l2 (seleccionada_por q i c l e) ↔ cabe_lista l2 e.
Proof.
  rewrite <-(cabe_lista_guardado (<[i := set_seleccionadoPor q c]> l) l2 e).
  rewrite seleccionada_por_eq. by split; apply cabe_lista_ext.
Qed.

Lemma agregada_now l e : now (agregada l e) = now e.
Proof.
  unfold agregada.
  by destruct (checkNotification_frame
    (with_dom (pintar (l ++ [nuevaComida (now e) (trim (input_comida (dom e)))]))
       (with_dom (set_input_comida [])
          (guardado (l ++ [nuevaComida (now e) (trim (input_comida (dom e)))]) e))))
    as (_ & _ & -> & _).
Qed.

End lemmas.

(** ** Properties *)

#[local] Open Scope js_scope.

Section properties.
Context `{!JsonCodec}.
Implicit Types (e : Env) (l : list Comida) (c : Comida).
Implicit Types (comidaId s q : jsstring) (i : nat) (r : option jsstring).

(** C1.  [seleccionarComida] implements the contract's [claim]: with [l]
    stored and [s] typed at the prompt, if [claim l comidaId s] succeeds
    with [l'] and there is room for [l'] then [l'] is stored, the page
    shows [l'], the announcement naming the claimer and the meal is shown
    once and the mailbox is left empty; if it fails, the stored list, the
    page and the mailbox are unchanged and exactly one alert is shown.
    With no room for [l'] the handler throws [QuotaExceededError] after the
    prompt: nothing is stored, posted or painted and no alert is shown. *)
Theorem seleccionar_refines_claim e l comidaId s :
  contiene e l →
  let e' := exec (seleccionarComida comidaId (Some s)) e in
  let res := result (seleccionarComida comidaId (Some s)) e in
  match claim l comidaId s with
  | inr l' =>
    (cabe_lista l' e →
     res = Normal tt ∧ contiene e' l' ∧ dom e' = pintar l' (dom e)
     ∧ pendiente e' = None
     ∧ ∃ c, c ∈ l ∧ id c = comidaId
         ∧ ui e' = ui e ++ [Prompt PREGUNTA_NOMBRE (Some s);
                            Alert (mensaje_aviso (trim s) (nombre c))])
    ∧ (¬ cabe_lista l' e → res = Abrupt ExnQuota ∧ e' = preguntada (Some s) e)
  | inl EmptyName =>
    res = Normal tt ∧ e' = rechazada AVISO_SIN_NOMBRE (preguntada (Some s) e)
  | inl _ => res = Normal tt ∧ e' = rechazada AVISO_YA_SELECCIONADA e
  end.
Proof.
  intros Hl e' res. subst e' res. unfold result, exec, claim. fold (findIndex comidaId l).
  destruct (findIndex comidaId l) as [[i c]|] eqn:Hf.
  2: { erewrite seleccionarComida_rechazada; [done..|by left]. }
  destruct (seleccionada c) eqn:Hc.
  { erewrite seleccionarComida_rechazada; [done..|right; eauto]. }
  case_decide as Hs.
  { erewrite seleccionarComida_sin_nombre; [done..|].
    apply nombre_aceptado_None. right. eauto. }
  assert (nombre_aceptado (Some s) = Some (trim s)) as Hr
    by (apply nombre_aceptado_Some; eauto).
  split; intros Hq.
  - erewrite seleccionarComida_ok; [|done..]. simpl. split_and!; [done|..].
    + apply seleccionada_por_contiene.
    + by rewrite seleccionada_por_dom.
    + apply seleccionada_por_pendiente.
    + apply findIndex_Some in Hf as (Hi & Hid & _). exists c. split_and!; [|done|].
      * by eapply list_elem_of_lookup_2.
      * rewrite seleccionada_por_ui. simpl. by rewrite <-app_assoc.
  - by erewrite seleccionarComida_llena.
Qed.

(** C2.  [agregarComida] implements the contract's [add] with the decimal
    text of [Date.now()] as the id: if [add] succeeds with [l'] and there
    is room for [l'] then [l'] is stored, the page shows [l'] and the input
    field is emptied; if the name is blank nothing at all changes, and no
    dialog is shown.  With no room for [l'] the handler throws
    [QuotaExceededError] and nothing changes, the input field included. *)
Theorem agregar_refines_add e l :
  contiene e l →
  let e' := exec agregarComida e in
  let res := result agregarComida e in
  match add l (input_comida (dom e)) (number_toString (now e)) with
  | inr l' =>
    (cabe_lista l' e →
     res = Normal tt ∧ contiene e' l'
     ∧ dom e' = pintar l' (set_input_comida [] (dom e))
     ∧ sessionStorage e' = sessionStorage (exec checkNotification e))
    ∧ (¬ cabe_lista l' e → res = Abrupt ExnQuota ∧ e' = e)
  | inl _ => res = Normal tt ∧ e' = e
  end.
Proof.
  intros Hl e' res. subst e' res. unfold result, exec, add. case_decide as Hs.
  { by rewrite agregarComida_vacio. }
  split; intros Hq.
  - rewrite (agregarComida_ok e l Hs Hl Hq). simpl. split_and!; [done|..].
    + apply agregada_contiene.
    + apply agregada_dom.
    + by apply checkNotification_ext.
  - by rewrite (agregarComida_lleno e l Hs Hl Hq).
Qed.

(** C8.  Claim is monotonic: once a claim on [comidaId] has succeeded, every
    later claim on the same id, whatever is typed or cancelled at the
    prompt, is rejected with the "already selected" alert before any prompt
    is shown, and the stored list keeps the first claimer. *)
Theorem claim_monotonic e l comidaId s l' r :
  contiene e l → claim l comidaId s = inr l' → cabe_lista l' e →
  let e1 := exec (seleccionarComida comidaId (Some s)) e in
  seleccionarComida comidaId r e1 = (Normal tt, rechazada AVISO_YA_SELECCIONADA e1)
  ∧ contiene (rechazada AVISO_YA_SELECCIONADA e1) l'
  ∧ ∀ s2, claim l' comidaId s2 = inl AlreadyClaimed.
Proof.
  intros Hl (i & c & Hf & Hc & Hs & ->)%claim_inr Hq e1.
  assert (contiene e1 (<[i:=set_seleccionadoPor (trim s) c]> l)) as Hl1.
  { unfold e1, exec.
    erewrite seleccionarComida_ok; [|done..|apply nombre_aceptado_Some; eauto|done].
    apply seleccionada_por_contiene. }
  pose proof (findIndex_reclamado comidaId l i c (trim s) Hf) as Hf1.
  split_and!.
  - eapply seleccionarComida_rechazada; [done|]. right. eexists _, _. split; [done|].
    by apply set_seleccionadoPor_seleccionada.
  - by apply contiene_with_ui.
  - intros s2. unfold claim. fold (findIndex comidaId (<[i:=set_seleccionadoPor (trim s) c]> l)).
    rewrite Hf1. by rewrite set_seleccionadoPor_seleccionada.
Qed.

(** Idempotent claim rejection: a claim on a meal that is already
    claimed shows the "already selected" alert and nothing else: no prompt
    is opened, neither storage area nor the page changes, whatever the user
    would have typed. *)
Theorem claim_rejected_when_claimed e l comidaId i c r :
  contiene e l → findIndex comidaId l = Some (i, c) → seleccionada c = true →
  let e' := exec (seleccionarComida comidaId r) e in
  ui e' = ui e ++ [Alert AVISO_YA_SELECCIONADA]
  ∧ localStorage e' = localStorage e ∧ sessionStorage e' = sessionStorage e
  ∧ dom e' = dom e ∧ contiene e' l.
Proof.
  intros Hl Hf Hc e'. subst e'. unfold exec.
  erewrite seleccionarComida_rechazada; [|done|right; eauto].
  split_and!; [done..|]. by apply contiene_with_ui.
Qed.

(** A claim on an id that is not in the list is reported with the same
    alert as a claim on a claimed meal, "Esta comida ya fue seleccionada.":
    the handler does not tell "not found" from "already claimed".  Nothing
    else changes. *)
Theorem claim_not_found_says_selected e l comidaId r :
  contiene e l → comidaId ∉ ids l →
  seleccionarComida comidaId r e = (Normal tt, rechazada AVISO_YA_SELECCIONADA e)
  ∧ claim l comidaId (default [] r) = inl NotFound.
Proof.
  intros Hl Hno%findIndex_None. split.
  - eapply seleccionarComida_rechazada; [done|by left].
  - unfold claim. fold (findIndex comidaId l). by rewrite Hno.
Qed.

(** C35.  Cancelling the prompt, or answering it with blanks only, is
    answered with the alert "Debes ingresar un nombre..." in both cases:
    the handler does not tell a cancelled prompt from an empty answer.  The
    stored list, the mailbox and the page are unchanged. *)
Theorem claim_without_name e l comidaId i c r :
  contiene e l → findIndex comidaId l = Some (i, c) → seleccionada c = false →
  r = None ∨ (∃ s, r = Some s ∧ trim s = []) →
  let e' := exec (seleccionarComida comidaId r) e in
  ui e' = ui e ++ [Prompt PREGUNTA_NOMBRE r; Alert AVISO_SIN_NOMBRE]
  ∧ localStorage e' = localStorage e ∧ sessionStorage e' = sessionStorage e
  ∧ dom e' = dom e.
Proof.
  intros Hl Hf Hc Hr%nombre_aceptado_None e'. subst e'. unfold exec.
  erewrite seleccionarComida_sin_nombre; [|done..].
  split_and!; [|done..]. simpl. by rewrite <-app_assoc.
Qed.

(** The write after the prompt uses the copy of the list read before
    the prompt: whatever the store holds when the prompt returns, it is
    replaced by that copy with the claim applied.  A meal added, or a claim
    made, from another tab while the prompt was open is lost. *)
Theorem stale_write_after_prompt e l i c s :
  l !! i = Some c → trim s ≠ [] → cabe_reclamo (trim s) i c l e →
  let e' := exec (seleccionarComida_fin l i (Some s)) e in
  contiene e' (<[i := set_seleccionadoPor (trim s) c]> l)
  ∧ ∀ l0, contiene e l0 → length l < length l0 →
      ¬ l0 ⊑ <[i := set_seleccionadoPor (trim s) c]> l.
Proof.
  intros Hi Hs Hq e'. subst e'. unfold exec.
  erewrite fin_ok; [|apply nombre_aceptado_Some; eauto|done..]. split.
  - apply seleccionada_por_contiene.
  - intros l0 _ Hlen Hext%extiende_length. rewrite length_insert in Hext. lia.
Qed.


(** C37.  Ids are not unique: two meals added while [Date.now()] returns the
    same millisecond get the same id, and a claim on that id made right
    after them leaves the second unclaimed, whatever is answered at the
    prompt, because [findIndex] stops at the first meal with that id.  [v1]
    and [v2] are what the user typed in the input field. *)
Theorem same_millisecond_same_id e l v1 v2 r :
  let escribir v e := with_dom (set_input_comida v) e in
  let e2 := exec agregarComida (escribir v2 (exec agregarComida (escribir v1 e))) in
  let a := nuevaComida (now e) (trim v1) in
  let b := nuevaComida (now e) (trim v2) in
  contiene e l → trim v1 ≠ [] → trim v2 ≠ [] →
  cabe_lista (l ++ [a]) e → cabe_lista ((l ++ [a]) ++ [b]) e →
  contiene e2 (l ++ [a; b]) ∧ id a = id b
  ∧ ∀ l3, contiene (exec (seleccionarComida (id b) r) e2) l3 →
      l3 !! S (length l) = Some b.
Proof.
  intros escribir e2 a b Hl Hv1 Hv2 Hq1 Hq2.
  assert (contiene e2 (l ++ [a; b])) as Hl2.
  { unfold e2, exec.
    rewrite (agregarComida_ok (escribir v1 e) l) by (done || by apply contiene_with_dom).
    simpl snd.
    assert (now (escribir v2 (agregada l (escribir v1 e))) = now e) as Hnow
      by apply (agregada_now l (escribir v1 e)).
    erewrite agregarComida_ok; [|done|apply contiene_with_dom, agregada_contiene|].
    - simpl snd. replace (l ++ [a; b]) with ((l ++ [a]) ++ [b]) by by rewrite <-app_assoc.
      pose proof (agregada_contiene (l ++ [a])
                    (escribir v2 (agregada l (escribir v1 e)))) as Hc.
      by rewrite Hnow in Hc.
    - unfold cabe_nueva. rewrite Hnow.
      eapply (cabe_lista_ext _ (agregada l (escribir v1 e))); [done..|].
      by apply cabe_lista_agregada. }
  assert ((l ++ [a; b]) !! S (length l) = Some b) as Hb.
  { rewrite lookup_app_r by lia. by replace (S (length l) - length l) with 1 by lia. }
  split_and!; [done..|]. intros l3 Hl3.
  destruct (seleccionarComida_casos e2 (l ++ [a; b]) (id b) r Hl2)
    as [_ [Hsame|(i & c & q & Hf & _ & _ & Hnew)]].
  - by rewrite (contiene_inj _ _ _ Hl3 Hsame).
  - rewrite (contiene_inj _ _ _ Hl3 Hnew).
    apply findIndex_Some in Hf as (Hi & _ & Hmin).
    rewrite list_lookup_insert_ne; [done|]. intros ->.
    apply (Hmin (length l) a); [|lia|done].
    rewrite lookup_app_r by lia. by rewrite Nat.sub_diag.
Qed.

(** C38.  What the user types reaches the page as markup: after a
    successful [agregarComida] the last item of the list has the trimmed
    input, character for character, inside its [innerHTML] between [<h3>]
    and [</h3>]; nothing is escaped on the way (the id reaches the
    [data-id] attribute the same way). *)
Theorem nombre_llega_sin_escapar e l :
  contiene e l → trim (input_comida (dom e)) ≠ [] → cabe_nueva l e →
  ∃ item resto,
    last (lista_comidas (dom (exec agregarComida e))) = Some item
    ∧ innerHTML item
      = nl ++ sp 12 ++ lit "<h3>" ++ trim (input_comida (dom e)) ++ lit "</h3>" ++ resto.
Proof.
  intros Hl Hv Hq. unfold exec. rewrite (agregarComida_ok e l Hv Hl Hq). simpl snd.
  rewrite agregada_dom. simpl lista_comidas. rewrite fmap_app, list_fmap_singleton, last_snoc.
  eexists _, _. split; [done|]. unfold crearItem, plantilla, marco. simpl innerHTML.
  simpl nombre. by rewrite <-?app_assoc.
Qed.

(** Ids are fresh when the clock has advanced: if every stored meal
    has the decimal text of an earlier millisecond as its id and the ids
    are distinct, then after [agregarComida] the ids are still distinct,
    and are decimal texts of milliseconds up to now. *)
Theorem id_fresco_si_avanza_el_reloj e l :
  contiene e l → trim (input_comida (dom e)) ≠ [] →
  (∀ c, c ∈ l → ∃ t, id c = number_toString t ∧ (t < now e)%N) →
  NoDup (ids l) → cabe_nueva l e →
  ∃ l', contiene (exec agregarComida e) l' ∧ NoDup (ids l')
        ∧ ∀ c, c ∈ l' → ∃ t, id c = number_toString t ∧ (t ≤ now e)%N.
Proof.
  intros Hl Hv Hold Hnd Hq. unfold exec. rewrite (agregarComida_ok e l Hv Hl Hq). simpl snd.
  eexists. split; [apply agregada_contiene|]. unfold ids. rewrite fmap_app. split.
  - apply NoDup_app. split_and!; [done| |apply NoDup_singleton].
    intros k (c & -> & Hc)%list_elem_of_fmap Hk%list_elem_of_singleton.
    destruct (Hold c Hc) as (t & Ht & Hlt). simpl in Hk. rewrite Ht in Hk.
    apply number_toString_inj in Hk. lia.
  - intros c [Hc| ->%list_elem_of_singleton]%elem_of_app.
    + destruct (Hold c Hc) as (t & Ht & Hlt). exists t. split; [done|lia].
    + by exists (now e).
Qed.

End properties.

Section witnesses.

Definition env_tacos : Env := guardado [tacos] env0.

Lemma env_tacos_contiene : contiene env_tacos [tacos].
Proof. vm_compute. reflexivity. Defined.

Lemma seleccionar_refines_claim_witness :
  let e' := exec (seleccionarComida (id tacos) (Some (lit " Luis "))) env_tacos in
  contiene e' [set_seleccionadoPor (lit "Luis") tacos] ∧ pendiente e' = None.
Proof.
  destruct (seleccionar_refines_claim env_tacos [tacos] (id tacos) (lit " Luis ")
    env_tacos_contiene) as [Hok _].
  destruct (Hok I) as (_ & H1 & _ & H3 & _).
  exact (conj H1 H3).
Defined.

Lemma agregar_refines_add_witness :
  let e := with_dom (set_input_comida (lit "  Tacos ")) env0 in
  contiene (exec agregarComida e) [tacos].
Proof.
  assert (contiene (with_dom (set_input_comida (lit "  Tacos ")) env0) []) as Hl
    by (vm_compute; reflexivity).
  destruct (agregar_refines_add _ [] Hl) as [Hok _].
  destruct (Hok I) as (_ & H1 & _).
  exact H1.
Defined.

Lemma claim_monotonic_witness :
  let e1 := exec (seleccionarComida (id tacos) (Some (lit "Luis"))) env_tacos in
  seleccionarComida (id tacos) (Some (lit "Marta")) e1
  = (Normal tt, rechazada AVISO_YA_SELECCIONADA e1).
Proof.
  assert (claim [tacos] (id tacos) (lit "Luis") = inr [set_seleccionadoPor (lit "Luis") tacos])
    as Hc by (vm_compute; reflexivity).
  exact (proj1 (claim_monotonic env_tacos [tacos] (id tacos) (lit "Luis") _
    (Some (lit "Marta")) env_tacos_contiene Hc I)).
Defined.

Lemma claim_rejected_when_claimed_witness :
  let e' := exec (seleccionarComida (id pizza) (Some (lit "Marta"))) env_dos in
  ui e' = [Alert AVISO_YA_SELECCIONADA] ∧ localStorage e' = localStorage env_dos.
Proof.
  assert (findIndex (id pizza) [tacos; pizza] = Some (1, pizza)) as Hf
    by (vm_compute; reflexivity).
  assert (seleccionada pizza = true) as Hc by reflexivity.
  destruct (claim_rejected_when_claimed env_dos [tacos; pizza] (id pizza) 1 pizza
    (Some (lit "Marta")) env_dos_contiene Hf Hc) as (H1 & H2 & _).
  exact (conj H1 H2).
Defined.

Lemma claim_not_found_says_selected_witness :
  seleccionarComida (lit "42") None env_dos
  = (Normal tt, rechazada AVISO_YA_SELECCIONADA env_dos).
Proof.
  assert (lit "42" ∉ ids [tacos; pizza]) as Hno
    by (apply (bool_decide_unpack _); by vm_compute).
  exact (proj1 (claim_not_found_says_selected env_dos [tacos; pizza] (lit "42") None
    env_dos_contiene Hno)).
Defined.

Lemma claim_without_name_witness :
  let e' := exec (seleccionarComida (id tacos) None) env_tacos in
  ui e' = [Prompt PREGUNTA_NOMBRE None; Alert AVISO_SIN_NOMBRE]
  ∧ localStorage e' = localStorage env_tacos.
Proof.
  assert (findIndex (id tacos) [tacos] = Some (0, tacos)) as Hf by (vm_compute; reflexivity).
  assert (seleccionada tacos = false) as Hc by reflexivity.
  destruct (claim_without_name env_tacos [tacos] (id tacos) 0 tacos None
    env_tacos_contiene Hf Hc (or_introl eq_refl)) as (H1 & H2 & _).
  exact (conj H1 H2).
Defined.

Lemma stale_write_after_prompt_witness :
  let e' := exec (seleccionarComida_fin [tacos] 0 (Some (lit "Luis"))) env_dos in
  contiene e' [set_seleccionadoPor (lit "Luis") tacos]
  ∧ ¬ [tacos; pizza] ⊑ [set_seleccionadoPor (lit "Luis") tacos].
Proof.
  assert (trim (lit "Luis") ≠ []) as Hs by (vm_compute; discriminate).
  destruct (stale_write_after_prompt env_dos [tacos] 0 tacos (lit "Luis") eq_refl Hs I)
    as [H1 H2].
  split; [exact H1|]. apply (H2 [tacos; pizza] env_dos_contiene). simpl. lia.
Defined.

Lemma same_millisecond_same_id_witness :
  let escribir v e := with_dom (set_input_comida v) e in
  let e2 := exec agregarComida (escribir (lit "Pizza") (exec agregarComida (escribir (lit "Tacos") env0))) in
  contiene e2 [tacos; mkComida (id tacos) (lit "Pizza") None].
Proof.
  assert (contiene env0 []) as Hl by (vm_compute; reflexivity).
  assert (trim (lit "Tacos") ≠ []) as H1 by (vm_compute; discriminate).
  assert (trim (lit "Pizza") ≠ []) as H2 by (vm_compute; discriminate).
  exact (proj1 (same_millisecond_same_id env0 [] (lit "Tacos") (lit "Pizza") None
                  Hl H1 H2 I I)).
Defined.

Lemma nombre_llega_sin_escapar_witness :
  let e := with_dom (set_input_comida (lit " <img src=x onerror=alert(1)> ")) env0 in
  ∃ item resto,
    last (lista_comidas (dom (exec agregarComida e))) = Some item
    ∧ innerHTML item
      = nl ++ sp 12 ++ lit "<h3>" ++ lit "<img src=x onerror=alert(1)>" ++ lit "</h3>"
        ++ resto.
Proof.
  apply (nombre_llega_sin_escapar
           (with_dom (set_input_comida (lit " <img src=x onerror=alert(1)> ")) env0) []);
    [reflexivity|discriminate|exact I].
Defined.

Lemma id_fresco_si_avanza_el_reloj_witness :
  let e := with_now 1700000000005 (with_dom (set_input_comida (lit "Pizza")) env_tacos) in
  ∃ l', contiene (exec agregarComida e) l' ∧ NoDup (ids l')
        ∧ ∀ c, c ∈ l' → ∃ t, id c = number_toString t ∧ (t ≤ 1700000000005)%N.
Proof.
  apply (id_fresco_si_avanza_el_reloj
           (with_now 1700000000005 (with_dom (set_input_comida (lit "Pizza")) env_tacos))
           [tacos]).
  - reflexivity.
  - discriminate.
  - intros c ->%list_elem_of_singleton. exists 1700000000000%N. split; [reflexivity|done].
  - apply NoDup_singleton.
  - exact I.
Defined.

End witnesses.
