(* ===== verification/Eventos.v ===== *)
(** * Event wiring and histories of one tab

    The handlers [window.onload] registers (src/scripts.js, lines 143-165),
    the events a tab can see, and what any sequence of them does.  A handler
    that throws ends there; the event loop goes on with the state reached.
    The theorems are invariants over arbitrary histories: the stored list
    only moves by steps of the contract, the mailbox is empty between
    events, and the page shows the stored list; and what a handler leaves
    when it stops at a corrupt or a full store. *)

From S2P Require Import Prelude JsString Comida Json Browser Store Mailbox Render.
From S2P Require Import Contrato Seleccion.
#[local] Open Scope js_scope.

(** What can happen to a tab. *)
Inductive Evento :=
| Cargar
| Escribir (valor : jsstring)
| Reloj (t : N)
| ClickAgregar
| ClickLista (tagName : jsstring) (dataId : option jsstring) (respuesta : option jsstring)
| CambioStorage.

#[global] Instance Evento_eq_dec : EqDecision Evento.
Proof. solve_decision. Defined.

Section eventos.
Context `{!JsonCodec}.
(** The page as the HTML document gives it, before any script has run. *)
Context (html : Dom).
Implicit Types (e : Env) (l : list Comida) (ev : Evento) (evs : list Evento).

(** The handler of [window.onload] (lines 143-165): the first render, then
    the three listeners. *)
Definition onload : JS unit :=
  renderizarComidas ;;
  addEventListener OyenteAgregar ;;
  addEventListener OyenteLista ;;
  addEventListener OyenteStorage.

(** The click listener of [#lista-comidas] (lines 150-157); [tagName] and
    [dataId] are read off [event.target]. *)
Definition onClickLista (tagName : jsstring) (dataId : option jsstring)
    (respuesta : option jsstring) : JS unit :=
  if decide (tagName = lit "BUTTON") then
    match dataId with
    | Some comidaId =>
      if truthy comidaId then seleccionarComida comidaId respuesta else mret tt
    | None => mret tt
    end
  else mret tt.

(** The [storage] listener (lines 161-164). *)
Definition onStorage : JS unit := renderizarComidas.

(** An event reaches a listener only if it is registered. *)
Definition despachar (o : Oyente) (h : JS unit) : JS unit :=
  registrados ← gets oyentes;
  if decide (o ∈ registrados) then h else mret tt.

(** The document freshly loaded: the page of the HTML, no listener; storage,
    clock and the dialogs already shown stay. *)
Definition documento_nuevo e : Env :=
  mkEnv (localStorage e) (sessionStorage e) html (ui e) (now e) [] (cuota e).

(** The state after one event. *)
Definition ocurre ev e : Env :=
  match ev with
  | Cargar => exec onload (documento_nuevo e)
  | Escribir valor => with_dom (set_input_comida valor) e
  | Reloj t => with_now t e
  | ClickAgregar => exec (despachar OyenteAgregar agregarComida) e
  | ClickLista tagName dataId respuesta =>
    exec (despachar OyenteLista (onClickLista tagName dataId respuesta)) e
  | CambioStorage => exec (despachar OyenteStorage onStorage) e
  end.

(** How the handler of an event completes. *)
Definition resultado_evento ev e : completion unit :=
  match ev with
  | Cargar => result onload (documento_nuevo e)
  | Escribir _ | Reloj _ => Normal tt
  | ClickAgregar => result (despachar OyenteAgregar agregarComida) e
  | ClickLista tagName dataId respuesta =>
    result (despachar OyenteLista (onClickLista tagName dataId respuesta)) e
  | CambioStorage => result (despachar OyenteStorage onStorage) e
  end.

(** The state after a history. *)
Definition ejecutar evs e : Env := foldl (λ e ev, ocurre ev e) e evs.

(** The states a tab can reach from [e]. *)
Inductive alcanzable e : Env → Prop :=
| alcanzable_aqui : alcanzable e e
| alcanzable_paso e' ev : alcanzable e e' → alcanzable e (ocurre ev e').

(** ** Invariants of a tab *)

(** The store holds [l] and the mailbox is empty: the state of a tab between
    two events. *)
Definition en_reposo e l : Prop := contiene e l ∧ pendiente e = None.

Definition todos_los_oyentes : list Oyente := [OyenteAgregar; OyenteLista; OyenteStorage].

(** What one event can make of a tab at rest with the list [l]: the state
    and the list after it.  An add that finds no room is [efecto_nada]; a
    claim that finds no room is [efecto_pregunta], the prompt and nothing
    else. *)
Inductive efecto e l : Env → list Comida → Prop :=
| efecto_nada : efecto e l e l
| efecto_carga :
    efecto e l
      (with_oyentes (λ _, todos_los_oyentes) (with_dom (pintar l) (documento_nuevo e))) l
| efecto_escribe valor : efecto e l (with_dom (set_input_comida valor) e) l
| efecto_reloj t : efecto e l (with_now t e) l
| efecto_agrega :
    trim (input_comida (dom e)) ≠ [] →
    let l' := l ++ [nuevaComida (now e) (trim (input_comida (dom e)))] in
    efecto e l (with_dom (pintar l') (with_dom (set_input_comida []) (guardado l' e))) l'
| efecto_rechaza : efecto e l (rechazada AVISO_YA_SELECCIONADA e) l
| efecto_sin_nombre r : efecto e l (rechazada AVISO_SIN_NOMBRE (preguntada r e)) l
| efecto_pregunta r : efecto e l (preguntada r e) l
| efecto_reclama i c q r :
    l !! i = Some c → seleccionada c = false → nombre_valido q →
    efecto e l (seleccionada_por q i c l (preguntada r e))
      (<[i := set_seleccionadoPor q c]> l)
| efecto_repinta : efecto e l (with_dom (pintar l) e) l.

(** The invariant of a tab whose page has loaded. *)
Definition cargada e l : Prop := muestra e l ∧ oyentes e = todos_los_oyentes.

(** The events a listener would handle. *)
Definition es_interaccion ev : bool :=
  match ev with
  | ClickAgregar | ClickLista _ _ _ | CambioStorage => true
  | Cargar | Escribir _ | Reloj _ => false
  end.

End eventos.

(** ** Lemmas *)

Section lemmas.
Context `{!JsonCodec}.
Context (html : Dom).
Implicit Types (e : Env) (l : list Comida) (ev : Evento) (evs : list Evento).

Lemma exec_checkNotification_None e : pendiente e = None → exec checkNotification e = e.
Proof. intros Hp. unfold exec. by rewrite checkNotification_None. Qed.

Lemma despachar_run o h e :
  despachar o h e = if decide (o ∈ oyentes e) then h e else (Normal tt, e).
Proof. unfold despachar. js_run. by case_decide. Qed.

Lemma renderizarComidas_reposo e l :
  en_reposo e l → exec renderizarComidas e = with_dom (pintar l) e.
Proof.
  intros [Hl Hp]. rewrite (renderizarComidas_exec e l Hl).
  by apply exec_checkNotification_None.
Qed.

Lemma agregarComida_reposo e l :
  en_reposo e l →
  exec agregarComida e = e
  ∨ trim (input_comida (dom e)) ≠ []
    ∧ exec agregarComida e
      = with_dom (pintar (l ++ [nuevaComida (now e) (trim (input_comida (dom e)))]))
          (with_dom (set_input_comida [])
             (guardado (l ++ [nuevaComida (now e) (trim (input_comida (dom e)))]) e)).
Proof.
  intros [Hl Hp]. unfold exec.
  destruct (agregarComida_run e l Hl) as [->|[[-> _]|[Hv ->]]]; [by left..|].
  right. split; [done|]. by apply exec_checkNotification_None.
Qed.

Lemma seleccionarComida_reposo e l comidaId r :
  en_reposo e l →
  exec (seleccionarComida comidaId r) e = rechazada AVISO_YA_SELECCIONADA e
  ∨ exec (seleccionarComida comidaId r) e
    = rechazada AVISO_SIN_NOMBRE (preguntada r e)
  ∨ exec (seleccionarComida comidaId r) e = preguntada r e
  ∨ ∃ i c q, l !! i = Some c ∧ seleccionada c = false ∧ nombre_valido q
      ∧ exec (seleccionarComida comidaId r) e
        = seleccionada_por q i c l (preguntada r e).
Proof.
  intros [Hl Hp]. unfold exec.
  destruct (seleccionarComida_run e l comidaId r Hl)
    as [->|[->|[[-> _]|(i & c & q & Hf & Hc & Hr & ->)]]]; [by auto..|].
  do 3 right. exists i, c, q. split_and!; [|done| |done].
  - by apply findIndex_Some in Hf as [? _].
  - by eapply nombre_aceptado_valido.
Qed.

Lemma onload_reposo e l :
  en_reposo e l →
  ocurre html Cargar e
  = with_oyentes (λ _, [OyenteAgregar; OyenteLista; OyenteStorage])
      (with_dom (pintar l) (documento_nuevo html e)).
Proof.
  intros [Hl Hp]. unfold ocurre, exec, onload.
  assert (en_reposo (documento_nuevo html e) l) as Hr.
  { split; [by eapply contiene_ext; [|exact Hl]|done]. }
  rewrite run_bind, (renderizarComidas_run _ l (proj1 Hr)).
  rewrite checkNotification_None by done. by js_run.
Qed.

(** Every event is one of the effects. *)
Lemma ocurre_efecto ev e l : en_reposo e l → ∃ l', efecto html e l (ocurre html ev e) l'.
Proof.
  intros Hr. destruct ev as [|v|t| |tag d r|].
  - rewrite (onload_reposo e l Hr). eexists. apply efecto_carga.
  - eexists. apply efecto_escribe.
  - eexists. apply efecto_reloj.
  - unfold ocurre, exec. rewrite despachar_run. case_decide; [|eexists; apply efecto_nada].
    destruct (agregarComida_reposo e l Hr) as [He|[Hv He]]; unfold exec in He; rewrite He.
    + eexists. apply efecto_nada.
    + eexists. by apply efecto_agrega.
  - unfold ocurre, exec. rewrite despachar_run. case_decide; [|eexists; apply efecto_nada].
    unfold onClickLista. case_decide; [|eexists; apply efecto_nada].
    destruct d as [comidaId|]; [|eexists; apply efecto_nada].
    destruct (truthy comidaId); [|eexists; apply efecto_nada].
    destruct (seleccionarComida_reposo e l comidaId r Hr)
      as [He|[He|[He|(i & c & q & Hi & Hc & Hq & He)]]]; unfold exec in He; rewrite He.
    + eexists. apply efecto_rechaza.
    + eexists. apply efecto_sin_nombre.
    + eexists. apply efecto_pregunta.
    + eexists. by apply efecto_reclama.
  - unfold ocurre, exec. rewrite despachar_run. case_decide; [|eexists; apply efecto_nada].
    pose proof (renderizarComidas_reposo e l Hr) as He. unfold exec in He.
    unfold onStorage. rewrite He. eexists. apply efecto_repinta.
Qed.

(** ** Handlers complete *)

Lemma renderizarComidas_result e l : en_reposo e l → result renderizarComidas e = Normal tt.
Proof.
  intros [Hl Hp]. unfold result. rewrite (renderizarComidas_run e l Hl).
  by rewrite checkNotification_None.
Qed.

Lemma onload_result e l : en_reposo e l → result onload (documento_nuevo html e) = Normal tt.
Proof.
  intros [Hl Hp].
  assert (en_reposo (documento_nuevo html e) l) as [Hl' Hp'].
  { split; [by eapply contiene_ext; [|exact Hl]|done]. }
  unfold result, onload. rewrite run_bind, (renderizarComidas_run _ l Hl').
  rewrite checkNotification_None by done. by js_run.
Qed.

Lemma result_despachar o (h : JS unit) e :
  completa e (result h e) → completa e (result (despachar o h) e).
Proof. unfold result. rewrite despachar_run. case_decide; [done|by left]. Qed.

(** The click listener of the list ends as [seleccionarComida] does, or
    does nothing. *)
Lemma onClickLista_run tagName dataId r e :
  onClickLista tagName dataId r e = (Normal tt, e)
  ∨ ∃ comidaId, onClickLista tagName dataId r e = seleccionarComida comidaId r e.
Proof.
  unfold onClickLista. case_decide; [|by left].
  destruct dataId as [comidaId|]; [|by left]. destruct (truthy comidaId); [|by left].
  right. by exists comidaId.
Qed.

(** At rest, the handler of every event completes: the only exception it
    can end with is the [QuotaExceededError] of a full store. *)
Lemma resultado_evento_reposo ev e l :
  en_reposo e l → completa e (resultado_evento html ev e).
Proof.
  intros Hr. pose proof Hr as [Hl Hp].
  destruct ev as [|v|t| |tag d r|]; simpl; try apply completa_normal.
  - left. by eapply onload_result.
  - apply result_despachar. by destruct (agregarComida_casos e l Hl).
  - apply result_despachar. unfold result.
    destruct (onClickLista_run tag d r e) as [->|[comidaId ->]]; [by left|].
    by destruct (seleccionarComida_casos e l comidaId r Hl).
  - apply result_despachar. left. by eapply renderizarComidas_result.
Qed.

(** A handler that stops for lack of room has changed nothing but the log
    of dialogs, where the prompt it showed is recorded. *)
Lemma resultado_evento_lleno ev e l :
  en_reposo e l → resultado_evento html ev e = Abrupt ExnQuota →
  ocurre html ev e = e ∨ ∃ r, ocurre html ev e = preguntada r e.
Proof.
  intros Hr. pose proof Hr as [Hl Hp]. destruct ev as [|v|t| |tag d r|]; simpl; try done.
  - by rewrite (onload_result e l Hr).
  - unfold result, exec. rewrite despachar_run. case_decide; [|done].
    destruct (agregarComida_run e l Hl) as [->|[[-> _]|[_ ->]]]; by auto.
  - unfold result, exec. rewrite despachar_run. case_decide; [|done].
    destruct (onClickLista_run tag d r e) as [->|[comidaId ->]]; [done|].
    destruct (seleccionarComida_run e l comidaId r Hl)
      as [->|[->|[[-> _]|(i & c & q & _ & _ & _ & ->)]]]; try done.
    intros _. right. by exists r.
  - unfold result. rewrite despachar_run. case_decide; [|done].
    fold (result onStorage e). unfold onStorage.
    by rewrite (renderizarComidas_result e l Hr).
Qed.

(** ** What every effect keeps *)

Lemma efecto_reposo e l e' l' : efecto html e l e' l' → en_reposo e l → en_reposo e' l'.
Proof.
  intros Hef [Hl Hp]. destruct Hef; (split; [|try done]).
  all: try (by eapply contiene_ext; [|exact Hl]).
  - apply contiene_with_dom, contiene_with_dom, guardado_contiene.
  - apply seleccionada_por_contiene.
  - apply seleccionada_por_pendiente.
Qed.

Lemma efecto_paso e l e' l' : efecto html e l e' l' → l' = l ∨ paso l l'.
Proof.
  destruct 1; try (by left); right.
  - apply paso_agregar; [done|]. by apply nombre_valido_trim.
  - by apply paso_reclamar.
Qed.

Lemma efecto_wf e l e' l' : efecto html e l e' l' → comidas_wf l → comidas_wf l'.
Proof.
  destruct 1; intros Hwf; try done.
  - apply comidas_wf_snoc; [done|]. by apply nueva_comida_wf.
  - apply comidas_wf_insert; [done|]. eauto with wf.
Qed.

Lemma efecto_muestra e l e' l' : efecto html e l e' l' → muestra e l → muestra e' l'.
Proof.
  unfold muestra. destruct 1; intros Hm; try done.
  - simpl. by rewrite Hm.
  - by rewrite seleccionada_por_dom.
Qed.

Lemma efecto_oyentes e l e' l' :
  efecto html e l e' l' → oyentes e = todos_los_oyentes → oyentes e' = todos_los_oyentes.
Proof. destruct 1; intros Ho; try done. by rewrite seleccionada_por_eq. Qed.

(** ** Histories *)

Lemma efecto_cargada e l e' l' : efecto html e l e' l' → cargada e l → cargada e' l'.
Proof.
  intros Hef [Hm Ho]. split; [by eapply efecto_muestra|by eapply efecto_oyentes].
Qed.

(** Induction over a history, once: a tab at rest stays at rest, whatever
    every effect keeps is kept, and the list moves by steps of the contract
    and stays well formed. *)
Lemma ejecutar_inv (I : Env → list Comida → Prop) :
  (∀ e l e' l', efecto html e l e' l' → I e l → I e' l') →
  ∀ evs e l, en_reposo e l → I e l →
  ∃ l', en_reposo (ejecutar html evs e) l' ∧ I (ejecutar html evs e) l'
        ∧ rtc paso l l' ∧ (comidas_wf l → comidas_wf l').
Proof.
  intros HI evs. induction evs as [|ev evs IH]; intros e l Hr Hi; [by exists l|].
  destruct (ocurre_efecto ev e l Hr) as (l1 & Hef).
  destruct (IH (ocurre html ev e) l1) as (l2 & Hr2 & Hi2 & Hp2 & Hwf2);
    [by eapply efecto_reposo|by eapply HI|].
  exists l2. split_and!; [done..| |by intros ?%(efecto_wf _ _ _ _ Hef)%Hwf2].
  destruct (efecto_paso _ _ _ _ Hef) as [->|Hp1]; [done|by econstructor].
Qed.

Lemma ejecutar_reposo evs e l :
  en_reposo e l →
  ∃ l', en_reposo (ejecutar html evs e) l' ∧ rtc paso l l'
        ∧ (comidas_wf l → comidas_wf l').
Proof.
  intros Hr. destruct (ejecutar_inv (λ _ _, True)) with evs e l
    as (l' & ? & _ & ? & ?); eauto.
Qed.

Lemma cargar_cargada e l : en_reposo e l → cargada (ocurre html Cargar e) l.
Proof. intros Hr. by rewrite (onload_reposo e l Hr). Qed.

Lemma alcanzable_ejecutar e e' : alcanzable html e e' ↔ ∃ evs, e' = ejecutar html evs e.
Proof.
  split.
  - induction 1 as [|e1 ev _ [evs ->]]; [by exists []|].
    exists (evs ++ [ev]). unfold ejecutar. by rewrite foldl_app.
  - intros [evs ->]. induction evs as [|ev evs IH] using rev_ind; [constructor|].
    unfold ejecutar. rewrite foldl_app. by constructor.
Qed.

(** ** A load that throws *)

Lemma onload_abrupt e x :
  result obtenerComidas e = Abrupt x → ocurre html Cargar e = documento_nuevo html e.
Proof.
  intros Hx. unfold ocurre, exec, onload.
  erewrite run_bind_abrupt; [done|]. apply renderizarComidas_abrupt.
  by rewrite <-Hx; apply obtenerComidas_ext.
Qed.

Lemma ocurre_sin_oyentes ev e :
  oyentes e = [] → es_interaccion ev = true → ocurre html ev e = e.
Proof.
  intros Ho Hev. destruct ev; try done; unfold ocurre, exec;
    rewrite despachar_run, Ho; by rewrite decide_False by set_solver.
Qed.

End lemmas.

(** ** Properties *)

Section properties.
Context `{!JsonCodec}.
Context (html : Dom).
Implicit Types (e : Env) (l : list Comida) (ev : Evento) (evs : list Evento).

(** C3.  Monotonic lifecycle over histories: whatever sequence of loads,
    keystrokes, clock ticks, clicks and storage events a tab sees, the stored
    list only moves by steps of the contract (append an unclaimed meal, or
    give a claimer to an unclaimed meal); so every meal stays at its
    position with its id, its name and its claimer: nothing is removed,
    renamed, unclaimed or claimed again. *)
Theorem historia_segura evs e l :
  en_reposo e l →
  ∃ l', contiene (ejecutar html evs e) l' ∧ rtc paso l l' ∧ l ⊑ l'.
Proof.
  intros Hr. destruct (ejecutar_reposo html evs e l Hr) as (l' & [Hl _] & Hp & _).
  exists l'. split_and!; [done..|]. by apply pasos_extiende.
Qed.

(** C29.  The well-formedness invariant: in every state a tab can reach from
    a state whose list is well formed, the stored list is well formed: ids
    are decimal numerals, names are non-empty and trimmed, claimers are
    absent or non-empty and trimmed. *)
Theorem alcanzable_wf e e' l :
  alcanzable html e e' → en_reposo e l → comidas_wf l →
  ∃ l', contiene e' l' ∧ comidas_wf l'.
Proof.
  intros Ha Hr Hwf.
  assert (∃ l', en_reposo e' l' ∧ comidas_wf l') as (l' & [? _] & ?); [|by eauto].
  induction Ha as [|e1 ev _ (l1 & Hr1 & Hwf1)]; [by eauto|].
  destruct (ocurre_efecto html ev e1 l1 Hr1) as (l2 & Hef). exists l2.
  split; [by eapply efecto_reposo|by eapply efecto_wf].
Qed.

(** The mailbox is empty between events: every message a handler posts
    is shown and removed before that handler returns, in the tab that posted
    it.  No other tab can find it, since [sessionStorage] is not shared. *)
Theorem buzon_vacio_en_reposo evs e l :
  en_reposo e l → pendiente (ejecutar html evs e) = None.
Proof.
  intros Hr. by destruct (ejecutar_reposo html evs e l Hr) as (l' & [_ Hp] & _).
Qed.

(** C30.  The page follows the store: after a load and any further events of
    the tab, the page shows exactly the stored list (counters and items),
    and each of the three listeners is registered exactly once, however
    often the page was reloaded. *)
Theorem pagina_sigue_al_almacen evs e l :
  en_reposo e l →
  let e' := ejecutar html (Cargar :: evs) e in
  ∃ l', contiene e' l' ∧ muestra e' l'
        ∧ lista_comidas (dom e') = crearItem <$> l'
        ∧ oyentes e' = [OyenteAgregar; OyenteLista; OyenteStorage].
Proof.
  intros Hr e'. subst e'. simpl.
  destruct (ejecutar_inv html cargada (efecto_cargada html))
    with evs (ocurre html Cargar e) l as (l' & [Hl _] & [Hm Ho] & _).
  - rewrite (onload_reposo html e l Hr).
    eapply efecto_reposo; [apply efecto_carga|done].
  - by apply cargar_cargada.
  - exists l'. split_and!; [done..| |done]. by rewrite Hm.
Qed.

(** A corrupt store disables the page: if loading throws during
    [window.onload], no listener is registered, nothing is painted, and
    every later click or storage event is ignored; the stored text is left
    as it is, so reloading does not help. *)
Theorem carga_corrupta e x ev :
  result obtenerComidas e = Abrupt x → es_interaccion ev = true →
  let e' := ocurre html Cargar e in
  e' = documento_nuevo html e ∧ ocurre html ev e' = e'
  ∧ ocurre html Cargar e' = e'.
Proof.
  intros Hx Hev e'. subst e'. rewrite (onload_abrupt html e x Hx).
  split_and!; [done|by apply ocurre_sin_oyentes|].
  rewrite (onload_abrupt html _ x); [done|].
  by rewrite <-Hx; apply obtenerComidas_ext.
Qed.

(** C36.  Lack of room is silent: when the handler of an event of a tab at
    rest ends with [QuotaExceededError], the stored list, both storage
    areas and the page are as before the event, and no alert has been
    shown: at most the prompt the user answered.  The user is not told that
    the meal or the claim was not recorded.  This happens only in a browser
    that sets a quota. *)
Theorem sin_sitio_sin_aviso ev e l :
  en_reposo e l → resultado_evento html ev e = Abrupt ExnQuota →
  let e' := ocurre html ev e in
  contiene e' l ∧ localStorage e' = localStorage e
  ∧ sessionStorage e' = sessionStorage e ∧ dom e' = dom e
  ∧ (ui e' = ui e ∨ ∃ r, ui e' = ui e ++ [Prompt PREGUNTA_NOMBRE r])
  ∧ cuota e ≠ None.
Proof.
  intros Hr Hres e'. subst e'.
  assert (cuota e ≠ None) as Hq.
  { destruct (resultado_evento_reposo html ev e l Hr) as [Hn|[_ ?]]; [|done].
    by rewrite Hn in Hres. }
  destruct (resultado_evento_lleno html ev e l Hr Hres) as [->|[r ->]].
  - split_and!; [by destruct Hr|done..|by left|done].
  - split_and!; [by apply contiene_with_ui; destruct Hr|done..| |done].
    right. by exists r.
Qed.

(** Click delegation: a click inside the list reaches
    [seleccionarComida] exactly when its target is a [BUTTON] carrying a
    non-empty [data-id], and then with that id; any other click in the list
    does nothing. *)
Theorem click_delegado tagName dataId r e :
  onClickLista tagName dataId r e
  = match dataId with
    | Some comidaId =>
      if decide (tagName = lit "BUTTON" ∧ comidaId ≠ [])
      then seleccionarComida comidaId r e else (Normal tt, e)
    | None => (Normal tt, e)
    end.
Proof.
  unfold onClickLista. destruct dataId as [comidaId|]; [|by case_decide].
  destruct (decide (tagName = _)) as [Ht|Ht], comidaId as [|c s]; simpl.
  - by rewrite decide_False by (by intros [_ ?]).
  - by rewrite decide_True.
  - by rewrite decide_False by (by intros [? _]).
  - by rewrite decide_False by (by intros [? _]).
Qed.

End properties.

(** ** Witnesses *)

Section witnesses.

Definition html0 : Dom := mkDom (lit "0") (lit "0") [] [].

Definition historia0 : list Evento :=
  [Cargar; Escribir (lit " Tacos "); ClickAgregar;
   ClickLista (lit "BUTTON") (Some (lit "1700000000000")) (Some (lit "Ana "))].

Lemma env0_reposo : en_reposo env0 [].
Proof. split; reflexivity. Defined.

Lemma historia_segura_witness :
  ∃ l', contiene (ejecutar html0 historia0 env0) l' ∧ rtc paso [] l' ∧ [] ⊑ l'.
Proof. apply (historia_segura html0 historia0 env0 [] env0_reposo). Defined.

Lemma alcanzable_wf_witness :
  ∃ l', contiene (ocurre html0 ClickAgregar (ocurre html0 Cargar env0)) l' ∧ comidas_wf l'.
Proof.
  apply (alcanzable_wf html0 env0 _ []); [|apply env0_reposo|constructor].
  apply alcanzable_paso, alcanzable_paso, alcanzable_aqui.
Defined.

Lemma buzon_vacio_en_reposo_witness : pendiente (ejecutar html0 historia0 env0) = None.
Proof. apply (buzon_vacio_en_reposo html0 historia0 env0 [] env0_reposo). Defined.

Lemma pagina_sigue_al_almacen_witness :
  let e' := ejecutar html0 (Cargar :: historia0) env0 in
  ∃ l', contiene e' l' ∧ muestra e' l'
        ∧ lista_comidas (dom e') = crearItem <$> l'
        ∧ oyentes e' = [OyenteAgregar; OyenteLista; OyenteStorage].
Proof. apply (pagina_sigue_al_almacen html0 historia0 env0 [] env0_reposo). Defined.

Lemma carga_corrupta_witness :
  let e := with_localStorage <[STORAGE_KEY := lit "{oops"]> env0 in
  let e' := ocurre html0 Cargar e in
  e' = documento_nuevo html0 e ∧ ocurre html0 ClickAgregar e' = e'
  ∧ ocurre html0 Cargar e' = e'.
Proof.
  apply (carga_corrupta html0 _ ExnSyntaxError ClickAgregar); reflexivity.
Defined.

(** The scenario of a lunch, run on the concrete codec: two meals are
    added, the first is claimed by Ana, a second claim on it is refused, and
    a click beside the buttons is ignored. *)
Example escenario_almuerzo :
  let e := ejecutar html0
    [Cargar; Escribir (lit " Tacos "); ClickAgregar;
     Reloj 1700000000005; Escribir (lit "Pizza"); ClickAgregar;
     ClickLista (lit "BUTTON") (Some (lit "1700000000000")) (Some (lit "Ana "));
     ClickLista (lit "BUTTON") (Some (lit "1700000000000")) (Some (lit "Luis"));
     ClickLista (lit "DIV") None None] env0 in
  contiene e [mkComida (lit "1700000000000") (lit "Tacos") (Some (lit "Ana"));
              mkComida (lit "1700000000005") (lit "Pizza") None]
  ∧ total_comidas (dom e) = lit "2" ∧ restantes_comidas (dom e) = lit "1"
  ∧ input_comida (dom e) = []
  ∧ ui e = [Prompt PREGUNTA_NOMBRE (Some (lit "Ana "));
            Alert (mensaje_aviso (lit "Ana") (lit "Tacos"));
            Alert AVISO_YA_SELECCIONADA]
  ∧ pendiente e = None.
Proof. by vm_compute. Qed.

(** A full store, run on the concrete codec with a quota of 100 code
    units.  Tacos is added.  Pizza finds no room: the add ends at [setItem],
    the input keeps the text, the page keeps its one meal and no dialog is
    shown.  A claim under a long name finds no room after the prompt:
    nothing is stored or announced, and no alert tells the user.  A claim
    under a short name fits and succeeds. *)
Lemma sin_sitio_sin_aviso_witness :
  let e := ejecutar html0 [Cargar; Escribir (lit " Tacos "); ClickAgregar;
                           Reloj 1700000000005; Escribir (lit "Pizza")]
             (with_cuota (Some 100) env0) in
  contiene (ocurre html0 ClickAgregar e) [tacos]
  ∧ dom (ocurre html0 ClickAgregar e) = dom e.
Proof.
  destruct (sin_sitio_sin_aviso html0 ClickAgregar
              (ejecutar html0 [Cargar; Escribir (lit " Tacos "); ClickAgregar;
                               Reloj 1700000000005; Escribir (lit "Pizza")]
                 (with_cuota (Some 100) env0)) [tacos])
    as (H1 & _ & _ & H2 & _).
  - split; vm_compute; reflexivity.
  - vm_compute. reflexivity.
  - exact (conj H1 H2).
Defined.

Example escenario_sin_sitio :
  let e := ejecutar html0
    [Cargar; Escribir (lit " Tacos "); ClickAgregar;
     Reloj 1700000000005; Escribir (lit "Pizza"); ClickAgregar;
     ClickLista (lit "BUTTON") (Some (lit "1700000000000"))
       (Some (lit "Ana Maria de la Concepcion"));
     ClickLista (lit "BUTTON") (Some (lit "1700000000000")) (Some (lit "Ana"))]
    (with_cuota (Some 100) env0) in
  contiene e [mkComida (lit "1700000000000") (lit "Tacos") (Some (lit "Ana"))]
  ∧ tamano (localStorage e) = 87
  ∧ input_comida (dom e) = lit "Pizza"
  ∧ total_comidas (dom e) = lit "1" ∧ restantes_comidas (dom e) = lit "0"
  ∧ ui e = [Prompt PREGUNTA_NOMBRE (Some (lit "Ana Maria de la Concepcion"));
            Prompt PREGUNTA_NOMBRE (Some (lit "Ana"));
            Alert (mensaje_aviso (lit "Ana") (lit "Tacos"))]
  ∧ pendiente e = None.
Proof. by vm_compute. Qed.

End witnesses.
