(* ===== verification/Tabs.v ===== *)
(** * Several tabs over one [localStorage]

    The tabs of one browser share [localStorage]; each has its own
    [sessionStorage], page, dialogs and listeners.  A tab handles one event
    at a time; a handler runs to its end, except that [prompt] suspends
    [seleccionarComida] while the other tabs go on.  A move of the world is
    a step of one tab on the shared store, a tab opened on the page, or a
    tab closed.  The theorems say what survives
    interleaving (the lifecycle of the list when no prompt is open across a
    write of another tab, the isolation of the mailbox, the convergence of
    the pages) and what does not (updates lost at the prompt). *)

From S2P Require Import Prelude JsString Comida Json Browser Store Mailbox Render.
From S2P Require Import Contrato Seleccion Eventos.
#[local] Open Scope js_scope.

(** A tab: its state, and the handler suspended at [prompt], if any, as the
    copy of the list it read and the index it found (the local variables
    [comidas] and [comidaIndex] of [seleccionarComida]).  The field
    [localStorage] of [entorno] is the store as the tab last saw it; the tab
    runs on the shared store. *)
Record Pestana := mkPestana {
  entorno : Env;
  esperando : option (list Comida * nat);
}.

(** The world: the shared store and the tabs. *)
Record Mundo := mkMundo {
  compartido : Storage;
  pestanas : list Pestana;
}.

(** What a tab can be made to do. *)
Inductive Accion :=
| Atomica (ev : Evento)
| AbrirPrompt (tagName : jsstring) (dataId : option jsstring)
| Responder (respuesta : option jsstring).

(** A move of the world: tab [i] does [a]; a tab is opened on the page,
    its clock at [t] and its store with quota [q]; tab [j] is closed.  Tabs
    are numbered by their place in the tab strip, so closing one renumbers
    those after it. *)
Inductive Movimiento :=
| Actuar (i : nat) (a : Accion)
| Abrir (t : N) (q : option nat)
| Cerrar (j : nat).

#[global] Instance Pestana_eq_dec : EqDecision Pestana.
Proof. solve_decision. Defined.

#[global] Instance Mundo_eq_dec : EqDecision Mundo.
Proof. solve_decision. Defined.

#[global] Instance Accion_eq_dec : EqDecision Accion.
Proof. solve_decision. Defined.

#[global] Instance Movimiento_eq_dec : EqDecision Movimiento.
Proof. solve_decision. Defined.

Section tabs.
Context `{!JsonCodec}.
Context (html : Dom).
Implicit Types (e : Env) (p : Pestana) (w : Mundo) (a : Accion) (i j : nat).
Implicit Types (l comidas : list Comida).

(** The click listener of the list (lines 150-157) up to the prompt of
    [seleccionarComida] (lines 103-108). *)
Definition onClickLista_inicio (tagName : jsstring) (dataId : option jsstring)
    : JS (option (list Comida * nat)) :=
  registrados ← gets oyentes;
  if decide (OyenteLista ∈ registrados) then
    if decide (tagName = lit "BUTTON") then
      match dataId with
      | Some comidaId =>
        if truthy comidaId then seleccionarComida_inicio comidaId else mret None
      | None => mret None
      end
    else mret None
  else mret None.

(** [seleccionarComida] from the return of [prompt] (lines 108-122). *)
Definition responder comidas (comidaIndex : nat) (respuesta : option jsstring) : JS unit :=
  nombreUsuario ← prompt PREGUNTA_NOMBRE respuesta;
  seleccionarComida_fin comidas comidaIndex nombreUsuario.

(** One action of a tab.  A tab blocked at a prompt handles nothing but the
    answer; an answer without a prompt is nothing. *)
Definition actuar a p : Pestana :=
  match esperando p with
  | Some (comidas, comidaIndex) =>
    match a with
    | Responder r => mkPestana (exec (responder comidas comidaIndex r) (entorno p)) None
    | _ => p
    end
  | None =>
    match a with
    | Atomica ev => mkPestana (ocurre html ev (entorno p)) None
    | AbrirPrompt tagName dataId =>
      let '(r, e') := onClickLista_inicio tagName dataId (entorno p) in
      mkPestana e' (match r with Normal abierto => abierto | Abrupt _ => None end)
    | Responder _ => p
    end
  end.

(** The tab looking at the shared store. *)
Definition enfocar w p : Pestana :=
  mkPestana (with_localStorage (λ _, compartido w) (entorno p)) (esperando p).

(** One step of the world: tab [i] acts on the shared store. *)
Definition paso_mundo i a w : Mundo :=
  match pestanas w !! i with
  | Some p =>
    let p' := actuar a (enfocar w p) in
    mkMundo (localStorage (entorno p')) (<[i := p']> (pestanas w))
  | None => w
  end.

(** A tab just opened: the document as served, nothing run yet, its own
    empty [sessionStorage]; the script runs when [Cargar] is handled. *)
Definition pestana_nueva (t : N) (q : option nat) w : Pestana :=
  mkPestana (mkEnv (compartido w) ∅ html [] t [] q) None.

(** A tab is opened, at the end of the tab strip. *)
Definition abrir (t : N) (q : option nat) w : Mundo :=
  mkMundo (compartido w) (pestanas w ++ [pestana_nueva t q w]).

(** Tab [j] is closed: its page, dialogs and [sessionStorage] are gone,
    and so is a handler suspended at [prompt], with the write it had not
    made yet. *)
Definition cerrar j w : Mundo := mkMundo (compartido w) (delete j (pestanas w)).

Definition mover (m : Movimiento) w : Mundo :=
  match m with
  | Actuar i a => paso_mundo i a w
  | Abrir t q => abrir t q w
  | Cerrar j => cerrar j w
  end.

(** A schedule: the moves of the world, in order. *)
Definition correr (plan : list Movimiento) w : Mundo :=
  foldl (λ w m, mover m w) w plan.

(** The shared store holds the list [l]. *)
Definition guarda w l : Prop :=
  contiene (mkEnv (compartido w) ∅ html [] 0 [] None) l.

(** A tab between two events: nothing in its mailbox, no prompt open. *)
Definition pestana_en_reposo p : Prop :=
  pendiente (entorno p) = None ∧ esperando p = None.

(** The world between two events of schedules without open prompts. *)
Definition mundo_en_reposo w l : Prop :=
  guarda w l ∧ Forall pestana_en_reposo (pestanas w).

(** A schedule in which every claim is answered before any other tab
    runs. *)
Definition atomico (m : Movimiento) : Prop :=
  match m with Actuar _ a => ∃ ev, a = Atomica ev | _ => True end.

Definition sin_prompts_abiertos (plan : list Movimiento) : Prop := Forall atomico plan.

End tabs.

(** ** Lemmas *)

Section lemmas.
Context `{!JsonCodec}.
Context (html : Dom).
Implicit Types (e : Env) (p : Pestana) (w : Mundo) (a : Accion) (i j : nat).
Implicit Types (l comidas : list Comida).

(** ** Steps of the world *)

Lemma paso_mundo_lookup i a w p :
  pestanas w !! i = Some p →
  paso_mundo html i a w
  = mkMundo (localStorage (entorno (actuar html a (enfocar w p))))
      (<[i := actuar html a (enfocar w p)]> (pestanas w)).
Proof. intros Hi. unfold paso_mundo. by rewrite Hi. Qed.

Lemma paso_mundo_fuera i a w : pestanas w !! i = None → paso_mundo html i a w = w.
Proof. intros Hi. unfold paso_mundo. by rewrite Hi. Qed.

(** A step of tab [i] leaves the other tabs as they are. *)
Lemma paso_mundo_otra i j a w :
  i ≠ j → pestanas (paso_mundo html i a w) !! j = pestanas w !! j.
Proof.
  intros Hij. unfold paso_mundo. destruct (pestanas w !! i); [|done].
  simpl. by rewrite list_lookup_insert_ne.
Qed.

Lemma paso_mundo_esta i a w p :
  pestanas w !! i = Some p →
  pestanas (paso_mundo html i a w) !! i = Some (actuar html a (enfocar w p)).
Proof.
  intros Hi. rewrite (paso_mundo_lookup i a w p Hi). simpl.
  apply list_lookup_insert_eq. by eapply lookup_lt_Some.
Qed.

Lemma paso_mundo_length i a w :
  length (pestanas (paso_mundo html i a w)) = length (pestanas w).
Proof.
  unfold paso_mundo. destruct (pestanas w !! i); [|done]. simpl.
  by rewrite length_insert.
Qed.

(** ** The store of the world *)

Lemma guarda_contiene w l e :
  localStorage e = compartido w → guarda html w l ↔ contiene e l.
Proof. intros He. split; apply contiene_ext; simpl; by rewrite He. Qed.

Lemma guarda_enfocar w p l : guarda html w l ↔ contiene (entorno (enfocar w p)) l.
Proof. by apply guarda_contiene. Qed.

Lemma guarda_paso_mundo i a w p l :
  pestanas w !! i = Some p →
  guarda html (paso_mundo html i a w) l
  ↔ contiene (entorno (actuar html a (enfocar w p))) l.
Proof. intros Hi. rewrite (paso_mundo_lookup i a w p Hi). by apply guarda_contiene. Qed.

(** ** An answered prompt *)

(** A claim answered at once is the handler run without interruption. *)
Lemma abrir_responder tagName dataId r p :
  esperando p = None →
  actuar html (Responder r) (actuar html (AbrirPrompt tagName dataId) p)
  = actuar html (Atomica (ClickLista tagName dataId r)) p.
Proof.
  destruct p as [e esp]. simpl. intros ->. unfold actuar at 2 3. simpl.
  unfold ocurre, exec, onClickLista_inicio, despachar, onClickLista. js_run.
  case_decide; [|done]. case_decide; [|done].
  destruct dataId as [comidaId|]; [|done]. destruct (truthy comidaId); [|done].
  unfold seleccionarComida, responder. rewrite run_bind.
  by destruct (seleccionarComida_inicio comidaId e) as [[[[comidas k]|]|x] e'].
Qed.


(** ** Worlds at rest *)

Lemma enfocar_en_reposo w p l :
  guarda html w l → pestana_en_reposo p → en_reposo (entorno (enfocar w p)) l.
Proof. intros Hl [Hp _]. split; [by apply guarda_enfocar|done]. Qed.

(** An atomic step of a world at rest: the world is at rest again and the
    list has made at most one step of the contract. *)
Lemma paso_mundo_reposo i ev w l :
  mundo_en_reposo html w l →
  ∃ l', mundo_en_reposo html (paso_mundo html i (Atomica ev) w) l'
        ∧ (l' = l ∨ paso l l') ∧ (comidas_wf l → comidas_wf l').
Proof.
  intros [Hl Hps]. destruct (pestanas w !! i) as [p|] eqn:Hi.
  2: { rewrite paso_mundo_fuera by done. exists l. by split_and!; [split|left|]. }
  pose proof (Forall_lookup_1 _ _ _ _ Hps Hi) as Hp.
  destruct (ocurre_efecto html ev _ l (enfocar_en_reposo w p l Hl Hp)) as (l' & Hef).
  pose proof (efecto_reposo _ _ _ _ _ Hef (enfocar_en_reposo w p l Hl Hp)) as [Hl' Hp'].
  assert (actuar html (Atomica ev) (enfocar w p)
          = mkPestana (ocurre html ev (entorno (enfocar w p))) None) as Hact.
  { unfold actuar. simpl. by rewrite (proj2 Hp). }
  exists l'. split_and!; [split| |]; [| |by eapply efecto_paso|by eapply efecto_wf].
  - apply (guarda_paso_mundo i _ w p l' Hi). by rewrite Hact.
  - rewrite (paso_mundo_lookup i _ w p Hi), Hact. simpl. by apply Forall_insert.
Qed.

(** A tab just opened is at rest, and opening or closing a tab leaves the
    world at rest. *)
Lemma abrir_reposo t q w l :
  mundo_en_reposo html w l → mundo_en_reposo html (abrir html t q w) l.
Proof.
  intros [Hl Hps]. split; [done|]. apply Forall_app. split; [done|].
  by apply Forall_singleton.
Qed.

Lemma cerrar_reposo j w l :
  mundo_en_reposo html w l → mundo_en_reposo html (cerrar j w) l.
Proof. intros [Hl Hps]. split; [done|]. by apply Forall_delete. Qed.

(** A move of a world at rest that opens no prompt: the world is at rest
    again and the list has made at most one step of the contract. *)
Lemma mover_reposo m w l :
  atomico m → mundo_en_reposo html w l →
  ∃ l', mundo_en_reposo html (mover html m w) l'
        ∧ (l' = l ∨ paso l l') ∧ (comidas_wf l → comidas_wf l').
Proof.
  destruct m as [i a|t q|j]; intros Hm Hr.
  - destruct Hm as [ev ->]. by apply paso_mundo_reposo.
  - exists l. split_and!; [by apply abrir_reposo|by left|done].
  - exists l. split_and!; [by apply cerrar_reposo|by left|done].
Qed.

(** The state of a tab that receives the [storage] event at rest. *)
Lemma storage_reposo e l :
  en_reposo e l → OyenteStorage ∈ oyentes e →
  ocurre html CambioStorage e = with_dom (pintar l) e.
Proof.
  intros Hr Ho. unfold ocurre, exec. rewrite despachar_run, decide_True by done.
  pose proof (renderizarComidas_reposo e l Hr) as He. unfold exec in He.
  unfold onStorage. by rewrite He.
Qed.

(** The state of a tab whose prompt is answered with a name. *)
Lemma responder_ok comidas k c s e :
  comidas !! k = Some c → trim s ≠ [] → cabe_reclamo (trim s) k c comidas e →
  exec (responder comidas k (Some s)) e
  = seleccionada_por (trim s) k c comidas (preguntada (Some s) e).
Proof.
  intros Hk Hs Hq. unfold exec, responder. js_run.
  by erewrite fin_ok; [|apply nombre_aceptado_Some; eauto|done..].
Qed.

(** The state of a tab whose prompt is answered with a name for which the
    store has no room: the prompt, and nothing else. *)
Lemma responder_lleno comidas k c s e :
  comidas !! k = Some c → trim s ≠ [] → ¬ cabe_reclamo (trim s) k c comidas e →
  responder comidas k (Some s) e = (Abrupt ExnQuota, preguntada (Some s) e).
Proof.
  intros Hk Hs Hq. unfold responder. js_run.
  by erewrite fin_lleno; [|apply nombre_aceptado_Some; eauto|done..].
Qed.

(** ** Two prompts on one meal *)

(** A click on the button of a free meal opens the prompt: the tab keeps
    the list it read and the index it found, and nothing else changes.
    [e] is the state of the tab looking at the shared store. *)
Lemma paso_mundo_abre i w p e l comidaId k c :
  pestanas w !! i = Some p → entorno (enfocar w p) = e → esperando p = None →
  OyenteLista ∈ oyentes (entorno p) → guarda html w l →
  truthy comidaId = true → findIndex comidaId l = Some (k, c) →
  seleccionada c = false →
  paso_mundo html i (AbrirPrompt (lit "BUTTON") (Some comidaId)) w
  = mkMundo (compartido w) (<[i := mkPestana e (Some (l, k))]> (pestanas w)).
Proof.
  intros Hi <- Hesp Ho Hl Hid Hf Hc. rewrite (paso_mundo_lookup i _ w p Hi).
  assert (actuar html (AbrirPrompt (lit "BUTTON") (Some comidaId)) (enfocar w p)
          = mkPestana (entorno (enfocar w p)) (Some (l, k))) as ->; [|done].
  unfold actuar. simpl. rewrite Hesp. unfold onClickLista_inicio. js_run.
  rewrite !decide_True, Hid by done.
  by erewrite inicio_abre; [|by apply guarda_enfocar|done..].
Qed.

(** The answer of a name to an open prompt: the tab is left as after a
    claim on the copy it kept, and the shared store is its store. *)
Lemma paso_mundo_responde i w p e comidas k c s :
  pestanas w !! i = Some p → entorno (enfocar w p) = e →
  esperando p = Some (comidas, k) → comidas !! k = Some c → trim s ≠ [] →
  cabe_reclamo (trim s) k c comidas e →
  let e' := seleccionada_por (trim s) k c comidas (preguntada (Some s) e) in
  paso_mundo html i (Responder (Some s)) w
  = mkMundo (localStorage e') (<[i := mkPestana e' None]> (pestanas w)).
Proof.
  intros Hi <- Hesp Hk Hs Hq e'. rewrite (paso_mundo_lookup i _ w p Hi).
  unfold actuar. simpl. rewrite Hesp. simpl.
  by rewrite (responder_ok comidas k c s) by done.
Qed.

(** A tab that looks at the store again sees the store. *)
Lemma enfocar_enfocado w w' p esp :
  entorno (enfocar w' (mkPestana (entorno (enfocar w p)) esp))
  = with_localStorage (λ _, compartido w') (entorno (enfocar w p)).
Proof. done. Qed.

Lemma enfocar_mismo w w' p esp :
  compartido w' = compartido w →
  entorno (enfocar w' (mkPestana (entorno (enfocar w p)) esp)) = entorno (enfocar w p).
Proof. intros Hw. unfold enfocar. simpl. by rewrite Hw. Qed.

(** The dialogs of a tab whose prompt was answered with a name. *)
Lemma respondida_ui q k c l r e :
  ui (seleccionada_por q k c l (preguntada r e))
  = ui e ++ [Prompt PREGUNTA_NOMBRE r; Alert (mensaje_aviso q (nombre c))].
Proof.
  rewrite seleccionada_por_ui. unfold preguntada. cbn [ui with_ui].
  by rewrite <-app_assoc.
Qed.

(** Room for a claim is a matter of the other keys of the store and of
    the quota: it is not lost when another tab stores its claim first. *)
Lemma cabe_reclamo_tras_otro q1 q2 k c l e1 e2 :
  cabe_reclamo q1 k c l
    (with_localStorage (λ _, localStorage (seleccionada_por q2 k c l e2)) e1)
  ↔ cabe_reclamo q1 k c l (with_localStorage (λ _, localStorage e2) e1).
Proof.
  unfold cabe_reclamo. rewrite seleccionada_por_eq.
  rewrite <-(cabe_lista_guardado (<[k := set_seleccionadoPor q2 c]> l) _
               (with_localStorage (λ _, localStorage e2) e1)).
  by split; apply cabe_lista_ext.
Qed.

(** Two claims of one meal by different names: neither list continues the
    other. *)
Lemma reclamos_no_extienden q1 q2 k c l :
  l !! k = Some c → q2 ≠ [] → q1 ≠ q2 →
  ¬ <[k := set_seleccionadoPor q2 c]> l ⊑ <[k := set_seleccionadoPor q1 c]> l.
Proof.
  intros Hk Hq2 Hne Hext. pose proof (lookup_lt_Some _ _ _ Hk) as Hlt.
  destruct (Hext k (set_seleccionadoPor q2 c)) as (c' & Hc' & _ & _ & Hquien).
  { by apply list_lookup_insert_eq. }
  rewrite list_lookup_insert_eq in Hc' by done. injection Hc' as <-.
  specialize (Hquien (set_seleccionadoPor_seleccionada q2 c Hq2)). simpl in Hquien.
  congruence.
Qed.

End lemmas.

Section properties.
Context `{!JsonCodec}.
Context (html : Dom).
Implicit Types (e : Env) (p : Pestana) (w : Mundo) (a : Accion) (i j : nat).
Implicit Types (l comidas : list Comida).

(** C22.  The lifecycle survives any number of tabs when claims are answered
    at once: under every schedule in which no prompt stays open while
    another tab runs, the shared list only moves by steps of the contract
    (no meal removed, renamed, unclaimed or claimed again), it stays well
    formed, and every mailbox stays empty. *)
Theorem mundo_seguro plan w l :
  sin_prompts_abiertos plan → mundo_en_reposo html w l →
  ∃ l', mundo_en_reposo html (correr html plan w) l' ∧ rtc paso l l' ∧ l ⊑ l'
        ∧ (comidas_wf l → comidas_wf l').
Proof.
  intros Hplan. revert w l.
  induction Hplan as [|m plan Hm _ IH]; intros w l Hr.
  { exists l. by split_and!. }
  destruct (mover_reposo html m w l Hm Hr) as (l1 & Hr1 & Hp1 & Hwf1).
  destruct (IH _ _ Hr1) as (l2 & Hr2 & Hp2 & _ & Hwf2). exists l2.
  assert (rtc paso l l2) as Hp by (destruct Hp1 as [->|?]; [done|by econstructor]).
  split_and!; [done..|by apply pasos_extiende|by intros ?%Hwf1%Hwf2].
Qed.

(** Two prompts opened on the same free meal and the answer to the second:
    the world the three steps leave, in which the tab that opened the first
    prompt still holds the list it read. *)
Lemma dos_prompts_y_respuesta i j w l k c pi pj s :
  i ≠ j → guarda html w l →
  pestanas w !! i = Some pi → pestanas w !! j = Some pj →
  esperando pi = None → esperando pj = None →
  OyenteLista ∈ oyentes (entorno pi) → OyenteLista ∈ oyentes (entorno pj) →
  findIndex (id c) l = Some (k, c) → seleccionada c = false → truthy (id c) = true →
  trim s ≠ [] → cabe_reclamo (trim s) k c l (entorno (enfocar w pj)) →
  let clic := AbrirPrompt (lit "BUTTON") (Some (id c)) in
  let ei := entorno (enfocar w pi) in
  let ej := entorno (enfocar w pj) in
  let ej' := seleccionada_por (trim s) k c l (preguntada (Some s) ej) in
  correr html [Actuar i clic; Actuar j clic; Actuar j (Responder (Some s))] w
  = mkMundo (localStorage ej')
      (<[j := mkPestana ej' None]>
         (<[j := mkPestana ej (Some (l, k))]>
            (<[i := mkPestana ei (Some (l, k))]> (pestanas w)))).
Proof.
  intros Hij Hl Hi Hj Hei Hej Hoi Hoj Hf Hc Hid Hs Hq clic ei ej ej'.
  pose proof (proj1 (findIndex_Some _ _ _ _) Hf) as (Hk & _ & _).
  pose proof (lookup_lt_Some _ _ _ Hj) as Hjlt.
  unfold clic, correr. cbn [foldl mover].
  rewrite (paso_mundo_abre html i w pi ei l (id c) k c) by done.
  rewrite (paso_mundo_abre html j _ pj ej l (id c) k c);
    [|by cbn [pestanas]; rewrite list_lookup_insert_ne|done..].
  cbn [compartido pestanas].
  apply (paso_mundo_responde html j (mkMundo (compartido w) _)
           (mkPestana ej (Some (l, k))) ej l k c s); [|by apply enfocar_mismo|done..].
  apply list_lookup_insert_eq. by rewrite length_insert.
Qed.

(** C34.  Double claim: whenever the shared store holds a list with a free
    meal and two idle tabs with the click listener both open the prompt on
    it, the answers are both accepted, whatever the tabs, the list and the
    names.  After the first answer the store says the meal is claimed by
    that name; after the second it says the other name, so the first claim
    is gone and, when the names differ, the list has not moved by steps of
    the contract: a claimed meal has been claimed again.  Each tab has been
    shown the prompt and the announcement of its own claim. *)
Theorem doble_reclamo i j w l k c pi pj s1 s2 :
  i ≠ j → guarda html w l →
  pestanas w !! i = Some pi → pestanas w !! j = Some pj →
  esperando pi = None → esperando pj = None →
  OyenteLista ∈ oyentes (entorno pi) → OyenteLista ∈ oyentes (entorno pj) →
  findIndex (id c) l = Some (k, c) → seleccionada c = false → truthy (id c) = true →
  trim s1 ≠ [] → trim s2 ≠ [] → trim s1 ≠ trim s2 →
  cabe_reclamo (trim s1) k c l (entorno (enfocar w pi)) →
  cabe_reclamo (trim s2) k c l (entorno (enfocar w pj)) →
  let clic := AbrirPrompt (lit "BUTTON") (Some (id c)) in
  let w1 := correr html [Actuar i clic; Actuar j clic; Actuar j (Responder (Some s2))] w in
  let w2 := paso_mundo html i (Responder (Some s1)) w1 in
  let l1 := <[k := set_seleccionadoPor (trim s1) c]> l in
  let l2 := <[k := set_seleccionadoPor (trim s2) c]> l in
  guarda html w1 l2 ∧ guarda html w2 l1 ∧ ¬ l2 ⊑ l1
  ∧ (ui ∘ entorno <$> pestanas w2 !! j)
    = Some (ui (entorno pj) ++ [Prompt PREGUNTA_NOMBRE (Some s2);
                                Alert (mensaje_aviso (trim s2) (nombre c))])
  ∧ (ui ∘ entorno <$> pestanas w2 !! i)
    = Some (ui (entorno pi) ++ [Prompt PREGUNTA_NOMBRE (Some s1);
                                Alert (mensaje_aviso (trim s1) (nombre c))]).
Proof.
  intros Hij Hl Hi Hj Hei Hej Hoi Hoj Hf Hc Hid Hs1 Hs2 Hne Hq1 Hq2 clic w1 w2 l1 l2.
  pose proof (proj1 (findIndex_Some _ _ _ _) Hf) as (Hk & _ & _).
  pose proof (lookup_lt_Some _ _ _ Hi) as Hilt.
  pose proof (lookup_lt_Some _ _ _ Hj) as Hjlt.
  pose proof (not_eq_sym Hij) as Hji.
  set (ei := entorno (enfocar w pi)) in *. set (ej := entorno (enfocar w pj)) in *.
  set (ps := <[j := mkPestana ej (Some (l, k))]>
               (<[i := mkPestana ei (Some (l, k))]> (pestanas w))).
  set (ej' := seleccionada_por (trim s2) k c l (preguntada (Some s2) ej)).
  set (ei' := seleccionada_por (trim s1) k c l
                (preguntada (Some s1) (with_localStorage (λ _, localStorage ej') ei))).
  assert (w1 = mkMundo (localStorage ej') (<[j := mkPestana ej' None]> ps)) as Hw1
    by exact (dos_prompts_y_respuesta i j w l k c pi pj s2
                Hij Hl Hi Hj Hei Hej Hoi Hoj Hf Hc Hid Hs2 Hq2).
  assert (w2 = mkMundo (localStorage ei')
                 (<[i := mkPestana ei' None]> (<[j := mkPestana ej' None]> ps))) as Hw2.
  { unfold w2. rewrite Hw1.
    apply (paso_mundo_responde html i
             (mkMundo (localStorage ej') (<[j := mkPestana ej' None]> ps))
             (mkPestana ei (Some (l, k)))
             (with_localStorage (λ _, localStorage ej') ei) l k c s1);
      [|apply enfocar_enfocado|done..|].
    - cbn [pestanas]. unfold ps.
      by rewrite !list_lookup_insert_ne, list_lookup_insert_eq by done.
    - by apply (proj2 (cabe_reclamo_tras_otro (trim s1) (trim s2) k c l ei
                         (preguntada (Some s2) ej))). }
  rewrite Hw1, Hw2. split_and!.
  - eapply guarda_contiene; [done|]. apply seleccionada_por_contiene.
  - eapply guarda_contiene; [done|]. apply seleccionada_por_contiene.
  - by apply reclamos_no_extienden.
  - cbn [pestanas]. rewrite list_lookup_insert_ne by done.
    rewrite list_lookup_insert_eq by (unfold ps; by rewrite !length_insert).
    cbn [fmap option_fmap option_map compose entorno]. f_equal.
    exact (respondida_ui _ k c l _ ej).
  - cbn [pestanas].
    rewrite list_lookup_insert_eq by (unfold ps; by rewrite !length_insert).
    cbn [fmap option_fmap option_map compose entorno]. f_equal.
    exact (respondida_ui _ k c l _ (with_localStorage (λ _, localStorage ej') ei)).
Qed.

(** A claim answered at once is the uninterrupted handler: opening the
    prompt and answering it, with no step of the tab in between, leaves the
    tab as one run of the click listener with that answer. *)
Theorem responder_de_inmediato tagName dataId r p :
  esperando p = None →
  actuar html (Responder r) (actuar html (AbrirPrompt tagName dataId) p)
  = actuar html (Atomica (ClickLista tagName dataId r)) p
  ∧ esperando (actuar html (Atomica (ClickLista tagName dataId r)) p) = None.
Proof.
  intros Hp. split; [by apply abrir_responder|]. unfold actuar. by rewrite Hp.
Qed.

(** C23.  Lost update at the prompt: when a prompt is answered with a name,
    the shared store becomes the copy of the list the tab read before the
    prompt, with the claim applied, whatever the other tabs stored in the
    meantime; if the store had grown since, meals are lost. *)
Theorem escritura_atrasada i w p comidas k c s :
  pestanas w !! i = Some p → esperando p = Some (comidas, k) →
  comidas !! k = Some c → trim s ≠ [] →
  cabe_reclamo (trim s) k c comidas (entorno (enfocar w p)) →
  let l' := <[k := set_seleccionadoPor (trim s) c]> comidas in
  guarda html (paso_mundo html i (Responder (Some s)) w) l'
  ∧ ∀ l0, guarda html w l0 → length comidas < length l0 → ¬ l0 ⊑ l'.
Proof.
  intros Hi Hesp Hk Hs Hq l'. split.
  - apply (guarda_paso_mundo html i _ w p l' Hi). unfold actuar. simpl. rewrite Hesp.
    simpl. rewrite (responder_ok comidas k c s) by done. apply seleccionada_por_contiene.
  - intros l0 _ Hlen Hext%extiende_length. unfold l' in Hext.
    rewrite length_insert in Hext. lia.
Qed.

(** C28.  Synchronisation without announcement: after any event of tab [i],
    a tab [j] at rest that receives the [storage] event shows exactly the
    shared list, and no dialog: the announcement of a claim is shown in the
    tab that made it and in no other. *)
Theorem sincroniza_sin_aviso i j ev w l pj :
  i ≠ j → mundo_en_reposo html w l →
  pestanas w !! j = Some pj → OyenteStorage ∈ oyentes (entorno pj) →
  let w' := paso_mundo html j (Atomica CambioStorage) (paso_mundo html i (Atomica ev) w) in
  ∃ l' pj', guarda html w' l' ∧ pestanas w' !! j = Some pj'
    ∧ muestra (entorno pj') l' ∧ ui (entorno pj') = ui (entorno pj)
    ∧ sessionStorage (entorno pj') = sessionStorage (entorno pj).
Proof.
  intros Hij Hr Hj Ho w'.
  destruct (paso_mundo_reposo html i ev w l Hr) as (l' & [Hl' Hps'] & _).
  set (w1 := paso_mundo html i (Atomica ev) w) in *.
  assert (pestanas w1 !! j = Some pj) as Hj1 by (by unfold w1; rewrite paso_mundo_otra).
  pose proof (Forall_lookup_1 _ _ _ _ Hps' Hj1) as Hpj.
  assert (actuar html (Atomica CambioStorage) (enfocar w1 pj)
          = mkPestana (with_dom (pintar l') (entorno (enfocar w1 pj))) None) as Hact.
  { unfold actuar.
    replace (esperando (enfocar w1 pj)) with (@None (list Comida * nat))
      by (symmetry; apply Hpj).
    by rewrite (storage_reposo html _ l' (enfocar_en_reposo html w1 pj l' Hl' Hpj)). }
  exists l', (actuar html (Atomica CambioStorage) (enfocar w1 pj)).
  split_and!; [|by apply paso_mundo_esta|by rewrite Hact..].
  apply (guarda_paso_mundo html j _ w1 pj l' Hj1). rewrite Hact.
  apply contiene_with_dom. exact (proj1 (guarda_enfocar html w1 pj l') Hl').
Qed.

End properties.

(** ** Witnesses and schedules *)

Section witnesses.

Definition mundo0 : Mundo := mkMundo ∅ [mkPestana env0 None; mkPestana env0 None].

Definition boton : jsstring := lit "BUTTON".

(** Both tabs load the page, the first adds Tacos, the second hears of it. *)
Definition plan_tacos : list Movimiento :=
  [Actuar 0 (Atomica Cargar); Actuar 1 (Atomica Cargar);
   Actuar 0 (Atomica (Escribir (lit "Tacos"))); Actuar 0 (Atomica ClickAgregar);
   Actuar 1 (Atomica CambioStorage)].

Definition tacos_de (quien : string) : Comida :=
  mkComida (id tacos) (nombre tacos) (Some (lit quien)).

Definition pizza9 : Comida := mkComida (lit "1700000000009") (lit "Pizza") None.

Lemma mundo0_en_reposo : mundo_en_reposo html0 mundo0 [].
Proof. split; [reflexivity|]. by repeat constructor. Defined.

Lemma plan_tacos_atomico : sin_prompts_abiertos plan_tacos.
Proof. repeat constructor; by eexists. Defined.

Lemma mundo_seguro_witness :
  ∃ l', mundo_en_reposo html0 (correr html0 plan_tacos mundo0) l' ∧ rtc paso [] l'
        ∧ [] ⊑ l' ∧ (comidas_wf [] → comidas_wf l').
Proof. apply (mundo_seguro html0 plan_tacos mundo0 [] plan_tacos_atomico mundo0_en_reposo). Defined.

Lemma responder_de_inmediato_witness :
  let p := mkPestana (ocurre html0 Cargar env_tacos) None in
  actuar html0 (Responder (Some (lit "Ana")))
    (actuar html0 (AbrirPrompt boton (Some (id tacos))) p)
  = actuar html0 (Atomica (ClickLista boton (Some (id tacos)) (Some (lit "Ana")))) p
  ∧ esperando (actuar html0 (Atomica (ClickLista boton (Some (id tacos)) (Some (lit "Ana")))) p)
    = None.
Proof. apply (responder_de_inmediato html0). reflexivity. Defined.

Lemma escritura_atrasada_witness :
  let w := mkMundo (localStorage env_dos) [mkPestana env0 (Some ([tacos], 0))] in
  guarda html0 (paso_mundo html0 0 (Responder (Some (lit " Ana "))) w) [tacos_de "Ana"].
Proof.
  refine (proj1 (escritura_atrasada html0 0 _ _ [tacos] 0 tacos (lit " Ana ") _ _ _ _ _));
    [reflexivity..|discriminate|exact I].
Defined.

Lemma sincroniza_sin_aviso_witness :
  let w' := paso_mundo html0 1 (Atomica CambioStorage)
              (paso_mundo html0 0 (Atomica ClickAgregar) 
                 (correr html0 [Actuar 0 (Atomica Cargar); Actuar 1 (Atomica Cargar);
                                Actuar 0 (Atomica (Escribir (lit "Tacos")))] mundo0)) in
  ∃ l' pj', guarda html0 w' l' ∧ pestanas w' !! 1 = Some pj'
    ∧ muestra (entorno pj') l' ∧ ui (entorno pj') = []
    ∧ sessionStorage (entorno pj') = ∅.
Proof.
  refine (sincroniza_sin_aviso html0 0 1 ClickAgregar _ []
            (mkPestana (ocurre html0 Cargar env0) None) _ _ _ _).
  - done.
  - split; [reflexivity|]. by repeat constructor.
  - reflexivity.
  - apply (bool_decide_unpack _). by vm_compute.
Defined.

(** Lost update, on a schedule: tab 0 opens the prompt on Tacos, tab 1
    adds Pizza, tab 0 answers.  Pizza was in the shared list and is gone,
    while the page of tab 1 still shows it. *)
Example actualizacion_perdida :
  let w := correr html0
    (plan_tacos ++ [Actuar 0 (AbrirPrompt boton (Some (id tacos)));
                    Actuar 1 (Atomica (Reloj 1700000000009));
                    Actuar 1 (Atomica (Escribir (lit "Pizza"))); Actuar 1 (Atomica ClickAgregar)])
    mundo0 in
  let w' := paso_mundo html0 0 (Responder (Some (lit "Ana"))) w in
  guarda html0 w [tacos; pizza9] ∧ guarda html0 w' [tacos_de "Ana"]
  ∧ ¬ [tacos; pizza9] ⊑ [tacos_de "Ana"]
  ∧ (entorno <$> pestanas w' !! 1) ≫= (λ e, Some (lista_comidas (dom e)))
    = Some (crearItem <$> [tacos; pizza9]).
Proof.
  split_and!; [by vm_compute..| |by vm_compute].
  intros Hext%extiende_length. simpl in Hext. lia.
Qed.

Lemma doble_reclamo_witness :
  let w := correr html0 plan_tacos mundo0 in
  let pi := default (mkPestana env0 None) (pestanas w !! 0) in
  let pj := default (mkPestana env0 None) (pestanas w !! 1) in
  let s1 := lit " Ana " in
  let s2 := lit "Luis" in
  let clic := AbrirPrompt (lit "BUTTON") (Some (id tacos)) in
  let w1 := correr html0
    [Actuar 0 clic; Actuar 1 clic; Actuar 1 (Responder (Some s2))] w in
  let w2 := paso_mundo html0 0 (Responder (Some s1)) w1 in
  let l1 := <[0 := set_seleccionadoPor (trim s1) tacos]> [tacos] in
  let l2 := <[0 := set_seleccionadoPor (trim s2) tacos]> [tacos] in
  guarda html0 w1 l2 ∧ guarda html0 w2 l1 ∧ ¬ l2 ⊑ l1
  ∧ (ui ∘ entorno <$> pestanas w2 !! 1)
    = Some (ui (entorno pj) ++ [Prompt PREGUNTA_NOMBRE (Some s2);
                                Alert (mensaje_aviso (trim s2) (nombre tacos))])
  ∧ (ui ∘ entorno <$> pestanas w2 !! 0)
    = Some (ui (entorno pi) ++ [Prompt PREGUNTA_NOMBRE (Some s1);
                                Alert (mensaje_aviso (trim s1) (nombre tacos))]).
Proof.
  intros w pi pj s1 s2.
  apply (doble_reclamo html0 0 1 w [tacos] 0 tacos pi pj s1 s2); try by vm_compute.
  - apply (bool_decide_unpack _). by vm_compute.
  - apply (bool_decide_unpack _). by vm_compute.
Defined.

(** The double claim on a schedule: both tabs open the prompt on Tacos,
    tab 1 answers Luis, then tab 0 answers Ana; the list says Luis, then
    Ana, and each tab has been told its claim succeeded. *)
Example luis_y_ana :
  let w := correr html0
    (plan_tacos ++ [Actuar 0 (AbrirPrompt boton (Some (id tacos)));
                    Actuar 1 (AbrirPrompt boton (Some (id tacos)));
                    Actuar 1 (Responder (Some (lit "Luis")))]) mundo0 in
  let w' := paso_mundo html0 0 (Responder (Some (lit "Ana"))) w in
  guarda html0 w [tacos_de "Luis"] ∧ guarda html0 w' [tacos_de "Ana"]
  ∧ (ui ∘ entorno <$> pestanas w')
    = [[Prompt PREGUNTA_NOMBRE (Some (lit "Ana"));
        Alert (mensaje_aviso (lit "Ana") (lit "Tacos"))];
       [Prompt PREGUNTA_NOMBRE (Some (lit "Luis"));
        Alert (mensaje_aviso (lit "Luis") (lit "Tacos"))]].
Proof. by vm_compute. Qed.

End witnesses.
