(* ===== verification/Entrega.v ===== *)
(** * Delivery of storage events

    When a tab changes [localStorage], the browser queues a [storage] event
    for every other tab; a tab receives its events one at a time, when its
    event loop is free.  The net [Red] adds these queues to the world of
    [Tabs]; a tab that is opened has nothing queued, and the queue of a tab
    that is closed is dropped.  The theorems hold for every schedule,
    prompts left open and tabs opened and closed included: the store
    always holds a well-formed list and no handler throws, unless the store
    is full; a loaded tab either shows the shared list or has an event
    waiting; and once the waiting events are delivered every loaded tab
    shows the shared list. *)

From S2P Require Import Prelude JsString Comida Json Browser Store Mailbox Render.
From S2P Require Import Contrato Seleccion Eventos Tabs.
#[local] Open Scope js_scope.

(** The net: the world, and for each tab the number of [storage] events
    queued for it. *)
Record Red := mkRed {
  mundo : Mundo;
  avisos : list nat;
}.

(** A step of the net: a move of the world (a tab acts, is opened or is
    closed), or tab [j] receives one of its events. *)
Inductive Paso :=
| Hacer (m : Movimiento)
| Entregar (j : nat).

#[global] Instance Red_eq_dec : EqDecision Red.
Proof. solve_decision. Defined.

#[global] Instance Paso_eq_dec : EqDecision Paso.
Proof. solve_decision. Defined.

Section entrega.
Context `{!JsonCodec}.
Context (html : Dom).
Implicit Types (e : Env) (p : Pestana) (w : Mundo) (r : Red) (a : Accion) (i j n : nat).
Implicit Types (l comidas : list Comida).

(** One more event for every tab but [i]. *)
Definition avisar i (av : list nat) : list nat :=
  imap (λ j n, if decide (j = i) then n else S n) av.

(** Tab [i] acts; if the shared store has changed, the other tabs are
    told. *)
Definition hacer i a r : Red :=
  let w' := paso_mundo html i a (mundo r) in
  mkRed w' (if decide (compartido w' = compartido (mundo r)) then avisos r
            else avisar i (avisos r)).

(** Tab [j] receives an event and runs its [storage] listener (lines
    161-164).  A tab blocked at a prompt receives nothing: the event stays
    queued. *)
Definition entregar j r : Red :=
  match avisos r !! j, pestanas (mundo r) !! j with
  | Some (S n), Some p =>
    match esperando p with
    | None =>
      mkRed (paso_mundo html j (Atomica CambioStorage) (mundo r)) (<[j := n]> (avisos r))
    | Some _ => r
    end
  | _, _ => r
  end.

(** A tab is opened: no event is queued for it, since it was not there
    when the store changed. *)
Definition abrir_red (t : N) (q : option nat) r : Red :=
  mkRed (abrir html t q (mundo r)) (avisos r ++ [0]).

(** Tab [j] is closed: the events queued for it are dropped. *)
Definition cerrar_red j r : Red := mkRed (cerrar j (mundo r)) (delete j (avisos r)).

Definition dar (s : Paso) r : Red :=
  match s with
  | Hacer (Actuar i a) => hacer i a r
  | Hacer (Abrir t q) => abrir_red t q r
  | Hacer (Cerrar j) => cerrar_red j r
  | Entregar j => entregar j r
  end.

(** A schedule of the net. *)
Definition recorrer (plan : list Paso) r : Red := foldl (λ r s, dar s r) r plan.

(** How the handler of an action of a tab completes. *)
Definition resultado a p : completion unit :=
  match esperando p with
  | Some (comidas, comidaIndex) =>
    match a with
    | Responder respuesta => result (responder comidas comidaIndex respuesta) (entorno p)
    | _ => Normal tt
    end
  | None =>
    match a with
    | Atomica ev => resultado_evento html ev (entorno p)
    | AbrirPrompt tagName dataId =>
      match result (onClickLista_inicio tagName dataId) (entorno p) with
      | Normal _ => Normal tt
      | Abrupt x => Abrupt x
      end
    | Responder _ => Normal tt
    end
  end.

(** ** The invariant of the net *)

(** A tab, whatever it is doing: its mailbox is empty, and if it is blocked
    at a prompt the copy of the list it holds is well formed and the index
    it found is that of an unclaimed meal. *)
Definition pestana_ok p : Prop :=
  pendiente (entorno p) = None
  ∧ match esperando p with
    | Some (comidas, k) =>
      comidas_wf comidas ∧ ∃ c, comidas !! k = Some c ∧ seleccionada c = false
    | None => True
    end.

(** A tab with the [storage] listener shows the shared list or has an event
    waiting. *)
Definition al_dia l n p : Prop :=
  OyenteStorage ∈ oyentes (entorno p) → 0 < n ∨ muestra (entorno p) l.

(** The invariant: the shared store holds a well-formed list, every tab is
    in order and up to date or told. *)
Definition red_ok r l : Prop :=
  guarda html (mundo r) l ∧ comidas_wf l
  ∧ length (avisos r) = length (pestanas (mundo r))
  ∧ ∀ j p n, pestanas (mundo r) !! j = Some p → avisos r !! j = Some n →
      pestana_ok p ∧ al_dia l n p.

(** What an action of a tab in order leads to: the tab is in order again,
    its store holds a well-formed list, its handler has completed (or
    stopped for lack of room), and its page shows the list or nothing has
    changed. *)
Definition avance a p l l' : Prop :=
  contiene (entorno (actuar html a p)) l' ∧ comidas_wf l'
  ∧ pestana_ok (actuar html a p)
  ∧ completa (entorno p) (resultado a p)
  ∧ (muestra (entorno (actuar html a p)) l'
     ∨ (l' = l ∧ oyentes (entorno (actuar html a p)) = oyentes (entorno p)
        ∧ (muestra (entorno p) l → muestra (entorno (actuar html a p)) l))).

(** Nothing is waiting to be delivered, and no tab is blocked. *)
Definition quieta r : Prop :=
  Forall (λ n, n = 0) (avisos r) ∧ Forall (λ p, esperando p = None) (pestanas (mundo r)).

(** Every loaded tab shows the list [l]. *)
Definition todas_muestran r l : Prop :=
  ∀ j p, pestanas (mundo r) !! j = Some p → OyenteStorage ∈ oyentes (entorno p) →
    muestra (entorno p) l.

(** How often tab [j] is in a schedule of deliveries. *)
Definition cuenta j (js : list nat) : nat := length (filter (λ k, k = j) js).

(** A schedule of deliveries that leaves nothing waiting: every tab is in
    it at least as often as it has events. *)
Definition entrega_todo (js : list nat) (av : list nat) : Prop :=
  ∀ j n, av !! j = Some n → n ≤ cuenta j js.

(** The schedule that delivers every waiting event, tab by tab. *)
Fixpoint drenaje_desde (j : nat) (av : list nat) : list nat :=
  match av with
  | [] => []
  | n :: av => replicate n j ++ drenaje_desde (S j) av
  end.

Definition drenaje (av : list nat) : list nat := drenaje_desde 0 av.

(** A step of the net, seen by the world of [Tabs]: a delivery is the
    [storage] event of that tab. *)
Definition proyectar (s : Paso) : Movimiento :=
  match s with
  | Hacer m => m
  | Entregar j => Actuar j (Atomica CambioStorage)
  end.

End entrega.

(** ** Lemmas *)

Section lemmas.
Context `{!JsonCodec}.
Context (html : Dom).
Implicit Types (e : Env) (p : Pestana) (w : Mundo) (r : Red) (a : Accion) (i j n : nat).
Implicit Types (l comidas : list Comida).

(** ** What an effect does to the page *)

(** After an effect the page shows the list, or list and listeners are as
    before and the page still shows the list if it did. *)
Lemma efecto_pagina e l e' l' :
  efecto html e l e' l' →
  muestra e' l'
  ∨ (l' = l ∧ oyentes e' = oyentes e ∧ (muestra e l → muestra e' l)).
Proof.
  intros Hef. destruct Hef; try (by right); try (by left).
  - right. split_and!; [done..|]. unfold muestra. simpl. by intros ->.
  - left. unfold muestra. by rewrite seleccionada_por_dom.
Qed.

(** ** The click that opens the prompt *)

Lemma onClickLista_inicio_casos tagName dataId e l :
  contiene e l →
  onClickLista_inicio tagName dataId e = (Normal None, e)
  ∨ onClickLista_inicio tagName dataId e
    = (Normal None, rechazada AVISO_YA_SELECCIONADA e)
  ∨ ∃ k c, l !! k = Some c ∧ seleccionada c = false
      ∧ onClickLista_inicio tagName dataId e = (Normal (Some (l, k)), e).
Proof.
  intros Hl. unfold onClickLista_inicio. js_run.
  case_decide; [|by left]. case_decide; [|by left].
  destruct dataId as [comidaId|]; [|by left]. destruct (truthy comidaId); [|by left].
  destruct (findIndex comidaId l) as [[k c]|] eqn:Hf.
  2: { right; left. by apply (inicio_no_encontrada e l). }
  destruct (seleccionada c) eqn:Hc.
  - right; left. by apply (inicio_ya_seleccionada e l comidaId k c).
  - right; right. exists k, c. apply findIndex_Some in Hf as Hk.
    split_and!; [by destruct Hk|done|by eapply inicio_abre].
Qed.


(** ** One action of a tab *)

Lemma avance_nada a p l :
  actuar html a p = p → resultado html a p = Normal tt →
  contiene (entorno p) l → comidas_wf l → pestana_ok p → avance html a p l l.
Proof.
  intros Hact Hres Hl Hwf Hok. unfold avance. rewrite Hact, Hres.
  split_and!; auto using completa_normal.
Qed.

Lemma avance_atomica ev p l :
  esperando p = None → contiene (entorno p) l → comidas_wf l → pestana_ok p →
  ∃ l', avance html (Atomica ev) p l l'.
Proof.
  intros Hesp Hl Hwf [Hpend _].
  destruct (ocurre_efecto html ev (entorno p) l) as (l' & Hef); [done|].
  pose proof (efecto_reposo html _ _ _ _ Hef (conj Hl Hpend)) as [Hl' Hp'].
  exists l'. unfold avance, actuar, resultado. rewrite Hesp. simpl. split_and!.
  - done.
  - by eapply efecto_wf.
  - done.
  - by eapply resultado_evento_reposo.
  - by eapply efecto_pagina.
Qed.

Lemma avance_abrir tagName dataId p l :
  esperando p = None → contiene (entorno p) l → comidas_wf l → pestana_ok p →
  avance html (AbrirPrompt tagName dataId) p l l.
Proof.
  intros Hesp Hl Hwf [Hpend _]. unfold avance, actuar, resultado, result. rewrite Hesp.
  destruct (onClickLista_inicio_casos tagName dataId (entorno p) l Hl)
    as [->|[->|(k & c & Hk & Hc & ->)]]; simpl.
  - split_and!; auto using completa_normal. by split.
  - split_and!; auto using completa_normal; [by apply contiene_with_ui|by split].
  - split_and!; auto using completa_normal. split; [done|]. split; [done|by exists c].
Qed.

Lemma avance_responder resp p l comidas k :
  esperando p = Some (comidas, k) → contiene (entorno p) l → comidas_wf l →
  pestana_ok p → ∃ l', avance html (Responder resp) p l l'.
Proof.
  intros Hesp Hl Hwf [Hpend Hcopia]. rewrite Hesp in Hcopia.
  destruct Hcopia as (Hwfc & c & Hk & Hc).
  unfold avance, actuar, resultado, result, exec, responder. rewrite Hesp. js_run.
  destruct (nombre_aceptado resp) as [q|] eqn:Hr.
  2: { exists l. rewrite (fin_sin_nombre comidas k resp _ Hr). simpl.
       split_and!; auto using completa_normal.
       - by apply contiene_with_ui, contiene_with_ui.
       - by split. }
  destruct (decide (cabe_reclamo q k c comidas (entorno p))) as [Hq|Hq].
  - exists (<[k := set_seleccionadoPor q c]> comidas).
    rewrite (fin_ok comidas k c resp q _ Hr Hk) by (by apply cabe_reclamo_with_ui).
    simpl. split_and!.
    + apply seleccionada_por_contiene.
    + apply comidas_wf_insert; [done|]. apply set_seleccionadoPor_wf;
        [by eapply nombre_aceptado_valido|by eapply comidas_wf_lookup].
    + split; [apply seleccionada_por_pendiente|done].
    + apply completa_normal.
    + left. unfold muestra. by rewrite seleccionada_por_dom.
  - exists l.
    rewrite (fin_lleno comidas k c resp q _ Hr Hk) by (by rewrite cabe_reclamo_with_ui).
    simpl. split_and!; auto.
    + by apply contiene_with_ui.
    + by split.
    + right. split; [done|]. by apply (lleno_cuota _ _ _ Hq).
Qed.

(** Every action of a tab in order is an advance. *)
Lemma actuar_ok a p l :
  contiene (entorno p) l → comidas_wf l → pestana_ok p → ∃ l', avance html a p l l'.
Proof.
  intros Hl Hwf Hok. destruct (esperando p) as [[comidas k]|] eqn:Hesp.
  - destruct a as [ev|tag d|resp]; [| |by eapply avance_responder].
    all: exists l; apply avance_nada; try done; unfold actuar, resultado; by rewrite Hesp.
  - destruct a as [ev|tag d|resp].
    + by apply avance_atomica.
    + exists l. by apply avance_abrir.
    + exists l. apply avance_nada; try done; unfold actuar, resultado; by rewrite Hesp.
Qed.


(** ** Steps of the net *)

Lemma avisar_lookup i av j :
  avisar i av !! j = (λ n, if decide (j = i) then n else S n) <$> av !! j.
Proof. unfold avisar. by rewrite list_lookup_imap. Qed.

Lemma avisar_length i av : length (avisar i av) = length av.
Proof. unfold avisar. by rewrite length_imap. Qed.

Lemma enfocar_ok w p : pestana_ok p → pestana_ok (enfocar w p).
Proof. by intros [? ?]. Qed.

Lemma hacer_fuera i a r : pestanas (mundo r) !! i = None → hacer html i a r = r.
Proof.
  intros Hi. unfold hacer. rewrite (paso_mundo_fuera html i a _ Hi).
  rewrite decide_True by done. by destruct r.
Qed.

(** The queue of a tab after a step of tab [i]: as before if the store has
    not changed or the tab is [i]; one more otherwise. *)
Lemma hacer_avisos i a r j n :
  avisos (hacer html i a r) !! j = Some n →
  (avisos r !! j = Some n
   ∧ (j = i ∨ compartido (mundo (hacer html i a r)) = compartido (mundo r)))
  ∨ (j ≠ i ∧ 0 < n).
Proof.
  unfold hacer. simpl. case_decide as Hc.
  - intros Hn. left. split; [done|by right].
  - rewrite avisar_lookup. destruct (avisos r !! j) as [m|]; [|done]. simpl.
    case_decide as Hj; intros [= <-]; [left; split; [done|by left]|right; split; [done|lia]].
Qed.

(** A step of a tab keeps the invariant. *)
Lemma hacer_ok i a r l : red_ok html r l → ∃ l', red_ok html (hacer html i a r) l'.
Proof.
  intros Hok. destruct (pestanas (mundo r) !! i) as [p|] eqn:Hi.
  2: { exists l. by rewrite hacer_fuera. }
  destruct Hok as (Hl & Hwf & Hlen & Htabs).
  assert (∃ n, avisos r !! i = Some n) as [ni Hni].
  { apply lookup_lt_is_Some. rewrite Hlen. by eapply lookup_lt_Some. }
  destruct (Htabs i p ni Hi Hni) as [Hpok Hsync].
  destruct (actuar_ok a (enfocar (mundo r) p) l) as (l' & Hl' & Hwf' & Hok' & _ & Hpag);
    [by apply (proj1 (guarda_enfocar html _ _ _))|done|by apply enfocar_ok|].
  exists l'. split_and!.
  - by apply (proj2 (guarda_paso_mundo html i a (mundo r) p l' Hi)).
  - done.
  - unfold hacer. simpl. rewrite paso_mundo_length.
    case_decide; [done|by rewrite avisar_length].
  - intros j pj n Hj Hn. destruct (decide (j = i)) as [->|Hji].
    + simpl in Hj. rewrite (paso_mundo_esta html i a _ p Hi) in Hj. simplify_eq.
      split; [done|]. destruct (hacer_avisos i a r i n Hn) as [[Hn' _]|[? _]]; [|done].
      simplify_eq. intros Ho. destruct Hpag as [?|(-> & Hoy & Hm)]; [by right|].
      rewrite Hoy in Ho. destruct (Hsync Ho) as [?|?]; [by left|right; by apply Hm].
    + simpl in Hj. rewrite paso_mundo_otra in Hj by done.
      destruct (hacer_avisos i a r j n Hn) as [[Hn' [?|Hc]]|[_ ?]]; [done| |].
      * destruct (Htabs j pj n Hj Hn') as [? Hsj]. split; [done|].
        assert (l' = l) as ->; [|done].
        eapply contiene_inj; [|exact Hl]. 
        eapply contiene_ext; [|exact Hl']. simpl in Hc.
        rewrite (paso_mundo_lookup html i a _ p Hi) in Hc. simpl in *. by rewrite Hc.
      * destruct (lookup_lt_is_Some_2 (avisos r) j) as [m Hm].
        { rewrite Hlen. by eapply lookup_lt_Some. }
        destruct (Htabs j pj m Hj Hm) as [? _]. split; [done|]. intros _. by left.
Qed.


(** ** Deliveries *)

(** The [storage] listener of a tab at rest repaints the page, if it is
    registered. *)
Lemma ocurre_storage e l :
  en_reposo e l →
  ocurre html CambioStorage e
  = if decide (OyenteStorage ∈ oyentes e) then with_dom (pintar l) e else e.
Proof.
  intros Hr. case_decide; [by apply storage_reposo|].
  unfold ocurre, exec. by rewrite despachar_run, decide_False.
Qed.

(** What a delivery does, when there is one to make. *)
Lemma entregar_hecha j r l p n :
  red_ok html r l → pestanas (mundo r) !! j = Some p → avisos r !! j = Some (S n) →
  esperando p = None →
  let e := entorno (enfocar (mundo r) p) in
  entregar html j r
  = mkRed (mkMundo (compartido (mundo r))
             (<[j := mkPestana (if decide (OyenteStorage ∈ oyentes e)
                                then with_dom (pintar l) e else e) None]>
                (pestanas (mundo r))))
      (<[j := n]> (avisos r)).
Proof.
  intros (Hl & _ & _ & Htabs) Hj Hn Hesp e. unfold entregar. rewrite Hn, Hj, Hesp.
  destruct (Htabs j p (S n) Hj Hn) as [[Hpend _] _].
  assert (en_reposo e l) as He.
  { split; [by apply (proj1 (guarda_enfocar html _ _ _))|done]. }
  rewrite (paso_mundo_lookup html j _ _ p Hj). unfold actuar.
  replace (esperando (enfocar (mundo r) p)) with (@None (list Comida * nat)) by done.
  fold e. rewrite (ocurre_storage e l He). by case_decide.
Qed.

(** A delivery keeps the invariant and the shared list. *)
Lemma entregar_ok j r l : red_ok html r l → red_ok html (entregar html j r) l.
Proof.
  intros Hok. destruct (avisos r !! j) as [[|n]|] eqn:Hn;
    [by unfold entregar; rewrite Hn| |by unfold entregar; rewrite Hn].
  destruct (pestanas (mundo r) !! j) as [p|] eqn:Hj;
    [|by unfold entregar; rewrite Hn, Hj].
  destruct (esperando p) as [copia|] eqn:Hesp;
    [by unfold entregar; rewrite Hn, Hj, Hesp|].
  rewrite (entregar_hecha j r l p n Hok Hj Hn Hesp).
  destruct Hok as (Hl & Hwf & Hlen & Htabs). split_and!; [done..| |].
  { simpl. by rewrite !length_insert. }
  intros k pk m Hk Hm. simpl in Hk, Hm. destruct (decide (k = j)) as [->|Hkj].
  - rewrite list_lookup_insert_eq in Hk by (by eapply lookup_lt_Some).
    rewrite list_lookup_insert_eq in Hm by (by eapply lookup_lt_Some).
    simplify_eq. destruct (Htabs j p (S m) Hj Hn) as [[Hpend _] _].
    unfold pestana_ok, al_dia. simpl entorno. simpl esperando.
    case_decide as Hoy; (split; [done|]); intros Ho; [by right|].
    by destruct Hoy.
  - rewrite list_lookup_insert_ne in Hk by done.
    rewrite list_lookup_insert_ne in Hm by done. by apply (Htabs k).
Qed.

(** ** Tabs opened and closed *)

(** A tab just opened is in order, and it has no listener yet. *)
Lemma pestana_nueva_ok t q w l n :
  pestana_ok (pestana_nueva html t q w) ∧ al_dia l n (pestana_nueva html t q w).
Proof. split; [done|]. by intros ?%elem_of_nil. Qed.

(** Opening a tab keeps the invariant and the shared list. *)
Lemma abrir_red_ok t q r l : red_ok html r l → red_ok html (abrir_red html t q r) l.
Proof.
  intros (Hl & Hwf & Hlen & Htabs). split_and!; [done..| |].
  { simpl. rewrite !length_app. simpl. lia. }
  intros j p n. simpl. destruct (decide (j < length (pestanas (mundo r)))) as [Hj|Hj].
  - rewrite !lookup_app_l by lia. apply Htabs.
  - rewrite !lookup_app_r by lia. rewrite Hlen.
    destruct (j - length (pestanas (mundo r))) as [|k]; [|done].
    intros [= <-] _. apply pestana_nueva_ok.
Qed.

(** Closing a tab keeps the invariant and the shared list. *)
Lemma cerrar_red_ok j r l : red_ok html r l → red_ok html (cerrar_red j r) l.
Proof.
  intros (Hl & Hwf & Hlen & Htabs). split_and!; [done..| |].
  { simpl. by rewrite !delete_take_drop, !length_app, !length_take, !length_drop, Hlen. }
  intros k p n. simpl. rewrite !list_lookup_delete. case_decide; apply Htabs.
Qed.

(** Every step of the net keeps the invariant. *)
Lemma dar_ok s r l : red_ok html r l → ∃ l', red_ok html (dar html s r) l'.
Proof.
  destruct s as [[i a|t q|j]|j]; simpl; [apply hacer_ok|..]; intros Hok; exists l.
  - by apply abrir_red_ok.
  - by apply cerrar_red_ok.
  - by apply entregar_ok.
Qed.

Lemma recorrer_ok plan r l : red_ok html r l → ∃ l', red_ok html (recorrer html plan r) l'.
Proof.
  revert r l. induction plan as [|s plan IH]; intros r l Hok; [by exists l|].
  destruct (dar_ok s r l Hok) as (l1 & Hok1). by apply (IH _ l1).
Qed.


(** ** Draining the queues *)

Lemma cuenta_cons j k js :
  cuenta j (k :: js) = (if decide (k = j) then S (cuenta j js) else cuenta j js).
Proof.
  unfold cuenta. case_decide.
  - by rewrite filter_cons_True.
  - by rewrite filter_cons_False.
Qed.

Lemma cuenta_app j js ks : cuenta j (js ++ ks) = cuenta j js + cuenta j ks.
Proof. unfold cuenta. by rewrite filter_app, length_app. Qed.

Lemma cuenta_replicate j n : cuenta j (replicate n j) = n.
Proof. induction n as [|n IH]; [done|]. simpl. by rewrite cuenta_cons, decide_True, IH. Qed.

Lemma drenaje_desde_cuenta av j0 k n :
  av !! k = Some n → n ≤ cuenta (j0 + k) (drenaje_desde j0 av).
Proof.
  revert j0 k. induction av as [|m av IH]; intros j0 [|k] Hk; simplify_eq/=.
  - rewrite cuenta_app, Nat.add_0_r, cuenta_replicate. lia.
  - rewrite cuenta_app. specialize (IH (S j0) k Hk).
    replace (j0 + S k) with (S j0 + k) by lia. lia.
Qed.

(** The drain leaves nothing waiting. *)
Lemma drenaje_entrega_todo av : entrega_todo (drenaje av) av.
Proof. intros j n Hj. by apply (drenaje_desde_cuenta av 0 j n). Qed.

(** A delivery to a net without blocked tabs: nothing was waiting, or one
    event less is. *)
Lemma entregar_casos j r l :
  red_ok html r l → Forall (λ p, esperando p = None) (pestanas (mundo r)) →
  (entregar html j r = r ∧ ∀ n, avisos r !! j = Some n → n = 0)
  ∨ ∃ n p, avisos r !! j = Some (S n) ∧ pestanas (mundo r) !! j = Some p
      ∧ avisos (entregar html j r) = <[j := n]> (avisos r)
      ∧ compartido (mundo (entregar html j r)) = compartido (mundo r)
      ∧ Forall (λ p, esperando p = None) (pestanas (mundo (entregar html j r))).
Proof.
  intros Hok Hlibres. destruct (avisos r !! j) as [[|n]|] eqn:Hn.
  - left. unfold entregar. rewrite Hn. split; [done|congruence].
  - destruct (lookup_lt_is_Some_2 (pestanas (mundo r)) j) as [p Hj].
    { destruct Hok as (_ & _ & <- & _). by eapply lookup_lt_Some. }
    pose proof (Forall_lookup_1 _ _ _ _ Hlibres Hj) as Hesp.
    right. exists n, p. rewrite (entregar_hecha j r l p n Hok Hj Hn Hesp). simpl.
    split_and!; [done..|]. by apply Forall_insert.
  - left. unfold entregar. rewrite Hn. split; [done|congruence].
Qed.

(** Deliveries that leave nothing waiting end in a quiet net with the same
    store, in which the invariant holds. *)
Lemma entregas_convergen js r l :
  red_ok html r l → Forall (λ p, esperando p = None) (pestanas (mundo r)) →
  entrega_todo js (avisos r) →
  red_ok html (recorrer html (Entregar <$> js) r) l
  ∧ compartido (mundo (recorrer html (Entregar <$> js) r)) = compartido (mundo r)
  ∧ quieta (recorrer html (Entregar <$> js) r).
Proof.
  revert r. induction js as [|j js IH]; intros r Hok Hlibres Htodo.
  { split_and!; [done..|]. split; [|done]. apply Forall_lookup. intros k n Hk.
    specialize (Htodo k n Hk). unfold cuenta in Htodo. simpl in Htodo. lia. }
  simpl. destruct (entregar_casos j r l Hok Hlibres)
    as [[-> Hcero]|(n & p & Hn & Hj & Hav & Hc & Hlibres')].
  - apply IH; [done..|]. intros k m Hk. specialize (Htodo k m Hk).
    rewrite cuenta_cons in Htodo. case_decide; [|done]. subst k.
    rewrite (Hcero m Hk). lia.
  - rewrite <-Hc. apply IH; [by apply entregar_ok|done|].
    intros k m Hk. rewrite Hav in Hk. destruct (decide (k = j)) as [->|Hkj].
    + rewrite list_lookup_insert_eq in Hk by (by eapply lookup_lt_Some).
      simplify_eq. specialize (Htodo j (S m) Hn).
      rewrite cuenta_cons, decide_True in Htodo by done. lia.
    + rewrite list_lookup_insert_ne in Hk by done. specialize (Htodo k m Hk).
      by rewrite cuenta_cons, decide_False in Htodo by done.
Qed.

(** The net refines the world of [Tabs]: what a schedule of the net does
    to the tabs is what a schedule of the world does, the one with the
    moves and with those deliveries that found an event waiting. *)
Lemma dar_paso_mundo s r :
  mundo (dar html s r) = mundo r ∨ mundo (dar html s r) = mover html (proyectar s) (mundo r).
Proof.
  destruct s as [[i a|t q|j]|j]; simpl; [by right..|]. unfold entregar.
  destruct (avisos r !! j) as [[|n]|]; [by left| |by left].
  destruct (pestanas (mundo r) !! j) as [p|]; [|by left].
  destruct (esperando p); [by left|by right].
Qed.

Lemma recorrer_correr plan r :
  ∃ plan', plan' `sublist_of` (proyectar <$> plan)
           ∧ mundo (recorrer html plan r) = correr html plan' (mundo r).
Proof.
  revert r. induction plan as [|s plan IH]; intros r; [by exists []|].
  destruct (IH (dar html s r)) as (plan' & Hsub & Hm).
  change (recorrer html (s :: plan) r) with (recorrer html plan (dar html s r)).
  destruct (dar_paso_mundo s r) as [Hs|Hs]; rewrite Hm, Hs.
  - exists plan'. split; [by apply sublist_cons|done].
  - exists (proyectar s :: plan'). split; [by apply sublist_skip|done].
Qed.

(** In a net in order the handler of any action of any tab completes. *)
Lemma red_ok_completa r l i p a :
  red_ok html r l → pestanas (mundo r) !! i = Some p →
  completa (entorno p) (resultado html a (enfocar (mundo r) p)).
Proof.
  intros (Hl & Hwf & Hlen & Htabs) Hi.
  destruct (lookup_lt_is_Some_2 (avisos r) i) as [n Hn].
  { rewrite Hlen. by eapply lookup_lt_Some. }
  destruct (Htabs i p n Hi Hn) as [Hpok _].
  destruct (actuar_ok a (enfocar (mundo r) p) l) as (l2 & _ & _ & _ & Hres & _);
    [by apply (proj1 (guarda_enfocar html _ _ _))|done|by apply enfocar_ok|exact Hres].
Qed.

(** In a quiet net every loaded tab shows the shared list. *)
Lemma quieta_muestran r l : red_ok html r l → quieta r → todas_muestran r l.
Proof.
  intros (_ & _ & Hlen & Htabs) [Hcero _] j p Hj Ho.
  destruct (lookup_lt_is_Some_2 (avisos r) j) as [n Hn].
  { rewrite Hlen. by eapply lookup_lt_Some. }
  destruct (Htabs j p n Hj Hn) as [_ [Hpos|Hm]]; [done| |done].
  pose proof (Forall_lookup_1 _ _ _ _ Hcero Hn). simpl in *. lia.
Qed.

End lemmas.

(** ** Properties *)

Section properties.
Context `{!JsonCodec}.
Context (html : Dom).
Implicit Types (e : Env) (p : Pestana) (w : Mundo) (r : Red) (a : Accion) (i j n : nat).
Implicit Types (l comidas : list Comida).

(** C17.  The shape of the store is preserved and no handler goes wrong,
    under every schedule: whatever the tabs do, in whatever order, with
    prompts left open while other tabs write, the shared store holds a
    well-formed list of meals, and the next handler of any tab completes:
    no [SyntaxError] from [JSON.parse], no [TypeError] from the index found
    before the prompt.  The one exception a handler can end with is the
    [QuotaExceededError] of [setItem], and only in a browser that sets a
    quota. *)
Theorem red_segura plan r l :
  red_ok html r l →
  (∃ l', guarda html (mundo (recorrer html plan r)) l' ∧ comidas_wf l')
  ∧ ∀ i p a, pestanas (mundo (recorrer html plan r)) !! i = Some p →
      completa (entorno p)
        (resultado html a (enfocar (mundo (recorrer html plan r)) p)).
Proof.
  intros Hok. destruct (recorrer_ok html plan r l Hok) as (l' & Hok').
  split; [exists l'; split; apply Hok'|]. intros i p a Hi.
  by apply (red_ok_completa html _ l' i).
Qed.

(** C18.  Up to date or told: under every schedule, a tab that has the
    [storage] listener and no event waiting shows exactly the shared list,
    prompts left open or not. *)
Theorem al_dia_o_avisada plan r l :
  red_ok html r l →
  ∃ l', guarda html (mundo (recorrer html plan r)) l'
    ∧ ∀ j p, pestanas (mundo (recorrer html plan r)) !! j = Some p →
        OyenteStorage ∈ oyentes (entorno p) →
        avisos (recorrer html plan r) !! j = Some 0 →
        muestra (entorno p) l'.
Proof.
  intros Hok. destruct (recorrer_ok html plan r l Hok) as (l' & Hl' & _ & _ & Htabs).
  exists l'. split; [done|]. intros j p Hj Ho Hn.
  destruct (Htabs j p 0 Hj Hn) as [_ [Hpos|Hm]]; [done|lia|done].
Qed.

(** C15.  Convergence: after any schedule, if no tab is blocked at a prompt,
    every schedule of deliveries that leaves nothing waiting (the drain is
    one) ends in a net where nothing is waiting, the shared store is
    unchanged and every loaded tab shows the shared list. *)
Theorem convergencia plan js r l :
  red_ok html r l →
  Forall (λ p, esperando p = None) (pestanas (mundo (recorrer html plan r))) →
  entrega_todo js (avisos (recorrer html plan r)) →
  let r2 := recorrer html (Entregar <$> js) (recorrer html plan r) in
  compartido (mundo r2) = compartido (mundo (recorrer html plan r))
  ∧ quieta r2
  ∧ ∃ l', guarda html (mundo r2) l' ∧ todas_muestran r2 l'.
Proof.
  intros Hok Hlibres Htodo r2.
  destruct (recorrer_ok html plan r l Hok) as (l' & Hok').
  destruct (entregas_convergen html js _ l' Hok' Hlibres Htodo) as (Hok2 & Hc & Hq).
  split_and!; [done..|]. exists l'. split; [by destruct Hok2|].
  by apply (quieta_muestran html).
Qed.

End properties.

(** ** Witnesses and schedules *)

Section witnesses.

Definition red0 : Red := mkRed mundo0 [0; 0].

(** Both tabs load the page, then the first adds Tacos. *)
Definition plan_agrega : list Paso :=
  [Hacer (Actuar 0 (Atomica Cargar)); Hacer (Actuar 1 (Atomica Cargar));
   Hacer (Actuar 0 (Atomica (Escribir (lit "Tacos")))); Hacer (Actuar 0 (Atomica ClickAgregar))].

Lemma red0_ok : red_ok html0 red0 [].
Proof.
  split_and!; [reflexivity|constructor|reflexivity|].
  intros [|[|j]] p n Hj Hn; simplify_eq/=; (split; [by split|]); by intros ?%elem_of_nil.
Defined.

Lemma red_segura_witness :
  (∃ l', guarda html0 (mundo (recorrer html0 plan_agrega red0)) l' ∧ comidas_wf l')
  ∧ ∀ i p a, pestanas (mundo (recorrer html0 plan_agrega red0)) !! i = Some p →
      completa (entorno p)
        (resultado html0 a (enfocar (mundo (recorrer html0 plan_agrega red0)) p)).
Proof. apply (red_segura html0 plan_agrega red0 [] red0_ok). Defined.

Lemma al_dia_o_avisada_witness :
  ∃ l', guarda html0 (mundo (recorrer html0 plan_agrega red0)) l'
    ∧ ∀ j p, pestanas (mundo (recorrer html0 plan_agrega red0)) !! j = Some p →
        OyenteStorage ∈ oyentes (entorno p) →
        avisos (recorrer html0 plan_agrega red0) !! j = Some 0 →
        muestra (entorno p) l'.
Proof. apply (al_dia_o_avisada html0 plan_agrega red0 [] red0_ok). Defined.

Lemma convergencia_witness :
  let r1 := recorrer html0 plan_agrega red0 in
  let r2 := recorrer html0 (Entregar <$> drenaje (avisos r1)) r1 in
  compartido (mundo r2) = compartido (mundo r1) ∧ quieta r2
  ∧ ∃ l', guarda html0 (mundo r2) l' ∧ todas_muestran r2 l'.
Proof.
  apply (convergencia html0 plan_agrega
           (drenaje (avisos (recorrer html0 plan_agrega red0))) red0 [] red0_ok).
  - apply (bool_decide_unpack _). by vm_compute.
  - apply drenaje_entrega_todo.
Defined.

(** The second tab is told of the new meal and shows it once the event is
    delivered, not before. *)
Example entrega_ejemplo :
  let r1 := recorrer html0 plan_agrega red0 in
  let r2 := dar html0 (Entregar 1) r1 in
  let pagina r := (lista_comidas ∘ dom ∘ entorno) <$> pestanas (mundo r) in
  guarda html0 (mundo r1) [tacos] ∧ avisos r1 = [0; 1] ∧ drenaje (avisos r1) = [1]
  ∧ pagina r1 = [[crearItem tacos]; []]
  ∧ avisos r2 = [0; 0] ∧ pagina r2 = [[crearItem tacos]; [crearItem tacos]].
Proof. by vm_compute. Qed.

End witnesses.
