(* ===== verification/Cotas.v ===== *)
(** * Bounds

    How large the stored text can get, and that every code unit the script
    computes fits in sixteen bits.  Strings are lists of numbers in this
    development; these theorems show that the numbers stay at the width
    JavaScript gives them, and bound the text [guardarComidas] hands to
    [localStorage], whose quota the script never checks. *)

From stdpp Require Import pretty.
From S2P Require Import Prelude JsString Comida Json Browser Store Mailbox Render.
From S2P Require Import Contrato Seleccion.
#[local] Open Scope js_scope.

Section definitions.
Implicit Types (s : jsstring) (c : Comida) (l : list Comida).

(** The code units a meal holds. *)
Definition tam c : nat :=
  length (id c) + length (nombre c) + length (default [] (seleccionadoPor c)).

(** The most the text of a list can take: the brackets, and for each meal
    its punctuation and property names and six code units for each of its
    own (a code unit escaped as [\uXXXX]). *)
Definition cota_texto l : nat := 2 + sum_list_with (λ c, 45 + 6 * tam c) l.

(** A string of UTF-16 code units. *)
Definition cadena_utf16 s : Prop := Forall (λ u, (u < 65536)%N) s.

Definition comida_utf16 c : Prop :=
  cadena_utf16 (id c) ∧ cadena_utf16 (nombre c)
  ∧ cadena_utf16 (default [] (seleccionadoPor c)).

(** A JSON value whose strings are strings of code units. *)
Fixpoint json_utf16 (j : json) : Prop :=
  match j with
  | JNull | JBool _ => True
  | JNumber lexeme => cadena_utf16 lexeme
  | JString s => cadena_utf16 s
  | JArray js => (fix todos js := match js with
                                 | [] => True
                                 | x :: js => json_utf16 x ∧ todos js
                                 end) js
  | JObject kvs => (fix todos kvs := match kvs with
                                    | [] => True
                                    | kv :: kvs =>
                                      (cadena_utf16 (fst kv) ∧ json_utf16 (snd kv))
                                      ∧ todos kvs
                                    end) kvs
  end.

(** A result of a parser whose value satisfies [P] and whose rest is a
    string of code units. *)
Definition resultado_utf16 {A} (P : A → Prop) (res : presult (A * jsstring)) : Prop :=
  match res with
  | POk (a, r) => P a ∧ cadena_utf16 r
  | PErr | PFuel => True
  end.

End definitions.

#[global] Instance cadena_utf16_dec s : Decision (cadena_utf16 s).
Proof. unfold cadena_utf16. apply _. Defined.

(** ** Lengths *)

Section lengths.
Implicit Types (s : jsstring) (c : Comida) (l : list Comida) (u : code_unit).

Lemma escape_char_length u : length (escape_char u) ≤ 6.
Proof. unfold escape_char. repeat case_match; simpl; lia. Qed.

Lemma quote_body_length s : length (quote_body s) ≤ 6 * length s.
Proof.
  remember (length s) as n eqn:Hn. revert s Hn.
  induction (lt_wf n) as [n _ IH]. intros [|u s1] ->; [done|].
  assert (length (quote_body s1) ≤ 6 * length s1) as H1
    by (eapply (IH (length s1)); [simpl; lia|done]).
  pose proof (escape_char_length u). cbn [quote_body].
  destruct (is_high_surrogate u); [|destruct (is_low_surrogate u)];
    [|rewrite length_app; simpl in *; lia..].
  destruct s1 as [|d s2]; [simpl; lia|].
  destruct (is_low_surrogate d); [|rewrite length_app; simpl in *; lia].
  assert (length (quote_body s2) ≤ 6 * length s2)
    by (eapply (IH (length s2)); [simpl; lia|done]).
  simpl. lia.
Qed.

Lemma quote_length s : length (quote s) ≤ 6 * length s + 2.
Proof.
  unfold quote. pose proof (quote_body_length s). rewrite length_cons, length_app.
  simpl. lia.
Qed.

Lemma print_comida_length c : length (print (json_of_comida c)) ≤ 44 + 6 * tam c.
Proof.
  pose proof (quote_length (id c)). pose proof (quote_length (nombre c)).
  assert (length (print (json_of_option (seleccionadoPor c)))
          ≤ 6 * length (default [] (seleccionadoPor c)) + 4) as Hq.
  { destruct (seleccionadoPor c) as [q|]; simpl; [|lia].
    pose proof (quote_length q). simpl in *. lia. }
  assert (length (quote key_id) = 4 ∧ length (quote key_nombre) = 8
          ∧ length (quote key_seleccionadoPor) = 17) as (Hk1 & Hk2 & Hk3) by done.
  unfold tam. cbn [json_of_comida print map join_comma fmap list_fmap concat fst snd].
  repeat (rewrite ?length_cons, ?length_app). cbn [length]. lia.
Qed.

Lemma join_comma_cota (ps : list jsstring) :
  length (join_comma ps) ≤ sum_list_with (λ p, S (length p)) ps.
Proof.
  destruct ps as [|p ps]; [done|]. unfold join_comma. rewrite length_app. simpl.
  enough (length (concat ((λ q, 44%N :: q) <$> ps))
          ≤ sum_list_with (λ p, S (length p)) ps) by lia.
  induction ps as [|q ps IH]; [done|].
  rewrite fmap_cons, concat_cons, length_app. simpl. lia.
Qed.

(** The text of a list fits in its bound. *)
Lemma stringify_cota l : length (stringify l) ≤ cota_texto l.
Proof.
  unfold stringify, json_of_comidas, cota_texto. rewrite print_array.
  rewrite length_cons, length_app. simpl length.
  pose proof (join_comma_cota (map print (json_of_comida <$> l))) as Hj.
  enough (sum_list_with (λ p, S (length p)) (map print (json_of_comida <$> l))
          ≤ sum_list_with (λ c, 45 + 6 * tam c) l) by lia.
  clear. induction l as [|c l IH]; [done|]. rewrite fmap_cons.
  cbn [map sum_list_with]. pose proof (print_comida_length c). lia.
Qed.

(** A number below [10 ^ k] prints in at most [k] digits. *)
Lemma pretty_N_go_length k x (s : string) :
  (x < 10 ^ N.of_nat k)%N →
  length (bytes_of (pretty_N_go x s)) ≤ k + length (bytes_of s).
Proof.
  revert x s. induction k as [|k IH]; intros x s Hx.
  { assert (x = 0%N) as -> by (simpl in Hx; lia). by rewrite pretty_N_go_0. }
  destruct (decide (x = 0%N)) as [->|Hx0]; [rewrite pretty_N_go_0; lia|].
  rewrite pretty_N_go_step by lia. etrans; [apply IH|].
  - apply N.Div0.div_lt_upper_bound. rewrite Nat2N.inj_succ, N.pow_succ_r' in Hx. lia.
  - unfold bytes_of. simpl. rewrite !length_fmap. simpl. lia.
Qed.

Lemma number_toString_length k n :
  0 < k → (n < 10 ^ N.of_nat k)%N → length (number_toString n) ≤ k.
Proof.
  intros Hk Hn. unfold number_toString, pretty, pretty_N. case_decide; [simpl; lia|].
  etrans; [by apply pretty_N_go_length|]. simpl. lia.
Qed.

End lengths.

(** ** Code units: what the script prints *)

Section utf16_print.
Implicit Types (s : jsstring) (c : Comida) (l : list Comida) (u : code_unit).

Lemma cadena_utf16_app s1 s2 : cadena_utf16 (s1 ++ s2) ↔ cadena_utf16 s1 ∧ cadena_utf16 s2.
Proof. apply Forall_app. Qed.

Lemma cadena_utf16_cons u s : cadena_utf16 (u :: s) ↔ (u < 65536)%N ∧ cadena_utf16 s.
Proof. unfold cadena_utf16. by rewrite Forall_cons. Qed.

(** A scalar value of at most 21 bits encodes as one or two code units. *)
Lemma utf16_encode_utf16 cp : (cp < 2097152)%N → cadena_utf16 (utf16_encode cp).
Proof.
  intros Hcp. unfold utf16_encode. destruct (N.ltb_spec cp 65536); [by repeat constructor|].
  assert ((cp - 65536) / 1024 < 1984)%N by (apply N.Div0.div_lt_upper_bound; lia).
  assert ((cp - 65536) mod 1024 < 1024)%N by (by apply N.mod_lt).
  repeat constructor; lia.
Qed.

Lemma utf8_decode_utf16 (bs : list N) :
  Forall (λ b, (b < 256)%N) bs → cadena_utf16 (utf8_decode bs).
Proof.
  remember (length bs) as n eqn:Hn. revert bs Hn.
  induction (lt_wf n) as [n _ IH]. intros bs -> Hbs.
  assert (∀ bs', length bs' < length bs → Forall (λ b, (b < 256)%N) bs' →
                 cadena_utf16 (utf8_decode bs')) as IH' by (intros; by eapply IH).
  assert (∀ b k, (0 < k)%N → (b mod k < k)%N) as Hmod by (intros; apply N.mod_lt; lia).
  destruct bs as [|b0 bs1]; [constructor|]. apply Forall_cons in Hbs as [H0 Hbs1].
  cbn [utf8_decode]. destruct (b0 <? 192)%N.
  { apply cadena_utf16_cons. split; [lia|]. apply IH'; [simpl; lia|done]. }
  destruct bs1 as [|b1 bs2]; [repeat constructor; lia|].
  apply Forall_cons in Hbs1 as [H1 Hbs2]. destruct (b0 <? 224)%N.
  { apply cadena_utf16_app. split; [|apply IH'; [simpl; lia|done]].
    apply utf16_encode_utf16. pose proof (Hmod b0 32%N). pose proof (Hmod b1 64%N). lia. }
  destruct bs2 as [|b2 bs3]; [repeat constructor; lia|].
  apply Forall_cons in Hbs2 as [H2 Hbs3]. destruct (b0 <? 240)%N.
  { apply cadena_utf16_app. split; [|apply IH'; [simpl; lia|done]].
    apply utf16_encode_utf16. pose proof (Hmod b0 16%N). pose proof (Hmod b1 64%N).
    pose proof (Hmod b2 64%N). lia. }
  destruct bs3 as [|b3 bs4]; [repeat constructor; lia|].
  apply Forall_cons in Hbs3 as [H3 Hbs4].
  apply cadena_utf16_app. split; [|apply IH'; [simpl; lia|done]].
  apply utf16_encode_utf16. pose proof (Hmod b0 8%N). pose proof (Hmod b1 64%N).
  pose proof (Hmod b2 64%N). pose proof (Hmod b3 64%N). lia.
Qed.

(** Every literal of the script is a string of code units. *)
Lemma lit_utf16 (t : string) : cadena_utf16 (lit t).
Proof.
  apply utf8_decode_utf16. unfold bytes_of. apply Forall_fmap, Forall_true.
  intros a. simpl. pose proof (Ascii.N_ascii_bounded a). lia.
Qed.

Lemma digits_utf16 s : Forall (λ u, is_digit u = true) s → cadena_utf16 s.
Proof.
  intros Hs. eapply Forall_impl; [done|].
  intros u [_ Hu%N.leb_le]%andb_true_iff. lia.
Qed.

Lemma number_toString_utf16 n : cadena_utf16 (number_toString n).
Proof. apply digits_utf16, number_toString_digits. Qed.

Lemma trim_utf16 s : cadena_utf16 s → cadena_utf16 (trim s).
Proof.
  intros Hs. destruct (trimStart_suffix s) as (p & Hp & _).
  destruct (trimEnd_prefix (trimStart s)) as (q & Hq & _).
  rewrite Hp, Hq in Hs. fold (trim s) in Hs.
  by apply cadena_utf16_app in Hs as [_ [? _]%cadena_utf16_app].
Qed.

Lemma hex_digit_utf16 n : (n < 16)%N → (hex_digit n < 65536)%N.
Proof. intros Hn. unfold hex_digit. case_match; lia. Qed.

Lemma unicode_escape_utf16 u : cadena_utf16 (unicode_escape u).
Proof.
  unfold unicode_escape.
  repeat constructor; try lia; by apply hex_digit_utf16, N.mod_lt.
Qed.

Lemma escape_char_utf16 u : (u < 65536)%N → cadena_utf16 (escape_char u).
Proof.
  intros Hu. unfold escape_char.
  repeat case_match; try apply unicode_escape_utf16; by repeat constructor.
Qed.

Lemma quote_body_utf16 s : cadena_utf16 s → cadena_utf16 (quote_body s).
Proof.
  remember (length s) as n eqn:Hn. revert s Hn.
  induction (lt_wf n) as [n _ IH]. intros [|u s1] -> Hs; [done|].
  apply cadena_utf16_cons in Hs as [Hu Hs1].
  assert (cadena_utf16 (quote_body s1)) by (eapply (IH (length s1)); [simpl; lia|done..]).
  cbn [quote_body].
  destruct (is_high_surrogate u); [|destruct (is_low_surrogate u)];
    [|apply cadena_utf16_app; split;
      [apply unicode_escape_utf16 || by apply escape_char_utf16|done]..].
  destruct s1 as [|d s2]; [apply unicode_escape_utf16|].
  apply cadena_utf16_cons in Hs1 as [Hd Hs2].
  destruct (is_low_surrogate d);
    [|apply cadena_utf16_app; split; [apply unicode_escape_utf16|done]].
  repeat (apply cadena_utf16_cons; split; [done|]).
  eapply (IH (length s2)); [simpl; lia|done..].
Qed.

Lemma quote_utf16 s : cadena_utf16 s → cadena_utf16 (quote s).
Proof.
  intros Hs. unfold quote. apply cadena_utf16_cons. split; [done|].
  apply cadena_utf16_app. split; [by apply quote_body_utf16|by repeat constructor].
Qed.

Lemma print_object3 (k1 k2 k3 : jsstring) (v1 v2 v3 : json) :
  print (JObject [(k1, v1); (k2, v2); (k3, v3)])
  = [123%N] ++ quote k1 ++ [58%N] ++ print v1
    ++ [44%N] ++ quote k2 ++ [58%N] ++ print v2
    ++ [44%N] ++ quote k3 ++ [58%N] ++ print v3 ++ [125%N].
Proof.
  cbn [print map join_comma fmap list_fmap concat fst snd].
  rewrite app_nil_r. repeat (rewrite <-?app_assoc, <-?app_comm_cons). reflexivity.
Qed.

Lemma print_comida_eq c :
  print (json_of_comida c)
  = [123%N] ++ quote key_id ++ [58%N] ++ quote (id c)
    ++ [44%N] ++ quote key_nombre ++ [58%N] ++ quote (nombre c)
    ++ [44%N] ++ quote key_seleccionadoPor ++ [58%N]
    ++ print (json_of_option (seleccionadoPor c)) ++ [125%N].
Proof. unfold json_of_comida. apply print_object3. Qed.

Lemma print_comida_utf16 c : comida_utf16 c → cadena_utf16 (print (json_of_comida c)).
Proof.
  intros (Hi & Hn & Hq).
  assert (cadena_utf16 (print (json_of_option (seleccionadoPor c)))) as Hq'.
  { destruct (seleccionadoPor c) as [q|]; [by apply quote_utf16|by repeat constructor]. }
  pose proof (quote_utf16 _ Hi). pose proof (quote_utf16 _ Hn).
  assert (cadena_utf16 (quote key_id) ∧ cadena_utf16 (quote key_nombre)
          ∧ cadena_utf16 (quote key_seleccionadoPor)) as (? & ? & ?)
    by (split_and!; apply quote_utf16, (bool_decide_unpack _); by vm_compute).
  rewrite print_comida_eq.
  repeat (apply cadena_utf16_app; split; [done || by repeat constructor|]).
  by repeat constructor.
Qed.

Lemma join_comma_utf16 (ps : list jsstring) :
  Forall cadena_utf16 ps → cadena_utf16 (join_comma ps).
Proof.
  destruct ps as [|p ps]; [constructor|]. intros [Hp Hps]%Forall_cons. unfold join_comma.
  apply cadena_utf16_app. split; [done|].
  induction Hps as [|q ps Hq _ IH]; [constructor|]. rewrite fmap_cons, concat_cons.
  apply cadena_utf16_app. split; [|done]. by apply cadena_utf16_cons.
Qed.

Lemma stringify_utf16 l : Forall comida_utf16 l → cadena_utf16 (stringify l).
Proof.
  intros Hl. unfold stringify, json_of_comidas. rewrite print_array.
  apply cadena_utf16_cons. split; [done|]. apply cadena_utf16_app.
  split; [|by repeat constructor]. apply join_comma_utf16.
  apply Forall_map, Forall_fmap. eapply Forall_impl; [done|]. apply print_comida_utf16.
Qed.

Lemma plantilla_utf16 c : comida_utf16 c → cadena_utf16 (plantilla c).
Proof.
  intros (Hi & Hn & Hq). unfold plantilla, marco, infoSeleccion, info_elegida, info_libre, etiqueta_de,
    interpolar, nl, sp, comilla.
  assert (∀ k, cadena_utf16 (replicate k 32%N)) as Hsp by (intros; by apply Forall_replicate).
  destruct (seleccionada c), (seleccionadoPor c);
    repeat first [apply cadena_utf16_app; split
                 |apply lit_utf16|apply Hsp|done|by repeat constructor].
Qed.

End utf16_print.

(** ** Code units: what the script reads back *)

Section utf16_parse.
Implicit Types (s r p : jsstring) (j : json) (u : code_unit).

Lemma json_utf16_array (js : list json) : json_utf16 (JArray js) ↔ Forall json_utf16 js.
Proof.
  induction js as [|x js IH]; [by split; [constructor|]|].
  rewrite Forall_cons, <-IH. done.
Qed.

Lemma json_utf16_object (kvs : list (jsstring * json)) :
  json_utf16 (JObject kvs) ↔ Forall (λ kv, cadena_utf16 kv.1 ∧ json_utf16 kv.2) kvs.
Proof.
  induction kvs as [|kv kvs IH]; [by split; [constructor|]|].
  rewrite Forall_cons, <-IH. done.
Qed.

Lemma resultado_utf16_bind {A B} (P : A → Prop) (Q : B → Prop)
    (m : presult (A * jsstring)) (f : A * jsstring → presult (B * jsstring)) :
  resultado_utf16 P m →
  (∀ a r, P a → cadena_utf16 r → resultado_utf16 Q (f (a, r))) →
  resultado_utf16 Q (m ≫= f).
Proof. destruct m as [[a r]| |]; simpl; [|done..]. intros [??] Hf. by apply Hf. Qed.

Lemma resultado_utf16_of_option {A} (P : A → Prop) (o : option (A * jsstring)) :
  (∀ a r, o = Some (a, r) → P a ∧ cadena_utf16 r) → resultado_utf16 P (of_option o).
Proof. destruct o as [[a r]|]; simpl; [|done]. intros Ho. by apply Ho. Qed.

Lemma skip_ws_utf16 s : cadena_utf16 s → cadena_utf16 (skip_ws s).
Proof.
  induction 1 as [|u s Hu Hs IH]; [constructor|]. simpl.
  destruct (is_json_ws u); [done|by constructor].
Qed.

Lemma skip_ws_cons_utf16 s u s1 : cadena_utf16 s → skip_ws s = u :: s1 → cadena_utf16 s1.
Proof. intros Hs%skip_ws_utf16 E. rewrite E in Hs. by apply cadena_utf16_cons in Hs as [_ ?]. Qed.

Lemma hex_value_lt u d : hex_value u = Some d → (d < 16)%N.
Proof. unfold hex_value. nbool_cases; intros [= <-]; lia. Qed.

(** Four hexadecimal digits denote one code unit. *)
Lemma unhex4_utf16 h3 h2 h1 h0 u : unhex4 h3 h2 h1 h0 = Some u → (u < 65536)%N.
Proof.
  unfold unhex4.
  destruct (hex_value h3) as [d3|] eqn:E3; [|done].
  destruct (hex_value h2) as [d2|] eqn:E2; [|done].
  destruct (hex_value h1) as [d1|] eqn:E1; [|done].
  destruct (hex_value h0) as [d0|] eqn:E0; [|done]. simpl. intros [= <-].
  apply hex_value_lt in E3, E2, E1, E0. lia.
Qed.

Lemma unescape_utf16 e d : unescape e = Some d → (d < 65536)%N.
Proof. unfold unescape. repeat case_match; by intros [= <-]. Qed.

Lemma parse_string_body_utf16 s str r :
  cadena_utf16 s → parse_string_body s = Some (str, r) →
  cadena_utf16 str ∧ cadena_utf16 r.
Proof.
  remember (length s) as n eqn:Hn. revert s str r Hn.
  induction (lt_wf n) as [n _ IH]. intros [|c s1] str r -> Hs; [done|].
  assert (∀ s' str' r', length s' < length (c :: s1) → cadena_utf16 s' →
            parse_string_body s' = Some (str', r') →
            cadena_utf16 str' ∧ cadena_utf16 r') as IH' by (intros; by eapply IH).
  apply cadena_utf16_cons in Hs as [Hc Hs1].
  cbn [parse_string_body]. destruct (c =? 34)%N; [by intros [= <- <-]; split; [constructor|]|].
  destruct (c =? 92)%N.
  - destruct s1 as [|e s2]; [done|]. apply cadena_utf16_cons in Hs1 as [_ Hs2].
    destruct (e =? 117)%N.
    + destruct s2 as [|h3 [|h2 [|h1 [|h0 s3]]]]; try done.
      destruct (unhex4 h3 h2 h1 h0) as [u|] eqn:Eu; [|done].
      destruct (parse_string_body s3) as [[str' r']|] eqn:E; [|done].
      intros [= <- <-]. apply unhex4_utf16 in Eu.
      do 4 apply cadena_utf16_cons in Hs2 as [_ Hs2].
      destruct (IH' s3 str' r') as [??]; [simpl; lia|done..|]. by split; [constructor|].
    + destruct (unescape e) as [d|] eqn:Ed; [|done].
      destruct (parse_string_body s2) as [[str' r']|] eqn:E; [|done].
      intros [= <- <-]. apply unescape_utf16 in Ed.
      destruct (IH' s2 str' r') as [??]; [simpl; lia|done..|]. by split; [constructor|].
  - destruct (c <? 32)%N; [done|].
    destruct (parse_string_body s1) as [[str' r']|] eqn:E; [|done].
    intros [= <- <-].
    destruct (IH' s1 str' r') as [??]; [simpl; lia|done..|]. by split; [constructor|].
Qed.

(** The lexers cut the text: a lexeme and the rest make up what was read. *)
Lemma span_digits_split s : s = (span_digits s).1 ++ (span_digits s).2.
Proof.
  induction s as [|c s IH]; [done|]. simpl. destruct (is_digit c); [|done].
  destruct (span_digits s). simpl in *. by f_equal.
Qed.

Lemma digits1_split s ds r : digits1 s = Some (ds, r) → s = ds ++ r.
Proof.
  unfold digits1. pose proof (span_digits_split s) as Hs.
  destruct (span_digits s) as [[|d ds'] r']; [done|]. by intros [= <- <-].
Qed.

Lemma lex_int_split s ds r : lex_int s = Some (ds, r) → s = ds ++ r.
Proof.
  destruct s as [|c s1]; [done|]. simpl. destruct (c =? 48)%N; [by intros [= <- <-]|].
  destruct (is_digit c); [|done]. pose proof (span_digits_split s1) as Hs.
  destruct (span_digits s1). intros [= <- <-]. simpl in *. by f_equal.
Qed.

Lemma lex_frac_split s ds r : lex_frac s = Some (ds, r) → s = ds ++ r.
Proof.
  destruct s as [|c s1]; simpl; [by intros [= <- <-]|].
  destruct (c =? 46)%N; [|by intros [= <- <-]].
  destruct (digits1 s1) as [[ds' r']|] eqn:E; [|done].
  intros [= <- <-]. apply digits1_split in E. simpl. by f_equal.
Qed.

Lemma lex_exp_split s ds r : lex_exp s = Some (ds, r) → s = ds ++ r.
Proof.
  destruct s as [|c s1]; simpl; [by intros [= <- <-]|].
  destruct ((c =? 101)%N || (c =? 69)%N); [|by intros [= <- <-]].
  destruct s1 as [|g s2]; [done|].
  destruct ((g =? 43)%N || (g =? 45)%N).
  - destruct (digits1 s2) as [[ds' r']|] eqn:E; [|done].
    intros [= <- <-]. apply digits1_split in E. simpl. by do 2 f_equal.
  - destruct (digits1 (g :: s2)) as [[ds' r']|] eqn:E; [|done].
    intros [= <- <-]. apply digits1_split in E. simpl. by f_equal.
Qed.

Lemma lex_unsigned_split (sign : jsstring) s lx r :
  ('(i, s1) ← lex_int s; '(f, s2) ← lex_frac s1; '(e, s3) ← lex_exp s2;
   Some (sign ++ i ++ f ++ e, s3)) = Some (lx, r) →
  sign ++ s = lx ++ r.
Proof.
  destruct (lex_int s) as [[i s1]|] eqn:Ei; [|done]. simpl.
  destruct (lex_frac s1) as [[f s2]|] eqn:Ef; [|done]. simpl.
  destruct (lex_exp s2) as [[e s3]|] eqn:Ee; [|done]. simpl. intros [= <- <-].
  apply lex_int_split in Ei as ->. apply lex_frac_split in Ef as ->.
  apply lex_exp_split in Ee as ->. by rewrite <-!app_assoc.
Qed.

Lemma lex_number_split s lx r : lex_number s = Some (lx, r) → s = lx ++ r.
Proof.
  unfold lex_number. destruct s as [|c s1]; [done|].
  destruct (c =? 45)%N; cbn [mbind option_bind]; by intros <-%lex_unsigned_split.
Qed.

Lemma strip_prefix_split p s r : strip_prefix p s = Some r → s = p ++ r.
Proof.
  revert s. induction p as [|a p IH]; intros [|b s]; simpl; try done.
  - by intros [= <-].
  - by intros [= <-].
  - destruct (N.eqb_spec a b) as [->|]; [|done]. by intros ->%IH.
Qed.

Lemma parse_atom_utf16 s : cadena_utf16 s → resultado_utf16 json_utf16 (parse_atom s).
Proof.
  intros Hs. unfold parse_atom.
  repeat (destruct (strip_prefix _ s) as [r|] eqn:E;
    [apply strip_prefix_split in E; rewrite E in Hs;
     by apply cadena_utf16_app in Hs as [_ ?]|clear E]).
  destruct (lex_number s) as [[lx r]|] eqn:E; [|done].
  apply lex_number_split in E. rewrite E in Hs. by apply cadena_utf16_app in Hs.
Qed.

End utf16_parse.

(** One level of each parser, given the three parsers on the fuel below. *)
Section utf16_step.
Context (f : nat).
Context (IHv : ∀ s, cadena_utf16 s → resultado_utf16 json_utf16 (parse_value f s)).
Context (IHe : ∀ s, cadena_utf16 s →
                  resultado_utf16 (Forall json_utf16) (parse_elements f s)).
Context (IHm : ∀ s, cadena_utf16 s →
                  resultado_utf16 (Forall (λ kv, cadena_utf16 kv.1 ∧ json_utf16 kv.2))
                                  (parse_members f s)).

Lemma parse_value_utf16_step s :
  cadena_utf16 s → resultado_utf16 json_utf16 (parse_value (S f) s).
Proof.
  intros Hs. cbn [parse_value]. destruct (skip_ws s) as [|c s1] eqn:E; [done|].
  assert (cadena_utf16 (c :: s1)) as Hcs by (rewrite <-E; by apply skip_ws_utf16).
  pose proof (skip_ws_cons_utf16 _ _ _ Hs E) as Hs1. destruct (c =? 34)%N.
  { eapply resultado_utf16_bind; [|by intros str r ??].
    apply resultado_utf16_of_option. intros str r. by apply parse_string_body_utf16. }
  destruct (c =? 91)%N.
  { destruct (skip_ws s1) as [|d s2] eqn:E1; [done|].
    pose proof (skip_ws_cons_utf16 _ _ _ Hs1 E1). destruct (d =? 93)%N; [done|].
    eapply resultado_utf16_bind; [by apply IHe|].
    intros l r Hl Hr. split; [by apply json_utf16_array|done]. }
  destruct (c =? 123)%N; [|by apply parse_atom_utf16].
  destruct (skip_ws s1) as [|d s2] eqn:E1; [done|].
  pose proof (skip_ws_cons_utf16 _ _ _ Hs1 E1). destruct (d =? 125)%N; [done|].
  eapply resultado_utf16_bind; [by apply IHm|].
  intros l r Hl Hr. split; [by apply json_utf16_object|done].
Qed.

Lemma parse_elements_utf16_step s :
  cadena_utf16 s → resultado_utf16 (Forall json_utf16) (parse_elements (S f) s).
Proof.
  intros Hs. cbn [parse_elements]. eapply resultado_utf16_bind; [by apply IHv|].
  intros v r Hv Hr. destruct (skip_ws r) as [|c r1] eqn:E; [done|].
  pose proof (skip_ws_cons_utf16 _ _ _ Hr E) as Hr1. destruct (c =? 44)%N.
  { eapply resultado_utf16_bind; [by apply IHe|]. intros l r2 Hl Hr2. by split; [constructor|]. }
  destruct (c =? 93)%N; [|done]. by split; [repeat constructor|].
Qed.

Lemma parse_members_utf16_step s :
  cadena_utf16 s →
  resultado_utf16 (Forall (λ kv, cadena_utf16 kv.1 ∧ json_utf16 kv.2))
                  (parse_members (S f) s).
Proof.
  intros Hs. cbn [parse_members]. destruct (skip_ws s) as [|q s1] eqn:E; [done|].
  pose proof (skip_ws_cons_utf16 _ _ _ Hs E) as Hs1. destruct (q =? 34)%N; [|done].
  eapply (resultado_utf16_bind cadena_utf16).
  { apply resultado_utf16_of_option. intros str r. by apply parse_string_body_utf16. }
  intros k r0 Hk Hr0. destruct (skip_ws r0) as [|colon r1] eqn:E0; [done|].
  pose proof (skip_ws_cons_utf16 _ _ _ Hr0 E0) as Hr1. destruct (colon =? 58)%N; [|done].
  eapply resultado_utf16_bind; [by apply IHv|].
  intros v r Hv Hr. destruct (skip_ws r) as [|c r2] eqn:E2; [done|].
  pose proof (skip_ws_cons_utf16 _ _ _ Hr E2) as Hr2. destruct (c =? 44)%N.
  { eapply resultado_utf16_bind; [by apply IHm|]. intros l r3 Hl Hr3. by split; [constructor|]. }
  destruct (c =? 125)%N; [|done]. by split; [repeat constructor|].
Qed.

End utf16_step.

Section utf16_decode.
Implicit Types (s : jsstring) (j : json) (c : Comida) (l : list Comida).

Lemma parse_utf16_fuel fuel :
  (∀ s, cadena_utf16 s → resultado_utf16 json_utf16 (parse_value fuel s))
  ∧ (∀ s, cadena_utf16 s → resultado_utf16 (Forall json_utf16) (parse_elements fuel s))
  ∧ (∀ s, cadena_utf16 s →
          resultado_utf16 (Forall (λ kv, cadena_utf16 kv.1 ∧ json_utf16 kv.2))
                          (parse_members fuel s)).
Proof.
  induction fuel as [|f (IHv & IHe & IHm)]; [done|]. split_and!.
  - by apply parse_value_utf16_step.
  - by apply parse_elements_utf16_step.
  - by apply parse_members_utf16_step.
Qed.

Lemma parse_text_utf16 s j : cadena_utf16 s → parse_text s = POk j → json_utf16 j.
Proof.
  intros Hs. unfold parse_text.
  pose proof (proj1 (parse_utf16_fuel (parse_fuel s)) s Hs) as Hv.
  destruct (parse_value (parse_fuel s) s) as [[j' r]| |]; [|done..]. simpl.
  destruct (skip_ws r); [|done]. intros [= <-]. by destruct Hv.
Qed.

Lemma get_property_utf16 k (kvs : list (jsstring * json)) j :
  Forall (λ kv, cadena_utf16 kv.1 ∧ json_utf16 kv.2) kvs →
  get_property k kvs = Some j → json_utf16 j.
Proof.
  induction 1 as [|[k' v] kvs [_ Hv] _ IH]; [done|]. simpl.
  destruct (get_property k kvs); [by auto|]. case_decide; [|done]. by intros [= <-].
Qed.

Lemma decode_comida_utf16 j c : json_utf16 j → decode_comida j = Some c → comida_utf16 c.
Proof.
  intros Hj ->%decode_comida_Some. destruct c as [i n q].
  destruct Hj as ((_ & Hi) & (_ & Hn) & (_ & Hq) & _).
  split_and!; [done..|]. destruct q; [done|constructor].
Qed.

Lemma decode_utf16 j l : json_utf16 j → decode j = Some l → Forall comida_utf16 l.
Proof.
  destruct j as [| | | |js|?]; try done. intros Hj%json_utf16_array. simpl.
  intros Hm%mapM_Some. induction Hm as [|x c js l Hx _ IH]; [constructor|].
  apply Forall_cons in Hj as [??]. constructor; [by eapply decode_comida_utf16|by apply IH].
Qed.

End utf16_decode.

(** ** What the store keeps *)

Section store.
Implicit Types (e : Env) (s : jsstring) (c : Comida) (l : list Comida).

Lemma trim_length s : length (trim s) ≤ length s.
Proof.
  destruct (trimStart_suffix s) as (p & Hp & _).
  destruct (trimEnd_prefix (trimStart s)) as (q & Hq & _).
  rewrite Hp at 2. rewrite Hq. fold (trim s). rewrite !length_app. lia.
Qed.

Lemma cota_texto_snoc l c : cota_texto (l ++ [c]) = cota_texto l + 45 + 6 * tam c.
Proof. unfold cota_texto. rewrite sum_list_with_app. simpl. lia. Qed.

Lemma cota_texto_insert l i c c' :
  l !! i = Some c → cota_texto (<[i := c']> l) + 6 * tam c = cota_texto l + 6 * tam c'.
Proof.
  intros Hi. rewrite <-(take_drop_middle l i c Hi) at 2.
  rewrite insert_take_drop by (by eapply lookup_lt_Some).
  unfold cota_texto. rewrite !sum_list_with_app. simpl. lia.
Qed.

(** The identifier of a new meal has at most sixteen digits: the clock is
    the number of milliseconds since 1970, at most 8.64e15. *)
Lemma nuevaComida_tam ahora s :
  (ahora < 10 ^ 16)%N → tam (nuevaComida ahora s) ≤ 16 + length s.
Proof.
  intros Ha. unfold tam. simpl.
  assert (length (number_toString ahora) ≤ 16)
    by (apply number_toString_length; [lia|exact Ha]).
  lia.
Qed.

Lemma nuevaComida_utf16 ahora s : cadena_utf16 s → comida_utf16 (nuevaComida ahora s).
Proof. intros Hs. split_and!; [apply number_toString_utf16|done|constructor]. Qed.

(** A claim adds to the text at most six code units for each one of the
    name. *)
Lemma reclamo_cota l i c q :
  l !! i = Some c →
  cota_texto (<[i := set_seleccionadoPor q c]> l) ≤ cota_texto l + 6 * length q.
Proof.
  intros Hi. pose proof (cota_texto_insert l i c (set_seleccionadoPor q c) Hi).
  assert (tam (set_seleccionadoPor q c) ≤ tam c + length q) by (unfold tam; simpl; lia).
  lia.
Qed.

Lemma reclamo_utf16 l i c q :
  Forall comida_utf16 l → l !! i = Some c → cadena_utf16 q →
  Forall comida_utf16 (<[i := set_seleccionadoPor q c]> l).
Proof.
  intros Hl Hi Hq. apply Forall_insert; [done|].
  destruct (Forall_lookup_1 _ _ _ _ Hl Hi) as (? & ? & _). by split_and!.
Qed.

(** Room for the bound is room for the text. *)
Lemma cabe_lista_cota l e :
  (∀ q, cuota e = Some q →
        tamano (delete STORAGE_KEY (localStorage e)) + length STORAGE_KEY + cota_texto l ≤ q) →
  cabe_lista l e.
Proof.
  intros Hq. unfold cabe_lista, cabe. destruct (cuota e) as [q|]; [|done].
  rewrite tamano_insert. pose proof (stringify_cota l). specialize (Hq q eq_refl).
  simpl JSON_stringify. lia.
Qed.

Lemma contiene_parse e text l :
  localStorage e !! STORAGE_KEY = Some text → contiene e l →
  (text = [] ∧ l = []) ∨ parse text = Parsed l.
Proof.
  intros Ht Hl. unfold contiene, result in Hl. destruct text as [|u text]; [left|right].
  - assert (obtenerComidas e = (Normal [], e)) as Hrun
      by (unfold obtenerComidas; js_run; by rewrite Ht).
    rewrite Hrun in Hl. by simplify_eq/=.
  - rewrite (obtenerComidas_Some e (u :: text)) in Hl by done.
    unfold JSON_parse_js in Hl. simpl in Hl. by destruct (parse (u :: text)); simplify_eq/=.
Qed.

End store.

(** ** The bounds of the store *)

Section properties.
Implicit Types (e : Env) (s : jsstring) (c : Comida) (l : list Comida).

(** C33.  When the quota leaves room for [cota_texto comidas] code units
    beside the key and the other keys of the store, [guardarComidas(comidas)]
    does not throw, and the text it leaves under the key has at most
    [cota_texto comidas] code units: two brackets and, for each meal, 45
    code units of punctuation and property names and at most six for each
    code unit of its identifier, its name and its claimant.  When the meals
    are strings of 16-bit code units so is the text. *)
Theorem texto_guardado_cota l e :
  (∀ q, cuota e = Some q →
        tamano (delete STORAGE_KEY (localStorage e)) + length STORAGE_KEY + cota_texto l ≤ q) →
  result (guardarComidas l) e = Normal tt
  ∧ ∃ text, localStorage (exec (guardarComidas l) e) !! STORAGE_KEY = Some text
            ∧ length text ≤ cota_texto l
            ∧ (Forall comida_utf16 l → cadena_utf16 text).
Proof.
  intros Hq%cabe_lista_cota. unfold result, exec.
  rewrite (guardarComidas_run l e Hq). split; [done|].
  exists (stringify l). split_and!.
  - apply lookup_insert_eq.
  - apply stringify_cota.
  - apply stringify_utf16.
Qed.

(** What [obtenerComidas()] returns from a stored text of 16-bit code
    units is made of 16-bit code units: the escapes [JSON.parse] decodes
    denote one code unit each, and everything else is copied from the
    text. *)
Theorem lectura_utf16 e text l :
  localStorage e !! STORAGE_KEY = Some text → cadena_utf16 text →
  contiene e l → Forall comida_utf16 l.
Proof.
  intros Ht Hu Hl. destruct (contiene_parse _ _ _ Ht Hl) as [[_ ->]|Hp]; [constructor|].
  unfold parse in Hp. destruct (parse_text text) as [j| |] eqn:Ej; [|done..].
  destruct (decode j) as [l'|] eqn:Ed; [|done]. simplify_eq.
  eapply decode_utf16; [|done]. by eapply parse_text_utf16.
Qed.

(** [agregarComida()] on a clock below 10^16 milliseconds (the largest
    time value of JavaScript is 8.64e15) appends a meal whose identifier has
    at most sixteen digits and whose name is no longer than what was typed,
    so that the bound of the stored text grows by at most
    [141 + 6 * length typed]; the meal is made of 16-bit code units when the
    typed text is. *)
Theorem agregar_cota e l :
  contiene e l → trim (input_comida (dom e)) ≠ [] → (now e < 10 ^ 16)%N →
  cabe_nueva l e →
  ∃ c, contiene (exec agregarComida e) (l ++ [c])
       ∧ length (id c) ≤ 16
       ∧ length (nombre c) ≤ length (input_comida (dom e))
       ∧ cota_texto (l ++ [c]) ≤ cota_texto l + 141 + 6 * length (input_comida (dom e))
       ∧ (cadena_utf16 (input_comida (dom e)) → comida_utf16 c).
Proof.
  intros Hl Ht Hnow Hq. exists (nuevaComida (now e) (trim (input_comida (dom e)))).
  pose proof (trim_length (input_comida (dom e))) as Hlen.
  pose proof (nuevaComida_tam _ (trim (input_comida (dom e))) Hnow) as Htam.
  unfold exec. rewrite (agregarComida_ok e l) by done. split_and!.
  - apply agregada_contiene.
  - unfold tam in Htam. simpl in *. lia.
  - done.
  - rewrite cota_texto_snoc. lia.
  - intros Hu. by apply nuevaComida_utf16, trim_utf16.
Qed.

End properties.

Section witnesses.

Lemma lectura_utf16_witness : Forall comida_utf16 [tacos].
Proof.
  apply (lectura_utf16 env_tacos (stringify [tacos]) [tacos]).
  - reflexivity.
  - apply (bool_decide_unpack _). vm_compute. exact I.
  - exact env_tacos_contiene.
Defined.

Lemma agregar_cota_witness :
  let e := with_dom (set_input_comida (lit "  Tacos ")) env_tacos in
  ∃ c, contiene (exec agregarComida e) ([tacos] ++ [c]) ∧ length (id c) ≤ 16.
Proof.
  assert (contiene (with_dom (set_input_comida (lit "  Tacos ")) env_tacos) [tacos]) as Hl
    by (vm_compute; reflexivity).
  destruct (agregar_cota _ [tacos] Hl) as (c & H1 & H2 & _).
  - vm_compute. discriminate.
  - vm_compute. reflexivity.
  - exact I.
  - exists c. exact (conj H1 H2).
Defined.

(** A browser that gives the store 200 code units has room for Tacos. *)
Lemma texto_guardado_cota_witness :
  result (guardarComidas [tacos]) (with_cuota (Some 200) env0) = Normal tt.
Proof.
  apply (texto_guardado_cota [tacos] (with_cuota (Some 200) env0)).
  intros q [= <-]. vm_compute. lia.
Defined.

(** The text of a list with an escaped name, against its bound. *)
Example cota_ejemplo :
  length (stringify [tacos; comida_rara]) = 130 ∧ cota_texto [tacos; comida_rara] = 290.
Proof. by vm_compute. Qed.

End witnesses.
