(* ===== verification/Dinamico.v ===== *)
(** * The handlers on any stored value

    The functions of src/scripts.js once more, this time on whatever
    [JSON.parse] returns for the stored text: [obtenerComidas] gives a JSON
    value, and every use the script makes of it (a method of the array, a
    property of an element, a test, an interpolation) is the operation of
    [Valor], [TypeError]s included.  On a store the script itself wrote,
    each handler is equal to the handler over lists of meals of [Store],
    [Render], [Seleccion] and [Eventos], so the theorems of those files
    hold of it; on any other store, the theorems of this file say what the
    page does. *)

From S2P Require Import Prelude JsString Comida Json Browser Valor.
From S2P Require Import Store Mailbox Render Contrato Seleccion Eventos.
#[local] Open Scope js_scope.

Section dinamico.
Context `{!Numeros}.
Implicit Types (e : Env) (comidas v : json) (elementos : list json) (c comida : json).
Implicit Types (comidaId s : jsstring) (i comidaIndex : nat).

(** [obtenerComidas()] (lines 11-14). *)
Definition obtenerComidas_js : JS json :=
  comidasJson ← localStorage_getItem STORAGE_KEY;
  match comidasJson with
  | Some text => if truthy text then JSON_parse_valor text else mret (JArray [])
  | None => mret (JArray [])
  end.

(** [guardarComidas(comidas)] (lines 20-22). *)
Definition guardarComidas_js comidas : JS unit :=
  localStorage_setItem STORAGE_KEY (JSON_stringify_valor comidas).

(** [!c.seleccionadoPor], the callback of line 32. *)
Definition sin_elegir c : option bool :=
  quien ← Get key_seleccionadoPor c; Some (negb (ToBoolean quien)).

(** [actualizarContador(comidas)] (lines 30-36): both counters are computed
    before either is written. *)
Definition actualizarContador_js comidas : JS unit :=
  elementos ← metodo_de_array comidas;
  let total := length elementos in
  libres ← lanzar (filtrar sin_elegir elementos);
  let restantes := length libres in
  set_textContent_total total ;;
  set_textContent_restantes restantes.

(** The [div] the callback of [forEach] builds for one element (lines
    47-66); no result is a [TypeError] in one of its reads or
    interpolations. *)
Definition crearItem_js comida : option Elemento :=
  quien ← Get key_seleccionadoPor comida;
  let elegida := ToBoolean quien in
  info ← (if elegida then info_elegida <$> ToString quien else Some info_libre);
  nombre ← Get key_nombre comida ≫= ToString;
  ident ← Get key_id comida ≫= ToString;
  Some (mkElemento (clase_de elegida) (marco nombre info ident elegida)).

(** [renderizarComidas()] (lines 41-72): the container is emptied before
    the list is looked at. *)
Definition renderizarComidas_js : JS unit :=
  comidas ← obtenerComidas_js;
  lista_clear ;;
  elementos ← metodo_de_array comidas;
  forEach elementos (λ comida,
    item ← lanzar (crearItem_js comida); lista_appendChild item) ;;
  actualizarContador_js comidas ;;
  checkNotification.

(** [agregarComida()] (lines 80-96). *)
Definition agregarComida_js : JS unit :=
  valor ← input_value;
  let nombre := trim valor in
  if truthy nombre then
    comidas ← obtenerComidas_js;
    ahora ← Date_now;
    let nuevaComida := json_of_comida (nuevaComida ahora nombre) in
    elementos ← metodo_de_array comidas;
    let comidas := JArray (elementos ++ [nuevaComida]) in
    guardarComidas_js comidas ;;
    set_input_value [] ;;
    renderizarComidas_js
  else mret tt.

(** [c.id === comidaId], the callback of line 104. *)
Definition tiene_id comidaId c : option bool :=
  es_cadena comidaId <$> Get key_id c.

(** [seleccionarComida], lines 103-108 and the [else] of lines 123-125: up
    to the prompt. *)
Definition seleccionarComida_inicio_js comidaId : JS (option (list json * nat)) :=
  comidas ← obtenerComidas_js;
  elementos ← metodo_de_array comidas;
  comidaIndex ← lanzar (buscar (tiene_id comidaId) elementos);
  match comidaIndex with
  | Some i =>
    libre ← lanzar (elementos !! i ≫= sin_elegir);
    if libre : bool then mret (Some (elementos, i))
    else alert AVISO_YA_SELECCIONADA ;; mret None
  | None => alert AVISO_YA_SELECCIONADA ;; mret None
  end.

(** [seleccionarComida], lines 110-122: from the return of [prompt].  The
    message is built after the list has been saved. *)
Definition seleccionarComida_fin_js elementos comidaIndex
    (nombreUsuario : option jsstring) : JS unit :=
  match nombre_aceptado nombreUsuario with
  | Some nombreLimpio =>
    comida ← lanzar (elementos !! comidaIndex ≫= Set_ key_seleccionadoPor (JString nombreLimpio));
    let elementos := <[comidaIndex := comida]> elementos in
    guardarComidas_js (JArray elementos) ;;
    nombreComida ← lanzar (Get key_nombre comida ≫= ToString);
    post (mensaje_aviso nombreLimpio nombreComida) ;;
    renderizarComidas_js
  | None => alert AVISO_SIN_NOMBRE
  end.

(** [seleccionarComida(comidaId)] (lines 102-126) run without interruption. *)
Definition seleccionarComida_js comidaId (respuesta : option jsstring) : JS unit :=
  abierto ← seleccionarComida_inicio_js comidaId;
  match abierto with
  | Some (elementos, comidaIndex) =>
    nombreUsuario ← prompt PREGUNTA_NOMBRE respuesta;
    seleccionarComida_fin_js elementos comidaIndex nombreUsuario
  | None => mret tt
  end.

(** The handler of [window.onload] (lines 143-165). *)
Definition onload_js : JS unit :=
  renderizarComidas_js ;;
  addEventListener OyenteAgregar ;;
  addEventListener OyenteLista ;;
  addEventListener OyenteStorage.

(** The click listener of [#lista-comidas] (lines 150-157). *)
Definition onClickLista_js (tagName : jsstring) (dataId : option jsstring)
    (respuesta : option jsstring) : JS unit :=
  if decide (tagName = lit "BUTTON") then
    match dataId with
    | Some comidaId =>
      if truthy comidaId then seleccionarComida_js comidaId respuesta else mret tt
    | None => mret tt
    end
  else mret tt.

(** The handler of an event, started in the state the event finds. *)
Definition manejador (html : Dom) (ev : Evento) : JS unit :=
  match ev with
  | Cargar => λ e, onload_js (documento_nuevo html e)
  | Escribir valor => modify (with_dom (set_input_comida valor))
  | Reloj t => modify (with_now t)
  | ClickAgregar => despachar OyenteAgregar agregarComida_js
  | ClickLista tagName dataId respuesta =>
    despachar OyenteLista (onClickLista_js tagName dataId respuesta)
  | CambioStorage => despachar OyenteStorage renderizarComidas_js
  end.

(** The state after one event, and after a history. *)
Definition ocurre_js (html : Dom) ev e : Env := exec (manejador html ev) e.
Definition ejecutar_js (html : Dom) (evs : list Evento) e : Env :=
  foldl (λ e ev, ocurre_js html ev e) e evs.

(** The value the store of [e] holds: what loading returns. *)
Definition contiene_js e v : Prop := result obtenerComidas_js e = Normal v.

(** The store of [e] holds something loading cannot use as a list: a text
    that is not JSON, or a JSON value that is not an array. *)
Definition ajeno e : Prop :=
  match result obtenerComidas_js e with
  | Normal v => es_array v = false
  | Abrupt _ => True
  end.

(** The state after the script has saved the value [v], and the room the
    save needs. *)
Definition guardado_js v e : Env :=
  with_localStorage <[STORAGE_KEY := JSON_stringify_valor v]> e.
Definition cabe_valor v e : Prop := cabe STORAGE_KEY (JSON_stringify_valor v) e.

End dinamico.

(** ** On a store the script wrote *)

Section tipado.
Context `{!Numeros}.
Context (html : Dom).
Implicit Types (e : Env) (l : list Comida) (m : Comida) (ev : Evento).
Implicit Types (comidaId s : jsstring).

(** The typed view applies to the store of [e]: the stored text is absent,
    empty, not JSON at all, or the text of a list of meals. *)
Definition tipado e : Prop := result obtenerComidas e ≠ Abrupt ExnShape.

Lemma contiene_tipado e l : contiene e l → tipado e.
Proof. unfold tipado, contiene. by intros ->. Qed.

(** Two computations that agree after a common first step agree. *)
Lemma bind_ext {A B} (h : JS A) (f g : A → JS B) e :
  (∀ a e', h e = (Normal a, e') → f a e' = g a e') → (h ≫= f) e = (h ≫= g) e.
Proof. intros Hfg. rewrite !run_bind. destruct (h e) as [[a|x] e']; [by apply Hfg|done]. Qed.

(** Loading gives the JSON value of the list the typed view reads. *)
Lemma obtenerComidas_js_contiene e l :
  contiene e l → obtenerComidas_js e = (Normal (json_of_comidas l), e).
Proof.
  unfold contiene, result, obtenerComidas, obtenerComidas_js. js_run.
  destruct (localStorage e !! STORAGE_KEY) as [text|]; [|by intros [= <-]].
  destruct (truthy text); [|by intros [= <-]].
  unfold JSON_parse_js, JSON_parse_valor. cbn [JSON_parse json_codec].
  destruct (parse text) as [l'| |] eqn:Hp; [|done..]. intros [= <-].
  apply parse_Parsed in Hp. by rewrite Hp, crear_json_of_comidas.
Qed.

(** A text that is not JSON makes both loads throw [SyntaxError]. *)
Lemma obtenerComidas_js_abrupt e x :
  tipado e → result obtenerComidas e = Abrupt x →
  obtenerComidas_js e = (Abrupt ExnSyntaxError, e) ∧ x = ExnSyntaxError.
Proof.
  unfold tipado, result, obtenerComidas, obtenerComidas_js. js_run.
  destruct (localStorage e !! STORAGE_KEY) as [text|]; [|done].
  destruct (truthy text); [|done].
  unfold JSON_parse_js, JSON_parse_valor. cbn [JSON_parse json_codec].
  pose proof (parse_fuel_enough text) as [_ Hs].
  destruct (parse text) as [l'| |] eqn:Hp; [done| |done].
  intros _ [= <-]. by rewrite (proj1 Hs eq_refl).
Qed.

(** *** The callbacks on a meal *)

Lemma sin_elegir_comida m : sin_elegir (json_of_comida m) = Some (negb (seleccionada m)).
Proof.
  unfold sin_elegir. rewrite Get_seleccionadoPor. cbn [mbind option_bind].
  by rewrite ToBoolean_json_of_option.
Qed.

Lemma filtrar_comidas l :
  filtrar sin_elegir (json_of_comida <$> l) = Some (json_of_comida <$> restantes l).
Proof.
  unfold restantes. induction l as [|m l IH]; [done|].
  rewrite fmap_cons. cbn [filtrar]. rewrite sin_elegir_comida, IH. simpl.
  rewrite filter_cons. by destruct (seleccionada m); case_decide.
Qed.

Lemma crearItem_js_comida m : crearItem_js (json_of_comida m) = Some (crearItem m).
Proof.
  unfold crearItem_js, crearItem, clase, plantilla, infoSeleccion, seleccionada.
  rewrite Get_seleccionadoPor, Get_nombre, Get_id.
  cbn [mbind option_bind ToString ToString_json]. rewrite ToBoolean_json_of_option.
  by destruct (seleccionadoPor m) as [q|]; [destruct (truthy_opt (Some q))|];
    cbn [mbind option_bind fmap option_fmap option_map json_of_option ToString_json
         interpolar truthy_opt].
Qed.

Lemma tiene_id_comida comidaId m :
  tiene_id comidaId (json_of_comida m) = Some (bool_decide (id m = comidaId)).
Proof. done. Qed.

Lemma buscar_comidas comidaId l :
  buscar (tiene_id comidaId) (json_of_comida <$> l) = Some (fst <$> findIndex comidaId l).
Proof.
  unfold findIndex. induction l as [|m l IH]; [done|].
  rewrite fmap_cons. cbn [buscar list_find]. rewrite tiene_id_comida, IH.
  case_decide as Hid.
  - by rewrite bool_decide_eq_true_2.
  - rewrite bool_decide_eq_false_2 by done.
    by destruct (list_find _ l) as [[i c]|].
Qed.

(** *** The handlers *)

Lemma metodo_de_array_comidas {B} l (f : list json → JS B) e :
  (metodo_de_array (json_of_comidas l) ≫= f) e = f (json_of_comida <$> l) e.
Proof. done. Qed.

Lemma gets_bind {A B} (g : Env → A) (f : A → JS B) e : (gets g ≫= f) e = f (g e) e.
Proof. done. Qed.

Lemma tipado_ext e1 e2 :
  localStorage e1 !! STORAGE_KEY = localStorage e2 !! STORAGE_KEY → tipado e1 → tipado e2.
Proof. unfold tipado. by intros ->%obtenerComidas_ext. Qed.

(** What the script has saved is a store of the typed view. *)
Lemma tipado_guardado l e e1 : guardarComidas l e = (Normal tt, e1) → tipado e1.
Proof.
  rewrite guardarComidas_casos. case_decide; [|done]. intros [= <-].
  eapply contiene_tipado, guardado_contiene.
Qed.

Lemma guardarComidas_js_comidas {B} l (f : unit → JS B) e :
  (guardarComidas_js (JArray (json_of_comida <$> l)) ≫= f) e = (guardarComidas l ≫= f) e.
Proof.
  unfold guardarComidas_js, guardarComidas.
  by rewrite (JSON_stringify_valor_comidas l).
Qed.

Lemma actualizarContador_js_comidas l e :
  actualizarContador_js (json_of_comidas l) e = actualizarContador l e.
Proof.
  unfold actualizarContador_js, actualizarContador.
  rewrite metodo_de_array_comidas, filtrar_comidas, lanzar_bind.
  by rewrite !length_fmap.
Qed.

Lemma forEach_comidas l e :
  forEach (json_of_comida <$> l)
    (λ comida, item ← lanzar (crearItem_js comida); lista_appendChild item) e
  = forEach l (λ comida, lista_appendChild (crearItem comida)) e.
Proof.
  revert e. induction l as [|m l IH]; intros e; [done|].
  rewrite fmap_cons. cbn [forEach]. rewrite crearItem_js_comida.
  apply bind_ext. intros [] e' _. apply IH.
Qed.

(** [renderizarComidas] on a store of the typed view. *)
Lemma renderizarComidas_js_tipado e : tipado e → renderizarComidas_js e = renderizarComidas e.
Proof.
  intros Ht. unfold renderizarComidas_js, renderizarComidas. rewrite !run_bind.
  destruct (result obtenerComidas e) as [l|x] eqn:Hl.
  - rewrite (obtenerComidas_js_contiene e l Hl), (contiene_run e l Hl).
    apply bind_ext. intros [] e1 _.
    rewrite metodo_de_array_comidas, run_bind, forEach_comidas, <-run_bind.
    apply bind_ext. intros [] e2 _.
    by rewrite !run_bind, actualizarContador_js_comidas.
  - destruct (obtenerComidas_js_abrupt e x Ht Hl) as [-> ->].
    by rewrite obtenerComidas_run, Hl.
Qed.

(** [agregarComida] on a store of the typed view. *)
Lemma agregarComida_js_tipado e : tipado e → agregarComida_js e = agregarComida e.
Proof.
  intros Ht. unfold agregarComida_js, agregarComida, input_value, Date_now.
  rewrite !gets_bind. destruct (truthy _); [|done].
  destruct (result obtenerComidas e) as [l|x] eqn:Hl.
  - rewrite (run_bind obtenerComidas_js), (obtenerComidas_js_contiene e l Hl).
    rewrite (run_bind obtenerComidas), (contiene_run e l Hl).
    rewrite !gets_bind, metodo_de_array_comidas, <-fmap_snoc, guardarComidas_js_comidas.
    apply bind_ext. intros [] e1 Hg. apply bind_ext. intros [] e2 [= <-].
    apply renderizarComidas_js_tipado. eapply tipado_ext, tipado_guardado; [|done]. done.
  - destruct (obtenerComidas_js_abrupt e x Ht Hl) as [Hj ->].
    by rewrite (run_bind obtenerComidas_js), Hj, (run_bind obtenerComidas),
      obtenerComidas_run, Hl.
Qed.

(** The list and the index the prompt is opened with, as JSON. *)
Definition abierto_js (a : option (list Comida * nat)) : option (list json * nat) :=
  match a with
  | Some (l, i) => Some (json_of_comida <$> l, i)
  | None => None
  end.

(** [seleccionarComida] up to the prompt, on a store of the typed view. *)
Lemma seleccionarComida_inicio_js_tipado comidaId e :
  tipado e →
  seleccionarComida_inicio_js comidaId e
  = (seleccionarComida_inicio comidaId ≫= λ a, mret (abierto_js a)) e.
Proof.
  intros Ht. unfold seleccionarComida_inicio_js, seleccionarComida_inicio.
  rewrite (run_bind (obtenerComidas ≫= _)), (run_bind obtenerComidas).
  rewrite (run_bind obtenerComidas_js).
  destruct (result obtenerComidas e) as [l|x] eqn:Hl.
  - rewrite (obtenerComidas_js_contiene e l Hl), (contiene_run e l Hl).
    rewrite metodo_de_array_comidas, buscar_comidas, lanzar_bind.
    destruct (findIndex comidaId l) as [[i m]|] eqn:Hf; [|done].
    apply findIndex_Some in Hf as (Hi & _). cbn [fmap option_fmap option_map fst].
    rewrite list_lookup_fmap, Hi. cbn [fmap option_fmap option_map mbind option_bind].
    rewrite sin_elegir_comida, lanzar_bind. by destruct (seleccionada m).
  - destruct (obtenerComidas_js_abrupt e x Ht Hl) as [-> ->].
    by rewrite obtenerComidas_run, Hl.
Qed.

(** [seleccionarComida] from the prompt on, with the list of meals the
    typed handler holds: the two write the same store. *)
Lemma seleccionarComida_fin_js_comidas l i r e :
  seleccionarComida_fin_js (json_of_comida <$> l) i r e = seleccionarComida_fin l i r e.
Proof.
  unfold seleccionarComida_fin_js, seleccionarComida_fin.
  destruct (nombre_aceptado r) as [q|]; [|done].
  rewrite list_lookup_fmap. destruct (l !! i) as [m|]; [|done].
  cbn [fmap option_fmap option_map mbind option_bind].
  rewrite Set_seleccionadoPor, lanzar_bind, <-list_fmap_insert, guardarComidas_js_comidas.
  apply bind_ext. intros [] e1 Hg. rewrite Get_nombre.
  cbn [mbind option_bind ToString ToString_json]. rewrite lanzar_bind.
  apply bind_ext. intros [] e2 [= <-].
  apply renderizarComidas_js_tipado. eapply tipado_ext, tipado_guardado; [|done]. done.
Qed.

(** [seleccionarComida] on a store of the typed view. *)
Lemma seleccionarComida_js_tipado comidaId r e :
  tipado e → seleccionarComida_js comidaId r e = seleccionarComida comidaId r e.
Proof.
  intros Ht. unfold seleccionarComida_js, seleccionarComida.
  rewrite (run_bind (seleccionarComida_inicio_js _)), seleccionarComida_inicio_js_tipado by done.
  rewrite (run_bind (seleccionarComida_inicio _)), (run_bind (seleccionarComida_inicio _)).
  destruct (seleccionarComida_inicio comidaId e) as [[[[l i]|]|x] e1]; [|done..].
  cbn [abierto_js].
  rewrite run_ret. apply bind_ext. intros nombreUsuario e2 _.
  apply seleccionarComida_fin_js_comidas.
Qed.

Lemma onClickLista_js_tipado tagName dataId r e :
  tipado e → onClickLista_js tagName dataId r e = onClickLista tagName dataId r e.
Proof.
  intros Ht. unfold onClickLista_js, onClickLista. case_decide; [|done].
  destruct dataId as [comidaId|]; [|done]. destruct (truthy comidaId); [|done].
  by apply seleccionarComida_js_tipado.
Qed.

Lemma onload_js_tipado e : tipado e → onload_js e = onload e.
Proof.
  intros Ht. unfold onload_js, onload.
  by rewrite (run_bind renderizarComidas_js), renderizarComidas_js_tipado.
Qed.

(** Handlers that agree in [e] agree when dispatched in [e]. *)
Lemma despachar_ext o (h1 h2 : JS unit) e :
  h1 e = h2 e → despachar o h1 e = despachar o h2 e.
Proof. intros Hh. rewrite !despachar_run. by case_decide. Qed.

Lemma run_eta {A} (h : JS A) e : h e = (result h e, exec h e).
Proof. unfold result, exec. by destruct (h e). Qed.

(** The handler of every event, on a store of the typed view, completes as
    and leaves the state of the handler over lists of meals. *)
Lemma manejador_tipado ev e :
  tipado e → manejador html ev e = (resultado_evento html ev e, ocurre html ev e).
Proof.
  intros Ht. destruct ev as [|valor|t| |tagName dataId r|];
    cbn [manejador resultado_evento ocurre]; [|done..| | |].
  - rewrite onload_js_tipado; [apply run_eta|]. by eapply tipado_ext, Ht.
  - erewrite despachar_ext; [apply run_eta|]. by apply agregarComida_js_tipado.
  - erewrite despachar_ext; [apply run_eta|]. by apply onClickLista_js_tipado.
  - erewrite despachar_ext; [apply run_eta|]. by apply renderizarComidas_js_tipado.
Qed.

Lemma ocurre_js_tipado ev e : tipado e → ocurre_js html ev e = ocurre html ev e.
Proof. intros Ht. unfold ocurre_js, exec. by rewrite manejador_tipado. Qed.

(** Histories from a tab at rest stay within the typed view. *)
Lemma ejecutar_js_reposo evs e l :
  en_reposo e l → ejecutar_js html evs e = ejecutar html evs e.
Proof.
  revert e l. induction evs as [|ev evs IH]; intros e l Hr; [done|].
  cbn [ejecutar_js ejecutar foldl]. rewrite ocurre_js_tipado by by eapply contiene_tipado, Hr.
  destruct (ocurre_efecto html ev e l Hr) as [l' Hef].
  eapply IH, efecto_reposo; done.
Qed.

End tipado.

(** ** On any store *)

Section cualquiera.
Context `{!Numeros}.
Context (html : Dom).
Implicit Types (e : Env) (v comidas : json) (elementos : list json) (ev : Evento).

(** The elements a render paints before it stops, and whether it painted
    them all: it stops at the first element whose [div] cannot be built. *)
Fixpoint pintados elementos : list Elemento * bool :=
  match elementos with
  | [] => ([], true)
  | comida :: resto =>
    match crearItem_js comida with
    | Some item => let '(items, todos) := pintados resto in (item :: items, todos)
    | None => ([], false)
    end
  end.

(** Loading never changes the state. *)
Lemma obtenerComidas_js_run e : obtenerComidas_js e = (result obtenerComidas_js e, e).
Proof.
  unfold result, obtenerComidas_js, JSON_parse_valor. js_run.
  destruct (localStorage e !! STORAGE_KEY) as [text|]; [|done].
  destruct (truthy text); [|done]. by destruct (parse_text text).
Qed.

Lemma obtenerComidas_js_ext e1 e2 :
  localStorage e1 !! STORAGE_KEY = localStorage e2 !! STORAGE_KEY →
  result obtenerComidas_js e1 = result obtenerComidas_js e2.
Proof.
  unfold result, obtenerComidas_js, JSON_parse_valor. js_run. intros ->.
  destruct (localStorage e2 !! STORAGE_KEY) as [text|]; [|done].
  destruct (truthy text); [|done]. by destruct (parse_text text).
Qed.

Lemma contiene_js_run e v : contiene_js e v → obtenerComidas_js e = (Normal v, e).
Proof. intros Hv. by rewrite obtenerComidas_js_run, Hv. Qed.

Lemma ajeno_ext e1 e2 :
  localStorage e1 !! STORAGE_KEY = localStorage e2 !! STORAGE_KEY → ajeno e1 → ajeno e2.
Proof. unfold ajeno. by intros ->%obtenerComidas_js_ext. Qed.

(** Loading throws nothing but [SyntaxError]. *)
Lemma obtenerComidas_js_abrupt_inv e x :
  result obtenerComidas_js e = Abrupt x → x = ExnSyntaxError.
Proof.
  unfold result, obtenerComidas_js, JSON_parse_valor. js_run.
  destruct (localStorage e !! STORAGE_KEY) as [text|]; [|done].
  destruct (truthy text); [|done]. destruct (parse_text text); [done|by intros [= <-]..].
Qed.

(** *** Rendering *)

(** The loop of [forEach] appends the [div]s of the elements it can build
    and stops at the first it cannot. *)
Lemma forEach_pintados elementos e :
  forEach elementos (λ comida, item ← lanzar (crearItem_js comida); lista_appendChild item) e
  = (if (pintados elementos).2 then Normal tt else Abrupt ExnTypeError,
     with_dom (λ d, set_lista_comidas (lista_comidas d ++ (pintados elementos).1) d) e).
Proof.
  revert e. induction elementos as [|comida resto IH]; intros e.
  - destruct e as [ls ss [t r li i] u n o].
    unfold with_dom, set_lista_comidas. simpl. by rewrite app_nil_r.
  - cbn [forEach pintados]. destruct (crearItem_js comida) as [item|].
    + rewrite run_bind, lanzar_bind. unfold lista_appendChild at 1. rewrite run_modify, IH.
      destruct (pintados resto) as [items todos]. destruct e as [ls ss [t r li i] u n o].
      unfold with_dom, set_lista_comidas. simpl. by rewrite <-app_assoc.
    + destruct e as [ls ss [t r li i] u n o].
      unfold with_dom, set_lista_comidas. simpl. by rewrite app_nil_r.
Qed.

(** An element whose [div] can be built can be tested by the filter of
    [actualizarContador]. *)
Lemma crearItem_js_sin_elegir comida item :
  crearItem_js comida = Some item → is_Some (sin_elegir comida).
Proof.
  unfold crearItem_js, sin_elegir.
  destruct (Get key_seleccionadoPor comida) as [quien|]; [by eexists|done].
Qed.

Lemma pintados_filtrar elementos :
  (pintados elementos).2 = true → is_Some (filtrar sin_elegir elementos).
Proof.
  induction elementos as [|comida resto IH]; [by eexists|].
  cbn [pintados filtrar]. destruct (crearItem_js comida) as [item|] eqn:Hc; [|done].
  destruct (crearItem_js_sin_elegir _ _ Hc) as [libre ->].
  destruct (pintados resto) as [items todos].
  intros Ht. destruct (IH Ht) as [libres ->]. by eexists.
Qed.

(** What a render does with any stored array. *)
Lemma renderizarComidas_js_array e elementos :
  contiene_js e (JArray elementos) →
  renderizarComidas_js e
  = let e1 := with_dom (set_lista_comidas (pintados elementos).1) e in
    if (pintados elementos).2
    then (actualizarContador_js (JArray elementos) ;; checkNotification) e1
    else (Abrupt ExnTypeError, e1).
Proof.
  intros Hv. unfold renderizarComidas_js.
  rewrite run_bind, (contiene_js_run e _ Hv). unfold lista_clear.
  rewrite run_bind, run_modify, metodo_de_array_bind, run_bind, forEach_pintados.
  destruct (pintados elementos) as [items todos]. cbn [fst snd].
  by destruct todos, e as [ls ss [t r li i] u n o].
Qed.

(** What a render does with a store that is not an array: the list of the
    page is emptied and the render stops with [TypeError]; with a text that
    is not JSON it stops before that. *)
Lemma renderizarComidas_js_ajeno e :
  ajeno e →
  renderizarComidas_js e
  = match result obtenerComidas_js e with
    | Normal _ => (Abrupt ExnTypeError, with_dom (set_lista_comidas []) e)
    | Abrupt x => (Abrupt x, e)
    end.
Proof.
  unfold ajeno, renderizarComidas_js. rewrite run_bind, obtenerComidas_js_run.
  destruct (result obtenerComidas_js e) as [v|x]; [|done]. intros Hv.
  unfold lista_clear. by rewrite run_bind, run_modify, run_bind, metodo_de_array_ajeno.
Qed.

(** Whatever the store holds, a render changes the page and then, if it
    gets that far, drains the mailbox; nothing else. *)
Lemma with_dom_id e : with_dom (λ d, d) e = e.
Proof. by destruct e as [ls ss [t r li i] u n o q]. Qed.

Lemma with_dom_with_dom f g e : with_dom f (with_dom g e) = with_dom (f ∘ g) e.
Proof. done. Qed.

Lemma actualizarContador_js_forma v e :
  ∃ r f, actualizarContador_js v e = (r, with_dom f e).
Proof.
  unfold actualizarContador_js. rewrite run_bind.
  destruct (decide (es_array v = true)) as [Hv|Hv%not_true_is_false].
  - destruct v as [| | | |elementos|]; try done. rewrite metodo_de_array_run.
    destruct (filtrar sin_elegir elementos) as [libres|].
    + rewrite lanzar_bind. unfold set_textContent_total, set_textContent_restantes.
      rewrite run_bind, !run_modify, with_dom_with_dom. by eexists _, _.
    + exists (Abrupt ExnTypeError), (λ d, d). by rewrite with_dom_id.
  - rewrite (metodo_de_array_ajeno v e Hv).
    exists (Abrupt ExnTypeError), (λ d, d). by rewrite with_dom_id.
Qed.

Lemma renderizarComidas_js_forma e :
  ∃ f, exec renderizarComidas_js e = with_dom f e
       ∨ exec renderizarComidas_js e = exec checkNotification (with_dom f e).
Proof.
  unfold exec at 1 2. unfold renderizarComidas_js. rewrite run_bind, obtenerComidas_js_run.
  destruct (result obtenerComidas_js e) as [v|x];
    [|exists (λ d, d); left; by rewrite with_dom_id].
  unfold lista_clear. rewrite run_bind, run_modify.
  destruct (decide (es_array v = true)) as [Hv|Hv%not_true_is_false].
  - destruct v as [| | | |elementos|]; try done.
    rewrite metodo_de_array_bind, run_bind, forEach_pintados.
    destruct (pintados elementos) as [items [|]]; cbn [fst snd];
      rewrite with_dom_with_dom; [|eexists; by left].
    rewrite run_bind.
    destruct (actualizarContador_js_forma (JArray elementos) (with_dom
      ((λ d, set_lista_comidas (lista_comidas d ++ items) d) ∘ set_lista_comidas []) e))
      as ([[]|x] & f & ->); rewrite with_dom_with_dom; eexists; [by right|by left].
  - rewrite run_bind, (metodo_de_array_ajeno v _ Hv). eexists. by left.
Qed.

Lemma renderizarComidas_js_localStorage e :
  localStorage (exec renderizarComidas_js e) = localStorage e.
Proof.
  destruct (renderizarComidas_js_forma e) as [f [-> | ->]]; [done|].
  by destruct (checkNotification_frame (with_dom f e)) as (-> & _).
Qed.

Lemma renderizarComidas_js_cuota e : cuota (exec renderizarComidas_js e) = cuota e.
Proof.
  destruct (renderizarComidas_js_forma e) as [f [-> | ->]]; [done|].
  by rewrite checkNotification_cuota.
Qed.

(** *** Saving and loading any value *)

Lemma contiene_js_ext e1 e2 v :
  localStorage e1 !! STORAGE_KEY = localStorage e2 !! STORAGE_KEY →
  contiene_js e1 v → contiene_js e2 v.
Proof. unfold contiene_js. by intros ->%obtenerComidas_js_ext. Qed.

(** What loading returns is a well-formed value. *)
Lemma contiene_js_bien_formado e v : contiene_js e v → bien_formado v.
Proof.
  unfold contiene_js, result, obtenerComidas_js, JSON_parse_valor. js_run.
  destruct (localStorage e !! STORAGE_KEY) as [text|]; [|by intros [= <-]].
  destruct (truthy text); [|by intros [= <-]].
  destruct (parse_text text); [|done..]. intros [= <-]. apply crear_bien_formado.
Qed.

Lemma guardarComidas_js_run v e :
  cabe_valor v e → guardarComidas_js v e = (Normal tt, guardado_js v e).
Proof. apply localStorage_setItem_cabe. Qed.

Lemma print_truthy v : sin_numeros v → truthy (print v) = true.
Proof. by destruct v as [|[]| | | |]. Qed.

(** A well-formed value without numbers that has been saved is the value
    the store holds. *)
Lemma guardado_js_contiene v e :
  sin_numeros v → bien_formado v → contiene_js (guardado_js v e) v.
Proof.
  intros Hn Hb. unfold contiene_js, result, obtenerComidas_js, guardado_js. js_run.
  rewrite lookup_insert_eq. unfold JSON_stringify_valor at 1.
  rewrite (serializable_sin_numeros v Hn), (print_truthy v Hn).
  by rewrite JSON_parse_stringify_valor.
Qed.

(** A render leaves the store as it is. *)
Lemma contiene_js_render e v : contiene_js e v → contiene_js (renderizarComidas_js e).2 v.
Proof.
  apply contiene_js_ext. symmetry.
  apply (f_equal (λ s : gmap jsstring jsstring, s !! STORAGE_KEY)),
    renderizarComidas_js_localStorage.
Qed.

(** With a null among the elements, the render paints the elements before
    it and stops there. *)
Lemma pintados_null antes despues :
  (pintados antes).2 = true →
  pintados (antes ++ JNull :: despues) = ((pintados antes).1, false).
Proof.
  induction antes as [|comida resto IH]; [done|]. cbn [app pintados].
  destruct (crearItem_js comida) as [item|]; [|done].
  destruct (pintados resto) as [items todos]. intros Ht. by rewrite (IH Ht).
Qed.

(** *** The other handlers on a store that is not an array *)

Lemma onload_js_ajeno e : ajeno e → onload_js e = renderizarComidas_js e.
Proof.
  intros Ha. unfold onload_js. rewrite run_bind, (renderizarComidas_js_ajeno e Ha).
  by destruct (result obtenerComidas_js e).
Qed.

Lemma agregarComida_js_ajeno e : ajeno e → exec agregarComida_js e = e.
Proof.
  unfold ajeno, exec, agregarComida_js, input_value, Date_now. rewrite gets_bind.
  destruct (truthy _); [|done]. rewrite run_bind, obtenerComidas_js_run.
  destruct (result obtenerComidas_js e) as [v|x]; [|done]. intros Hv.
  by rewrite gets_bind, run_bind, metodo_de_array_ajeno.
Qed.

Lemma seleccionarComida_js_ajeno comidaId r e :
  ajeno e → exec (seleccionarComida_js comidaId r) e = e.
Proof.
  unfold ajeno, exec, seleccionarComida_js, seleccionarComida_inicio_js.
  rewrite run_bind, run_bind, obtenerComidas_js_run.
  destruct (result obtenerComidas_js e) as [v|x]; [|done]. intros Hv.
  by rewrite run_bind, metodo_de_array_ajeno.
Qed.

Lemma onClickLista_js_ajeno tagName dataId r e :
  ajeno e → exec (onClickLista_js tagName dataId r) e = e.
Proof.
  intros Ha. unfold onClickLista_js. case_decide; [|done].
  destruct dataId as [comidaId|]; [|done]. destruct (truthy comidaId); [|done].
  by apply seleccionarComida_js_ajeno.
Qed.

(** Only the page has changed from [e] to [e']: not the storage areas, not
    the dialogs shown. *)
Definition solo_pagina e e' : Prop :=
  localStorage e' = localStorage e ∧ sessionStorage e' = sessionStorage e
  ∧ ui e' = ui e.

Lemma solo_pagina_refl e : solo_pagina e e.
Proof. done. Qed.

Lemma solo_pagina_trans e1 e2 e3 : solo_pagina e1 e2 → solo_pagina e2 e3 → solo_pagina e1 e3.
Proof. unfold solo_pagina. intros (-> & -> & ->) (-> & -> & ->). done. Qed.

Lemma renderizarComidas_js_solo_pagina e : ajeno e → solo_pagina e (exec renderizarComidas_js e).
Proof.
  intros Ha. unfold exec. rewrite (renderizarComidas_js_ajeno e Ha).
  by destruct (result obtenerComidas_js e).
Qed.

Lemma exec_despachar o (h : JS unit) e :
  exec (despachar o h) e = exec h e ∨ exec (despachar o h) e = e.
Proof. unfold exec. rewrite despachar_run. case_decide; [by left|by right]. Qed.

(** No event changes the store, or says anything, while the store is not
    an array. *)
Lemma ocurre_js_ajeno ev e : ajeno e → solo_pagina e (ocurre_js html ev e).
Proof.
  intros Ha. unfold ocurre_js. destruct ev as [|valor|t| |tagName dataId r|];
    cbn [manejador]; [|done..| | |].
  - unfold exec. rewrite onload_js_ajeno by by eapply ajeno_ext, Ha.
    apply (solo_pagina_trans _ (documento_nuevo html e)); [done|].
    apply renderizarComidas_js_solo_pagina. by eapply ajeno_ext, Ha.
  - destruct (exec_despachar OyenteAgregar agregarComida_js e) as [-> | ->]; [|done].
    by rewrite agregarComida_js_ajeno.
  - destruct (exec_despachar OyenteLista (onClickLista_js tagName dataId r) e)
      as [-> | ->]; [|done].
    by rewrite onClickLista_js_ajeno.
  - destruct (exec_despachar OyenteStorage renderizarComidas_js e) as [-> | ->]; [|done].
    by apply renderizarComidas_js_solo_pagina.
Qed.

End cualquiera.

(** ** Properties *)

Section properties.
Context `{!Numeros}.
Context (html : Dom).
Implicit Types (e : Env) (l : list Comida) (ev : Evento) (evs : list Evento).
Implicit Types (elementos antes despues : list json).

(** C4.  The handlers over lists of meals are the handlers of the script:
    after any history of a tab that started at rest, the state the script
    reaches, running on whatever [JSON.parse] returns, is the state the
    typed handlers reach, and the handler of any next event completes as
    and leaves the state of the typed one.  This holds whatever ECMAScript
    makes of numbers. *)
Theorem historia_tipada evs ev e l :
  en_reposo e l →
  let e' := ejecutar_js html evs e in
  e' = ejecutar html evs e
  ∧ manejador html ev e' = (resultado_evento html ev e', ocurre html ev e').
Proof.
  intros Hr e'. subst e'. rewrite (ejecutar_js_reposo html evs e l Hr).
  split; [done|]. destruct (ejecutar_reposo html evs e l Hr) as (l' & [Hl _] & _).
  by eapply manejador_tipado, contiene_tipado.
Qed.

(** C9.  No [TypeError] and no [SyntaxError] in a tab that started at
    rest: whatever the history, the handler of the next event runs to its
    end or stops at [QuotaExceededError]; no property is read from
    [undefined] or [null], no method is missing, no stored text fails to
    parse. *)
Theorem sin_errores_de_tipo evs ev e l :
  en_reposo e l →
  completa (ejecutar_js html evs e) (result (manejador html ev) (ejecutar_js html evs e)).
Proof.
  intros Hr. rewrite (ejecutar_js_reposo html evs e l Hr).
  destruct (ejecutar_reposo html evs e l Hr) as (l' & Hr' & _).
  unfold result. rewrite manejador_tipado by by eapply contiene_tipado, Hr'.
  by eapply resultado_evento_reposo.
Qed.

(** C31.  A render of a stored array with a [null] in it paints the
    elements before the [null] and stops with [TypeError]: the counters
    keep their old text and the mailbox is not drained. *)
Theorem render_se_detiene_en_null e antes despues :
  contiene_js e (JArray (antes ++ JNull :: despues)) → (pintados antes).2 = true →
  renderizarComidas_js e
  = (Abrupt ExnTypeError, with_dom (set_lista_comidas (pintados antes).1) e).
Proof.
  intros Hv Ha. rewrite (renderizarComidas_js_array e _ Hv).
  by rewrite (pintados_null _ _ Ha).
Qed.

(** A render of a stored array all of whose elements can be drawn
    (objects with or without the properties of a meal, strings, numbers,
    arrays) draws every element, counts them and those with no truthy
    [seleccionadoPor], and drains the mailbox. *)
Theorem render_pinta_todo e elementos :
  contiene_js e (JArray elementos) → (pintados elementos).2 = true →
  ∃ libres,
    filtrar sin_elegir elementos = Some libres
    ∧ renderizarComidas_js e
      = checkNotification
          (with_dom (λ d, mkDom (number_toString (N.of_nat (length elementos)))
                            (number_toString (N.of_nat (length libres)))
                            (pintados elementos).1 (input_comida d)) e).
Proof.
  intros Hv Ht. destruct (pintados_filtrar _ Ht) as [libres Hf]. exists libres.
  split; [done|]. rewrite (renderizarComidas_js_array e _ Hv), Ht. cbn zeta.
  unfold actualizarContador_js. rewrite run_bind, metodo_de_array_bind, Hf, lanzar_bind.
  by destruct e as [ls ss [t r li i] u n o].
Qed.

(** Loading right after saving any well-formed value without numbers
    returns that value, when the store has room for its text; without room
    the save throws [QuotaExceededError], nothing is stored and nothing is
    loaded. *)
Theorem cargar_tras_guardar e v :
  sin_numeros v → bien_formado v →
  (guardarComidas_js v ;; obtenerComidas_js) e
  = if decide (cabe_valor v e) then (Normal v, guardado_js v e) else (Abrupt ExnQuota, e).
Proof.
  intros Hn Hb. rewrite run_bind. unfold guardarComidas_js. case_decide as Hc.
  - rewrite (localStorage_setItem_cabe _ _ _ Hc).
    apply contiene_js_run, guardado_js_contiene; done.
  - by rewrite (localStorage_setItem_lleno _ _ _ Hc).
Qed.

(** C26.  Adding keeps what the store held: with any array in the store
    (meals or not, numbers apart), [agregarComida] appends the new meal and
    saves every other element as it read it, whether or not the render that
    follows can draw them. *)
Theorem agregar_conserva e elementos :
  contiene_js e (JArray elementos) → sin_numeros (JArray elementos) →
  trim (input_comida (dom e)) ≠ [] →
  let nueva := json_of_comida (nuevaComida (now e) (trim (input_comida (dom e)))) in
  cabe_valor (JArray (elementos ++ [nueva])) e →
  contiene_js (exec agregarComida_js e) (JArray (elementos ++ [nueva])).
Proof.
  intros Hv Hn Ht%truthy_true nueva Hc. subst nueva.
  pose proof (contiene_js_bien_formado e _ Hv) as Hb.
  unfold exec, agregarComida_js, input_value, Date_now. rewrite gets_bind, Ht.
  rewrite run_bind, (contiene_js_run e _ Hv), gets_bind, metodo_de_array_bind.
  rewrite run_bind, (guardarComidas_js_run _ e Hc).
  unfold set_input_value. rewrite run_bind, run_modify.
  apply contiene_js_render.
  eapply (contiene_js_ext (guardado_js _ e)); [reflexivity|].
  apply guardado_js_contiene.
  - cbn [sin_numeros] in *. apply forallb_True, Forall_app.
    split; [by apply forallb_True|]. apply Forall_singleton, sin_numeros_comida.
  - cbn [bien_formado] in *. apply forallb_True, Forall_app.
    split; [by apply forallb_True|]. apply Forall_singleton, bien_formado_comida.
Qed.

(** C27.  A claim keeps what the store held: in any stored array (numbers
    apart), the claim of an object whose [seleccionadoPor] is missing or
    falsy sets that property, in place if the object has it and after its
    other properties if not, and saves every other property and element as
    it read them, whatever happens after the save. *)
Theorem reclamo_conserva e elementos comidaId i o r q :
  contiene_js e (JArray elementos) → sin_numeros (JArray elementos) →
  buscar (tiene_id comidaId) elementos = Some (Some i) →
  elementos !! i = Some (JObject o) →
  ToBoolean (get_property key_seleccionadoPor o) = false →
  nombre_aceptado r = Some q →
  let reclamada := JObject (definir_propiedad key_seleccionadoPor (JString q) o) in
  cabe_valor (JArray (<[i := reclamada]> elementos)) e →
  contiene_js (exec (seleccionarComida_js comidaId r) e)
    (JArray (<[i := reclamada]> elementos)).
Proof.
  intros Hv Hn Hf Hi Hq Hr reclamada Hc. subst reclamada.
  pose proof (contiene_js_bien_formado e _ Hv) as Hb.
  set (reclamada := JObject (definir_propiedad key_seleccionadoPor (JString q) o)) in *.
  assert (contiene_js (guardado_js (JArray (<[i := reclamada]> elementos)) e)
    (JArray (<[i := reclamada]> elementos))) as Hg.
  { cbn [sin_numeros bien_formado] in Hn, Hb. apply forallb_True in Hn, Hb.
    pose proof (Forall_lookup_1 _ _ _ _ Hn Hi) as Hno.
    pose proof (Forall_lookup_1 _ _ _ _ Hb Hi) as [Hko Hbo%forallb_True]%andb_True.
    cbn [sin_numeros] in Hno. apply forallb_True in Hno.
    apply guardado_js_contiene; cbn [sin_numeros bien_formado];
      apply forallb_True, Forall_insert; try done; unfold reclamada;
      cbn [sin_numeros bien_formado].
    - apply forallb_True. by apply (valores_definir (λ v, sin_numeros v)).
    - apply andb_True. split; [by apply claves_ok_definir|].
      apply forallb_True. by apply (valores_definir (λ v, bien_formado v)). }
  unfold exec, seleccionarComida_js, seleccionarComida_inicio_js.
  rewrite run_bind, run_bind, (contiene_js_run e _ Hv), metodo_de_array_bind, Hf, lanzar_bind.
  rewrite Hi. cbn [mbind option_bind]. unfold sin_elegir at 1. cbn [Get mbind option_bind].
  rewrite Hq, lanzar_bind. cbn [negb]. rewrite run_ret.
  unfold prompt. rewrite run_bind, run_bind, run_modify, run_ret.
  unfold seleccionarComida_fin_js. rewrite Hr, Hi. cbn [mbind option_bind Set_].
  rewrite lanzar_bind, run_bind, guardarComidas_js_run by done.
  destruct (Get key_nombre _ ≫= ToString) as [nombreComida|];
    [|rewrite run_bind; by eapply contiene_js_ext, Hg].
  rewrite lanzar_bind. unfold post, sessionStorage_setItem. rewrite run_bind, run_modify.
  apply contiene_js_render. by eapply contiene_js_ext, Hg.
Qed.

(** Without listeners, no interaction does anything. *)
Lemma ocurre_js_sin_oyentes ev e :
  oyentes e = [] → es_interaccion ev = true → ocurre_js html ev e = e.
Proof.
  intros Ho Hev. destruct ev; try done; unfold ocurre_js, exec; cbn [manejador];
    rewrite despachar_run, Ho; by rewrite decide_False by apply not_elem_of_nil.
Qed.

(** C20.  A store that is not a list disables the page.  If the stored text
    is JSON but not an array ([null], a number, a string, an object),
    [window.onload] empties the list of the page and stops with
    [TypeError]; if it is not JSON it stops with [SyntaxError] before
    that.  Either way no listener is registered, so every later click or
    storage event is ignored. *)
Theorem carga_ajena e ev :
  ajeno e → es_interaccion ev = true →
  let e' := ocurre_js html Cargar e in
  (manejador html Cargar e
     = (Abrupt ExnTypeError, with_dom (set_lista_comidas []) (documento_nuevo html e))
   ∨ manejador html Cargar e = (Abrupt ExnSyntaxError, documento_nuevo html e))
  ∧ oyentes e' = [] ∧ ocurre_js html ev e' = e'.
Proof.
  intros Ha Hev e'.
  assert (ajeno (documento_nuevo html e)) as Ha' by by eapply ajeno_ext, Ha.
  assert (manejador html Cargar e
            = (Abrupt ExnTypeError, with_dom (set_lista_comidas []) (documento_nuevo html e))
          ∨ manejador html Cargar e = (Abrupt ExnSyntaxError, documento_nuevo html e))
    as Hm.
  { cbn [manejador]. rewrite (onload_js_ajeno _ Ha'), (renderizarComidas_js_ajeno _ Ha').
    destruct (result obtenerComidas_js (documento_nuevo html e)) as [v|x] eqn:Hv; [by left|].
    apply obtenerComidas_js_abrupt_inv in Hv as ->. by right. }
  assert (oyentes e' = []) as Ho.
  { unfold e', ocurre_js, exec. by destruct Hm as [-> | ->]. }
  split_and!; [done..|by apply ocurre_js_sin_oyentes].
Qed.

(** No history repairs a store that is not a list: whatever the
    events, the stored text stays as it is, the mailbox is never drained
    and no dialog is ever shown. *)
Theorem almacen_ajeno_permanece evs e :
  ajeno e →
  let e' := ejecutar_js html evs e in
  ajeno e' ∧ localStorage e' = localStorage e
  ∧ sessionStorage e' = sessionStorage e ∧ ui e' = ui e.
Proof.
  intros Ha e'. subst e'. enough (ajeno (ejecutar_js html evs e)
    ∧ solo_pagina e (ejecutar_js html evs e)) as [? (? & ? & ?)] by done.
  revert e Ha. induction evs as [|ev evs IH]; intros e Ha; [done|].
  cbn [ejecutar_js foldl]. pose proof (ocurre_js_ajeno html ev e Ha) as Hp.
  destruct (IH (ocurre_js html ev e)) as [Ha' Hp'].
  { eapply ajeno_ext, Ha. by destruct Hp as (-> & _). }
  split; [done|]. by eapply solo_pagina_trans.
Qed.

End properties.

(** ** Witnesses *)

Section witnesses.
#[local] Existing Instance numeros_enteros.

(** Stores the script did not write: [null], an object, an array with a
    [null] in it, an array of values that are not meals. *)
Definition env_null : Env := with_localStorage <[STORAGE_KEY := lit "null"]> env0.
Definition env_objeto : Env := with_localStorage <[STORAGE_KEY := lit "{}"]> env0.
Definition env_hueco : Env := with_localStorage <[STORAGE_KEY := lit "[7,null,8]"]> env0.
Definition env_varios : Env := with_localStorage <[STORAGE_KEY := lit "[{},[],true]"]> env0.

Lemma historia_tipada_witness :
  let e' := ejecutar_js html0 historia0 env0 in
  e' = ejecutar html0 historia0 env0
  ∧ manejador html0 CambioStorage e'
    = (resultado_evento html0 CambioStorage e', ocurre html0 CambioStorage e').
Proof. apply (historia_tipada html0 historia0 CambioStorage env0 [] env0_reposo). Defined.

Lemma sin_errores_de_tipo_witness :
  completa (ejecutar_js html0 historia0 env0)
    (result (manejador html0 ClickAgregar) (ejecutar_js html0 historia0 env0)).
Proof. apply (sin_errores_de_tipo html0 historia0 ClickAgregar env0 [] env0_reposo). Defined.

Lemma render_se_detiene_en_null_witness :
  renderizarComidas_js env_hueco
  = (Abrupt ExnTypeError,
     with_dom (set_lista_comidas (pintados [JNumber (lit "7")]).1) env_hueco).
Proof.
  apply (render_se_detiene_en_null env_hueco [JNumber (lit "7")] [JNumber (lit "8")]);
    vm_compute; reflexivity.
Defined.

Lemma render_pinta_todo_witness :
  ∃ libres,
    filtrar sin_elegir [JObject []; JArray []; JBool true] = Some libres
    ∧ renderizarComidas_js env_varios
      = checkNotification
          (with_dom (λ d, mkDom (number_toString 3) (number_toString (N.of_nat (length libres)))
                            (pintados [JObject []; JArray []; JBool true]).1 (input_comida d))
             env_varios).
Proof.
  apply (render_pinta_todo env_varios [JObject []; JArray []; JBool true]);
    vm_compute; reflexivity.
Defined.

(** A record of another shape: an id and a property the script does not
    know, no name and no [seleccionadoPor]. *)
Definition registro_ajeno : list (jsstring * json) :=
  [(key_id, JString (lit "7")); (lit "extra", JBool true)].
Definition env_legado : Env := guardado_js (JArray [JObject registro_ajeno]) env0.

Lemma cargar_tras_guardar_witness :
  (guardarComidas_js (JArray [JObject registro_ajeno; JNull]) ;; obtenerComidas_js) env0
  = (Normal (JArray [JObject registro_ajeno; JNull]),
     guardado_js (JArray [JObject registro_ajeno; JNull]) env0).
Proof.
  apply (cargar_tras_guardar env0 (JArray [JObject registro_ajeno; JNull])); by vm_compute.
Defined.

Lemma agregar_conserva_witness :
  let e := with_dom (set_input_comida (lit " Tacos ")) env_varios in
  contiene_js (exec agregarComida_js e)
    (JArray ([JObject []; JArray []; JBool true] ++ [json_of_comida tacos])).
Proof.
  apply (agregar_conserva (with_dom (set_input_comida (lit " Tacos ")) env_varios)
           [JObject []; JArray []; JBool true]); vm_compute; done.
Defined.

Lemma reclamo_conserva_witness :
  contiene_js (exec (seleccionarComida_js (lit "7") (Some (lit "Ana "))) env_legado)
    (JArray [JObject (registro_ajeno ++ [(key_seleccionadoPor, JString (lit "Ana"))])]).
Proof.
  apply (reclamo_conserva env_legado [JObject registro_ajeno] (lit "7") 0 registro_ajeno
           (Some (lit "Ana ")) (lit "Ana")); vm_compute; done.
Defined.

Lemma carga_ajena_witness :
  let e' := ocurre_js html0 Cargar env_null in
  (manejador html0 Cargar env_null
     = (Abrupt ExnTypeError, with_dom (set_lista_comidas []) (documento_nuevo html0 env_null))
   ∨ manejador html0 Cargar env_null = (Abrupt ExnSyntaxError, documento_nuevo html0 env_null))
  ∧ oyentes e' = [] ∧ ocurre_js html0 ClickAgregar e' = e'.
Proof. apply (carga_ajena html0 env_null ClickAgregar); vm_compute; reflexivity. Defined.

Lemma almacen_ajeno_permanece_witness :
  let e' := ejecutar_js html0 [Cargar; Escribir (lit "Tacos"); ClickAgregar; CambioStorage]
              env_objeto in
  ajeno e' ∧ localStorage e' = localStorage env_objeto
  ∧ sessionStorage e' = sessionStorage env_objeto ∧ ui e' = ui env_objeto.
Proof. apply (almacen_ajeno_permanece html0 _ env_objeto). vm_compute. reflexivity. Defined.

End witnesses.
