(* ===== verification/RedJs.v ===== *)
(** * The tabs on any stored value

    The net of [Entrega] once more, with every tab running the handlers of
    [Dinamico]: what a tab reads from the shared store is whatever
    [JSON.parse] returns, and the copy of the list a handler keeps across
    [prompt] is an array of JSON values.  The net over lists of meals is
    an abstraction of it: seen through [ver_red], a net in order makes the
    same steps in both, under every schedule, so the theorems of [Tabs] and
    [Entrega] are theorems about the script run on JSON values.  Over a
    store that is not a list the tabs do nothing but repaint. *)

From S2P Require Import Prelude JsString Comida Json Browser Valor.
From S2P Require Import Store Mailbox Render Contrato Seleccion Eventos Tabs Entrega.
From S2P Require Import Dinamico.
#[local] Open Scope js_scope.

(** A tab: its state, and the handler suspended at [prompt], if any, as the
    array it loaded and the index it found (the local variables [comidas]
    and [comidaIndex] of [seleccionarComida]). *)
Record Pestana_js := mkPestana_js {
  entorno_js : Env;
  esperando_js : option (list json * nat);
}.

(** The net: the shared store, the tabs, and for each tab the number of
    [storage] events queued for it. *)
Record Red_js := mkRed_js {
  compartido_js : Storage;
  pestanas_js : list Pestana_js;
  avisos_js : list nat;
}.

#[global] Instance Pestana_js_eq_dec : EqDecision Pestana_js.
Proof. solve_decision. Defined.

#[global] Instance Red_js_eq_dec : EqDecision Red_js.
Proof. solve_decision. Defined.

Section red_js.
Context `{!Numeros}.
Context (html : Dom).
Implicit Types (e : Env) (p : Pestana_js) (r : Red_js) (a : Accion) (i j n : nat).
Implicit Types (elementos : list json).

(** The click listener of the list (lines 150-157) up to the prompt of
    [seleccionarComida] (lines 103-108). *)
Definition onClickLista_inicio_js (tagName : jsstring) (dataId : option jsstring)
    : JS (option (list json * nat)) :=
  registrados ← gets oyentes;
  if decide (OyenteLista ∈ registrados) then
    if decide (tagName = lit "BUTTON") then
      match dataId with
      | Some comidaId =>
        if truthy comidaId then seleccionarComida_inicio_js comidaId else mret None
      | None => mret None
      end
    else mret None
  else mret None.

(** [seleccionarComida] from the return of [prompt] (lines 108-122). *)
Definition responder_js elementos (comidaIndex : nat) (respuesta : option jsstring)
    : JS unit :=
  nombreUsuario ← prompt PREGUNTA_NOMBRE respuesta;
  seleccionarComida_fin_js elementos comidaIndex nombreUsuario.

(** One action of a tab.  A tab blocked at a prompt handles nothing but the
    answer; an answer without a prompt is nothing. *)
Definition actuar_js a p : Pestana_js :=
  match esperando_js p with
  | Some (elementos, comidaIndex) =>
    match a with
    | Responder respuesta =>
      mkPestana_js (exec (responder_js elementos comidaIndex respuesta) (entorno_js p)) None
    | _ => p
    end
  | None =>
    match a with
    | Atomica ev => mkPestana_js (ocurre_js html ev (entorno_js p)) None
    | AbrirPrompt tagName dataId =>
      let '(res, e') := onClickLista_inicio_js tagName dataId (entorno_js p) in
      mkPestana_js e' (match res with Normal abierto => abierto | Abrupt _ => None end)
    | Responder _ => p
    end
  end.

(** How the handler of an action of a tab completes. *)
Definition resultado_js a p : completion unit :=
  match esperando_js p with
  | Some (elementos, comidaIndex) =>
    match a with
    | Responder respuesta =>
      result (responder_js elementos comidaIndex respuesta) (entorno_js p)
    | _ => Normal tt
    end
  | None =>
    match a with
    | Atomica ev => result (manejador html ev) (entorno_js p)
    | AbrirPrompt tagName dataId =>
      match result (onClickLista_inicio_js tagName dataId) (entorno_js p) with
      | Normal _ => Normal tt
      | Abrupt x => Abrupt x
      end
    | Responder _ => Normal tt
    end
  end.

(** The tab looking at the shared store. *)
Definition enfocar_js (compartido : Storage) p : Pestana_js :=
  mkPestana_js (with_localStorage (λ _, compartido) (entorno_js p)) (esperando_js p).

(** Tab [i] acts on the shared store; if the store has changed, the other
    tabs are told. *)
Definition hacer_js i a r : Red_js :=
  match pestanas_js r !! i with
  | Some p =>
    let p' := actuar_js a (enfocar_js (compartido_js r) p) in
    let almacen := localStorage (entorno_js p') in
    mkRed_js almacen (<[i := p']> (pestanas_js r))
      (if decide (almacen = compartido_js r) then avisos_js r else avisar i (avisos_js r))
  | None => r
  end.

(** Tab [j] receives an event and runs its [storage] listener (lines
    161-164), unless it is blocked at a prompt. *)
Definition entregar_js j r : Red_js :=
  match avisos_js r !! j, pestanas_js r !! j with
  | Some (S n), Some p =>
    match esperando_js p with
    | None =>
      let p' := actuar_js (Atomica CambioStorage) (enfocar_js (compartido_js r) p) in
      mkRed_js (localStorage (entorno_js p')) (<[j := p']> (pestanas_js r))
        (<[j := n]> (avisos_js r))
    | Some _ => r
    end
  | _, _ => r
  end.

(** A tab is opened; tab [j] is closed. *)
Definition abrir_js (t : N) (q : option nat) r : Red_js :=
  mkRed_js (compartido_js r)
    (pestanas_js r ++ [mkPestana_js (mkEnv (compartido_js r) ∅ html [] t [] q) None])
    (avisos_js r ++ [0]).

Definition cerrar_js j r : Red_js :=
  mkRed_js (compartido_js r) (delete j (pestanas_js r)) (delete j (avisos_js r)).

Definition dar_js (s : Paso) r : Red_js :=
  match s with
  | Hacer (Actuar i a) => hacer_js i a r
  | Hacer (Abrir t q) => abrir_js t q r
  | Hacer (Cerrar j) => cerrar_js j r
  | Entregar j => entregar_js j r
  end.

(** A schedule of the net. *)
Definition recorrer_js (plan : list Paso) r : Red_js := foldl (λ r s, dar_js s r) r plan.

(** The value the shared store holds: what loading returns in any tab. *)
Definition guarda_js r (v : json) : Prop :=
  contiene_js (mkEnv (compartido_js r) ∅ html [] 0 [] None) v.

(** ** The net over lists of meals as a view *)

(** A tab of [Tabs] as a tab of this file: the copy kept across the prompt
    is the array of the JSON values of its meals. *)
Definition ver (p : Pestana) : Pestana_js :=
  mkPestana_js (entorno p) (abierto_js (esperando p)).

Definition ver_red (r : Red) : Red_js :=
  mkRed_js (compartido (mundo r)) (ver <$> pestanas (mundo r)) (avisos r).

End red_js.

(** ** One tab *)

Section simulacion.
Context `{!Numeros}.
Context (html : Dom).
Implicit Types (e : Env) (p : Pestana) (w : Mundo) (r : Red) (a : Accion) (i j n : nat).
Implicit Types (l comidas : list Comida).

(** The click up to the prompt, on a store of the typed view. *)
Lemma onClickLista_inicio_js_tipado tagName dataId e :
  tipado e →
  onClickLista_inicio_js tagName dataId e
  = (onClickLista_inicio tagName dataId ≫= λ abierto, mret (abierto_js abierto)) e.
Proof.
  intros Ht. unfold onClickLista_inicio_js, onClickLista_inicio.
  rewrite gets_bind, run_bind, gets_bind. case_decide; [|done]. case_decide; [|done].
  destruct dataId as [comidaId|]; [|done]. destruct (truthy comidaId); [|done].
  rewrite seleccionarComida_inicio_js_tipado by done. by rewrite run_bind.
Qed.

(** The answer to the prompt, with the copy of the list the typed handler
    holds. *)
Lemma responder_js_comidas l k respuesta e :
  responder_js (json_of_comida <$> l) k respuesta e = responder l k respuesta e.
Proof.
  unfold responder_js, responder. apply bind_ext. intros nombreUsuario e' _.
  apply seleccionarComida_fin_js_comidas.
Qed.

(** An action of a tab on a store of the typed view: the two tabs make the
    same step. *)
Lemma actuar_js_ver a p :
  tipado (entorno p) → actuar_js html a (ver p) = ver (actuar html a p).
Proof.
  intros Ht. destruct p as [e [[l k]|]]; destruct a as [ev|tagName dataId|respuesta];
    try done; unfold actuar_js, actuar, ver;
    cbn [entorno esperando entorno_js esperando_js abierto_js].
  - unfold exec. by rewrite responder_js_comidas.
  - by rewrite ocurre_js_tipado.
  - rewrite onClickLista_inicio_js_tipado, run_bind by done.
    by destruct (onClickLista_inicio tagName dataId e) as [[abierto|x] e'].
Qed.

(** ... and the two handlers complete the same way. *)
Lemma resultado_js_ver a p :
  tipado (entorno p) → resultado_js html a (ver p) = resultado html a p.
Proof.
  intros Ht. destruct p as [e [[l k]|]]; destruct a as [ev|tagName dataId|respuesta];
    try done; unfold resultado_js, resultado, result, ver;
    cbn [entorno esperando entorno_js esperando_js abierto_js].
  - by rewrite responder_js_comidas.
  - by rewrite manejador_tipado.
  - rewrite onClickLista_inicio_js_tipado, run_bind by done.
    by destruct (onClickLista_inicio tagName dataId e) as [[abierto|x] e'].
Qed.

(** ** The net *)

Lemma tipado_enfocar r l p : red_ok html r l → tipado (entorno (enfocar (mundo r) p)).
Proof. intros (Hl & _). by eapply contiene_tipado, (guarda_enfocar html). Qed.

Lemma ver_red_eta r :
  mkRed_js (compartido (mundo r)) (ver <$> pestanas (mundo r)) (avisos r) = ver_red r.
Proof. done. Qed.

(** The tab of the view that looks at the shared store makes the step of
    the tab it is the view of. *)
Lemma actuar_js_enfocar a r l p :
  red_ok html r l →
  actuar_js html a (enfocar_js (compartido (mundo r)) (ver p))
  = ver (actuar html a (enfocar (mundo r) p)).
Proof. intros Hok. by apply (actuar_js_ver a (enfocar (mundo r) p)), (tipado_enfocar r l). Qed.

(** A step of a tab. *)
Lemma hacer_js_ver i a r l :
  red_ok html r l → hacer_js html i a (ver_red r) = ver_red (hacer html i a r).
Proof.
  intros Hok. unfold hacer_js, hacer, paso_mundo, ver_red.
  cbn [pestanas_js compartido_js avisos_js]. rewrite list_lookup_fmap.
  destruct (pestanas (mundo r) !! i) as [p|]; cbn [fmap option_fmap option_map].
  - rewrite (actuar_js_enfocar a r l p Hok).
    cbn [mundo avisos compartido pestanas]. by rewrite list_fmap_insert.
  - by rewrite decide_True.
Qed.

(** A delivery. *)
Lemma entregar_js_ver j r l :
  red_ok html r l → entregar_js html j (ver_red r) = ver_red (entregar html j r).
Proof.
  intros Hok. unfold entregar_js, entregar.
  replace (avisos_js (ver_red r)) with (avisos r) by done.
  replace (pestanas_js (ver_red r) !! j) with (ver <$> pestanas (mundo r) !! j)
    by (symmetry; apply list_lookup_fmap).
  destruct (avisos r !! j) as [[|n]|]; [done| |done].
  destruct (pestanas (mundo r) !! j) as [p|] eqn:Hj; [|done].
  cbn [fmap option_fmap option_map].
  replace (esperando_js (ver p)) with (abierto_js (esperando p)) by done.
  destruct (esperando p) as [[copia k]|]; [done|]. cbn [abierto_js].
  unfold paso_mundo. rewrite Hj.
  replace (compartido_js (ver_red r)) with (compartido (mundo r)) by done.
  rewrite (actuar_js_enfocar _ r l p Hok). unfold ver_red.
  cbn [mundo avisos compartido pestanas pestanas_js]. by rewrite list_fmap_insert.
Qed.

(** Every step of the net. *)
Lemma dar_js_ver s r l :
  red_ok html r l → dar_js html s (ver_red r) = ver_red (dar html s r).
Proof.
  destruct s as [[i a|t q|j]|j]; intros Hok; cbn [dar_js dar].
  - by eapply hacer_js_ver.
  - unfold abrir_js, ver_red. simpl. by rewrite fmap_app.
  - unfold cerrar_js, ver_red. simpl. by rewrite list_fmap_delete.
  - by eapply entregar_js_ver.
Qed.

(** Every schedule of the net. *)
Lemma recorrer_js_ver plan r l :
  red_ok html r l → recorrer_js html plan (ver_red r) = ver_red (recorrer html plan r).
Proof.
  revert r l. induction plan as [|s plan IH]; intros r l Hok; [done|].
  cbn [recorrer_js recorrer foldl]. rewrite (dar_js_ver s r l Hok).
  destruct (dar_ok html s r l Hok) as (l' & Hok'). by apply (IH _ l').
Qed.

(** The shared store of the view holds the JSON value of the list. *)
Lemma guarda_js_ver r l :
  guarda html (mundo r) l → guarda_js html (ver_red r) (json_of_comidas l).
Proof.
  intros Hl. unfold guarda_js, contiene_js, result. cbn [compartido_js ver_red].
  by rewrite (obtenerComidas_js_contiene _ l Hl).
Qed.

End simulacion.

(** ** The net over a store that is not a list *)

Section ajena.
Context `{!Numeros}.
Context (html : Dom).
Implicit Types (e : Env) (q : Pestana_js) (r : Red_js) (a : Accion) (i j : nat).

(** The shared store holds something loading cannot use as a list. *)
Definition red_ajena r : Prop := ajeno (mkEnv (compartido_js r) ∅ html [] 0 [] None).

(** No tab is blocked at a prompt. *)
Definition sin_prompts r : Prop := Forall (λ q, esperando_js q = None) (pestanas_js r).

(** Every tab of [r] has shown the dialogs [dialogos] allows: those of a
    tab that was there, or none. *)
Definition callada (dialogos : list (list Dialogo)) r : Prop :=
  Forall (λ q, ui (entorno_js q) ∈ [] :: dialogos) (pestanas_js r).

(** The click never gets to the prompt: loading throws, or the method of
    the array is missing. *)
Lemma onClickLista_inicio_js_ajeno tagName dataId e :
  ajeno e →
  ∃ res, onClickLista_inicio_js tagName dataId e = (res, e)
         ∧ match res with Normal abierto => abierto | Abrupt _ => None end = None.
Proof.
  intros Ha. unfold onClickLista_inicio_js. rewrite gets_bind.
  case_decide; [|by eexists]. case_decide; [|by eexists].
  destruct dataId as [comidaId|]; [|by eexists]. destruct (truthy comidaId); [|by eexists].
  unfold ajeno in Ha. unfold seleccionarComida_inicio_js.
  rewrite run_bind, obtenerComidas_js_run.
  destruct (result obtenerComidas_js e) as [v|x]; [|by eexists].
  rewrite run_bind, metodo_de_array_ajeno by done. by eexists.
Qed.

(** An action of a tab that is not blocked: the tab is not blocked after
    it, and only its page can have changed. *)
Lemma actuar_js_ajeno a q :
  ajeno (entorno_js q) → esperando_js q = None →
  esperando_js (actuar_js html a q) = None
  ∧ solo_pagina (entorno_js q) (entorno_js (actuar_js html a q)).
Proof.
  intros Ha Hesp. unfold actuar_js. rewrite Hesp.
  destruct a as [ev|tagName dataId|respuesta]; [|
    |by split; [done|apply solo_pagina_refl]].
  - split; [done|]. by apply ocurre_js_ajeno.
  - destruct (onClickLista_inicio_js_ajeno tagName dataId _ Ha) as (res & -> & Hres).
    split; [done|apply solo_pagina_refl].
Qed.

(** The tab that looks at a store that is not a list, after any action. *)
Lemma actuar_js_enfocar_ajeno a r q dialogos :
  red_ajena r → esperando_js q = None → ui (entorno_js q) ∈ [] :: dialogos →
  let q' := actuar_js html a (enfocar_js (compartido_js r) q) in
  localStorage (entorno_js q') = compartido_js r ∧ esperando_js q' = None
  ∧ ui (entorno_js q') ∈ [] :: dialogos.
Proof.
  intros Ha Hesp Hui q'. subst q'.
  destruct (actuar_js_ajeno a (enfocar_js (compartido_js r) q)) as (Hesp' & Hls & _ & Hui');
    [by eapply ajeno_ext, Ha|done|].
  split_and!; [by rewrite Hls|done|by rewrite Hui'].
Qed.

(** What every step keeps, over a store that is not a list. *)
Definition quieta_ajena (almacen : Storage) dialogos r : Prop :=
  compartido_js r = almacen ∧ sin_prompts r ∧ callada dialogos r.

Lemma hacer_js_ajena i a r almacen dialogos :
  red_ajena r → quieta_ajena almacen dialogos r →
  quieta_ajena almacen dialogos (hacer_js html i a r).
Proof.
  intros Ha (Hc & Hesp & Hui). unfold hacer_js.
  destruct (pestanas_js r !! i) as [q|] eqn:Hi; [|done].
  destruct (actuar_js_enfocar_ajeno a r q dialogos Ha) as (Hls & Hesp' & Hui');
    [exact (Forall_lookup_1 _ _ _ _ Hesp Hi)|exact (Forall_lookup_1 _ _ _ _ Hui Hi)|].
  split_and!; [by rewrite <-Hc|by apply Forall_insert..].
Qed.

Lemma entregar_js_ajena j r almacen dialogos :
  red_ajena r → quieta_ajena almacen dialogos r →
  quieta_ajena almacen dialogos (entregar_js html j r).
Proof.
  intros Ha (Hc & Hesp & Hui). unfold entregar_js.
  destruct (avisos_js r !! j) as [[|n]|]; [done| |done].
  destruct (pestanas_js r !! j) as [q|] eqn:Hj; [|done].
  rewrite (Forall_lookup_1 _ _ _ _ Hesp Hj).
  destruct (actuar_js_enfocar_ajeno (Atomica CambioStorage) r q dialogos Ha)
    as (Hls & Hesp' & Hui');
    [exact (Forall_lookup_1 _ _ _ _ Hesp Hj)|exact (Forall_lookup_1 _ _ _ _ Hui Hj)|].
  split_and!; [by rewrite <-Hc|by apply Forall_insert..].
Qed.

Lemma dar_js_ajena s r almacen dialogos :
  red_ajena r → quieta_ajena almacen dialogos r →
  quieta_ajena almacen dialogos (dar_js html s r).
Proof.
  destruct s as [[i a|t c|j]|j]; cbn [dar_js]; intros Ha Hq.
  - by apply hacer_js_ajena.
  - destruct Hq as (Hc & Hesp & Hui). split_and!; [done|..]; apply Forall_app.
    + by split; [|apply Forall_singleton].
    + split; [done|]. apply Forall_singleton, list_elem_of_here.
  - destruct Hq as (Hc & Hesp & Hui). by split_and!; [|apply Forall_delete..].
  - by apply entregar_js_ajena.
Qed.

Lemma recorrer_js_ajena plan r almacen dialogos :
  red_ajena r → quieta_ajena almacen dialogos r →
  quieta_ajena almacen dialogos (recorrer_js html plan r).
Proof.
  revert r. induction plan as [|s plan IH]; intros r Ha Hq; [done|].
  cbn [recorrer_js foldl]. pose proof (dar_js_ajena s r almacen dialogos Ha Hq) as Hq'.
  apply IH; [|done]. unfold red_ajena. destruct Hq as (Hc & _), Hq' as (Hc' & _).
  by rewrite Hc', <-Hc.
Qed.

End ajena.

(** ** Properties *)

Section properties.
Context `{!Numeros}.
Context (html : Dom).
Implicit Types (p : Pestana) (r : Red) (a : Accion) (i j n : nat).
Implicit Types (l : list Comida).

(** C16.  The tabs over lists of meals are the tabs of the script: from a net
    in order, under every schedule of actions, deliveries, tabs opened and
    tabs closed, prompts left open included, the net whose tabs run the
    handlers on whatever [JSON.parse] returns is in the state the net over
    lists of meals is in, seen as JSON values, and the handler of any next
    action completes the same way in both, in any tab that looks at the
    shared store; for every interpretation of numbers. *)
Theorem red_tipada plan r l :
  red_ok html r l →
  recorrer_js html plan (ver_red r) = ver_red (recorrer html plan r)
  ∧ ∀ p a,
      resultado_js html a (enfocar_js (compartido (mundo (recorrer html plan r))) (ver p))
      = resultado html a (enfocar (mundo (recorrer html plan r)) p).
Proof.
  intros Hok. split; [by eapply recorrer_js_ver|]. intros p a.
  destruct (recorrer_ok html plan r l Hok) as (l' & Hok').
  by apply (resultado_js_ver html a (enfocar _ p)), (tipado_enfocar html _ l').
Qed.

(** C19.  No tab of the script goes wrong, under any schedule: from a net in
    order, whatever the tabs do, in whatever order, with prompts left open
    while other tabs write, with tabs opened and closed, the shared store
    holds the JSON value of a well-formed list of meals, and the handler of
    any next action of any tab, run on the value [JSON.parse] returns, ends
    normally or with the [QuotaExceededError] of a full store: no
    [TypeError] from a property read, a method call or the index kept
    across the prompt, no [SyntaxError]. *)
Theorem red_js_segura plan r l :
  red_ok html r l →
  let r' := recorrer_js html plan (ver_red r) in
  (∃ l', guarda_js html r' (json_of_comidas l') ∧ comidas_wf l')
  ∧ ∀ i q a, pestanas_js r' !! i = Some q →
      completa (entorno_js q) (resultado_js html a (enfocar_js (compartido_js r') q)).
Proof.
  intros Hok r'. subst r'. rewrite (recorrer_js_ver html plan r l Hok).
  destruct (recorrer_ok html plan r l Hok) as (l' & Hok').
  split; [exists l'; split; [apply guarda_js_ver|]; apply Hok'|].
  intros i q a (p & -> & Hi)%list_lookup_fmap_Some.
  change (enfocar_js _ (ver p)) with (ver (enfocar (mundo (recorrer html plan r)) p)).
  rewrite resultado_js_ver by apply (tipado_enfocar html _ l' _ Hok').
  by apply (red_ok_completa html _ l' i).
Qed.

(** Convergence of the tabs of the script: after any schedule, if no tab
    is blocked at a prompt, every schedule of deliveries that leaves
    nothing waiting ends in a net where nothing is waiting, the shared
    store is unchanged and every loaded tab shows the shared list. *)
Theorem convergencia_js plan js r l :
  red_ok html r l →
  let r1 := recorrer_js html plan (ver_red r) in
  Forall (λ q, esperando_js q = None) (pestanas_js r1) →
  entrega_todo js (avisos_js r1) →
  let r2 := recorrer_js html (Entregar <$> js) r1 in
  compartido_js r2 = compartido_js r1 ∧ Forall (λ n, n = 0) (avisos_js r2)
  ∧ ∃ l', guarda_js html r2 (json_of_comidas l')
      ∧ ∀ j q, pestanas_js r2 !! j = Some q → OyenteStorage ∈ oyentes (entorno_js q) →
          muestra (entorno_js q) l'.
Proof.
  intros Hok r1. subst r1. rewrite (recorrer_js_ver html plan r l Hok).
  destruct (recorrer_ok html plan r l Hok) as (l' & Hok'). intros Hlibres Htodo.
  rewrite (recorrer_js_ver html _ _ l' Hok').
  destruct (entregas_convergen html js _ l' Hok') as (Hok2 & Hc & Hq); [|done|].
  { apply Forall_fmap in Hlibres. eapply Forall_impl; [exact Hlibres|].
    intros p. unfold ver. simpl. by destruct (esperando p) as [[? ?]|]. }
  split_and!; [done|apply Hq|]. exists l'. split; [apply guarda_js_ver, Hok2|].
  intros j q (p & -> & Hj)%list_lookup_fmap_Some Ho.
  by apply (quieta_muestran html _ l' Hok2 Hq j p).
Qed.

(** C21.  No number of tabs repairs a store that is not a list: when the
    shared store holds a text that is not JSON, or a JSON value that is
    not an array, and no tab is blocked at a prompt, then under every
    schedule of actions, deliveries, tabs opened and tabs closed no tab
    writes the store, no tab gets to the prompt and no tab shows a dialog:
    every tab has shown what a tab had shown at the start, or nothing. *)
Theorem red_ajena_permanece plan (r : Red_js) :
  red_ajena html r → sin_prompts r →
  let r' := recorrer_js html plan r in
  compartido_js r' = compartido_js r ∧ red_ajena html r' ∧ sin_prompts r'
  ∧ callada ((ui ∘ entorno_js) <$> pestanas_js r) r'.
Proof.
  intros Ha Hesp r'. subst r'.
  destruct (recorrer_js_ajena html plan r (compartido_js r)
              ((ui ∘ entorno_js) <$> pestanas_js r) Ha) as (Hc & Hesp' & Hui').
  { split_and!; [done..|]. apply Forall_forall. intros q Hq.
    by apply list_elem_of_further, (list_elem_of_fmap_2 (ui ∘ entorno_js)). }
  split_and!; [done| |done..]. unfold red_ajena. by rewrite Hc.
Qed.

End properties.

(** ** Witnesses and schedules *)

Section witnesses.
#[local] Existing Instance numeros_enteros.

(** Both tabs load the page and the first adds Tacos; a third tab is
    opened and loads the page; the first opens the prompt on Tacos and is
    closed before it is answered. *)
Definition plan_abre_cierra : list Paso :=
  plan_agrega
  ++ [Hacer (Abrir 1700000000005 None); Hacer (Actuar 2 (Atomica Cargar));
      Hacer (Actuar 0 (AbrirPrompt boton (Some (id tacos)))); Hacer (Cerrar 0)].

Lemma red_tipada_witness :
  recorrer_js html0 plan_abre_cierra (ver_red red0)
  = ver_red (recorrer html0 plan_abre_cierra red0)
  ∧ ∀ p a,
      resultado_js html0 a
        (enfocar_js (compartido (mundo (recorrer html0 plan_abre_cierra red0))) (ver p))
      = resultado html0 a (enfocar (mundo (recorrer html0 plan_abre_cierra red0)) p).
Proof. apply (red_tipada html0 plan_abre_cierra red0 [] red0_ok). Defined.

Lemma red_js_segura_witness :
  let r' := recorrer_js html0 plan_abre_cierra (ver_red red0) in
  (∃ l', guarda_js html0 r' (json_of_comidas l') ∧ comidas_wf l')
  ∧ ∀ i q a, pestanas_js r' !! i = Some q →
      completa (entorno_js q) (resultado_js html0 a (enfocar_js (compartido_js r') q)).
Proof. apply (red_js_segura html0 plan_abre_cierra red0 [] red0_ok). Defined.

Lemma convergencia_js_witness :
  let r1 := recorrer_js html0 plan_abre_cierra (ver_red red0) in
  let r2 := recorrer_js html0 (Entregar <$> drenaje (avisos_js r1)) r1 in
  compartido_js r2 = compartido_js r1 ∧ Forall (λ n, n = 0) (avisos_js r2)
  ∧ ∃ l', guarda_js html0 r2 (json_of_comidas l')
      ∧ ∀ j q, pestanas_js r2 !! j = Some q → OyenteStorage ∈ oyentes (entorno_js q) →
          muestra (entorno_js q) l'.
Proof.
  apply (convergencia_js html0 plan_abre_cierra
           (drenaje (avisos_js (recorrer_js html0 plan_abre_cierra (ver_red red0))))
           red0 [] red0_ok).
  - apply (bool_decide_unpack _). by vm_compute.
  - apply drenaje_entrega_todo.
Defined.

(** The schedule, step by step: the tab opened later shows Tacos once it
    has loaded; closing the first tab renumbers the others and drops the
    prompt it had open, so the store is never written from the copy it
    held; the event queued for the tab that was second is still waiting,
    and its page shows Tacos once it is delivered. *)
Example abre_y_cierra :
  let r1 := recorrer_js html0 plan_abre_cierra (ver_red red0) in
  let r2 := dar_js html0 (Entregar 0) r1 in
  let pagina r := (lista_comidas ∘ dom ∘ entorno_js) <$> pestanas_js r in
  guarda_js html0 r1 (json_of_comidas [tacos])
  ∧ esperando_js <$> pestanas_js r1 = [None; None] ∧ avisos_js r1 = [1; 0]
  ∧ pagina r1 = [[]; [crearItem tacos]]
  ∧ avisos_js r2 = [0; 0] ∧ pagina r2 = [[crearItem tacos]; [crearItem tacos]].
Proof. by vm_compute. Qed.

(** Two tabs over a store that holds [null]. *)
Definition red_null : Red_js :=
  mkRed_js (localStorage env_null) [mkPestana_js env_null None; mkPestana_js env_null None]
    [0; 0].

(** Both tabs load the page; the first types a name and clicks; a third
    tab is opened, loads and clicks a button; the second is told to
    repaint. *)
Definition plan_null : list Paso :=
  [Hacer (Actuar 0 (Atomica Cargar)); Hacer (Actuar 1 (Atomica Cargar));
   Hacer (Actuar 0 (Atomica (Escribir (lit "Tacos")))); Hacer (Actuar 0 (Atomica ClickAgregar));
   Hacer (Abrir 1700000000005 None); Hacer (Actuar 2 (Atomica Cargar));
   Hacer (Actuar 2 (AbrirPrompt boton (Some (id tacos)))); Entregar 1].

Lemma red_ajena_permanece_witness :
  let r' := recorrer_js html0 plan_null red_null in
  compartido_js r' = localStorage env_null ∧ red_ajena html0 r' ∧ sin_prompts r'
  ∧ callada [[]; []] r'.
Proof.
  apply (red_ajena_permanece html0 plan_null red_null); [by vm_compute|by repeat constructor].
Defined.

(** A tab that was blocked at a prompt when the store became something
    else does write it: the answer puts the copy the tab holds, with the
    claim, in the place of whatever the store holds. *)
Example prompt_abierto_repara :
  let r := mkRed_js (localStorage env_null)
             [mkPestana_js env_null (Some ([json_of_comida tacos], 0))] [0] in
  red_ajena html0 r
  ∧ guarda_js html0 (dar_js html0 (Hacer (Actuar 0 (Responder (Some (lit "Ana"))))) r)
      (json_of_comidas [tacos_de "Ana"]).
Proof. split; by vm_compute. Qed.

End witnesses.
