(* ===== verification/Programa.v ===== *)
(** * The handlers as programs over the platform

    The functions of src/scripts.js a last time, as programs: trees of
    calls to the platform ([localStorage], [sessionStorage], the elements
    of the page, the dialogs, the clock), each with the continuation that
    receives its result.  A program says what the script does and in which
    order, and nothing about what the platform answers.  [interpretar]
    runs a program on the browser of [Browser]; run there, every program
    is the handler of [Dinamico], so the theorems about states are
    theorems about these programs.  [trazar] runs a program on any
    platform and keeps what happened to each call, in order; [Trazas]
    states the order. *)

From S2P Require Import Prelude JsString Comida Json Browser Valor.
From S2P Require Import Store Mailbox Render Contrato Seleccion Eventos Dinamico.
#[local] Open Scope js_scope.

(** ** Calls and programs *)

(** A call to the platform.  [Pregunta] carries the answer the user gives,
    as the events of [Eventos] do. *)
Inductive Llamada :=
| LocalGet (key : jsstring)
| LocalSet (key value : jsstring)
| SesionGet (key : jsstring)
| SesionSet (key value : jsstring)
| SesionRemove (key : jsstring)
| Alerta (mensaje : jsstring)
| Pregunta (pregunta : jsstring) (respuesta : option jsstring)
| Ahora
| InputGet
| InputSet (s : jsstring)
| ListaClear
| ListaAppend (item : Elemento)
| TotalSet (n : nat)
| RestantesSet (n : nat)
| Escuchar (o : Oyente).

#[global] Instance Llamada_eq_dec : EqDecision Llamada.
Proof. solve_decision. Defined.

(** What a call returns. *)
Definition respuesta_de (c : Llamada) : Type :=
  match c with
  | LocalGet _ | SesionGet _ | Pregunta _ _ => option jsstring
  | Ahora => N
  | InputGet => jsstring
  | _ => unit
  end.

(** What happened to a call: it returned [r], or it threw [x]. *)
Inductive Suceso :=
| Hecho (c : Llamada) (r : respuesta_de c)
| Fallo (c : Llamada) (x : exn).

Definition llamada_de (h : Suceso) : Llamada :=
  match h with Hecho c _ | Fallo c _ => c end.

(** A program: it returns, it throws, or it calls the platform and goes on
    with the result. *)
Inductive Prog (A : Type) :=
| Ret (a : A)
| Lanza (x : exn)
| Llama (c : Llamada) (k : respuesta_de c → Prog A).
Arguments Ret {A} a.
Arguments Lanza {A} x.
Arguments Llama {A} c k.

Fixpoint ligar {A B} (f : A → Prog B) (p : Prog A) : Prog B :=
  match p with
  | Ret a => f a
  | Lanza x => Lanza x
  | Llama c k => Llama c (λ r, ligar f (k r))
  end.

#[global] Instance Prog_ret : MRet Prog := @Ret.
#[global] Instance Prog_bind : MBind Prog := @ligar.

(** The program of one call. *)
Definition llamar (c : Llamada) : Prog (respuesta_de c) := Llama c Ret.

(** [array.forEach(f)]. *)
Fixpoint forEach_p {A} (l : list A) (f : A → Prog unit) : Prog unit :=
  match l with
  | [] => mret tt
  | x :: l' => f x ;; forEach_p l' f
  end.

(** ** The script *)

Section programas.
Context `{!Numeros}.
Implicit Types (comidas v : json) (elementos : list json) (c comida : json).
Implicit Types (comidaId s : jsstring) (i comidaIndex : nat).

(** [JSON.parse(text)] (line 13). *)
Definition JSON_parse_p (text : jsstring) : Prog json :=
  match parse_text text with
  | POk j => mret (crear j)
  | PErr | PFuel => Lanza ExnSyntaxError
  end.

(** A step that throws [TypeError] when it has no result. *)
Definition lanzar_p {A} (r : option A) : Prog A :=
  match r with Some a => mret a | None => Lanza ExnTypeError end.

(** The receiver of a method of [Array.prototype] (lines 32, 46, 88,
    104). *)
Definition metodo_de_array_p comidas : Prog (list json) :=
  match comidas with
  | JArray elementos => mret elementos
  | _ => Lanza ExnTypeError
  end.

(** [obtenerComidas()] (lines 11-14). *)
Definition obtenerComidas_p : Prog json :=
  comidasJson ← llamar (LocalGet STORAGE_KEY);
  match comidasJson with
  | Some text => if truthy text then JSON_parse_p text else mret (JArray [])
  | None => mret (JArray [])
  end.

(** [guardarComidas(comidas)] (lines 20-22). *)
Definition guardarComidas_p comidas : Prog unit :=
  llamar (LocalSet STORAGE_KEY (JSON_stringify_valor comidas)).

(** [actualizarContador(comidas)] (lines 30-36). *)
Definition actualizarContador_p comidas : Prog unit :=
  elementos ← metodo_de_array_p comidas;
  let total := length elementos in
  libres ← lanzar_p (filtrar sin_elegir elementos);
  let restantes := length libres in
  llamar (TotalSet total) ;;
  llamar (RestantesSet restantes).

(** [checkNotification()] (lines 131-137). *)
Definition checkNotification_p : Prog unit :=
  mensaje ← llamar (SesionGet NOTIFICATION_KEY);
  match mensaje with
  | Some texto =>
    if truthy texto then
      llamar (Alerta texto) ;;
      llamar (SesionRemove NOTIFICATION_KEY)
    else mret tt
  | None => mret tt
  end.

(** [renderizarComidas()] (lines 41-72). *)
Definition renderizarComidas_p : Prog unit :=
  comidas ← obtenerComidas_p;
  llamar ListaClear ;;
  elementos ← metodo_de_array_p comidas;
  forEach_p elementos (λ comida,
    item ← lanzar_p (crearItem_js comida); llamar (ListaAppend item)) ;;
  actualizarContador_p comidas ;;
  checkNotification_p.

(** [agregarComida()] (lines 80-96). *)
Definition agregarComida_p : Prog unit :=
  valor ← llamar InputGet;
  let nombre := trim valor in
  if truthy nombre then
    comidas ← obtenerComidas_p;
    ahora ← llamar Ahora;
    let nuevaComida := json_of_comida (nuevaComida ahora nombre) in
    elementos ← metodo_de_array_p comidas;
    let comidas := JArray (elementos ++ [nuevaComida]) in
    guardarComidas_p comidas ;;
    llamar (InputSet []) ;;
    renderizarComidas_p
  else mret tt.

(** [seleccionarComida], lines 103-108 and the [else] of lines 123-125: up
    to the prompt. *)
Definition seleccionarComida_inicio_p comidaId : Prog (option (list json * nat)) :=
  comidas ← obtenerComidas_p;
  elementos ← metodo_de_array_p comidas;
  comidaIndex ← lanzar_p (buscar (tiene_id comidaId) elementos);
  match comidaIndex with
  | Some i =>
    libre ← lanzar_p (elementos !! i ≫= sin_elegir);
    if libre : bool then mret (Some (elementos, i))
    else llamar (Alerta AVISO_YA_SELECCIONADA) ;; mret None
  | None => llamar (Alerta AVISO_YA_SELECCIONADA) ;; mret None
  end.

(** [seleccionarComida], lines 110-122: from the return of [prompt]. *)
Definition seleccionarComida_fin_p elementos comidaIndex
    (nombreUsuario : option jsstring) : Prog unit :=
  match nombre_aceptado nombreUsuario with
  | Some nombreLimpio =>
    comida ← lanzar_p
      (elementos !! comidaIndex ≫= Set_ key_seleccionadoPor (JString nombreLimpio));
    let elementos := <[comidaIndex := comida]> elementos in
    guardarComidas_p (JArray elementos) ;;
    nombreComida ← lanzar_p (Get key_nombre comida ≫= ToString);
    llamar (SesionSet NOTIFICATION_KEY (mensaje_aviso nombreLimpio nombreComida)) ;;
    renderizarComidas_p
  | None => llamar (Alerta AVISO_SIN_NOMBRE)
  end.

(** [seleccionarComida(comidaId)] (lines 102-126). *)
Definition seleccionarComida_p comidaId (respuesta : option jsstring) : Prog unit :=
  abierto ← seleccionarComida_inicio_p comidaId;
  match abierto with
  | Some (elementos, comidaIndex) =>
    nombreUsuario ← llamar (Pregunta PREGUNTA_NOMBRE respuesta);
    seleccionarComida_fin_p elementos comidaIndex nombreUsuario
  | None => mret tt
  end.

(** The handler of [window.onload] (lines 143-165). *)
Definition onload_p : Prog unit :=
  renderizarComidas_p ;;
  llamar (Escuchar OyenteAgregar) ;;
  llamar (Escuchar OyenteLista) ;;
  llamar (Escuchar OyenteStorage).

(** The click listener of [#lista-comidas] (lines 150-157). *)
Definition onClickLista_p (tagName : jsstring) (dataId : option jsstring)
    (respuesta : option jsstring) : Prog unit :=
  if decide (tagName = lit "BUTTON") then
    match dataId with
    | Some comidaId =>
      if truthy comidaId then seleccionarComida_p comidaId respuesta else mret tt
    | None => mret tt
    end
  else mret tt.

(** The program an event starts, when its listener is registered; typing
    and the clock start none. *)
Definition programa (ev : Evento) : option (Prog unit) :=
  match ev with
  | Cargar => Some onload_p
  | ClickAgregar => Some agregarComida_p
  | ClickLista tagName dataId respuesta => Some (onClickLista_p tagName dataId respuesta)
  | CambioStorage => Some renderizarComidas_p
  | Escribir _ | Reloj _ => None
  end.

End programas.

(** ** Platforms *)

(** A platform answers calls: from a state, a call returns its result or
    throws, and leaves a state. *)
Class Plataforma (St : Type) : Type :=
  atender : ∀ c : Llamada, St → completion (respuesta_de c) * St.

(** The browser of [Browser]. *)
#[global] Instance navegador : Plataforma Env := λ c,
  match c with
  | LocalGet key => localStorage_getItem key
  | LocalSet key value => localStorage_setItem key value
  | SesionGet key => sessionStorage_getItem key
  | SesionSet key value => sessionStorage_setItem key value
  | SesionRemove key => sessionStorage_removeItem key
  | Alerta mensaje => alert mensaje
  | Pregunta pregunta respuesta => prompt pregunta respuesta
  | Ahora => Date_now
  | InputGet => input_value
  | InputSet s => set_input_value s
  | ListaClear => lista_clear
  | ListaAppend item => lista_appendChild item
  | TotalSet n => set_textContent_total n
  | RestantesSet n => set_textContent_restantes n
  | Escuchar o => addEventListener o
  end.

Section ejecucion.
Context {St : Type} `{!Plataforma St}.

(** A run of a program on a platform: how it completes, the state it
    leaves, and the calls it made with what each returned, in order.  A
    call that throws ends the run. *)
Fixpoint trazar {A} (p : Prog A) (s : St) : completion A * St * list Suceso :=
  match p with
  | Ret a => (Normal a, s, [])
  | Lanza x => (Abrupt x, s, [])
  | Llama c k =>
    match atender c s with
    | (Normal r, s') =>
      let '(res, s'', tr) := trazar (k r) s' in (res, s'', Hecho c r :: tr)
    | (Abrupt x, s') => (Abrupt x, s', [Fallo c x])
    end
  end.

(** The calls of a run. *)
Definition traza {A} (p : Prog A) (s : St) : list Llamada :=
  llamada_de <$> (trazar p s).2.

End ejecucion.

(** A run on the browser, as a computation of [JS]. *)
Fixpoint interpretar {A} (p : Prog A) : JS A :=
  match p with
  | Ret a => mret a
  | Lanza x => throw x
  | Llama c k => r ← atender c; interpretar (k r)
  end.

(** ** Running programs *)

Section interpretar.
Context {A B : Type}.
Implicit Types (p : Prog A) (f : A → Prog B) (e : Env).

Lemma interpretar_ligar p f e :
  interpretar (p ≫= f) e = (interpretar p ≫= λ a, interpretar (f a)) e.
Proof.
  revert e. induction p as [a|x|c k IH]; intros e; [done..|].
  change (interpretar (Llama c k ≫= f)) with (r ← atender c; interpretar (k r ≫= f)).
  cbn [interpretar]. rewrite !run_bind. destruct (atender c e) as [[r|x] e']; [|done].
  apply IH.
Qed.

(** A program bound to a continuation runs as the handler bound to the
    continuation, when both parts do. *)
Lemma interpretar_ligar_eq p f (h : JS A) (g : A → JS B) e :
  (∀ e, interpretar p e = h e) → (∀ a e, interpretar (f a) e = g a e) →
  interpretar (p ≫= f) e = (h ≫= g) e.
Proof.
  intros Hp Hf. rewrite interpretar_ligar, !run_bind, Hp.
  destruct (h e) as [[a|x] e']; [apply Hf|done].
Qed.

(** The run that keeps the calls is the run. *)
Lemma trazar_interpretar p e : (trazar p e).1 = interpretar p e.
Proof.
  revert e. induction p as [a|x|c k IH]; intros e; [done..|].
  cbn [trazar interpretar]. rewrite run_bind. destruct (atender c e) as [[r|x] e']; [|done].
  rewrite <-IH. by destruct (trazar (k r) e') as [[res e''] tr].
Qed.

End interpretar.

(** One call runs as the platform answers it. *)
Lemma interpretar_llamada (c : Llamada) e : interpretar (llamar c) e = atender c e.
Proof.
  cbn [interpretar llamar]. rewrite run_bind. by destruct (atender c e) as [[r|x] e'].
Qed.

(** Closes a goal that says how one call runs. *)
Ltac una_llamada :=
  lazymatch goal with
  | |- interpretar (llamar ?c) ?e = _ => exact (interpretar_llamada c e)
  end.

(** A call bound to a continuation. *)
Lemma interpretar_llamar {B} (c : Llamada) (f : respuesta_de c → Prog B)
    (g : respuesta_de c → JS B) e :
  (∀ r e, interpretar (f r) e = g r e) →
  interpretar (llamar c ≫= f) e = (atender c ≫= g) e.
Proof. intros Hf. apply interpretar_ligar_eq; [apply interpretar_llamada|done]. Qed.

(** ** The programs are the handlers *)

Section iguales.
Context `{!Numeros}.
Implicit Types (e : Env) (v comidas : json) (elementos : list json).

Lemma interpretar_JSON_parse text e :
  interpretar (JSON_parse_p text) e = JSON_parse_valor text e.
Proof. unfold JSON_parse_p, JSON_parse_valor. by destruct (parse_text text). Qed.

Lemma interpretar_lanzar {A} (r : option A) e : interpretar (lanzar_p r) e = lanzar r e.
Proof. by destruct r. Qed.

Lemma interpretar_metodo_de_array comidas e :
  interpretar (metodo_de_array_p comidas) e = metodo_de_array comidas e.
Proof. by destruct comidas. Qed.

Lemma interpretar_obtenerComidas e : interpretar obtenerComidas_p e = obtenerComidas_js e.
Proof.
  apply interpretar_llamar. intros [text|] e'; [|done].
  destruct (truthy text); [apply interpretar_JSON_parse|done].
Qed.

Lemma interpretar_guardarComidas comidas e :
  interpretar (guardarComidas_p comidas) e = guardarComidas_js comidas e.
Proof. exact (interpretar_llamada (LocalSet STORAGE_KEY _) e). Qed.

Lemma interpretar_actualizarContador comidas e :
  interpretar (actualizarContador_p comidas) e = actualizarContador_js comidas e.
Proof.
  apply interpretar_ligar_eq; [apply interpretar_metodo_de_array|]. intros elementos e'.
  apply interpretar_ligar_eq; [apply interpretar_lanzar|]. intros libres e''.
  apply interpretar_llamar. intros [] e3. una_llamada.
Qed.

Lemma interpretar_checkNotification e :
  interpretar checkNotification_p e = checkNotification e.
Proof.
  apply interpretar_llamar. intros [texto|] e'; [|done]. destruct (truthy texto); [|done].
  apply interpretar_llamar. intros [] e''. una_llamada.
Qed.

Lemma interpretar_forEach elementos e :
  interpretar (forEach_p elementos (λ comida,
            item ← lanzar_p (crearItem_js comida); llamar (ListaAppend item))) e
  = forEach elementos (λ comida,
      item ← lanzar (crearItem_js comida); lista_appendChild item) e.
Proof.
  revert e. induction elementos as [|comida resto IH]; intros e; [done|].
  cbn [forEach_p forEach]. apply interpretar_ligar_eq; [|intros [] e'; apply IH].
  intros e'. apply interpretar_ligar_eq; [apply interpretar_lanzar|]. intros item e''.
  una_llamada.
Qed.

Lemma interpretar_renderizarComidas e :
  interpretar renderizarComidas_p e = renderizarComidas_js e.
Proof.
  apply interpretar_ligar_eq; [apply interpretar_obtenerComidas|]. intros comidas e1.
  apply interpretar_llamar. intros [] e2.
  apply interpretar_ligar_eq; [apply interpretar_metodo_de_array|]. intros elementos e3.
  apply interpretar_ligar_eq; [apply interpretar_forEach|]. intros [] e4.
  apply interpretar_ligar_eq; [apply interpretar_actualizarContador|]. intros [] e5.
  apply interpretar_checkNotification.
Qed.

Lemma interpretar_agregarComida e : interpretar agregarComida_p e = agregarComida_js e.
Proof.
  apply interpretar_llamar. intros valor e1. cbv zeta.
  destruct (truthy (trim valor)); [|done].
  apply interpretar_ligar_eq; [apply interpretar_obtenerComidas|]. intros comidas e2.
  apply interpretar_llamar. intros ahora e3.
  apply interpretar_ligar_eq; [apply interpretar_metodo_de_array|]. intros elementos e4.
  apply interpretar_ligar_eq; [apply interpretar_guardarComidas|]. intros [] e5.
  apply interpretar_llamar. intros [] e6. apply interpretar_renderizarComidas.
Qed.

Lemma interpretar_seleccionarComida_inicio comidaId e :
  interpretar (seleccionarComida_inicio_p comidaId) e
  = seleccionarComida_inicio_js comidaId e.
Proof.
  apply interpretar_ligar_eq; [apply interpretar_obtenerComidas|]. intros comidas e1.
  apply interpretar_ligar_eq; [apply interpretar_metodo_de_array|]. intros elementos e2.
  apply interpretar_ligar_eq; [apply interpretar_lanzar|]. intros [i|] e3.
  - apply interpretar_ligar_eq; [apply interpretar_lanzar|]. intros [|] e4; [done|].
    by apply interpretar_llamar.
  - by apply interpretar_llamar.
Qed.

Lemma interpretar_seleccionarComida_fin elementos i nombreUsuario e :
  interpretar (seleccionarComida_fin_p elementos i nombreUsuario) e
  = seleccionarComida_fin_js elementos i nombreUsuario e.
Proof.
  unfold seleccionarComida_fin_p, seleccionarComida_fin_js.
  destruct (nombre_aceptado nombreUsuario) as [nombreLimpio|].
  - apply interpretar_ligar_eq; [apply interpretar_lanzar|]. intros comida e1.
    apply interpretar_ligar_eq; [apply interpretar_guardarComidas|]. intros [] e2.
    apply interpretar_ligar_eq; [apply interpretar_lanzar|]. intros nombreComida e3.
    apply interpretar_llamar. intros [] e4. apply interpretar_renderizarComidas.
  - una_llamada.
Qed.

Lemma interpretar_seleccionarComida comidaId respuesta e :
  interpretar (seleccionarComida_p comidaId respuesta) e
  = seleccionarComida_js comidaId respuesta e.
Proof.
  apply interpretar_ligar_eq; [apply interpretar_seleccionarComida_inicio|].
  intros [[elementos i]|] e1; [|done].
  apply interpretar_llamar. intros nombreUsuario e2.
  apply interpretar_seleccionarComida_fin.
Qed.

Lemma interpretar_onClickLista tagName dataId respuesta e :
  interpretar (onClickLista_p tagName dataId respuesta) e
  = onClickLista_js tagName dataId respuesta e.
Proof.
  unfold onClickLista_p, onClickLista_js. case_decide; [|done].
  destruct dataId as [comidaId|]; [|done]. destruct (truthy comidaId); [|done].
  apply interpretar_seleccionarComida.
Qed.

Lemma interpretar_onload e : interpretar onload_p e = onload_js e.
Proof.
  apply interpretar_ligar_eq; [apply interpretar_renderizarComidas|]. intros [] e1.
  apply interpretar_llamar. intros [] e2. apply interpretar_llamar. intros [] e3.
  una_llamada.
Qed.

End iguales.

(** ** The event loop *)

Section bucle.
Context `{!Numeros}.
Context (html : Dom).
Implicit Types (e : Env) (ev : Evento) (p : Prog unit).

(** The listener an event is dispatched to; [window.onload] is run by the
    platform itself. *)
Definition oyente_de ev : option Oyente :=
  match ev with
  | ClickAgregar => Some OyenteAgregar
  | ClickLista _ _ _ => Some OyenteLista
  | CambioStorage => Some OyenteStorage
  | Cargar | Escribir _ | Reloj _ => None
  end.

(** The state a program of an event starts in: a load starts from the
    document as served. *)
Definition arranque ev e : Env :=
  match ev with Cargar => documento_nuevo html e | _ => e end.

(** The handler of an event is its program, run when its listener is
    registered. *)
Lemma manejador_programa ev p e :
  programa ev = Some p →
  manejador html ev e
  = match oyente_de ev with
    | Some o => despachar o (interpretar p) e
    | None => interpretar p (arranque ev e)
    end.
Proof.
  destruct ev as [|valor|t| |tagName dataId r|]; intros [= <-];
    cbn [manejador oyente_de arranque].
  - symmetry. apply interpretar_onload.
  - apply despachar_ext. symmetry. apply interpretar_agregarComida.
  - apply despachar_ext. symmetry. apply interpretar_onClickLista.
  - apply despachar_ext. symmetry. apply interpretar_renderizarComidas.
Qed.

End bucle.
