(* ===== verification/Trazas.v ===== *)
(** * The order of the calls

    What the traces of the programs of [Programa] look like, on every
    platform.  [siempre p Q] says that [Q] holds of the way [p] completes
    and of the calls it made, however the platform answers.
    [transicion] is the protocol of the script, an automaton over the
    calls whose phases are the points of a handler between two calls;
    [sigue] is the triple that composes along the programs, [deja] the
    one that says which calls a run that returns has made.  Every trace
    of every listener is a path of the automaton, and the facts about
    order (the store is written at most once and before the page is
    cleared, the page is painted from a second read, the answer of
    [prompt] is written without another read) are facts about its
    paths. *)

From S2P Require Import Prelude JsString Comida Json Browser Valor.
From S2P Require Import Store Mailbox Render Contrato Seleccion Eventos Dinamico.
From S2P Require Import Programa.
#[local] Open Scope js_scope.

(** ** What holds of every run *)

(** [siempre p Q]: whatever each call returns, and wherever a call throws,
    [Q] holds of the completion of [p] and of what happened to the calls
    made. *)
Fixpoint siempre {A} (p : Prog A) (Q : completion A → list Suceso → Prop) : Prop :=
  match p with
  | Ret a => Q (Normal a) []
  | Lanza x => Q (Abrupt x) []
  | Llama c k =>
    (∀ x, Q (Abrupt x) [Fallo c x])
    ∧ ∀ r, siempre (k r) (λ res tr, Q res (Hecho c r :: tr))
  end.

(** ** The protocol *)

(** The phases of a handler. *)
Inductive Fase :=
| Inicio | Tecleado | Consultado | Fechado | Agregado
| Leido | Rechazado | Preguntado | Reclamado
| Guardado | Releido | Pintando | ConTotal | Contado
| Buzon | Avisado | Vaciado
| OyeAgregar | OyeLista | OyeStorage.

#[global] Instance Fase_eq_dec : EqDecision Fase.
Proof. solve_decision. Defined.

(** The phase [s] when [P] holds of the call. *)
Definition si (P : Prop) `{!Decision P} (s : Fase) : option Fase :=
  if decide P then Some s else None.

(** The calls the script makes in each phase, with the keys and the texts
    it passes, and the phase each leads to. *)
Definition transicion (s : Fase) (c : Llamada) : option Fase :=
  match s, c with
  | Inicio, InputGet => Some Tecleado
  | Tecleado, LocalGet key => si (key = STORAGE_KEY) Consultado
  | Consultado, Ahora => Some Fechado
  | Fechado, LocalSet key _ => si (key = STORAGE_KEY) Agregado
  | Agregado, InputSet s => si (s = []) Guardado
  | Inicio, LocalGet key => si (key = STORAGE_KEY) Leido
  | Leido, Alerta mensaje => si (mensaje = AVISO_YA_SELECCIONADA) Rechazado
  | Leido, Pregunta pregunta _ => si (pregunta = PREGUNTA_NOMBRE) Preguntado
  | Preguntado, Alerta mensaje => si (mensaje = AVISO_SIN_NOMBRE) Rechazado
  | Preguntado, LocalSet key _ => si (key = STORAGE_KEY) Reclamado
  | Reclamado, SesionSet key _ => si (key = NOTIFICATION_KEY) Guardado
  | Guardado, LocalGet key => si (key = STORAGE_KEY) Releido
  | (Leido | Releido), ListaClear => Some Pintando
  | Pintando, ListaAppend _ => Some Pintando
  | Pintando, TotalSet _ => Some ConTotal
  | ConTotal, RestantesSet _ => Some Contado
  | Contado, SesionGet key => si (key = NOTIFICATION_KEY) Buzon
  | Buzon, Alerta _ => Some Avisado
  | Avisado, SesionRemove key => si (key = NOTIFICATION_KEY) Vaciado
  | (Buzon | Vaciado), Escuchar OyenteAgregar => Some OyeAgregar
  | OyeAgregar, Escuchar OyenteLista => Some OyeLista
  | OyeLista, Escuchar OyenteStorage => Some OyeStorage
  | _, _ => None
  end.

(** The phase a sequence of calls leads to. *)
Fixpoint avanzar (s : Fase) (tr : list Llamada) : option Fase :=
  match tr with
  | [] => Some s
  | c :: tr' => transicion s c ≫= λ s', avanzar s' tr'
  end.

(** A sequence of calls the protocol allows from [s]. *)
Definition acepta (s : Fase) (tr : list Llamada) : Prop := is_Some (avanzar s tr).

#[global] Instance acepta_dec s tr : Decision (acepta s tr).
Proof. unfold acepta. apply _. Defined.

(** The phases a handler may return in. *)
Definition termina (s : Fase) : bool :=
  match s with
  | Inicio | Tecleado | Rechazado | Buzon | Vaciado | OyeStorage => true
  | _ => false
  end.

(** The calls that write the store, read it, change the page, open the
    prompt. *)
Definition escribe (c : Llamada) : bool :=
  match c with LocalSet _ _ => true | _ => false end.
Definition lee (c : Llamada) : bool :=
  match c with LocalGet _ => true | _ => false end.
Definition pinta (c : Llamada) : bool :=
  match c with
  | ListaClear | ListaAppend _ | TotalSet _ | RestantesSet _ => true
  | _ => false
  end.
Definition pregunta (c : Llamada) : bool :=
  match c with Pregunta _ _ => true | _ => false end.
Definition avisa (c : Llamada) : bool :=
  match c with Alerta _ => true | _ => false end.
Definition anuncia (c : Llamada) : bool :=
  match c with SesionSet _ _ => true | _ => false end.

(** The keys and the texts the script passes. *)
Definition dirigida (c : Llamada) : Prop :=
  match c with
  | LocalGet key | LocalSet key _ => key = STORAGE_KEY
  | SesionGet key | SesionSet key _ | SesionRemove key => key = NOTIFICATION_KEY
  | Pregunta texto _ => texto = PREGUNTA_NOMBRE
  | InputSet s => s = []
  | _ => True
  end.

(** [sigue s p post]: from phase [s], every run of [p] follows the
    protocol; when it returns [a], it is in a phase [s'] with
    [post a s']. *)
Definition sigue {A} (s : Fase) (p : Prog A) (post : A → Fase → Prop) : Prop :=
  siempre p (λ res tr,
    match res with
    | Normal a => ∃ s', avanzar s (llamada_de <$> tr) = Some s' ∧ post a s'
    | Abrupt _ => acepta s (llamada_de <$> tr)
    end).

(** [deja p R]: when a run of [p] returns [a], the calls it made are [tr]
    with [R a tr]. *)
Definition deja {A} (p : Prog A) (R : A → list Suceso → Prop) : Prop :=
  siempre p (λ res tr, match res with Normal a => R a tr | Abrupt _ => True end).

(** An item drawn as free. *)
Definition libre (item : Elemento) : bool :=
  bool_decide (className item = clase_de false).

(** What [obtenerComidas] makes of what [getItem] returned; no value is
    the [SyntaxError] of [JSON.parse]. *)
Definition valor_leido (comidasJson : option jsstring) : option json :=
  match comidasJson with
  | Some text =>
    if truthy text then
      match parse_text text with POk j => Some (crear j) | _ => None end
    else Some (JArray [])
  | None => Some (JArray [])
  end.

(** What [checkNotification] does with what [getItem] returned. *)
Definition drenaje (mensaje : option jsstring) : list Suceso :=
  match mensaje with
  | Some texto =>
    if truthy texto
    then [Hecho (Alerta texto) tt; Hecho (SesionRemove NOTIFICATION_KEY) tt]
    else []
  | None => []
  end.

(** A render that returns, as a function of what the two storage areas
    returned: the read, the list emptied, one [appendChild] for each
    item, the total with the number of items, the remaining with the
    number of them drawn as free, the look into the mailbox and its
    drain. *)
Definition pintura (comidasJson mensaje : option jsstring)
    (items : list Elemento) : list Suceso :=
  [Hecho (LocalGet STORAGE_KEY) comidasJson; Hecho ListaClear tt]
  ++ ((λ item, Hecho (ListaAppend item) tt) <$> items)
  ++ [Hecho (TotalSet (length items)) tt;
      Hecho (RestantesSet (length (filter (λ item, libre item = true) items))) tt;
      Hecho (SesionGet NOTIFICATION_KEY) mensaje]
  ++ drenaje mensaje.

(** A browser whose [sessionStorage] is full: [setItem] on it throws
    [QuotaExceededError]; everything else is the browser of [Browser]. *)
Definition sesion_llena : Plataforma Env := λ c,
  match c return JS (respuesta_de c) with
  | SesionSet _ _ => throw ExnQuota
  | c' => navegador c'
  end.

(** A program that makes no call. *)
Definition sin_llamadas {A} (p : Prog A) : Prop :=
  match p with Llama _ _ => False | _ => True end.

(** ** The logic of runs *)

Section siempre.
Context {A : Type}.
Implicit Types (p : Prog A) (Q : completion A → list Suceso → Prop).

Lemma siempre_mono p Q Q' :
  (∀ res tr, Q res tr → Q' res tr) → siempre p Q → siempre p Q'.
Proof.
  revert Q Q'. induction p as [a|x|c k IH]; intros Q Q' HQ; cbn; [auto..|].
  intros [Hx Hk]. split; [auto|]. intros r. eapply IH, Hk. cbn. auto.
Qed.

(** On every platform and from every state, a run is one of those
    [siempre] speaks of. *)
Lemma siempre_trazar {St} `{!Plataforma St} p Q (s : St) :
  siempre p Q → Q (trazar p s).1.1 (trazar p s).2.
Proof.
  revert Q s. induction p as [a|x|c k IH]; intros Q s; cbn; [done..|].
  intros [Hx Hk]. destruct (atender c s) as [[r|x] s']; [|apply Hx].
  specialize (IH r _ s' (Hk r)). by destruct (trazar (k r) s') as [[res s''] tr].
Qed.

End siempre.

Lemma siempre_ligar {A B} (p : Prog A) (f : A → Prog B) Q :
  siempre p (λ res t1,
    match res with
    | Normal a => siempre (f a) (λ res' t2, Q res' (t1 ++ t2))
    | Abrupt x => Q (Abrupt x) t1
    end) →
  siempre (p ≫= f) Q.
Proof.
  revert Q. induction p as [a|x|c k IH]; intros Q; [done..|].
  intros [Hx Hk]. split; [apply Hx|]. intros r. apply IH.
  eapply siempre_mono, Hk. by intros [a|x] tr.
Qed.

(** ** Following the protocol *)

Lemma avanzar_app s t1 t2 :
  avanzar s (t1 ++ t2) = avanzar s t1 ≫= λ s1, avanzar s1 t2.
Proof.
  revert s. induction t1 as [|c t1 IH]; intros s; [done|].
  cbn. destruct (transicion s c) as [s1|]; [apply IH|done].
Qed.

Lemma acepta_app s t1 t2 :
  acepta s (t1 ++ t2) ↔ ∃ s1, avanzar s t1 = Some s1 ∧ acepta s1 t2.
Proof.
  unfold acepta. rewrite avanzar_app. destruct (avanzar s t1) as [s1|]; cbn.
  - split; [eauto|]. by intros (? & [= <-] & ?).
  - split; [by intros [? ?]|]. by intros (? & ? & ?).
Qed.

Lemma acepta_cons s c tr :
  acepta s (c :: tr) ↔ ∃ s1, transicion s c = Some s1 ∧ acepta s1 tr.
Proof.
  unfold acepta. cbn. destruct (transicion s c) as [s1|]; cbn.
  - split; [eauto|]. by intros (? & [= <-] & ?).
  - split; [by intros [? ?]|]. by intros (? & ? & ?).
Qed.

Section sigue.
Context {A : Type}.
Implicit Types (p : Prog A) (post : A → Fase → Prop) (s : Fase).

Lemma sigue_ret s a post : post a s → sigue s (Ret a) post.
Proof. intros Hpost. exists s. eauto. Qed.

Lemma sigue_lanza s x post : sigue s (Lanza x) post.
Proof. by exists s. Qed.

Lemma sigue_mono s p post post' :
  (∀ a s', post a s' → post' a s') → sigue s p post → sigue s p post'.
Proof.
  intros Hpost. apply siempre_mono. intros [a|x] tr; [|done].
  intros (s' & ? & ?). eauto.
Qed.

(** A call the protocol allows, then the rest from the phase it leads
    to. *)
Lemma sigue_llama s s1 c (k : respuesta_de c → Prog A) post :
  transicion s c = Some s1 → (∀ r, sigue s1 (k r) post) → sigue s (Llama c k) post.
Proof.
  intros Hc Hk. split.
  - intros x. unfold acepta. cbn. by rewrite Hc.
  - intros r. eapply siempre_mono, Hk. intros [a|x] tr; unfold acepta; cbn; by rewrite Hc.
Qed.

End sigue.

Section sigue_ligar.
Context {A B : Type}.
Implicit Types (p : Prog A) (f : A → Prog B) (s : Fase).

Lemma sigue_ligar s p f (mid : A → Fase → Prop) post :
  sigue s p mid → (∀ a s1, mid a s1 → sigue s1 (f a) post) →
  sigue s (p ≫= f) post.
Proof.
  intros Hp Hf. apply siempre_ligar. eapply siempre_mono, Hp.
  intros [a|x] t1; [|done]. intros (s1 & Ht1 & Hmid).
  eapply siempre_mono, Hf, Hmid. intros [b|x] t2.
  - intros (s2 & Ht2 & ?). exists s2. by rewrite fmap_app, avanzar_app, Ht1.
  - intros Ht2. rewrite fmap_app. apply acepta_app. eauto.
Qed.

(** A step without calls leaves the phase as it is. *)
Lemma sigue_puro s p f post :
  sin_llamadas p → (∀ a, sigue s (f a) post) → sigue s (p ≫= f) post.
Proof. destruct p as [a|x|c k]; [intros _ Hf; apply Hf|intros; apply sigue_lanza|done]. Qed.

Lemma sigue_llamar s s1 (c : Llamada) (f : respuesta_de c → Prog B) post :
  transicion s c = Some s1 → (∀ r, sigue s1 (f r) post) →
  sigue s (llamar c ≫= f) post.
Proof. apply sigue_llama. Qed.

End sigue_ligar.

(** One call, alone. *)
Lemma sigue_una s s1 (c : Llamada) (post : respuesta_de c → Fase → Prop) :
  transicion s c = Some s1 → (∀ r, post r s1) → sigue s (llamar c) post.
Proof. intros Hc Hpost. eapply sigue_llama; [done|]. intros r. by apply sigue_ret. Qed.

(** A loop whose body returns in the phase it starts in. *)
Lemma sigue_forEach {A} s (l : list A) (f : A → Prog unit) :
  (∀ a, sigue s (f a) (λ _ s', s' = s)) → sigue s (forEach_p l f) (λ _ s', s' = s).
Proof.
  intros Hf. induction l as [|a l IH]; [by apply sigue_ret|].
  eapply sigue_ligar; [apply Hf|]. by intros _ _ ->.
Qed.

Lemma lanzar_p_puro {A} (r : option A) : sin_llamadas (lanzar_p r).
Proof. by destruct r. Qed.

Section puros.
Context `{!Numeros}.

Lemma metodo_de_array_p_puro comidas : sin_llamadas (metodo_de_array_p comidas).
Proof. by destruct comidas. Qed.

Lemma JSON_parse_p_puro text : sin_llamadas (JSON_parse_p text).
Proof. unfold JSON_parse_p. by destruct (parse_text text). Qed.

End puros.

Create HintDb protocolo discriminated.
#[export] Hint Resolve lanzar_p_puro metodo_de_array_p_puro JSON_parse_p_puro : protocolo.

(** A program without calls, alone. *)
Lemma sigue_sin_llamadas {A} s (p : Prog A) (post : A → Fase → Prop) :
  sin_llamadas p → (∀ a, post a s) → sigue s p post.
Proof.
  destruct p as [a|x|c k]; [|intros; apply sigue_lanza|done].
  intros _ Hp. by apply sigue_ret.
Qed.

(** Follows a program call by call: each call must be one the protocol
    allows in the phase reached. *)
Ltac seguir :=
  repeat first
    [ apply sigue_lanza
    | apply sigue_ret
    | apply sigue_puro; [by auto with protocolo|intros ?]
    | apply sigue_sin_llamadas; [by auto with protocolo|intros ?]
    | eapply sigue_llamar; [reflexivity|intros ?]
    | eapply sigue_una; [reflexivity|intros ?] ].

(** ** The functions of the script *)

Section script.
Context `{!Numeros}.
Implicit Types (s : Fase) (comidas : json) (elementos : list json).

Lemma sigue_obtenerComidas s s1 :
  transicion s (LocalGet STORAGE_KEY) = Some s1 →
  sigue s obtenerComidas_p (λ _ s', s' = s1).
Proof.
  intros Hs. eapply sigue_llamar; [done|].
  intros [text|]; [destruct (truthy text)|]; by seguir.
Qed.

Lemma sigue_guardarComidas s s1 comidas :
  transicion s (LocalSet STORAGE_KEY (JSON_stringify_valor comidas)) = Some s1 →
  sigue s (guardarComidas_p comidas) (λ _ s', s' = s1).
Proof. intros Hs. by eapply sigue_una. Qed.

Lemma sigue_actualizarContador comidas :
  sigue Pintando (actualizarContador_p comidas) (λ _ s', s' = Contado).
Proof. unfold actualizarContador_p. by seguir. Qed.

Lemma sigue_checkNotification :
  sigue Contado checkNotification_p (λ _ s', s' = Buzon ∨ s' = Vaciado).
Proof.
  eapply sigue_llamar; [reflexivity|].
  intros [texto|]; [destruct (truthy texto)|]; seguir; auto.
Qed.

(** [renderizarComidas] reads, clears, appends, counts and looks into the
    mailbox, from the two phases the script calls it in. *)
Lemma sigue_renderizarComidas s s1 :
  transicion s (LocalGet STORAGE_KEY) = Some s1 →
  transicion s1 ListaClear = Some Pintando →
  sigue s renderizarComidas_p (λ _ s', s' = Buzon ∨ s' = Vaciado).
Proof.
  intros Hs Hs1. eapply sigue_ligar; [by apply sigue_obtenerComidas|].
  intros comidas _ ->. eapply sigue_llamar; [done|]. intros _.
  apply sigue_puro; [auto with protocolo|]. intros elementos.
  eapply sigue_ligar; [apply sigue_forEach; intros comida; by seguir|].
  intros _ _ ->. eapply sigue_ligar; [apply sigue_actualizarContador|].
  intros _ _ ->. apply sigue_checkNotification.
Qed.

Lemma termina_tras_render (a : unit) s : s = Buzon ∨ s = Vaciado → termina s.
Proof. by intros [-> | ->]. Qed.

Lemma sigue_agregarComida : sigue Inicio agregarComida_p (λ _ s', termina s').
Proof.
  eapply sigue_llamar; [reflexivity|]. intros valor. cbv zeta.
  destruct (truthy (trim valor)); [|by seguir].
  eapply sigue_ligar; [by apply sigue_obtenerComidas|]. intros comidas _ ->.
  eapply sigue_llamar; [reflexivity|]. intros ahora.
  apply sigue_puro; [auto with protocolo|]. intros elementos.
  eapply sigue_ligar; [by apply (sigue_guardarComidas _ Agregado)|]. intros _ _ ->.
  eapply sigue_llamar; [reflexivity|]. intros _.
  eapply sigue_mono, sigue_renderizarComidas; [apply termina_tras_render|done..].
Qed.

(** Up to the prompt: the store is read; when the meal is not there or is
    taken, the alert. *)
Lemma sigue_seleccionarComida_inicio comidaId :
  sigue Inicio (seleccionarComida_inicio_p comidaId)
    (λ abierto s', s' = match abierto with Some _ => Leido | None => Rechazado end).
Proof.
  eapply sigue_ligar; [by apply sigue_obtenerComidas|]. intros comidas _ ->.
  apply sigue_puro; [auto with protocolo|]. intros elementos.
  apply sigue_puro; [auto with protocolo|]. intros [i|]; [|by seguir].
  apply sigue_puro; [auto with protocolo|]. intros []; by seguir.
Qed.

(** From the answer of the prompt: the write, the notice and the render,
    or the alert. *)
Lemma sigue_seleccionarComida_fin elementos i nombreUsuario :
  sigue Preguntado (seleccionarComida_fin_p elementos i nombreUsuario)
    (λ _ s', termina s').
Proof.
  unfold seleccionarComida_fin_p.
  destruct (nombre_aceptado nombreUsuario) as [nombreLimpio|]; [|by seguir].
  apply sigue_puro; [auto with protocolo|]. intros comida. cbv zeta.
  eapply sigue_ligar; [by apply (sigue_guardarComidas _ Reclamado)|]. intros _ _ ->.
  apply sigue_puro; [auto with protocolo|]. intros nombreComida.
  eapply sigue_llamar; [reflexivity|]. intros _.
  eapply sigue_mono, sigue_renderizarComidas; [apply termina_tras_render|done..].
Qed.

Lemma sigue_seleccionarComida comidaId respuesta :
  sigue Inicio (seleccionarComida_p comidaId respuesta) (λ _ s', termina s').
Proof.
  eapply sigue_ligar; [apply sigue_seleccionarComida_inicio|].
  intros [[elementos i]|] _ ->; [|by seguir].
  eapply sigue_llamar; [reflexivity|]. intros nombreUsuario.
  apply sigue_seleccionarComida_fin.
Qed.

Lemma sigue_onClickLista tagName dataId respuesta :
  sigue Inicio (onClickLista_p tagName dataId respuesta) (λ _ s', termina s').
Proof.
  unfold onClickLista_p. case_decide; [|by seguir].
  destruct dataId as [comidaId|]; [destruct (truthy comidaId)|]; try by seguir.
  apply sigue_seleccionarComida.
Qed.

Lemma sigue_onload : sigue Inicio onload_p (λ _ s', termina s').
Proof.
  eapply sigue_ligar; [by apply (sigue_renderizarComidas Inicio Leido)|].
  intros _ _ [-> | ->]; by seguir.
Qed.

(** Every listener follows the protocol from its first phase and returns
    in one of its last. *)
Lemma sigue_programa ev p :
  programa ev = Some p → sigue Inicio p (λ _ s', termina s').
Proof.
  destruct ev as [|valor|t| |tagName dataId r|]; intros [= <-].
  - apply sigue_onload.
  - apply sigue_agregarComida.
  - apply sigue_onClickLista.
  - eapply sigue_mono, (sigue_renderizarComidas Inicio Leido);
      [apply termina_tras_render|done..].
Qed.

End script.

(** ** The calls of a run that returns *)

Section deja.
Context {A B : Type}.
Implicit Types (p : Prog A) (f : A → Prog B).

Lemma deja_mono p (R R' : A → list Suceso → Prop) :
  (∀ a tr, R a tr → R' a tr) → deja p R → deja p R'.
Proof. intros HR. apply siempre_mono. intros [a|x] tr; [apply HR|done]. Qed.

Lemma deja_ligar p f (R1 : A → list Suceso → Prop) R :
  deja p R1 → (∀ a t1, R1 a t1 → deja (f a) (λ b t2, R b (t1 ++ t2))) →
  deja (p ≫= f) R.
Proof.
  intros Hp Hf. apply siempre_ligar. eapply siempre_mono, Hp.
  intros [a|x] t1; [|done]. intros H1. eapply siempre_mono, Hf, H1. by intros [b|x] t2.
Qed.

Lemma deja_puro p f R : sin_llamadas p → (∀ a, deja (f a) R) → deja (p ≫= f) R.
Proof. destruct p as [a|x|c k]; [intros _ Hf; apply Hf|done..]. Qed.

Lemma deja_llamar (c : Llamada) (k : respuesta_de c → Prog B) R :
  (∀ r, deja (k r) (λ b tr, R b (Hecho c r :: tr))) → deja (llamar c ≫= k) R.
Proof.
  intros Hk. split; [done|]. intros r. eapply siempre_mono, Hk. by intros [b|x] tr.
Qed.

(** On every platform, a run that returns is one of those [deja] speaks
    of. *)
Lemma deja_trazar {St} `{!Plataforma St} p R (s : St) a :
  deja p R → (trazar p s).1.1 = Normal a → R a (trazar p s).2.
Proof.
  intros Hp Ha. pose proof (siempre_trazar p _ s Hp) as Htr. by rewrite Ha in Htr.
Qed.

End deja.

Lemma deja_lanzar {A B} (r : option A) (f : A → Prog B) R :
  (∀ a, r = Some a → deja (f a) R) → deja (lanzar_p r ≫= f) R.
Proof. destruct r as [a|]; [|done]. intros Hf. by apply Hf. Qed.

Lemma deja_una (c : Llamada) (R : respuesta_de c → list Suceso → Prop) :
  (∀ r, R r [Hecho c r]) → deja (llamar c) R.
Proof. intros HR. split; [done|]. intros r. apply HR. Qed.

(** The calls of a render that returns and what they returned. *)
Section render.
Context `{!Numeros}.
Implicit Types (comidas : json) (elementos libres : list json).

Lemma deja_metodo_de_array {B} comidas (f : list json → Prog B) R :
  (∀ elementos, comidas = JArray elementos → deja (f elementos) R) →
  deja (metodo_de_array_p comidas ≫= f) R.
Proof. destruct comidas; try done. intros Hf. by apply Hf. Qed.

Lemma deja_obtenerComidas :
  deja obtenerComidas_p (λ comidas tr, ∃ comidasJson,
    tr = [Hecho (LocalGet STORAGE_KEY) comidasJson]
    ∧ valor_leido comidasJson = Some comidas).
Proof.
  apply deja_llamar. intros [text|]; [|by exists None]. unfold valor_leido.
  destruct (truthy text) eqn:Ht.
  - unfold JSON_parse_p. destruct (parse_text text) eqn:Hp; try done.
    exists (Some text). by rewrite Ht, Hp.
  - exists (Some text). by rewrite Ht.
Qed.

Lemma deja_forEach elementos :
  deja (forEach_p elementos (λ comida,
          item ← lanzar_p (crearItem_js comida); llamar (ListaAppend item)))
    (λ _ tr,
       (pintados elementos).2 = true
       ∧ tr = (λ item, Hecho (ListaAppend item) tt) <$> (pintados elementos).1).
Proof.
  induction elementos as [|comida resto IH]; [done|].
  cbn [forEach_p pintados]. destruct (crearItem_js comida) as [item|]; [|done].
  split; [done|]. intros []. eapply siempre_mono, IH.
  intros [[]|x] tr; [|done]. destruct (pintados resto) as [items todos].
  cbn. by intros [-> ->].
Qed.

Lemma deja_actualizarContador comidas :
  deja (actualizarContador_p comidas)
    (λ _ tr, ∃ elementos libres,
       comidas = JArray elementos ∧ filtrar sin_elegir elementos = Some libres
       ∧ tr = [Hecho (TotalSet (length elementos)) tt;
               Hecho (RestantesSet (length libres)) tt]).
Proof.
  destruct comidas as [| | | |elementos|]; try done. unfold actualizarContador_p.
  cbn. destruct (filtrar sin_elegir elementos) as [libres|] eqn:Hl; [|done].
  split; [done|]. intros []. split; [done|]. intros []. by exists elementos, libres.
Qed.

Lemma deja_checkNotification :
  deja checkNotification_p
    (λ _ tr, ∃ mensaje,
       tr = Hecho (SesionGet NOTIFICATION_KEY) mensaje :: drenaje mensaje).
Proof.
  apply deja_llamar. intros [texto|]; [|by exists None].
  destruct (truthy texto) eqn:Ht.
  - split; [done|]. intros []. split; [done|]. intros [].
    exists (Some texto). cbn. by rewrite Ht.
  - exists (Some texto). cbn. by rewrite Ht.
Qed.

(** The items drawn as free are as many as the elements that pass the
    filter. *)
Lemma libre_clase_de elegida innerHTML :
  libre (mkElemento (clase_de elegida) innerHTML) = negb elegida.
Proof. unfold libre. cbn [className]. by destruct elegida; vm_compute. Qed.

Lemma crearItem_js_libre comida item :
  crearItem_js comida = Some item → sin_elegir comida = Some (libre item).
Proof.
  unfold crearItem_js, sin_elegir.
  destruct (Get key_seleccionadoPor comida) as [quien|]; [|done].
  cbn [mbind option_bind]. cbv zeta.
  intros (info & _ & (nombre & _ & (ident & _ & Hitem)%bind_Some)%bind_Some)%bind_Some.
  apply (inj Some) in Hitem as <-. by rewrite libre_clase_de.
Qed.

Lemma pintados_libres elementos libres :
  (pintados elementos).2 = true → filtrar sin_elegir elementos = Some libres →
  length (pintados elementos).1 = length elementos
  ∧ length (filter (λ item, libre item = true) (pintados elementos).1) = length libres.
Proof.
  revert libres. induction elementos as [|comida resto IH]; intros libres.
  { by intros _ [= <-]. }
  cbn [pintados filtrar]. destruct (crearItem_js comida) as [item|] eqn:Hitem; [|done].
  rewrite (crearItem_js_libre _ _ Hitem). destruct (pintados resto) as [items todos].
  cbn. intros ->. destruct (filtrar sin_elegir resto) as [libres'|]; [|done].
  destruct (IH libres' eq_refl eq_refl) as [Hn Hl]. cbn in Hn, Hl.
  intros [= <-]. split; [by rewrite Hn|].
  destruct (libre item); [rewrite decide_True by done|by rewrite decide_False].
  exact (f_equal S Hl).
Qed.

Lemma deja_renderizarComidas :
  deja renderizarComidas_p
    (λ _ tr, ∃ comidasJson mensaje elementos,
       valor_leido comidasJson = Some (JArray elementos)
       ∧ (pintados elementos).2 = true
       ∧ tr = pintura comidasJson mensaje (pintados elementos).1).
Proof.
  eapply deja_ligar; [apply deja_obtenerComidas|]. intros comidas ? (comidasJson & -> & Hv).
  apply deja_llamar. intros []. apply deja_metodo_de_array. intros elementos ->.
  eapply deja_ligar; [apply deja_forEach|]. intros _ ? [Htodos ->].
  eapply deja_ligar; [apply deja_actualizarContador|].
  intros _ ? (? & libres & [= <-] & Hl & ->).
  eapply deja_mono, deja_checkNotification. intros _ ? (mensaje & ->).
  destruct (pintados_libres _ _ Htodos Hl) as [Hn Hlibres].
  exists comidasJson, mensaje, elementos. split_and!; [done..|].
  unfold pintura. by rewrite Hn, Hlibres.
Qed.

End render.

(** ** The listeners as functions of what the platform returned *)

Section formas.
Context `{!Numeros}.
Implicit Types (tr : list Suceso) (elementos : list json) (comidaId : jsstring).
Implicit Types (comidasJson mensaje respuesta nombreUsuario : option jsstring).

(** The index [seleccionarComida] opens the prompt for: that of the first
    element with the id, when it passes the test of line 106; no result is
    a [TypeError]. *)
Definition hallada comidaId elementos : option (option nat) :=
  comidaIndex ← buscar (tiene_id comidaId) elementos;
  match comidaIndex with
  | Some i =>
    libre ← elementos !! i ≫= sin_elegir;
    Some (if libre : bool then Some i else None)
  | None => Some None
  end.

(** The array a claim writes and the notice it posts. *)
Definition reclamada elementos (i : nat) (nombreLimpio : jsstring)
    : option (list json * jsstring) :=
  comida ← elementos !! i ≫= Set_ key_seleccionadoPor (JString nombreLimpio);
  nombreComida ← Get key_nombre comida ≫= ToString;
  Some (<[i := comida]> elementos, mensaje_aviso nombreLimpio nombreComida).

(** A render that returned. *)
Definition pintada tr : Prop :=
  ∃ comidasJson mensaje elementos,
    valor_leido comidasJson = Some (JArray elementos)
    ∧ (pintados elementos).2 = true
    ∧ tr = pintura comidasJson mensaje (pintados elementos).1.

(** [agregarComida] that returned: nothing but the read of the input when
    it is blank; else the array read with the new meal after it is written
    and rendered. *)
Definition agregada tr : Prop :=
  ∃ valor,
    if truthy (trim valor) then
      ∃ comidasJson elementos ahora r,
        valor_leido comidasJson = Some (JArray elementos) ∧ pintada r
        ∧ let nueva := json_of_comida (nuevaComida ahora (trim valor)) in
          tr = [Hecho InputGet valor;
                Hecho (LocalGet STORAGE_KEY) comidasJson;
                Hecho Ahora ahora;
                Hecho (LocalSet STORAGE_KEY
                         (JSON_stringify_valor (JArray (elementos ++ [nueva])))) tt;
                Hecho (InputSet []) tt] ++ r
    else tr = [Hecho InputGet valor].

(** [seleccionarComida] that returned, from the answer of [prompt] on. *)
Definition respondida elementos (i : nat) nombreUsuario tr : Prop :=
  match nombre_aceptado nombreUsuario with
  | Some nombreLimpio =>
    ∃ elementos' aviso r,
      reclamada elementos i nombreLimpio = Some (elementos', aviso) ∧ pintada r
      ∧ tr = [Hecho (LocalSet STORAGE_KEY (JSON_stringify_valor (JArray elementos'))) tt;
              Hecho (SesionSet NOTIFICATION_KEY aviso) tt] ++ r
  | None => tr = [Hecho (Alerta AVISO_SIN_NOMBRE) tt]
  end.

(** [seleccionarComida] that returned: the alert when the meal is not in
    the array read or is taken; else the prompt, and what follows from its
    answer and the array read before it. *)
Definition seleccionada_en comidaId respuesta tr : Prop :=
  ∃ comidasJson elementos,
    valor_leido comidasJson = Some (JArray elementos)
    ∧ match hallada comidaId elementos with
      | Some (Some i) =>
        ∃ nombreUsuario r,
          respondida elementos i nombreUsuario r
          ∧ tr = [Hecho (LocalGet STORAGE_KEY) comidasJson;
                  Hecho (Pregunta PREGUNTA_NOMBRE respuesta) nombreUsuario] ++ r
      | Some None =>
        tr = [Hecho (LocalGet STORAGE_KEY) comidasJson;
              Hecho (Alerta AVISO_YA_SELECCIONADA) tt]
      | None => False
      end.

(** The click listener of the list that returned. *)
Definition pulsada (tagName : jsstring) (dataId : option jsstring) respuesta tr : Prop :=
  if decide (tagName = lit "BUTTON") then
    match dataId with
    | Some comidaId =>
      if truthy comidaId then seleccionada_en comidaId respuesta tr else tr = []
    | None => tr = []
    end
  else tr = [].

(** [window.onload] that returned. *)
Definition cargada tr : Prop :=
  ∃ r, pintada r
    ∧ tr = r ++ [Hecho (Escuchar OyenteAgregar) tt;
                 Hecho (Escuchar OyenteLista) tt;
                 Hecho (Escuchar OyenteStorage) tt].

(** What has happened when the listener of an event returns. *)
Definition ocurrido (ev : Evento) tr : Prop :=
  match ev with
  | Cargar => cargada tr
  | ClickAgregar => agregada tr
  | ClickLista tagName dataId respuesta => pulsada tagName dataId respuesta tr
  | CambioStorage => pintada tr
  | Escribir _ | Reloj _ => False
  end.

Lemma deja_pintada : deja renderizarComidas_p (λ _ tr, pintada tr).
Proof. apply deja_renderizarComidas. Qed.

Lemma deja_agregarComida : deja agregarComida_p (λ _ tr, agregada tr).
Proof.
  apply deja_llamar. intros valor. cbv zeta. unfold agregada.
  destruct (truthy (trim valor)) eqn:Hn; [|exists valor; by rewrite Hn].
  eapply deja_ligar; [apply deja_obtenerComidas|]. intros comidas ? (comidasJson & -> & Hv).
  apply deja_llamar. intros ahora. apply deja_metodo_de_array. intros elementos ->.
  unfold guardarComidas_p. apply deja_llamar. intros []. apply deja_llamar. intros [].
  eapply deja_mono, deja_pintada. intros [] r Hr. exists valor. rewrite Hn.
  by exists comidasJson, elementos, ahora, r.
Qed.

Lemma deja_seleccionarComida_inicio comidaId :
  deja (seleccionarComida_inicio_p comidaId) (λ abierto tr,
    ∃ comidasJson elementos,
      valor_leido comidasJson = Some (JArray elementos)
      ∧ match abierto with
        | Some (elementos', i) =>
          elementos' = elementos ∧ hallada comidaId elementos = Some (Some i)
          ∧ tr = [Hecho (LocalGet STORAGE_KEY) comidasJson]
        | None =>
          hallada comidaId elementos = Some None
          ∧ tr = [Hecho (LocalGet STORAGE_KEY) comidasJson;
                  Hecho (Alerta AVISO_YA_SELECCIONADA) tt]
        end).
Proof.
  eapply deja_ligar; [apply deja_obtenerComidas|]. intros comidas ? (comidasJson & -> & Hv).
  apply deja_metodo_de_array. intros elementos ->.
  apply deja_lanzar. intros [i|] Hb.
  - apply deja_lanzar. intros [] Hi.
    + exists comidasJson, elementos. unfold hallada. rewrite Hb.
      cbn [mbind option_bind]. by rewrite Hi.
    + split; [done|]. intros []. exists comidasJson, elementos.
      unfold hallada. rewrite Hb. cbn [mbind option_bind]. by rewrite Hi.
  - split; [done|]. intros []. exists comidasJson, elementos.
    unfold hallada. by rewrite Hb.
Qed.

Lemma deja_seleccionarComida_fin elementos i nombreUsuario :
  deja (seleccionarComida_fin_p elementos i nombreUsuario)
    (λ _ tr, respondida elementos i nombreUsuario tr).
Proof.
  unfold seleccionarComida_fin_p, respondida, reclamada.
  destruct (nombre_aceptado nombreUsuario) as [nombreLimpio|];
    [|apply deja_una; by intros []].
  apply deja_lanzar. intros comida Hc. cbv zeta.
  unfold guardarComidas_p. apply deja_llamar. intros [].
  apply deja_lanzar. intros nombreComida Hn.
  apply deja_llamar. intros []. eapply deja_mono, deja_pintada. intros [] r Hr.
  exists (<[i:=comida]> elementos), (mensaje_aviso nombreLimpio nombreComida), r.
  rewrite Hc. cbn [mbind option_bind]. by rewrite Hn.
Qed.

Lemma deja_seleccionarComida comidaId respuesta :
  deja (seleccionarComida_p comidaId respuesta)
    (λ _ tr, seleccionada_en comidaId respuesta tr).
Proof.
  eapply deja_ligar; [apply deja_seleccionarComida_inicio|].
  intros [[? i]|] ? (comidasJson & elementos & Hv & Hab).
  - destruct Hab as (-> & Hi & ->). apply deja_llamar. intros nombreUsuario.
    eapply deja_mono, deja_seleccionarComida_fin. intros [] r Hr.
    exists comidasJson, elementos. rewrite Hi. split; [done|]. by exists nombreUsuario, r.
  - destruct Hab as (Hi & ->). exists comidasJson, elementos. by rewrite Hi.
Qed.

Lemma deja_onClickLista tagName dataId respuesta :
  deja (onClickLista_p tagName dataId respuesta)
    (λ _ tr, pulsada tagName dataId respuesta tr).
Proof.
  unfold onClickLista_p, pulsada. case_decide; [|done].
  destruct dataId as [comidaId|]; [|done].
  destruct (truthy comidaId); [apply deja_seleccionarComida|done].
Qed.

Lemma deja_onload : deja onload_p (λ _ tr, cargada tr).
Proof.
  eapply deja_ligar; [apply deja_pintada|]. intros [] r Hr.
  apply deja_llamar. intros []. apply deja_llamar. intros [].
  apply deja_una. intros []. by exists r.
Qed.

(** What has happened when a listener returns. *)
Lemma deja_programa ev p : programa ev = Some p → deja p (λ _ tr, ocurrido ev tr).
Proof.
  destruct ev as [|valor|t| |tagName dataId r|]; intros [= <-].
  - apply deja_onload.
  - apply deja_agregarComida.
  - apply deja_onClickLista.
  - apply deja_pintada.
Qed.

End formas.

(** ** Paths of the protocol *)

(** Case analysis on a step of the protocol. *)
Ltac por_fases :=
  let s := fresh "s" in let c := fresh "c" in
  intros s c ?; destruct s, c as [?|? ?|?|? ?|?|?|? ?| | |?| |?|?|?|[]];
  cbn; unfold si; try case_decide; intros; simplify_eq; cbn in *; try done; auto.

Section caminos.
Context (I : Fase → bool) (X Y : Llamada → bool).

(** Calls that no phase of [I] makes are made by no path from [I], when
    [I] is closed under the steps. *)
Lemma nunca_desde :
  (∀ s c s', I s → transicion s c = Some s' → X c = false ∧ I s') →
  ∀ tr s, I s → acepta s tr → Forall (λ c, X c = false) tr.
Proof.
  intros HI. induction tr as [|c tr IH]; intros s Hs; [done|].
  intros (s1 & Hc & Htr)%acepta_cons. destruct (HI s c s1 Hs Hc). eauto.
Qed.

(** From [I], a call of [X] comes after a call of [Y], when the phases of
    [I] make no call of [X] and leave [I] by calls of [Y] only. *)
Lemma antes_hay :
  (∀ s c s', I s → transicion s c = Some s' →
             X c = false ∧ (Y c = true ∨ I s')) →
  ∀ t1 x t2 s, I s → acepta s (t1 ++ x :: t2) → X x = true →
  Exists (λ c, Y c = true) t1.
Proof.
  intros HI. induction t1 as [|c t1 IH]; intros x t2 s Hs.
  - intros (s1 & Hx & _)%acepta_cons Hxx. destruct (HI s x s1 Hs Hx). congruence.
  - intros (s1 & Hc & Htr)%acepta_cons Hxx.
    destruct (HI s c s1 Hs Hc) as [_ [?|?]]; [by left|]. right. eauto.
Qed.

End caminos.

(** Before [X]: from [I], until a call of [X] no call of [Z] is made, when
    the steps that leave [I] lead to phases [K] that never make a call of
    [X]. *)
Lemma hasta_entonces (I K : Fase → bool) (X Z : Llamada → bool) :
  (∀ s c s', I s → transicion s c = Some s' → (Z c = false ∧ I s') ∨ K s') →
  (∀ tr s, K s → acepta s tr → Forall (λ c, X c = false) tr) →
  ∀ t1 x t2 s, I s → acepta s (t1 ++ x :: t2) → X x = true →
  Forall (λ c, Z c = false) t1.
Proof.
  intros HI HK. induction t1 as [|c t1 IH]; intros x t2 s Hs; [done|].
  intros (s1 & Hc & Htr)%acepta_cons Hx.
  destruct (HI s c s1 Hs Hc) as [[? ?]|Hs1]; [eauto|].
  apply HK, Forall_app in Htr as [_ [? _]%Forall_cons]; [congruence|done].
Qed.

(** The phases in which the store is not written any more. *)
Definition ya_no_escribe (s : Fase) : bool :=
  match s with
  | Inicio | Tecleado | Consultado | Fechado | Leido | Preguntado => false
  | _ => true
  end.

(** The phases in which the store has not been read. *)
Definition sin_leer (s : Fase) : bool :=
  match s with Inicio | Tecleado => true | _ => false end.

(** The phases of a handler that has alerted. *)
Definition avisado (s : Fase) : bool :=
  match s with
  | Rechazado | Avisado | Vaciado | OyeAgregar | OyeLista | OyeStorage => true
  | _ => false
  end.

(** The phases before the notice of a claim can have been posted. *)
Definition sin_anunciar (s : Fase) : bool :=
  match s with
  | Inicio | Tecleado | Consultado | Fechado | Leido | Preguntado | Reclamado => true
  | _ => false
  end.

(** The phases between the write and the second read. *)
Definition por_releer (s : Fase) : bool :=
  match s with Agregado | Reclamado | Guardado => true | _ => false end.

(** What a handler does not do once it has alerted. *)
Definition cambia (c : Llamada) : bool := escribe c || pinta c || anuncia c.

Lemma transicion_escribe s c s' :
  transicion s c = Some s' → escribe c → ya_no_escribe s'.
Proof. revert s c s'. por_fases. Qed.

Lemma transicion_escribe_por_releer s c s' :
  transicion s c = Some s' → escribe c → por_releer s'.
Proof. revert s c s'. por_fases. Qed.

Lemma transicion_avisa s c s' : transicion s c = Some s' → avisa c → avisado s'.
Proof. revert s c s'. por_fases. Qed.

Lemma transicion_pregunta s c s' :
  transicion s c = Some s' → pregunta c → s' = Preguntado.
Proof. revert s c s'. por_fases. Qed.

Lemma transicion_preguntado c s' : transicion Preguntado c = Some s' → ya_no_escribe s'.
Proof. destruct c; cbn; unfold si; try case_decide; by intros [= <-]. Qed.

Lemma transicion_dirigida s c s' : transicion s c = Some s' → dirigida c.
Proof. revert s c s'. por_fases. Qed.

(** After the write, no other. *)
Lemma ya_no_escribe_nunca tr s :
  ya_no_escribe s → acepta s tr → Forall (λ c, escribe c = false) tr.
Proof. revert tr s. apply nunca_desde. por_fases. Qed.

(** After an alert nothing is written, painted or announced. *)
Lemma avisado_no_cambia tr s :
  avisado s → acepta s tr → Forall (λ c, cambia c = false) tr.
Proof. revert tr s. apply nunca_desde. por_fases. Qed.

(** Before the write the store is read and the page is not touched; after
    it the store is not written again, and it is read again before the page
    is touched. *)
Lemma acepta_escritura t1 w t2 :
  acepta Inicio (t1 ++ w :: t2) → escribe w →
  Exists (λ c, lee c = true) t1
  ∧ Forall (λ c, pinta c || escribe c = false) t1
  ∧ Forall (λ c, escribe c = false) t2
  ∧ ∀ t2' x t3, t2 = t2' ++ x :: t3 → pinta x → Exists (λ c, lee c = true) t2'.
Proof.
  intros Htr Hw. split_and!.
  - eapply (antes_hay sin_leer escribe lee) with (s := Inicio);
      [por_fases|done|exact Htr|by destruct w].
  - eapply (hasta_entonces (λ s, negb (ya_no_escribe s)) ya_no_escribe escribe)
      with (s := Inicio);
      [por_fases|apply ya_no_escribe_nunca|done|exact Htr|by destruct w].
  - apply acepta_app in Htr as (s1 & _ & (s2 & Hs2 & Ht2)%acepta_cons).
    eapply ya_no_escribe_nunca, Ht2. by eapply transicion_escribe.
  - intros t2' x t3 -> Hx.
    apply acepta_app in Htr as (s1 & _ & (s2 & Hs2 & Ht2)%acepta_cons).
    eapply (antes_hay por_releer pinta lee) with (s := s2);
      [por_fases|by eapply transicion_escribe_por_releer|exact Ht2|by destruct x].
Qed.

(** The prompt comes after the read, and the call after the prompt is the
    write when there is one. *)
Lemma acepta_pregunta t1 q t2 :
  acepta Inicio (t1 ++ q :: t2) → pregunta q →
  Exists (λ c, lee c = true) t1
  ∧ ∀ t2' w t3, t2 = t2' ++ w :: t3 → escribe w → t2' = [].
Proof.
  intros Htr Hq. split.
  - eapply (antes_hay sin_leer pregunta lee) with (s := Inicio);
      [por_fases|done|exact Htr|by destruct q].
  - intros [|c t2'] w t3 -> Hw; [done|]. exfalso.
    apply acepta_app in Htr as (s1 & _ & (s2 & Hs2 & Ht2)%acepta_cons).
    apply transicion_pregunta in Hs2 as ->; [|done].
    apply acepta_cons in Ht2 as (s3 & Hs3%transicion_preguntado & Ht3).
    eapply ya_no_escribe_nunca, Forall_app in Ht3 as [_ [? _]%Forall_cons]; [|done].
    by destruct w.
Qed.

(** After an alert the handler changes nothing. *)
Lemma acepta_aviso t1 a t2 :
  acepta Inicio (t1 ++ a :: t2) → avisa a → Forall (λ c, cambia c = false) t2.
Proof.
  intros (s1 & _ & (s2 & Hs2 & Ht2)%acepta_cons)%acepta_app Ha.
  eapply avisado_no_cambia, Ht2. by eapply transicion_avisa.
Qed.

Lemma transicion_anuncia s c s' :
  transicion s c = Some s' → anuncia c → s' = Guardado.
Proof. revert s c s'. por_fases. Qed.

(** Once the notice can no longer be posted, it is not. *)
Lemma anunciado_no_anuncia tr s :
  negb (sin_anunciar s) → acepta s tr → Forall (λ c, anuncia c = false) tr.
Proof. revert tr s. apply nunca_desde. por_fases. Qed.

(** The post of the notice leads to the phase before the second read; the
    store has been written before it and the page has not been touched. *)
Lemma acepta_anuncio t1 c :
  acepta Inicio (t1 ++ [c]) → anuncia c →
  avanzar Inicio (t1 ++ [c]) = Some Guardado
  ∧ Exists (λ c, escribe c = true) t1
  ∧ Forall (λ c, pinta c = false) t1.
Proof.
  intros Htr Hc. split_and!.
  - apply acepta_app in Htr as (s1 & Hs1 & (s2 & Hs2 & _)%acepta_cons).
    rewrite avanzar_app, Hs1. cbn. rewrite Hs2.
    by rewrite (transicion_anuncia _ _ _ Hs2 Hc).
  - eapply (antes_hay (λ s, bool_decide (s ≠ Reclamado)) anuncia escribe)
      with (s := Inicio); [por_fases|done|exact Htr|by destruct c].
  - eapply (hasta_entonces sin_anunciar (λ s, negb (sin_anunciar s)) anuncia)
      with (s := Inicio);
      [por_fases|apply anunciado_no_anuncia|done|exact Htr|by destruct c].
Qed.

(** The keys and the texts of an accepted sequence are those of the
    script. *)
Lemma acepta_dirigida s tr : acepta s tr → Forall dirigida tr.
Proof.
  revert s. induction tr as [|c tr IH]; intros s; [done|].
  intros (s1 & Hc%transicion_dirigida & Htr)%acepta_cons. eauto.
Qed.

(** ** Properties *)

Section properties.
Context `{!Numeros} {St : Type} `{!Plataforma St}.
Implicit Types (ev : Evento) (p : Prog unit) (s : St) (c : Llamada).

(** The calls of a listener are a path of the protocol. *)
Lemma programa_acepta ev p s : programa ev = Some p → acepta Inicio (traza p s).
Proof.
  intros Hp. pose proof (siempre_trazar p _ s (sigue_programa ev p Hp)) as Htr.
  unfold traza. destruct (trazar p s).1.1; [|done].
  destruct Htr as (fase & Hfase & _). by exists fase.
Qed.

(** C5.  On every platform and from every state of it, whatever the calls
    return and wherever one throws, the calls a listener of the script
    makes are a path of the protocol from its first phase, with the keys
    and the texts of the script; when the listener returns, it returns in
    one of the last phases. *)
Theorem trazas_en_protocolo ev p s :
  programa ev = Some p →
  Forall dirigida (traza p s)
  ∧ match (trazar p s).1.1 with
    | Normal _ => ∃ fase, avanzar Inicio (traza p s) = Some fase ∧ termina fase
    | Abrupt _ => acepta Inicio (traza p s)
    end.
Proof.
  intros Hp. split; [by eapply acepta_dirigida, programa_acepta|].
  apply (siempre_trazar p _ s (sigue_programa ev p Hp)).
Qed.

(** C6.  A listener writes the store at most once, after it has read it
    and before it touches the page, and the page shows what the store
    holds, not what the listener wrote: on every platform, before a
    [localStorage.setItem] there is a [getItem] and neither a change of
    the page nor another [setItem]; after it there is no other [setItem],
    and there is a second [getItem] before the first change of the page. *)
Theorem escribe_una_vez_y_antes_de_pintar ev p s t1 w t2 :
  programa ev = Some p → traza p s = t1 ++ w :: t2 → escribe w →
  Exists (λ c, lee c = true) t1
  ∧ Forall (λ c, pinta c || escribe c = false) t1
  ∧ Forall (λ c, escribe c = false) t2
  ∧ ∀ t2' x t3, t2 = t2' ++ x :: t3 → pinta x → Exists (λ c, lee c = true) t2'.
Proof.
  intros Hp Htr. apply acepta_escritura. rewrite <-Htr. by eapply programa_acepta.
Qed.

(** C24.  The list a claim writes is the list read before the dialog
    opened: on every platform, [prompt] is called after the [getItem], and
    when a [setItem] follows it, it is the very next call, with no read in
    between. *)
Theorem escribe_lo_leido_antes_de_preguntar ev p s t1 q t2 :
  programa ev = Some p → traza p s = t1 ++ q :: t2 → pregunta q →
  Exists (λ c, lee c = true) t1
  ∧ ∀ t2' w t3, t2 = t2' ++ w :: t3 → escribe w → t2' = [].
Proof.
  intros Hp Htr. apply acepta_pregunta. rewrite <-Htr. by eapply programa_acepta.
Qed.

(** C13.  Every listener that returns is a function of what the platform
    returned, on every platform: a render makes the calls of [pintura]
    (the read, the list emptied, one [appendChild] for each element of the
    array read, the counters with the number of items appended and of
    those drawn as free, the mailbox and its drain); an add reads the
    input and, unless it is blank, writes the array it read with the new
    meal after it and renders; a claim alerts when the meal is not in the
    array it read or is taken, else asks, and from the answer alerts or
    writes that array with the claim set, posts the notice and renders;
    [window.onload] renders and registers the three listeners.  Nothing
    else is called, and in this order. *)
Theorem traza_de_cada_oyente ev p s :
  programa ev = Some p → (trazar p s).1.1 = Normal tt →
  ocurrido ev (trazar p s).2.
Proof. intros Hp Hr. exact (deja_trazar _ _ s tt (deja_programa ev p Hp) Hr). Qed.

(** C32.  A claim whose notice cannot be posted is stored and not shown:
    on every platform, a run of a listener whose last call is
    [sessionStorage.setItem] has thrown there; by then it has written the
    store and has not touched the page. *)
Theorem aviso_fallido ev p s t1 c :
  programa ev = Some p → traza p s = t1 ++ [c] → anuncia c →
  (∃ x, (trazar p s).1.1 = Abrupt x)
  ∧ Exists (λ c, escribe c = true) t1
  ∧ Forall (λ c, pinta c = false) t1.
Proof.
  intros Hp Htr Hc. pose proof (programa_acepta ev p s Hp) as Hacepta.
  rewrite Htr in Hacepta. destruct (acepta_anuncio t1 c Hacepta Hc) as (Hfin & ? & ?).
  split_and!; [|done..].
  pose proof (siempre_trazar p _ s (sigue_programa ev p Hp)) as Hrun.
  destruct (trazar p s).1.1 as [[]|x]; [|by exists x].
  destruct Hrun as (fase & Hfase & Htermina). unfold traza in Htr.
  rewrite Htr, Hfin in Hfase. by injection Hfase as <-.
Qed.

(** C25.  An alert is the last word of a listener: on every platform, after
    a call of [alert] (the rejection of a claim, the missing name, or the
    notice a render shows) a listener does not write the store, does not
    change the page and posts no notice; what it still does is remove the
    notice it has shown and, in [window.onload], register the listeners. *)
Theorem tras_avisar_no_cambia ev p s t1 a t2 :
  programa ev = Some p → traza p s = t1 ++ a :: t2 → avisa a →
  Forall (λ c, cambia c = false) t2.
Proof.
  intros Hp Htr. apply (acepta_aviso t1). rewrite <-Htr. by eapply programa_acepta.
Qed.

End properties.

(** ** Witnesses *)

Section witnesses.
#[local] Existing Instance numeros_enteros.

(** A tab that has loaded the page and added one meal. *)
Definition con_tacos : Env :=
  ocurre html0 ClickAgregar
    (ocurre html0 (Escribir (lit "Tacos")) (ocurre html0 Cargar env0)).

(** Ana claims the meal. *)
Definition click_de_ana : Evento :=
  ClickLista (lit "BUTTON") (Some (lit "1700000000000")) (Some (lit "Ana")).
Definition reclamo : Prog unit :=
  onClickLista_p (lit "BUTTON") (Some (lit "1700000000000")) (Some (lit "Ana")).

(** Nobody answers the prompt. *)
Definition sin_respuesta : Prog unit :=
  onClickLista_p (lit "BUTTON") (Some (lit "1700000000000")) None.

Lemma trazas_en_protocolo_witness :
  Forall dirigida (traza reclamo con_tacos)
  ∧ match (trazar reclamo con_tacos).1.1 with
    | Normal _ =>
      ∃ fase, avanzar Inicio (traza reclamo con_tacos) = Some fase ∧ termina fase
    | Abrupt _ => acepta Inicio (traza reclamo con_tacos)
    end.
Proof. exact (trazas_en_protocolo click_de_ana reclamo con_tacos eq_refl). Defined.

Lemma escribe_una_vez_y_antes_de_pintar_witness :
  let antes := [LocalGet STORAGE_KEY; Pregunta PREGUNTA_NOMBRE (Some (lit "Ana"))] in
  let despues := drop 3 (traza reclamo con_tacos) in
  Exists (λ c, lee c = true) antes
  ∧ Forall (λ c, pinta c || escribe c = false) antes
  ∧ Forall (λ c, escribe c = false) despues
  ∧ Exists (λ c, lee c = true) (take 2 despues).
Proof.
  destruct (escribe_una_vez_y_antes_de_pintar click_de_ana reclamo con_tacos
              [LocalGet STORAGE_KEY; Pregunta PREGUNTA_NOMBRE (Some (lit "Ana"))]
              (default Ahora (traza reclamo con_tacos !! 2))
              (drop 3 (traza reclamo con_tacos)))
    as (Hlee & Hantes & Hdespues & Hrelee); [done|by vm_compute|by vm_compute|].
  split_and!; [done..|].
  apply (Hrelee _ ListaClear (drop 6 (traza reclamo con_tacos))); [by vm_compute|done].
Defined.

Lemma escribe_lo_leido_antes_de_preguntar_witness :
  Exists (λ c, lee c = true) [LocalGet STORAGE_KEY]
  ∧ take 0 (drop 2 (traza reclamo con_tacos)) = [].
Proof.
  destruct (escribe_lo_leido_antes_de_preguntar click_de_ana reclamo con_tacos
              [LocalGet STORAGE_KEY] (Pregunta PREGUNTA_NOMBRE (Some (lit "Ana")))
              (drop 2 (traza reclamo con_tacos)))
    as [Hlee Hsigue]; [done|by vm_compute|done|].
  split; [done|].
  apply (Hsigue _ (default Ahora (traza reclamo con_tacos !! 2))
           (drop 3 (traza reclamo con_tacos))); by vm_compute.
Defined.

Lemma traza_de_cada_oyente_witness :
  ocurrido click_de_ana (trazar reclamo con_tacos).2.
Proof.
  apply (traza_de_cada_oyente click_de_ana reclamo con_tacos); [done|by vm_compute].
Defined.

Lemma aviso_fallido_witness :
  let ana := mkComida (lit "1700000000000") (lit "Tacos") (Some (lit "Ana")) in
  let antes := [LocalGet STORAGE_KEY;
                Pregunta PREGUNTA_NOMBRE (Some (lit "Ana"));
                LocalSet STORAGE_KEY (stringify [ana])] in
  (∃ x, (@trazar Env sesion_llena unit reclamo con_tacos).1.1 = Abrupt x)
  ∧ Exists (λ c, escribe c = true) antes
  ∧ Forall (λ c, pinta c = false) antes.
Proof.
  apply (aviso_fallido (Plataforma0 := sesion_llena) click_de_ana reclamo con_tacos _
           (SesionSet NOTIFICATION_KEY (mensaje_aviso (lit "Ana") (lit "Tacos"))));
    [done|by vm_compute|done].
Defined.

Lemma tras_avisar_no_cambia_witness :
  Forall (λ c, cambia c = false) [SesionRemove NOTIFICATION_KEY].
Proof.
  apply (tras_avisar_no_cambia click_de_ana reclamo con_tacos
           (take 10 (traza reclamo con_tacos))
           (Alerta (mensaje_aviso (lit "Ana") (lit "Tacos")))); [done|by vm_compute|done].
Defined.

(** A claim on the browser: the read, the prompt, the write, the notice,
    and the render of what the store then holds, with the notice drained
    by that same render. *)
Example traza_de_un_reclamo :
  let ana := mkComida (lit "1700000000000") (lit "Tacos") (Some (lit "Ana")) in
  let aviso := mensaje_aviso (lit "Ana") (lit "Tacos") in
  let e := ocurre html0 (Escribir (lit "x")) con_tacos in
  trazar reclamo e
  = (Normal tt, ocurre html0 click_de_ana e,
     [Hecho (LocalGet STORAGE_KEY) (Some (stringify [tacos]));
      Hecho (Pregunta PREGUNTA_NOMBRE (Some (lit "Ana"))) (Some (lit "Ana"));
      Hecho (LocalSet STORAGE_KEY (stringify [ana])) tt;
      Hecho (SesionSet NOTIFICATION_KEY aviso) tt]
     ++ pintura (Some (stringify [ana])) (Some aviso) [crearItem ana]).
Proof. by vm_compute. Qed.

(** When the notice cannot be posted the claim has been stored and the
    handler stops there: the page of the tab still offers the meal, and
    nobody is told. *)
Example reclamo_con_sesion_llena :
  let ana := mkComida (lit "1700000000000") (lit "Tacos") (Some (lit "Ana")) in
  let aviso := mensaje_aviso (lit "Ana") (lit "Tacos") in
  let '(res, e, tr) := @trazar Env sesion_llena unit reclamo con_tacos in
  res = Abrupt ExnQuota
  ∧ localStorage e !! STORAGE_KEY = Some (stringify [ana])
  ∧ sessionStorage e = sessionStorage con_tacos
  ∧ dom e = dom con_tacos
  ∧ lista_comidas (dom e) = [crearItem tacos]
  ∧ tr = [Hecho (LocalGet STORAGE_KEY) (Some (stringify [tacos]));
          Hecho (Pregunta PREGUNTA_NOMBRE (Some (lit "Ana"))) (Some (lit "Ana"));
          Hecho (LocalSet STORAGE_KEY (stringify [ana])) tt;
          Fallo (SesionSet NOTIFICATION_KEY aviso) ExnQuota].
Proof. by vm_compute. Qed.

End witnesses.
